(* ===== verification/_CoqProject ===== *)
-Q . S2P
Prelude.v
Symbols.v
Mem.v
Page.v
PageTree.v
PageOps.v
PageUser.v
PageClone.v
Hart.v
Devices.v
KernelMap.v
Spinlock.v
Proc.v
Sched.v
SchedLive.v
Sleeplock.v
Virtio.v
Disk.v
Uart.v
Print.v
Walk.v
Intr.v
FsFile.v
DiskFile.v
Exec.v
Syscall.v
SyscallIo.v
FdTable.v
Fork.v
InitProc.v
Trap.v
Asm.v
Vectors.v
User.v
Start.v
Boot.v
