(* ===== verification/Prelude.v ===== *)
(** * core-os-riscv: a verification development of the kernel

    The program is a small multi-hart RISC-V kernel (src/kernel/src): a page allocator,
    Sv39 page tables, spin locks and sleep locks, a process pool with a scheduler on every
    hart, a virt-io disk driver, a read-only file system, an ELF loader, system calls,
    traps, and the drivers of UART, interrupt controller and timer.  This library models
    the Rust code as executable functions and, where harts interleave, as step relations
    over such functions.

    ** Conventions

    A function that can panic returns a [result]: the error says which panic, failed check
    or failed unwrap stopped it.  The kernel is built in debug mode, so arithmetic is
    checked: [uadd], [usub], [umul] fail on overflow, and [as_u], [as_i] are the casts.
    Indexing is [aget] and [aset], a [for] loop is [for_range], a loop left early
    [ctl_range].  A [Box] or a raw pointer is its address; [kmem] is the allocator with the
    frames (page tables and pages) by physical address.

    ** Files and sources

    - Symbols: symbols.rs, symbols/gen.rs and what kernel.ld promises of them.
    - Mem: mem.rs, the allocator.  [alloc_rep] relates its page array to a map of blocks;
      the class [GlobalAllocLaws] is what the rest of the kernel uses of it.
    - Page, PageTree, PageOps, PageUser, PageClone: page.rs.  Page has the code, PageTree
      well-formed trees and the abstract mapping [page_map], the others the theorems on
      mapping and lookup, on unmap_user, and on clone.  Walk: the printing of a table.
    - Hart, Spinlock: arch.rs, process/cpu.rs, spinlock.rs.  Spinlock runs lock and unlock
      one memory access at a time on all harts.
    - Devices: plic.rs, clint.rs and the timer handler of asm/kernelvec.S, over the class
      [Mmio] of register accesses.  Uart: uart.rs, file/device.rs, print.rs, over the class
      [Ns16550].  Print: the lines of info!, warn! and the panic handler, arch::time.
      Intr: intr.rs and process::debug, over the class [Board].
    - KernelMap: the mappings of mem::init, and mem::hartinit.
    - Proc, Sched, SchedLive: process.rs and process/*.rs.  Proc has the sections that run
      under the lock of the pool, Sched interleaves them over the harts, SchedLive has the
      theorems on executions.  Sleeplock: sleeplock.rs over Sched.
    - Virtio: virtio.rs, as functions on the data under the lock of the driver.  Disk: its
      callers, the device and the handler as interleaved steps, and the atomic disk that
      specifies them.  FsFile: file/fsfile.rs, over the class [BlockDevice]; DiskFile: the
      driver as an instance of that class.
    - Exec: elf.rs and the construction of processes, exec and fork's address space.
    - Syscall, SyscallIo, FdTable, Fork: syscall.rs, syscall/*.rs, file.rs, test.rs, and the
      whole of fork.  InitProc: the result of init_proc.
    - Trap: trap.rs and the functions of asm/trampoline.S.
    - Asm: the files of asm/ and src/user/src/initcode.S as lists of instructions, and a
      machine that runs them.  Vectors: what uservec, userret, kernelvec, timervec and
      __swtch do.  Start: _start of asm/boot.S, and initcode in the first process.
    - User: the library src/user/src and calls followed from there through the kernel.
      Boot: start.rs.

    ** What is shown

    - Memory: allocation is first fit on the abstract heap and the inverse of
      deallocation; map_addr is the update of one key of the abstract mapping; unmap_user
      drops and clone copies exactly the user half; mem::init maps exactly the kernel's
      address space.
    - Locks: mutual exclusion of the spin lock and of the sleep lock; nesting of the
      interrupt lock.
    - Scheduling, in executions of [race_free] steps: a process is in one place; no wakeup is
      lost; a runnable process waits at most one round; which faults can occur.  The code has
      two races that [race_free] leaves out, each shown to break the kernel: fork's unreserved
      pid ([fork_pid_race]), and a timer interrupt inside the switch of [scheduler]
      ([swtch_interrupted]).
    - Disk: with a device that completes its requests with status 0, concurrent calls of the
      driver refine an atomic disk, do not panic before the 16-bit counter of the avail ring
      is used up, complete, and are woken when they can go on; a request completed with
      another status stops the kernel in the handler.  The file system on top reads the
      sectors of its files.
    - Devices: every claimed interrupt is completed; console output and input keep order;
      the controller delivers after boot; the timer has a period without drift.
    - Programs and calls: the ELF loader, exec, fork, the file table with its reference
      counts, reads and writes through user pointers, and whole calls of the user library.
    - Output: a log line carries the time; a printed page table lists its mapping.
    - Traps: an interrupt is transparent to user code, and to kernel code unless a second
      interrupt comes between the last two register writes of a kerneltrap that yielded
      ([kerneltrap_nested_lost]); a system call resumes behind its instruction with its
      result, on whichever hart the process goes on.
    - Assembly: the instructions of the trampoline implement the functions of the trap model;
      kernelvec hands back every register but tp; a context switch resumes a thread with the
      registers and the stack it was left with; _start clears .bss and ends, also when another
      hart has written there; the first user code asks for /init.
    - Boot: the order of initialisation between harts, the state it leaves for the
      schedulers, and that no statement of it stops the kernel, while harts that are done
      already run processes.
    Some theorems pin down what the code does where that differs from what it means to do:
    the two races of the scheduler, the nested interrupt, the sleep lock's waiter that is never
    woken, the last partial block of a program, a segment over the trapframe, the last byte of
    a page in arg_ptr, set_priority's registers.

    ** Bounds

    A loop whose end depends on data has a bound in the model, and theorems that the bound
    is enough: Allocator::debug takes MAX_PAGE rounds (each moves forward), unmap_user,
    drop and clone three levels, free_chain 9 steps (a chain visits each of 8 descriptors
    once), virtiointr 7 rounds (the ring has 8 slots), a walk of a page table
    three levels, a number 64 digits (it has 64 bits), exec's read loop 128 blocks (its
    buffer has 128), the name of a file the length of its block, a wait of the UART more
    polls than the device needs ([thr_bound]), the read test the blocks of the file.  A routine
    in assembly runs for its number of instructions, _start for ten and three per word of .bss.

    ** Not modelled

    The user programs of src/user/src/bin, short users of the library (the start of init is
    followed through the kernel by [init_opens_console]); formatting of arguments other than
    unsigned numbers; the text of log lines in the models
    of other components (log output changes nothing they read); the compiled code between the
    routines of asm/, which enters as the Rust functions with the calling convention (the
    record [returned] of Vectors); the encoding of instructions, and so the bytes of
    initcode.S, an argument of init_proc; floating-point registers; the routines that dump
    memory and the timer, and zero_volatile, which nothing calls.  jump.rs, which nothing calls
    either, sets ra and then calls an empty function: where that returns to is up to the
    compiler, so that no model of the source is faithful.
    The devices themselves are not part of the program: what the drivers rely on is stated by
    the classes above and by [virtio_step] of Disk, and the concrete chips here serve as
    witnesses.  System calls are sequential functions: [sys_fork] takes its steps on the pool
    without other harts between them, and Sched interleaves those steps.  Sched takes a kernel
    interrupt to return to its instruction, as Vectors shows it does but for the nested one.
    Boot starts when every hart has left _start: a hart that clears .bss late is left out. *)

From stdpp Require Export base list gmap strings numbers.
From stdpp Require Import options.
From Stdlib Require Import ZArith Lia.

#[global] Open Scope Z_scope.

(** ** Faults: every way a kernel path can stop

    The kernel is built by [make] with [TYPE=debug], so arithmetic overflow and
    out-of-range indexing panic.  [BadAccess] stands for an access the Rust code
    makes through a raw pointer to memory that is not of the expected shape.
    [NoFuel] is no behaviour of the program: it is the bound of a model of a loop,
    and the theorems on that loop show it is not reached. *)
Inductive fault :=
  | Panic (msg : string)
  | Overflow
  | IndexOOB
  | UnwrapNone
  | Unreachable
  | Unimplemented
  | BadAccess
  | NoFuel.

#[global] Instance fault_eq_dec : EqDecision fault.
Proof. solve_decision. Defined.

(** ** The result monad: a computation returns or the kernel stops *)
Inductive result (A : Type) :=
  | Ok (a : A)
  | Err (e : fault).
Arguments Ok {A} a.
Arguments Err {A} e.

#[global] Instance result_eq_dec {A} `{EqDecision A} : EqDecision (result A).
Proof. solve_decision. Defined.
#[global] Instance result_ret : MRet result := @Ok.
#[global] Instance result_bind : MBind result := λ A B f r,
  match r with Ok a => f a | Err e => Err e end.
#[global] Instance result_fmap : FMap result := λ A B f r,
  match r with Ok a => Ok (f a) | Err e => Err e end.

(** [unwrap] of an [Option] *)
Definition unwrap {A} (o : option A) : result A :=
  match o with Some a => Ok a | None => Err UnwrapNone end.

(** A guard: [if c { panic!(..) }] *)
Definition panic_if (c : bool) (e : fault) : result unit :=
  if c then Err e else Ok tt.

Lemma bind_Ok {A B} (r : result A) (f : A → result B) (b : B) :
  (r ≫= f) = Ok b ↔ ∃ a, r = Ok a ∧ f a = Ok b.
Proof. destruct r; naive_solver. Qed.

Lemma bind_Ok_l {A B} (a : A) (f : A → result B) : (Ok a ≫= f) = f a.
Proof. done. Qed.

Lemma bind_Err_l {A B} e (f : A → result B) : (Err e ≫= f) = Err e.
Proof. done. Qed.

Lemma panic_if_Ok c e : panic_if c e = Ok tt ↔ c = false.
Proof. destruct c; naive_solver. Qed.

Lemma unwrap_Ok {A} (o : option A) a : unwrap o = Ok a ↔ o = Some a.
Proof. destruct o; naive_solver. Qed.

(** Splits a hypothesis [c1 ≫= .. = Ok _] into the successful runs of its parts. *)
Ltac inv_bind :=
  repeat match goal with
  | H : (_ ≫= _) = Ok _ |- _ => apply bind_Ok in H as (? & ? & H)
  | H : panic_if _ _ = Ok _ |- _ =>
      first [ apply panic_if_Ok in H
            | let u := fresh in match type of H with _ = Ok ?x => destruct x end;
              apply panic_if_Ok in H ]
  | H : unwrap _ = Ok _ |- _ => apply unwrap_Ok in H
  | H : Ok _ = Ok _ |- _ => injection H as H; subst
  | H : Err _ = Ok _ |- _ => discriminate H
  | H : mret _ = Ok _ |- _ => injection H as H; subst
  | p : (_ * _)%type |- _ => destruct p
  | u : unit |- _ => destruct u
  end.

(** ** Machine integers: a [w]-bit unsigned integer is a [Z] in [[0, 2^w)] *)
Definition USIZE : Z := 2 ^ 64.
Definition is_u (w x : Z) : Prop := 0 ≤ x < 2 ^ w.
Notation is_usize x := (is_u 64 x).
#[global] Instance is_u_dec w x : Decision (is_u w x).
Proof. unfold is_u. apply _. Defined.

(** Checked arithmetic at width [w] (a debug build panics on overflow). *)
Definition uadd (w a b : Z) : result Z := if a + b <? 2 ^ w then Ok (a + b) else Err Overflow.
Definition usub (a b : Z) : result Z := if b <=? a then Ok (a - b) else Err Overflow.
Definition umul (w a b : Z) : result Z := if a * b <? 2 ^ w then Ok (a * b) else Err Overflow.

(** [!x], [x << k] (bits shifted out are lost) and [x as uN] on unsigned words. *)
Definition unot (w x : Z) : Z := Z.lxor x (Z.ones w).
Definition ushl (w x k : Z) : Z := Z.land (Z.shiftl x k) (Z.ones w).
Definition as_u (w x : Z) : Z := Z.land x (Z.ones w).

(** [x as iN]: two's complement reading of the low [w] bits. *)
Definition as_i (w x : Z) : Z :=
  let y := as_u w x in if y <? 2 ^ (w - 1) then y else y - 2 ^ w.

Lemma as_u_id w x : is_u w x → 0 ≤ w → as_u w x = x.
Proof. intros Hx Hw. unfold as_u. rewrite Z.land_ones by done. by apply Z.mod_small. Qed.

Lemma as_i_id w x : 0 ≤ x < 2 ^ (w - 1) → 1 ≤ w → as_i w x = x.
Proof.
  intros Hx Hw. unfold as_i. rewrite as_u_id; [|split; [lia|]|lia].
  - destruct (Z.ltb_spec x (2 ^ (w - 1))); lia.
  - apply Z.lt_le_trans with (2 ^ (w - 1)); [lia|]. apply Z.pow_le_mono_r; lia.
Qed.

Lemma uadd_Ok w a b c : uadd w a b = Ok c ↔ c = a + b ∧ a + b < 2 ^ w.
Proof. unfold uadd. destruct (Z.ltb_spec (a + b) (2 ^ w)); naive_solver lia. Qed.
Lemma usub_Ok a b c : usub a b = Ok c ↔ c = a - b ∧ b ≤ a.
Proof. unfold usub. destruct (Z.leb_spec b a); naive_solver lia. Qed.
Lemma umul_Ok w a b c : umul w a b = Ok c ↔ c = a * b ∧ a * b < 2 ^ w.
Proof. unfold umul. destruct (Z.ltb_spec (a * b) (2 ^ w)); naive_solver lia. Qed.

Lemma uadd_eq w a b : a + b < 2 ^ w → uadd w a b = Ok (a + b).
Proof. intros H. by apply uadd_Ok. Qed.
Lemma usub_eq a b : b ≤ a → usub a b = Ok (a - b).
Proof. intros H. by apply usub_Ok. Qed.
Lemma umul_eq w a b : a * b < 2 ^ w → umul w a b = Ok (a * b).
Proof. intros H. by apply umul_Ok. Qed.

Ltac inv_arith :=
  repeat match goal with
  | H : uadd _ _ _ = Ok _ |- _ => apply uadd_Ok in H as [? ?]
  | H : usub _ _ = Ok _ |- _ => apply usub_Ok in H as [? ?]
  | H : umul _ _ _ = Ok _ |- _ => apply umul_Ok in H as [? ?]
  end; subst.

(** ** Bits *)
Create HintDb bits.

Lemma testbit_is_u w x i : is_u w x → w ≤ i → Z.testbit x i = false.
Proof.
  intros [Hx0 Hx] Hi. destruct (decide (x = 0)) as [->|]; [apply Z.testbit_0_l|].
  apply Z.bits_above_log2; [lia|]. apply Z.lt_le_trans with w; [|done].
  apply Z.log2_lt_pow2; lia.
Qed.

Lemma testbit_ones w i : 0 ≤ w → 0 ≤ i → Z.testbit (Z.ones w) i = (i <? w).
Proof.
  intros Hw Hi. destruct (Z.ltb_spec i w).
  - by apply Z.ones_spec_low.
  - by apply Z.ones_spec_high.
Qed.

Lemma land_is_u w x m : 0 ≤ w → is_u w m → 0 ≤ x → is_u w (Z.land x m).
Proof.
  intros Hw [Hm0 Hm] Hx. split; [apply Z.land_nonneg; lia|].
  replace m with (Z.land m (Z.ones w)).
  - rewrite Z.land_assoc, Z.land_ones by lia. apply Z.mod_pos_bound. lia.
  - rewrite Z.land_ones by lia. apply Z.mod_small. lia.
Qed.

(** [x & !m] is set difference of bits. *)
Lemma land_unot w x m : 0 ≤ w → is_u w x → Z.land x (unot w m) = Z.ldiff x m.
Proof.
  intros Hw Hx. apply Z.bits_inj'. intros i Hi. unfold unot.
  rewrite Z.land_spec, Z.lxor_spec, Z.ldiff_spec, testbit_ones by lia.
  destruct (Z.ltb_spec i w).
  - by rewrite xorb_true_r.
  - by rewrite (testbit_is_u w x i).
Qed.

Lemma ldiff_ones x k : 0 ≤ k → Z.ldiff x (Z.ones k) = x - x mod 2 ^ k.
Proof.
  intros Hk. rewrite Z.ldiff_ones_r, Z.shiftl_mul_pow2, Z.shiftr_div_pow2 by lia.
  pose proof (Z.div_mod x (2 ^ k)). nia.
Qed.

Lemma ones_pred k : Z.ones k = 2 ^ k - 1.
Proof. rewrite Z.ones_equiv. lia. Qed.

(** ** Arrays: [[T; N]] and slices as lists, indexed by [usize] *)
Section arrays.
Context {A : Type}.
Implicit Types (l : list A) (i : Z).

Definition in_range l i : bool := (0 <=? i) && match l !! Z.to_nat i with Some _ => true | None => false end.

(** [l[i]] read and written: out of range panics. *)
Definition aget l i : result A :=
  if in_range l i then
    match l !! Z.to_nat i with Some x => Ok x | None => Err IndexOOB end
  else Err IndexOOB.
Definition aset l i (x : A) : result (list A) :=
  if in_range l i then Ok (<[Z.to_nat i := x]> l) else Err IndexOOB.

Lemma in_range_true l i : in_range l i = true ↔ 0 ≤ i < Z.of_nat (length l).
Proof.
  unfold in_range. rewrite andb_true_iff, Z.leb_le. pose proof (lookup_lt_is_Some l (Z.to_nat i)) as Hl.
  destruct (l !! Z.to_nat i) as [x|].
  - assert (Z.to_nat i < length l)%nat by (apply Hl; eauto). naive_solver lia.
  - split; [naive_solver|]. intros Hi. destruct (proj2 Hl) as [? [=]]. lia.
Qed.

Lemma aget_Ok l i x : aget l i = Ok x ↔ 0 ≤ i ∧ l !! Z.to_nat i = Some x.
Proof.
  unfold aget. destruct (in_range l i) eqn:E.
  - apply in_range_true in E. destruct (l !! Z.to_nat i); naive_solver lia.
  - split; [done|]. intros [? Hl%lookup_lt_Some].
    assert (in_range l i = true) by (apply in_range_true; lia). congruence.
Qed.

Lemma aget_range l i : 0 ≤ i < Z.of_nat (length l) → ∃ x, aget l i = Ok x ∧ l !! Z.to_nat i = Some x.
Proof.
  intros Hi. destruct (lookup_lt_is_Some_2 l (Z.to_nat i)) as [x Hx]; [lia|].
  exists x. split; [|done]. apply aget_Ok. split; [lia|done].
Qed.

Lemma aget_Err l i : Z.of_nat (length l) ≤ i → aget l i = Err IndexOOB.
Proof.
  intros Hi. unfold aget. destruct (in_range l i) eqn:E; [|done].
  apply in_range_true in E. lia.
Qed.

Lemma aset_Ok l i x l' :
  aset l i x = Ok l' ↔ 0 ≤ i < Z.of_nat (length l) ∧ l' = <[Z.to_nat i := x]> l.
Proof.
  unfold aset. destruct (in_range l i) eqn:E.
  - apply in_range_true in E. naive_solver.
  - split; [done|]. intros [?%in_range_true ?]. congruence.
Qed.

Lemma aget_eq l i x : 0 ≤ i → l !! Z.to_nat i = Some x → aget l i = Ok x.
Proof. intros. by apply aget_Ok. Qed.
Lemma aset_eq l i x : 0 ≤ i < Z.of_nat (length l) → aset l i x = Ok (<[Z.to_nat i := x]> l).
Proof. intros. by apply aset_Ok. Qed.
End arrays.

Ltac inv_arr :=
  repeat match goal with
  | H : aget _ _ = Ok _ |- _ => apply aget_Ok in H as [? ?]
  | H : aset _ _ _ = Ok _ |- _ => apply aset_Ok in H as [? ?]
  end; subst.

Ltac inv_ok := repeat progress (inv_bind; inv_arith; inv_arr).

(** ** Loops: [for i in lo..hi], without and with an early exit *)
Section loops.
Context {S : Type}.

Fixpoint for_loop (n : nat) (i : Z) (body : Z → S → result S) (s : S) : result S :=
  match n with
  | O => Ok s
  | Datatypes.S n => s' ← body i s; for_loop n (i + 1) body s'
  end.
Definition for_range (lo hi : Z) (body : Z → S → result S) (s : S) : result S :=
  for_loop (Z.to_nat (hi - lo)) lo body s.

(** Partial correctness: an invariant of every completed iteration. *)
Lemma for_loop_inv (I : Z → S → Prop) body n : ∀ i s s',
  I i s →
  (∀ k t t', i ≤ k < i + Z.of_nat n → I k t → body k t = Ok t' → I (k + 1) t') →
  for_loop n i body s = Ok s' → I (i + Z.of_nat n) s'.
Proof.
  induction n as [|n IH]; intros i s s' HI Hstep H; simpl in H.
  - inv_ok. by rewrite Z.add_0_r.
  - inv_ok. replace (i + _) with (i + 1 + Z.of_nat n) by lia.
    eapply IH; [| |eassumption].
    + apply (Hstep i s); [lia|done|done].
    + intros k t t' Hk. apply Hstep. lia.
Qed.

Lemma for_range_inv (I : Z → S → Prop) lo hi body s s' :
  lo ≤ hi →
  I lo s →
  (∀ k t t', lo ≤ k < hi → I k t → body k t = Ok t' → I (k + 1) t') →
  for_range lo hi body s = Ok s' → I hi s'.
Proof.
  intros Hle HI Hstep H.
  replace hi with (lo + Z.of_nat (Z.to_nat (hi - lo))) by lia.
  eapply for_loop_inv; [done| |exact H]. intros k t t' Hk. apply Hstep. lia.
Qed.

(** Total correctness: iterations that keep the invariant run to the end. *)
Lemma for_loop_total (I : Z → S → Prop) body n : ∀ i s,
  I i s →
  (∀ k t, i ≤ k < i + Z.of_nat n → I k t → ∃ t', body k t = Ok t' ∧ I (k + 1) t') →
  ∃ s', for_loop n i body s = Ok s' ∧ I (i + Z.of_nat n) s'.
Proof.
  induction n as [|n IH]; intros i s HI Hstep; simpl.
  - exists s. by rewrite Z.add_0_r.
  - destruct (Hstep i s) as (t & Ht & HIt); [lia|done|]. rewrite Ht, bind_Ok_l.
    destruct (IH (i + 1) t HIt) as (s' & Hs' & HI').
    + intros k u Hk. apply Hstep. lia.
    + exists s'. split; [done|]. by replace (i + _) with (i + 1 + Z.of_nat n) by lia.
Qed.

Lemma for_range_total (I : Z → S → Prop) lo hi body s :
  lo ≤ hi →
  I lo s →
  (∀ k t, lo ≤ k < hi → I k t → ∃ t', body k t = Ok t' ∧ I (k + 1) t') →
  ∃ s', for_range lo hi body s = Ok s' ∧ I hi s'.
Proof.
  intros Hle HI Hstep.
  destruct (for_loop_total I body (Z.to_nat (hi - lo)) lo s) as (s' & H & HI').
  - done.
  - intros k t Hk. apply Hstep. lia.
  - exists s'. split; [done|]. by replace hi with (lo + Z.of_nat (Z.to_nat (hi - lo))) by lia.
Qed.

(** Loops whose body may leave: [Next] continues, [Stop] is a [break] or a [return]. *)
Inductive ctl (R : Type) := Next (s : S) | Stop (r : R).

Fixpoint ctl_loop {R} (n : nat) (i : Z) (body : Z → S → result (ctl R)) (s : S)
    : result (ctl R) :=
  match n with
  | O => Ok (Next R s)
  | Datatypes.S n =>
      c ← body i s;
      match c with Next _ s' => ctl_loop n (i + 1) body s' | Stop _ r => Ok (Stop R r) end
  end.
Definition ctl_range {R} (lo hi : Z) (body : Z → S → result (ctl R)) (s : S) : result (ctl R) :=
  ctl_loop (Z.to_nat (hi - lo)) lo body s.
End loops.
Arguments ctl S R : clear implicits.
Arguments Next {S R} s.
Arguments Stop {S R} r.

(** A loop passes the iterations that continue and keep [I]. *)
Lemma ctl_loop_skip {S R} (I : Z → S → Prop) (body : Z → S → result (ctl S R)) k : ∀ n lo s,
  I lo s →
  (∀ j t, lo ≤ j < lo + Z.of_nat k → I j t → ∃ t', body j t = Ok (Next t') ∧ I (j + 1) t') →
  ∃ s', I (lo + Z.of_nat k) s' ∧ ctl_loop (k + n) lo body s = ctl_loop n (lo + Z.of_nat k) body s'.
Proof.
  induction k as [|k IH]; intros n lo s Hs Hb; simpl.
  - exists s. by rewrite Z.add_0_r.
  - destruct (Hb lo s) as (t & -> & Ht); [lia|done|]. rewrite bind_Ok_l.
    destruct (IH n (lo + 1) t Ht) as (s' & Hs' & ->).
    + intros j u Hj. apply Hb. lia.
    + exists s'. by replace (lo + Z.of_nat (Datatypes.S k)) with (lo + 1 + Z.of_nat k) by lia.
Qed.

(** ** Searches: a loop with an early exit and no state

    The three outcomes of [for i in lo..hi { .. return/break .. }] when the body
    changes nothing before it leaves. *)
Section search.
Context {R : Type}.
Implicit Types (body : Z → unit → result (ctl unit R)) (n : nat).

Definition passes body (lo hi : Z) : Prop :=
  ∀ j, lo ≤ j < hi → body j tt = Ok (Next tt).

Lemma passes_mono body lo hi hi' : hi' ≤ hi → passes body lo hi → passes body lo hi'.
Proof. intros Hle H j Hj. apply H. lia. Qed.

Lemma ctl_loop_passes body k : ∀ n lo,
  passes body lo (lo + Z.of_nat k) →
  ctl_loop (k + n) lo body tt = ctl_loop n (lo + Z.of_nat k) body tt.
Proof.
  induction k as [|k IH]; intros n lo Hp; simpl.
  - by rewrite Z.add_0_r.
  - rewrite (Hp lo) by lia. rewrite bind_Ok_l, IH.
    + replace (lo + 1 + Z.of_nat k) with (lo + Z.of_nat (S k)) by lia. done.
    + intros j Hj. apply Hp. lia.
Qed.

(** Every index before the outcome passes, whatever the outcome is. *)
Lemma ctl_loop_outcome body n : ∀ lo,
  (ctl_loop n lo body tt = Ok (Next tt) ∧ passes body lo (lo + Z.of_nat n)) ∨
  (∃ k, lo ≤ k < lo + Z.of_nat n ∧ passes body lo k ∧ ctl_loop n lo body tt = body k tt ∧
    body k tt ≠ Ok (Next tt)).
Proof.
  induction n as [|n IH]; intros lo.
  - left. split; [done|]. intros j Hj. lia.
  - simpl. destruct (body lo tt) as [[[]|r]|e] eqn:E.
    + rewrite bind_Ok_l. destruct (IH (lo + 1)) as [[H Hp]|(k & Hk & Hp & H & Hne)].
      * left. split; [done|]. intros j Hj. destruct (decide (j = lo)) as [->|]; [done|].
        apply Hp. lia.
      * right. exists k. split_and!; [lia|lia| |done|done].
        intros j Hj. destruct (decide (j = lo)) as [->|]; [done|]. apply Hp. lia.
    + right. exists lo. rewrite bind_Ok_l, E. split_and!; [lia|lia| |done|done].
      intros j Hj. lia.
    + right. exists lo. rewrite bind_Err_l, E. split_and!; [lia|lia| |done|done].
      intros j Hj. lia.
Qed.

Lemma ctl_range_outcome body lo hi :
  lo ≤ hi →
  (ctl_range lo hi body tt = Ok (Next tt) ∧ passes body lo hi) ∨
  (∃ k, lo ≤ k < hi ∧ passes body lo k ∧ ctl_range lo hi body tt = body k tt ∧
    body k tt ≠ Ok (Next tt)).
Proof.
  intros Hle. unfold ctl_range.
  destruct (ctl_loop_outcome body (Z.to_nat (hi - lo)) lo) as [[H Hp]|(k & Hk & H)];
    replace (lo + Z.of_nat (Z.to_nat (hi - lo))) with hi in * by lia; [by left|].
  right. exists k. split; [lia|done].
Qed.

(** A loop reaches the first index that does not pass. *)
Lemma ctl_range_at body lo hi k :
  lo ≤ k < hi → passes body lo k → body k tt ≠ Ok (Next tt) →
  ctl_range lo hi body tt = body k tt.
Proof.
  intros Hk Hp Hne. destruct (ctl_range_outcome body lo hi) as [[_ Hq]|(k' & Hk' & Hp' & H & Hne')];
    [lia|by rewrite (Hq k) in Hne by lia|].
  destruct (Z.lt_trichotomy k k') as [|[->|]]; [by rewrite (Hp' k) in Hne by lia|done|].
  by rewrite (Hp k') in Hne' by lia.
Qed.

Lemma ctl_range_all body lo hi :
  lo ≤ hi → passes body lo hi → ctl_range lo hi body tt = Ok (Next tt).
Proof.
  intros Hle Hp. destruct (ctl_range_outcome body lo hi Hle) as [[? _]|(k & Hk & _ & _ & Hne)]; [done|].
  by rewrite (Hp k) in Hne by lia.
Qed.
End search.

(** ** Filling a slice: [for j in 0..n { l[i + j] = v }] *)
Section fill.
Context {A : Type}.

(** [l'] is [l] with positions [[i, i+n)] set to [v]. *)
Definition filled (l l' : list A) (i n : Z) (v : A) : Prop :=
  length l' = length l ∧
  ∀ k : nat, l' !! k = if decide (i ≤ Z.of_nat k < i + n) then Some v else l !! k.

Lemma filled_inj l l1 l2 i n v : filled l l1 i n v → filled l l2 i n v → l1 = l2.
Proof. intros [_ H1] [_ H2]. apply list_eq. intros k. by rewrite H1, H2. Qed.

Lemma filled_in l l' i n v k :
  filled l l' i n v → i ≤ k < i + n → 0 ≤ k → l' !! Z.to_nat k = Some v.
Proof. intros [_ H] Hk H0. rewrite H, decide_True by lia. done. Qed.

Lemma filled_out l l' i n v (k : nat) :
  filled l l' i n v → ¬ (i ≤ Z.of_nat k < i + n) → l' !! k = l !! k.
Proof. intros [_ H] Hk. by rewrite H, decide_False. Qed.

Lemma fill_range (l : list A) i n v (body : Z → list A → result (list A)) :
  0 ≤ i → 0 ≤ n → i + n ≤ Z.of_nat (length l) →
  (∀ j t, 0 ≤ j < n → body j t = aset t (i + j) v) →
  ∃ l', for_range 0 n body l = Ok l' ∧ filled l l' i n v.
Proof.
  intros Hi Hn Hfit Hbody.
  apply (for_range_total (λ j t, filled l t i j v)); [done| |].
  - split; [done|]. intros k. by rewrite decide_False by lia.
  - intros j t Hj [Hlen Ht]. rewrite Hbody by done. eexists. split.
    + apply aset_Ok. split; [lia|done].
    + split; [by rewrite length_insert|]. intros k.
      destruct (decide (k = Z.to_nat (i + j))) as [->|Hne].
      * rewrite list_lookup_insert_eq by lia. by rewrite decide_True by lia.
      * rewrite list_lookup_insert_ne by done. rewrite Ht.
        destruct (decide (i ≤ Z.of_nat k < i + j)); destruct (decide (i ≤ Z.of_nat k < i + (j + 1)));
          done || lia.
Qed.
End fill.

(** ** Total maps as functions *)
Definition upd {K V} `{EqDecision K} (f : K → V) (k : K) (v : V) : K → V :=
  λ j, if decide (j = k) then v else f j.
Lemma upd_eq {K V} `{EqDecision K} (f : K → V) k v : upd f k v k = v.
Proof. unfold upd. by rewrite decide_True. Qed.
Lemma upd_ne {K V} `{EqDecision K} (f : K → V) k v j : j ≠ k → upd f k v j = f j.
Proof. intros. unfold upd. by rewrite decide_False. Qed.
