(* ===== verification/Symbols.v ===== *)
(** * Memory layout and machine constants

    [kernel/src/symbols.rs], the generated accessors of [symbols/gen.rs] for the
    symbols of the linker script, and the relations [kernel.ld] puts on them. *)

From S2P Require Import Prelude.

Definition PAGE_ORDER : Z := 12.
Definition PAGE_SIZE : Z := Z.shiftl 1 PAGE_ORDER.
Definition MAXVA : Z := Z.shiftl 1 (9 + 9 + 9 + 12 - 1).
Definition TRAMPOLINE_START : Z := MAXVA - PAGE_SIZE.
Definition TRAPFRAME_START : Z := TRAMPOLINE_START - PAGE_SIZE.
Definition NCPUS : Z := 8.
Definition NMAXPROCS : Z := 256.
Definition SCHEDULER_INTERVAL : Z := 1000000.

(** The accessors [HEAP_START()], .. of [symbols/gen.rs]: one value per link. *)
Record linker_symbols := LinkerSymbols {
  HEAP_START : Z;
  HEAP_SIZE : Z;
  TEXT_START : Z;
  TEXT_END : Z;
  RODATA_START : Z;
  RODATA_END : Z;
  DATA_START : Z;
  DATA_END : Z;
  BSS_START : Z;
  BSS_END : Z;
  KERNEL_STACK_START : Z;
  KERNEL_STACK_END : Z;
  TRAMPOLINE_TEXT_START : Z;
}.

(** [kernel.ld]: RAM is 128 MiB at 0x80000000, sections start on pages and follow
    each other, the stacks and the heap come after .bss. *)
Definition ORIGIN_ram : Z := 0x80000000.
Definition LENGTH_ram : Z := 128 * 1024 * 1024.

Record kernel_ld (s : linker_symbols) : Prop := {
  ld_text : ORIGIN_ram ≤ TEXT_START s ∧ TEXT_START s mod 4096 = 0;
  ld_trampoline : TEXT_START s ≤ TRAMPOLINE_TEXT_START s ≤ TEXT_END s ∧
                  TRAMPOLINE_TEXT_START s mod 4096 = 0;
  ld_rodata : TEXT_END s ≤ RODATA_START s ≤ RODATA_END s ∧ RODATA_START s mod 4096 = 0;
  ld_data : RODATA_END s ≤ DATA_START s ≤ DATA_END s ∧ DATA_START s mod 4096 = 0;
  ld_bss : DATA_END s ≤ BSS_START s ≤ BSS_END s ∧ BSS_START s mod 4096 = 0;
  ld_stack : KERNEL_STACK_START s = BSS_END s ∧
             KERNEL_STACK_END s = KERNEL_STACK_START s + 0x80000;
  ld_heap : HEAP_START s = KERNEL_STACK_END s ∧
            HEAP_SIZE s = ORIGIN_ram + LENGTH_ram - KERNEL_STACK_END s;
  ld_fits : KERNEL_STACK_END s ≤ ORIGIN_ram + LENGTH_ram;
}.

Lemma PAGE_SIZE_eq : PAGE_SIZE = 4096.
Proof. done. Qed.
Lemma TRAMPOLINE_START_eq : TRAMPOLINE_START = 2 ^ 38 - 4096.
Proof. done. Qed.
Lemma TRAPFRAME_START_eq : TRAPFRAME_START = 2 ^ 38 - 8192.
Proof. done. Qed.

(** Replaces the layout constants by their values, for [lia]. *)
Ltac layout := rewrite ?PAGE_SIZE_eq, ?TRAMPOLINE_START_eq, ?TRAPFRAME_START_eq in *.
