(* ===== verification/Mem.v ===== *)
(** * The page allocator

    [kernel/src/mem.rs]: address alignment, the first-fit frame allocator behind
    the kernel's [#[global_allocator]], and its initialisation.  The abstract heap
    is a finite map from the first page of a block to its number of pages;
    [alloc_rep] relates the array [page_allocated] to it. *)

From S2P Require Import Prelude Symbols.

Definition MAX_PAGE : Z := 128 * 1024 * 1024 / Z.shiftl 1 12.

Lemma MAX_PAGE_eq : MAX_PAGE = 32768.
Proof. done. Qed.
#[global] Opaque MAX_PAGE.

Record Allocator := MkAllocator {
  page_allocated : list Z;
  base_addr : Z;
}.

(** ** Alignment *)
Definition align_val (val order : Z) : result Z :=
  _ ← panic_if (64 <=? order) Overflow;
  o ← usub (ushl 64 1 order) 1;
  s ← uadd 64 val o;
  Ok (Z.land s (unot 64 o)).

Definition align_val_down (val order : Z) : result Z :=
  _ ← panic_if (64 <=? order) Overflow;
  o ← usub (ushl 64 1 order) 1;
  Ok (Z.land val (unot 64 o)).

Definition page_down (val : Z) : result Z := align_val_down val PAGE_ORDER.

(** ** The allocator *)
Definition Allocator_new : Allocator :=
  {| base_addr := 0; page_allocated := replicate (Z.to_nat MAX_PAGE) 0 |}.

Definition offset_addr_of (a : Allocator) (id : Z) : result Z :=
  d ← umul 64 id PAGE_SIZE;
  uadd 64 (base_addr a) d.

(** [offset_id_of]: the same address, as a pointer *)
Definition offset_id_of (a : Allocator) (id : Z) : result Z := offset_addr_of a id.

Definition offset_page_of (a : Allocator) (page : Z) : result Z :=
  d ← usub page (base_addr a);
  Ok (d / PAGE_SIZE).

(** The inner loop of [allocate]: are pages [i .. i + n) all free? *)
Definition run_free (l : list Z) (i n : Z) : result bool :=
  r ← ctl_range 0 n (λ j _,
        k ← uadd 64 i j;
        x ← aget l k;
        Ok (if bool_decide (x ≠ 0) then Stop false else Next tt)) tt;
  Ok (match r with Next _ => true | Stop found => found end).

(** The marking loop of [allocate]. *)
Definition mark_run (l : list Z) (i n : Z) : result (list Z) :=
  for_range 0 n (λ j l, k ← uadd 64 i j; aset l k n) l.

(** One iteration of the outer loop of [allocate]. *)
Definition allocate_at (a : Allocator) (n i : Z) : result (ctl unit (Z * Allocator)) :=
  x ← aget (page_allocated a) i;
  if bool_decide (x = 0) then
    found ← run_free (page_allocated a) i n;
    if (found : bool) then
      l' ← mark_run (page_allocated a) i n;
      p ← offset_id_of a i;
      Ok (Stop (p, {| page_allocated := l'; base_addr := base_addr a |}))
    else Ok (Next tt)
  else Ok (Next tt).

Definition allocate (a : Allocator) (size : Z) : result (Z * Allocator) :=
  v ← align_val size PAGE_ORDER;
  let page_required := v / PAGE_SIZE in
  r ← ctl_range 0 MAX_PAGE (λ i _, allocate_at a page_required i) tt;
  match r with
  | Stop pa => Ok pa
  | Next _ => Err (Panic "no available page")
  end.

Definition deallocate (a : Allocator) (addr : Z) : result Allocator :=
  id ← offset_page_of a addr;
  page_stride ← aget (page_allocated a) id;
  l' ← for_range 0 page_stride (λ j l, k ← uadd 64 j id; aset l k 0) (page_allocated a);
  Ok {| page_allocated := l'; base_addr := base_addr a |}.

(** [debug]: the lines it prints, one [(page, from, to, pages)] per block.  The
    source loops until [j == MAX_PAGE]; [fuel] bounds the iterations. *)
Fixpoint debug_loop (fuel : nat) (a : Allocator) (j : Z) (out : list (Z * Z * Z * Z))
    : result (list (Z * Z * Z * Z)) :=
  match fuel with
  | O => Err NoFuel
  | S fuel =>
      size ← aget (page_allocated a) j;
      '(j, out) ←
        (if bool_decide (size ≠ 0) then
           from ← offset_addr_of a j;
           k ← uadd 64 j size;
           to ← offset_addr_of a k;
           Ok (k, out ++ [(j, from, to, size)])
         else
           k ← uadd 64 j 1;
           Ok (k, out));
      if j =? MAX_PAGE then Ok out else debug_loop fuel a j out
  end.
Definition debug (a : Allocator) := debug_loop (Z.to_nat MAX_PAGE) a 0 [].

(** The allocator part of [init]: the base is set, the array is cleared. *)
Definition init_alloc (s : linker_symbols) (a : Allocator) : result Allocator :=
  b ← align_val (HEAP_START s) PAGE_ORDER;
  l ← for_range 0 MAX_PAGE (λ i l, aset l i 0) (page_allocated a);
  Ok {| page_allocated := l; base_addr := b |}.

(** [alloc_stack] *)
Definition alloc_stack (a : Allocator) : result (Z * Allocator) :=
  sz ← umul 64 PAGE_SIZE 1024;
  allocate a sz.

(** ** Alignment: what the bit masks compute *)
Lemma align_mask order : 0 ≤ order < 64 → ushl 64 1 order = 2 ^ order.
Proof.
  intros H. unfold ushl. rewrite Z.shiftl_1_l, Z.land_ones by lia.
  apply Z.mod_small. split; [lia|]. apply Z.pow_lt_mono_r; lia.
Qed.

Lemma align_val_down_eq val order :
  is_usize val → 0 ≤ order < 64 → align_val_down val order = Ok (val - val mod 2 ^ order).
Proof.
  intros Hv Ho. unfold align_val_down. rewrite align_mask by lia.
  destruct (Z.leb_spec 64 order); [lia|]. simpl.
  unfold usub. destruct (Z.leb_spec 1 (2 ^ order)); [|lia]. simpl.
  rewrite land_unot by (done || lia). by rewrite <- ones_pred, ldiff_ones by lia.
Qed.

Lemma align_val_eq val order :
  is_usize val → 0 ≤ order < 64 → val + (2 ^ order - 1) < 2 ^ 64 →
  align_val val order =
    Ok (val + (2 ^ order - 1) - (val + (2 ^ order - 1)) mod 2 ^ order).
Proof.
  intros Hv Ho Hfit. unfold align_val. rewrite align_mask by lia.
  destruct (Z.leb_spec 64 order); [lia|]. simpl.
  unfold usub. destruct (Z.leb_spec 1 (2 ^ order)); [|lia]. simpl.
  unfold uadd. destruct (Z.ltb_spec (val + (2 ^ order - 1)) (2 ^ 64)); [|lia]. simpl.
  rewrite land_unot by (unfold is_u in *; lia). by rewrite <- ones_pred, ldiff_ones by lia.
Qed.

(** Rounding up to a page: the number of pages a request of [size] bytes takes. *)
Definition pages_of (size : Z) : Z := (size + 4095) / 4096.

Lemma align_val_page size :
  is_usize size → size + 4095 < 2 ^ 64 →
  align_val size PAGE_ORDER = Ok (pages_of size * 4096).
Proof.
  intros Hs Hf. change PAGE_ORDER with 12. rewrite align_val_eq by (simpl; lia || done).
  f_equal. unfold pages_of. change (2 ^ 12 - 1) with 4095. change (2 ^ 12) with 4096.
  pose proof (Z.div_mod (size + 4095) 4096). lia.
Qed.

Lemma pages_of_pos size : 0 < size → 0 < pages_of size.
Proof. intros H. unfold pages_of. apply Z.div_str_pos. lia. Qed.

Lemma page_down_eq v : is_usize v → page_down v = Ok (v - v mod 4096).
Proof. intros H. unfold page_down. by rewrite align_val_down_eq. Qed.

(** ** The abstract heap *)

(** Pages [[s, s+n)] and [[s', s'+n')] do not meet. *)
Definition apart (s n s' n' : Z) : Prop := s + n ≤ s' ∨ s' + n' ≤ s.

Record alloc_rep (a : Allocator) (B : gmap Z Z) : Prop := {
  rep_len : length (page_allocated a) = Z.to_nat MAX_PAGE;
  rep_base : base_addr a mod PAGE_SIZE = 0;
  rep_low : 0 < base_addr a;
  rep_high : base_addr a + MAX_PAGE * PAGE_SIZE ≤ 2 ^ 63;
  rep_in : ∀ s n, B !! s = Some n → 0 ≤ s ∧ 0 < n ∧ s + n ≤ MAX_PAGE;
  rep_fill : ∀ s n k, B !! s = Some n → s ≤ k < s + n →
             page_allocated a !! Z.to_nat k = Some n;
  rep_cover : ∀ k n, page_allocated a !! k = Some n → n ≠ 0 →
              ∃ s, B !! s = Some n ∧ s ≤ Z.of_nat k < s + n;
  rep_disj : ∀ s n s' n', B !! s = Some n → B !! s' = Some n' → s ≠ s' → apart s n s' n';
}.

(** [n] pages from [s] on are inside the array and belong to no block. *)
Definition free_run (B : gmap Z Z) (s n : Z) : Prop :=
  0 ≤ s ∧ s + n ≤ MAX_PAGE ∧ ∀ s' n', B !! s' = Some n' → apart s n s' n'.


Section allocator.
Context (a : Allocator) (B : gmap Z Z) (Hrep : alloc_rep a B).
Notation l := (page_allocated a).

Lemma rep_lookup k : 0 ≤ k < MAX_PAGE → ∃ x, aget l k = Ok x ∧ l !! Z.to_nat k = Some x.
Proof using Hrep. intros Hk. apply aget_range. rewrite (rep_len _ _ Hrep). lia. Qed.

Lemma free_run_zero s n k :
  free_run B s n → s ≤ k < s + n → aget l k = Ok 0.
Proof using Hrep.
  intros (Hs & Hn & Hfree) Hk. destruct (rep_lookup k) as (x & -> & Hx); [lia|].
  destruct (decide (x = 0)) as [->|Hne]; [done|].
  destruct (rep_cover _ _ Hrep _ _ Hx Hne) as (s' & HB & Hin).
  destruct (Hfree _ _ HB); lia.
Qed.

Lemma zero_free_run s n :
  0 ≤ s → 0 < n → s + n ≤ MAX_PAGE → (∀ k, s ≤ k < s + n → aget l k = Ok 0) →
  free_run B s n.
Proof using Hrep.
  intros Hs Hpos Hn Hz. split_and!; [done..|]. intros s' n' HB.
  destruct (rep_in _ _ Hrep _ _ HB) as (? & ? & ?). unfold apart.
  destruct (decide (s + n ≤ s' ∨ s' + n' ≤ s)) as [|Hov]; [done|].
  pose proof (rep_fill _ _ Hrep s' n' (Z.max s s') HB) as Hf.
  specialize (Hz (Z.max s s')). rewrite aget_Ok in Hz.
  destruct Hz as [_ Hz]; [lia|]. rewrite Hf in Hz; [|lia]. simplify_eq. lia.
Qed.

(** The outcome of the inner loop: the run is free, a page in it is taken, or the
    loop ran off the array. *)
Lemma run_free_spec i n :
  0 ≤ i < MAX_PAGE → 0 < n < 2 ^ 52 →
  (run_free l i n = Ok true ∧ free_run B i n) ∨
  (run_free l i n = Ok false ∧ ∃ k x, i ≤ k < i + n ∧ aget l k = Ok x ∧ x ≠ 0) ∨
  (run_free l i n = Err IndexOOB ∧ MAX_PAGE < i + n).
Proof using Hrep.
  intros Hi Hn. rewrite MAX_PAGE_eq in *. unfold run_free.
  set (body := λ (j : Z) (_ : unit), _).
  assert (Hbody : ∀ j, 0 ≤ j < n → body j tt =
    (x ← aget l (i + j); Ok (if bool_decide (x ≠ 0) then Stop false else Next tt))).
  { intros j Hj. unfold body, uadd. destruct (Z.ltb_spec (i + j) (2 ^ 64)); [done|lia]. }
  destruct (ctl_range_outcome body 0 n) as [[-> Hp]|(j & Hj & Hp & -> & Hne)]; [lia|..].
  - left. split; [done|].
    assert (Hz : ∀ k, i ≤ k < i + n → aget l k = Ok 0).
    { intros k Hk. specialize (Hp (k - i)). rewrite Hbody in Hp by lia.
      replace (i + (k - i)) with k in Hp by lia. destruct (aget l k) as [x|]; simpl in Hp;
      [case_bool_decide; naive_solver lia|naive_solver lia]. }
    apply zero_free_run; [lia|lia| |done]. destruct (decide (i + n ≤ MAX_PAGE)); [done|].
    specialize (Hz MAX_PAGE). rewrite aget_Err in Hz; rewrite ?(rep_len _ _ Hrep) in *;
      rewrite MAX_PAGE_eq in *; [|lia]. discriminate Hz; lia.
  - rewrite Hbody in * by lia. destruct (decide (i + j < MAX_PAGE)) as [Hlt|Hge].
    + destruct (rep_lookup (i + j)) as (x & Hx & _); [lia|]. rewrite Hx in *. simpl in *.
      right. left. case_bool_decide; [|done]. split; [done|]. exists (i + j), x. split; [lia|done].
    + right. right. rewrite aget_Err; [|rewrite (rep_len _ _ Hrep); lia].
      split; [done|]. rewrite MAX_PAGE_eq in *. lia.
Qed.
End allocator.

Lemma uadd_small a b : a + b < 2 ^ 64 → uadd 64 a b = Ok (a + b).
Proof. intros H. unfold uadd. by destruct (Z.ltb_spec (a + b) (2 ^ 64)); [|lia]. Qed.

Lemma mark_run_spec l i n :
  0 ≤ i → 0 < n < 2 ^ 52 → i + n ≤ Z.of_nat (length l) → Z.of_nat (length l) < 2 ^ 63 →
  ∃ l', mark_run l i n = Ok l' ∧ filled l l' i n n.
Proof.
  intros Hi Hn Hfit Hlen. apply fill_range; [lia..|].
  intros j t Hj. by rewrite uadd_small by lia.
Qed.

Lemma offset_addr_of_eq a B s :
  alloc_rep a B → 0 ≤ s ≤ MAX_PAGE → offset_addr_of a s = Ok (base_addr a + s * 4096).
Proof.
  intros Hrep Hs. pose proof (rep_high _ _ Hrep). rewrite MAX_PAGE_eq, PAGE_SIZE_eq in *.
  unfold offset_addr_of, umul. layout.
  destruct (Z.ltb_spec (s * 4096) (2 ^ 64)); [|lia]. simpl. apply uadd_small. lia.
Qed.

Lemma alloc_rep_insert a l' B s n :
  alloc_rep a B → free_run B s n → 0 < n → filled (page_allocated a) l' s n n →
  alloc_rep {| page_allocated := l'; base_addr := base_addr a |} (<[s := n]> B).
Proof.
  intros Hrep (Hs & Hfit & Hfree) Hn Hfill. destruct Hrep as [Hlen Hb Hlo Hhi Hin Hf Hcov Hdis].
  assert (Hs' : B !! s = None).
  { destruct (B !! s) as [m|] eqn:E; [|done].
    destruct (Hin _ _ E) as (? & ? & ?). destruct (Hfree _ _ E); lia. }
  split; simpl; [by rewrite (proj1 Hfill)|done..| | | |].
  - intros s' n' [[<- <-]|[Hne HB]]%lookup_insert_Some; [lia|eauto].
  - intros s' n' k [[<- <-]|[Hne HB]]%lookup_insert_Some Hk.
    + eapply filled_in; [done|lia..].
    + destruct (Hin _ _ HB) as (? & ? & ?).
      rewrite (filled_out _ _ _ _ _ _ Hfill); [eauto|]. destruct (Hfree _ _ HB); lia.
  - intros k x Hx Hne. destruct (decide (s ≤ Z.of_nat k < s + n)) as [Hk|Hk].
    + destruct Hfill as [_ Hfill]. rewrite Hfill, decide_True in Hx by done. simplify_eq.
      exists s. by rewrite lookup_insert_eq.
    + rewrite (filled_out _ _ _ _ _ _ Hfill Hk) in Hx.
      destruct (Hcov _ _ Hx Hne) as (s' & HB & Hs''). exists s'. split; [|done].
      rewrite lookup_insert_ne; [done|]. intros <-. congruence.
  - intros s1 n1 s2 n2 [[<- <-]|[? H1]]%lookup_insert_Some [[<- <-]|[? H2]]%lookup_insert_Some Hne.
    + done.
    + eauto.
    + destruct (Hfree _ _ H1); unfold apart; lia.
    + eauto.
Qed.

Lemma alloc_rep_delete a l' B s n :
  alloc_rep a B → B !! s = Some n → filled (page_allocated a) l' s n 0 →
  alloc_rep {| page_allocated := l'; base_addr := base_addr a |} (delete s B).
Proof.
  intros [Hlen Hb Hlo Hhi Hin Hf Hcov Hdis] HB Hfill.
  split; simpl; [by rewrite (proj1 Hfill)|done..| | | |].
  - intros s' n' [? ?]%lookup_delete_Some. eauto.
  - intros s' n' k [Hne HB']%lookup_delete_Some Hk. destruct (Hin _ _ HB') as (? & ? & ?).
    rewrite (filled_out _ _ _ _ _ _ Hfill); [eauto|].
    destruct (Hdis _ _ _ _ HB HB' Hne); lia.
  - intros k x Hx Hne. destruct (decide (s ≤ Z.of_nat k < s + n)) as [Hk|Hk].
    + destruct Hfill as [_ Hfill]. rewrite Hfill, decide_True in Hx by done. by simplify_eq.
    + rewrite (filled_out _ _ _ _ _ _ Hfill Hk) in Hx.
      destruct (Hcov _ _ Hx Hne) as (s' & HB' & Hs''). exists s'. split; [|done].
      rewrite lookup_delete_ne; [done|]. intros <-. by simplify_eq.
  - intros s1 n1 s2 n2 [? ?]%lookup_delete_Some [? ?]%lookup_delete_Some. eauto.
Qed.

Inductive at_outcome (a : Allocator) (B : gmap Z Z) (n i : Z)
    : result (ctl unit (Z * Allocator)) → Prop :=
  | at_taken : ¬ free_run B i n → at_outcome a B n i (Ok (Next tt))
  | at_found l' : free_run B i n → filled (page_allocated a) l' i n n →
      at_outcome a B n i (Ok (Stop (base_addr a + i * 4096,
        {| page_allocated := l'; base_addr := base_addr a |})))
  | at_end : MAX_PAGE < i + n → at_outcome a B n i (Err IndexOOB).

Lemma allocate_at_outcome a B n i :
  alloc_rep a B → 0 ≤ i < MAX_PAGE → 0 < n < 2 ^ 52 →
  at_outcome a B n i (allocate_at a n i).
Proof.
  intros Hrep Hi Hn. unfold allocate_at.
  destruct (rep_lookup a B Hrep i) as (x & Hx & _); [done|]. rewrite Hx, bind_Ok_l.
  case_bool_decide as H0; last first.
  { constructor. intros Hf. pose proof (free_run_zero a B Hrep i n i Hf) as Hz.
    rewrite Hx in Hz. assert (x = 0) by (injection Hz; lia). done. }
  destruct (run_free_spec a B Hrep i n) as
    [[-> Hf]|[[-> (k & y & Hk & Hy & Hne)]|[-> Hend]]]; [done..| | |].
  - rewrite bind_Ok_l. destruct Hf as (? & Hfit & ?).
    destruct (mark_run_spec (page_allocated a) i n) as (l' & -> & Hl'); [lia|lia|..].
    + rewrite (rep_len _ _ Hrep), MAX_PAGE_eq in *. lia.
    + rewrite (rep_len _ _ Hrep), MAX_PAGE_eq in *. lia.
    + rewrite bind_Ok_l. unfold offset_id_of. rewrite (offset_addr_of_eq _ B) by (done || lia).
      by constructor.
  - rewrite bind_Ok_l. constructor. intros Hf.
    rewrite (free_run_zero a B Hrep i n k Hf Hk) in Hy. congruence.
  - by constructor.
Qed.

Lemma allocate_unfold a size :
  0 < size → size + 4095 < 2 ^ 64 →
  allocate a size =
    (r ← ctl_range 0 MAX_PAGE (λ i _, allocate_at a (pages_of size) i) tt;
     match r with Stop pa => Ok pa | Next _ => Err (Panic "no available page") end).
Proof.
  intros Hs Hf. unfold allocate. rewrite align_val_page; [|unfold is_u; lia|done].
  rewrite bind_Ok_l. layout. by rewrite Z.div_mul.
Qed.

Lemma pages_of_bounds size : 0 < size → size + 4095 < 2 ^ 64 → 0 < pages_of size < 2 ^ 52.
Proof.
  intros Hs Hf. split; [by apply pages_of_pos|]. unfold pages_of.
  apply Z.div_lt_upper_bound; lia.
Qed.

(** A successful search ends at the least free run. *)
Lemma allocate_search_found a B n s :
  alloc_rep a B → 0 < n < 2 ^ 52 → free_run B s n → (∀ s', free_run B s' n → s ≤ s') →
  ∃ l', ctl_range 0 MAX_PAGE (λ i _, allocate_at a n i) tt =
          Ok (Stop (base_addr a + s * 4096, {| page_allocated := l'; base_addr := base_addr a |})) ∧
        filled (page_allocated a) l' s n n.
Proof.
  intros Hrep Hn Hrun Hmin. pose proof Hrun as (Hs & Hfit & _).
  assert (Hat : at_outcome a B n s (allocate_at a n s)) by (apply allocate_at_outcome; done || lia).
  rewrite (ctl_range_at _ _ _ s).
  - inversion Hat; [done|eauto|lia].
  - lia.
  - intros j Hj. pose proof (allocate_at_outcome a B n j Hrep) as Hj'.
    destruct Hj'; [lia|done|done| |lia]. specialize (Hmin j). naive_solver lia.
  - inversion Hat; done.
Qed.

(** C11: allocate returns the address of the least run of free pages that is long enough
    and adds that run to the allocated blocks; the page array still represents the
    abstract heap. *)
Theorem allocate_first_fit a B size s :
  alloc_rep a B → 0 < size → size + 4095 < 2 ^ 64 →
  free_run B s (pages_of size) → (∀ s', free_run B s' (pages_of size) → s ≤ s') →
  ∃ a', allocate a size = Ok (base_addr a + s * PAGE_SIZE, a') ∧
        alloc_rep a' (<[s := pages_of size]> B) ∧ base_addr a' = base_addr a.
Proof.
  intros Hrep Hs Hf Hrun Hmin. pose proof (pages_of_bounds size Hs Hf) as Hn.
  destruct (allocate_search_found a B _ s Hrep Hn Hrun Hmin) as (l' & Heq & Hl').
  rewrite allocate_unfold, Heq by done. eexists. split; [done|]. split; [|done].
  by apply alloc_rep_insert; [..|lia|].
Qed.

(** When no run of free pages is long enough, allocate panics: with its own message,
    or with an index out of bounds when a short free run reaches the end of the array. *)
Theorem allocate_exhausted a B size :
  alloc_rep a B → 0 < size → size + 4095 < 2 ^ 64 →
  (∀ s, ¬ free_run B s (pages_of size)) →
  allocate a size = Err (Panic "no available page") ∨ allocate a size = Err IndexOOB.
Proof.
  intros Hrep Hs Hf Hno. pose proof (pages_of_bounds size Hs Hf) as Hn.
  rewrite allocate_unfold by done.
  destruct (ctl_range_outcome (λ i (_ : unit), allocate_at a (pages_of size) i) 0 MAX_PAGE)
    as [[-> _]|(k & Hk & _ & -> & Hne)]; [rewrite MAX_PAGE_eq; lia|by left|].
  destruct (allocate_at_outcome a B (pages_of size) k Hrep Hk Hn); [done|by destruct (Hno k)|by right].
Qed.

(** What a successful allocation tells: the block is new and disjoint from all others. *)
Lemma allocate_Ok a B size p a' :
  alloc_rep a B → 0 < size → size + 4095 < 2 ^ 64 → allocate a size = Ok (p, a') →
  ∃ s l', p = base_addr a + s * 4096 ∧ free_run B s (pages_of size) ∧
    (∀ s', free_run B s' (pages_of size) → s ≤ s') ∧
    a' = {| page_allocated := l'; base_addr := base_addr a |} ∧
    filled (page_allocated a) l' s (pages_of size) (pages_of size) ∧
    alloc_rep a' (<[s := pages_of size]> B).
Proof.
  intros Hrep Hs Hf. pose proof (pages_of_bounds size Hs Hf) as Hn. rewrite allocate_unfold by done.
  destruct (ctl_range_outcome (λ i (_ : unit), allocate_at a (pages_of size) i) 0 MAX_PAGE)
    as [[-> _]|(k & Hk & Hp & -> & Hne)]; [rewrite MAX_PAGE_eq; lia|done|].
  destruct (allocate_at_outcome a B (pages_of size) k Hrep Hk Hn) as [|l' Hfr Hl'|]; [done| |done].
  simpl. intros [= <- <-]. exists k, l'. split_and!; [done..| |done|done|].
  - intros s' Hs'. destruct (decide (k ≤ s')) as [|Hlt]; [done|]. exfalso.
    pose proof Hs' as (? & ? & _). specialize (Hp s'). cbn beta in Hp.
    pose proof (allocate_at_outcome a B (pages_of size) s' Hrep) as Ho.
    destruct Ho; [lia|lia|done|discriminate Hp; lia|lia].
  - apply alloc_rep_insert; done || lia.
Qed.

Lemma offset_page_of_eq a B s :
  alloc_rep a B → 0 ≤ s → offset_page_of a (base_addr a + s * 4096) = Ok s.
Proof.
  intros Hrep Hs. unfold offset_page_of, usub. layout.
  destruct (Z.leb_spec (base_addr a) (base_addr a + s * 4096)); [|lia]. simpl.
  f_equal. replace (_ - _) with (s * 4096) by lia. by rewrite Z.div_mul.
Qed.

Lemma deallocate_fill a B s n :
  alloc_rep a B → B !! s = Some n →
  ∃ l', deallocate a (base_addr a + s * 4096) =
          Ok {| page_allocated := l'; base_addr := base_addr a |} ∧
        filled (page_allocated a) l' s n 0.
Proof.
  intros Hrep HB. destruct (rep_in _ _ Hrep _ _ HB) as (? & ? & Hfit).
  unfold deallocate. rewrite (offset_page_of_eq _ B) by done. rewrite bind_Ok_l.
  destruct (rep_lookup a B Hrep s) as (x & -> & Hx); [lia|].
  rewrite (rep_fill _ _ Hrep s n s HB) in Hx by lia. simplify_eq. rewrite bind_Ok_l.
  destruct (fill_range (page_allocated a) s x 0 (λ j l, k ← uadd 64 j s; aset l k 0))
    as (l' & -> & Hl'); [lia|lia|..].
  - rewrite (rep_len _ _ Hrep). rewrite MAX_PAGE_eq in *. lia.
  - intros j t Hj. rewrite MAX_PAGE_eq in *. rewrite uadd_small by lia. simpl. f_equal. lia.
  - by exists l'.
Qed.

(** C28: deallocate at the first page of an allocated block removes exactly that block
    from the heap, whatever its size. *)
Theorem deallocate_frees a B s n :
  alloc_rep a B → B !! s = Some n →
  ∃ a', deallocate a (base_addr a + s * PAGE_SIZE) = Ok a' ∧
        alloc_rep a' (delete s B) ∧ base_addr a' = base_addr a.
Proof.
  intros Hrep HB. destruct (deallocate_fill a B s n Hrep HB) as (l' & Heq & Hl').
  layout. rewrite Heq. eexists. split_and!; [done| |done]. by eapply alloc_rep_delete.
Qed.

(** Deallocating what allocate just returned restores the allocator state exactly. *)
Theorem allocate_deallocate_roundtrip a B size p a' :
  alloc_rep a B → 0 < size → size + 4095 < 2 ^ 64 →
  allocate a size = Ok (p, a') → deallocate a' p = Ok a.
Proof.
  intros Hrep Hs Hf Hal. pose proof (pages_of_bounds size Hs Hf) as Hn.
  destruct (allocate_Ok _ _ _ _ _ Hrep Hs Hf Hal) as (s & l' & -> & Hrun & _ & -> & Hl' & Hrep').
  pose proof (deallocate_fill _ _ s (pages_of size) Hrep') as (l2 & Heq & Hl2);
    [by rewrite lookup_insert_eq|]. simpl in *. rewrite Heq. f_equal. destruct a as [l b].
  simpl in *. f_equal. apply list_eq. intros k. rewrite (proj2 Hl2).
  case_decide as Hk; [|by rewrite (filled_out _ _ _ _ _ _ Hl')].
  pose proof (free_run_zero _ _ Hrep s _ (Z.of_nat k) Hrun Hk) as Hz.
  apply aget_Ok in Hz as [_ Hz]. by rewrite Nat2Z.id in Hz.
Qed.

(** Freeing a page that is free already does nothing: a double free goes unnoticed. *)
Lemma deallocate_free_page_noop a s :
  0 ≤ s → page_allocated a !! Z.to_nat s = Some 0 →
  deallocate a (base_addr a + s * PAGE_SIZE) = Ok a.
Proof.
  intros Hs Hz. unfold deallocate, offset_page_of, usub. layout.
  destruct (Z.leb_spec (base_addr a) (base_addr a + s * 4096)); [|lia]. simpl.
  replace (_ - _) with (s * 4096) by lia. rewrite Z.div_mul by done.
  rewrite (proj2 (aget_Ok _ s 0)) by done. by destruct a.
Qed.

(** ** [debug] terminates and prints the blocks *)
Definition debug_line (a : Allocator) (s n : Z) : Z * Z * Z * Z :=
  (s, base_addr a + s * 4096, base_addr a + (s + n) * 4096, n).

(** [j] is on a block boundary and [out] has the blocks before it. *)
Definition debug_inv (a : Allocator) (B : gmap Z Z) (j : Z) (out : list (Z * Z * Z * Z)) : Prop :=
  (∀ s n, B !! s = Some n → s + n ≤ j ∨ j ≤ s) ∧
  (∀ x, x ∈ out ↔ ∃ s n, B !! s = Some n ∧ s < j ∧ x = debug_line a s n).

Lemma debug_step_free a B j out :
  alloc_rep a B → 0 ≤ j → page_allocated a !! Z.to_nat j = Some 0 → debug_inv a B j out →
  debug_inv a B (j + 1) out.
Proof.
  intros Hrep Hj Hz [Hb Ho].
  assert (Hno : B !! j = None).
  { destruct (B !! j) as [n|] eqn:E; [|done]. destruct (rep_in _ _ Hrep _ _ E) as (? & ? & ?).
    rewrite (rep_fill _ _ Hrep j n j E) in Hz by lia. simplify_eq. lia. }
  split.
  - intros s n HB. destruct (Hb _ _ HB); [lia|]. destruct (decide (s = j)); [congruence|lia].
  - intros x. rewrite Ho. split; intros (s & n & HB & ? & ->); exists s, n; split_and!; try done; [lia|].
    destruct (decide (s = j)); [congruence|lia].
Qed.

Lemma debug_step_block a B j n out :
  alloc_rep a B → B !! j = Some n → debug_inv a B j out →
  debug_inv a B (j + n) (out ++ [debug_line a j n]).
Proof.
  intros Hrep Hj [Hb Ho]. destruct (rep_in _ _ Hrep _ _ Hj) as (? & ? & ?). split.
  - intros s m HB. destruct (decide (s = j)) as [->|Hne]; [simplify_eq; lia|].
    destruct (rep_disj _ _ Hrep _ _ _ _ HB Hj Hne); lia.
  - intros x. rewrite elem_of_app, Ho, list_elem_of_singleton. split.
    + intros [(s & m & ? & ? & ->)| ->]; [exists s, m|exists j, n]; split_and!; done || lia.
    + intros (s & m & HB & Hlt & ->). destruct (decide (s = j)) as [->|Hne]; [right; congruence|].
      left. exists s, m. split_and!; [done| |done].
      destruct (rep_in _ _ Hrep _ _ HB) as (? & ? & ?).
      destruct (rep_disj _ _ Hrep _ _ _ _ HB Hj Hne); lia.
Qed.

Lemma debug_loop_total a B : alloc_rep a B → ∀ fuel j out,
  0 ≤ j < MAX_PAGE → MAX_PAGE - j ≤ Z.of_nat fuel → debug_inv a B j out →
  ∃ out', debug_loop fuel a j out = Ok out' ∧ debug_inv a B MAX_PAGE out'.
Proof.
  intros Hrep. induction fuel as [|fuel IH]; intros j out Hj Hfuel Hinv; [lia|].
  cbn [debug_loop]. destruct (rep_lookup a B Hrep j Hj) as (x & -> & Hx).
  rewrite bind_Ok_l. pose proof MAX_PAGE_eq as Hmax.
  case_bool_decide as Hne; last first.
  - assert (x = 0) as -> by (destruct (decide (x = 0)); tauto).
    pose proof (debug_step_free a B j out Hrep ltac:(lia) Hx Hinv) as Hinv'.
    rewrite uadd_small by lia. rewrite !bind_Ok_l. cbn beta iota.
    destruct (Z.eqb_spec (j + 1) MAX_PAGE) as [E|E]; [rewrite E in Hinv'; by eexists|].
    apply IH; done || lia.
  - destruct (rep_cover _ _ Hrep _ _ Hx Hne) as (s & HB & Hs).
    assert (s = j) as -> by (destruct (proj1 Hinv _ _ HB); lia).
    destruct (rep_in _ _ Hrep _ _ HB) as (? & ? & ?).
    rewrite (offset_addr_of_eq _ B) by (done || lia). rewrite bind_Ok_l.
    rewrite uadd_small by lia. rewrite bind_Ok_l.
    rewrite (offset_addr_of_eq _ B) by (done || lia). rewrite !bind_Ok_l. cbn beta iota.
    pose proof (debug_step_block a B j x out Hrep HB Hinv) as Hinv'. unfold debug_line in Hinv'.
    destruct (Z.eqb_spec (j + x) MAX_PAGE) as [E|E]; [eexists; split; [done|]; rewrite <- E; exact Hinv'|].
    apply IH; done || lia.
Qed.

(** Debug always reaches the end of the page array, although it jumps by block sizes
    and tests for equality, and prints exactly the allocated blocks. *)
Theorem debug_terminates a B :
  alloc_rep a B →
  ∃ out, debug a = Ok out ∧
    ∀ s n, B !! s = Some n ↔
      (s, base_addr a + s * PAGE_SIZE, base_addr a + (s + n) * PAGE_SIZE, n) ∈ out.
Proof.
  intros Hrep. destruct (debug_loop_total a B Hrep (Z.to_nat MAX_PAGE) 0 []) as (out & Heq & Hinv).
  - rewrite MAX_PAGE_eq. lia.
  - rewrite MAX_PAGE_eq. lia.
  - split.
    + intros s n HB. destruct (rep_in _ _ Hrep _ _ HB). lia.
    + intros x. rewrite elem_of_nil. split; [done|]. intros (s & n & HB & ? & _).
      destruct (rep_in _ _ Hrep _ _ HB). lia.
  - exists out. split; [done|]. intros s n. layout. rewrite (proj2 Hinv). split.
    + intros HB. exists s, n. destruct (rep_in _ _ Hrep _ _ HB) as (? & ? & ?).
      split_and!; [done|lia|done].
    + intros (s' & n' & HB & _ & [= -> _ _ ->]). done.
Qed.

(** ** Initialisation *)
Lemma init_alloc_eq s a :
  kernel_ld s → length (page_allocated a) = Z.to_nat MAX_PAGE →
  init_alloc s a = Ok {| page_allocated := replicate (Z.to_nat MAX_PAGE) 0;
                         base_addr := pages_of (HEAP_START s) * 4096 |}.
Proof.
  intros Hld Hlen. destruct Hld as [[? ?] [? ?] [? ?] [? ?] [? ?] [? ?] [? ?] ?].
  unfold ORIGIN_ram, LENGTH_ram in *.
  assert (0x80000000 ≤ HEAP_START s ≤ 0x88000000) by lia.
  unfold init_alloc. rewrite align_val_page by (unfold is_u; lia). rewrite bind_Ok_l.
  destruct (fill_range (page_allocated a) 0 MAX_PAGE 0 (λ i l, aset l i 0)) as (l' & -> & Hl').
  - lia.
  - by rewrite MAX_PAGE_eq.
  - rewrite Hlen. lia.
  - intros j t Hj. f_equal.
  - rewrite bind_Ok_l. f_equal. f_equal. apply list_eq. intros k. rewrite (proj2 Hl').
    destruct (decide (k < Z.to_nat MAX_PAGE)%nat).
    + rewrite decide_True by lia. by rewrite lookup_replicate_2.
    + rewrite decide_False by lia. rewrite !lookup_ge_None_2; rewrite ?length_replicate; done || lia.
Qed.

Lemma alloc_rep_empty b :
  b mod 4096 = 0 → 0 < b → b + MAX_PAGE * 4096 ≤ 2 ^ 63 →
  alloc_rep {| page_allocated := replicate (Z.to_nat MAX_PAGE) 0; base_addr := b |} ∅.
Proof.
  intros Hb H0 Hhi. split; cbn [page_allocated base_addr]; layout;
    try done; try (intros *; rewrite lookup_empty; done); try apply length_replicate.
  intros k n [-> _]%lookup_replicate_1 Hne. done.
Qed.

(** The heap after boot is empty and starts on the first page boundary of the region. *)
Lemma init_alloc_empty s a :
  kernel_ld s → length (page_allocated a) = Z.to_nat MAX_PAGE →
  ∃ a', init_alloc s a = Ok a' ∧ alloc_rep a' ∅ ∧
        HEAP_START s ≤ base_addr a' < HEAP_START s + PAGE_SIZE.
Proof.
  intros Hld Hlen. rewrite init_alloc_eq by done.
  destruct Hld as [[? ?] [? ?] [? ?] [? ?] [? ?] [? ?] [? ?] ?].
  unfold ORIGIN_ram, LENGTH_ram in *. unfold pages_of.
  pose proof (Z.div_mod (HEAP_START s + 4095) 4096).
  pose proof (Z.mod_pos_bound (HEAP_START s + 4095) 4096).
  eexists. split_and!; [done| |cbn; layout; lia..].
  apply alloc_rep_empty; [by rewrite Z.mod_mul|lia|rewrite MAX_PAGE_eq; lia].
Qed.

(** On the memory layout of kernel.ld the allocator hands out MAX_PAGE pages although
    the heap region is smaller: the block it returns runs past the end of RAM. *)
Theorem allocator_exceeds_ram s a :
  kernel_ld s → length (page_allocated a) = Z.to_nat MAX_PAGE →
  ∃ a0 p a1, init_alloc s a = Ok a0 ∧ allocate a0 (MAX_PAGE * PAGE_SIZE) = Ok (p, a1) ∧
    HEAP_SIZE s < MAX_PAGE * PAGE_SIZE ∧
    ORIGIN_ram + LENGTH_ram < p + MAX_PAGE * PAGE_SIZE.
Proof.
  intros Hld Hlen. rewrite init_alloc_eq by done.
  destruct Hld as [[? ?] [? ?] [? ?] [? ?] [? ?] [? ?] [? ?] ?].
  unfold ORIGIN_ram, LENGTH_ram in *.
  assert (HEAP_START s ≤ pages_of (HEAP_START s) * 4096 ≤ HEAP_START s + 4095).
  { unfold pages_of. pose proof (Z.div_mod (HEAP_START s + 4095) 4096).
    pose proof (Z.mod_pos_bound (HEAP_START s + 4095) 4096). lia. }
  pose proof MAX_PAGE_eq as Hmax.
  destruct (allocate_search_found {| page_allocated := replicate (Z.to_nat MAX_PAGE) 0;
      base_addr := pages_of (HEAP_START s) * 4096 |} ∅ MAX_PAGE 0) as (l' & Heq & _).
  - apply alloc_rep_empty; [by rewrite Z.mod_mul|lia|lia].
  - lia.
  - split_and!; [lia|lia|]. intros *. by rewrite lookup_empty.
  - by intros s' [? _].
  - do 3 eexists. split_and!; [done| |layout; lia|].
    + rewrite allocate_unfold by (layout; lia). layout.
      replace (pages_of (MAX_PAGE * 4096)) with MAX_PAGE by (by rewrite MAX_PAGE_eq). rewrite Heq. done.
    + cbn [base_addr]. layout. lia.
Qed.

(** ** Kernel stacks: a process takes a block of 1024 pages *)
Definition big_blocks (B : gmap Z Z) : list Z :=
  map fst (filter (λ b : Z * Z, 1024 ≤ b.2) (map_to_list B)).

Lemma big_blocks_spec B s : s ∈ big_blocks B ↔ ∃ n, B !! s = Some n ∧ 1024 ≤ n.
Proof.
  unfold big_blocks. rewrite list_elem_of_fmap. split.
  - intros ([s' n] & -> & [Hn Hin]%list_elem_of_filter). apply elem_of_map_to_list in Hin.
    exists n. done.
  - intros (n & HB & Hn). exists (s, n). split; [done|]. apply list_elem_of_filter.
    split; [done|]. by apply elem_of_map_to_list.
Qed.

Lemma big_blocks_NoDup B : NoDup (big_blocks B).
Proof.
  unfold big_blocks. apply NoDup_fmap_2_strong.
  - intros [s n] [s' n'] [_ H]%list_elem_of_filter [_ H']%list_elem_of_filter [= ->].
    apply elem_of_map_to_list in H, H'. congruence.
  - apply list.NoDup_filter, NoDup_map_to_list.
Qed.

(** At most 32 kernel stacks of 1024 pages are ever allocated at once, fewer than the
    NMAXPROCS processes the pool has slots for. *)
Theorem kernel_stacks_bounded a B :
  alloc_rep a B → (length (big_blocks B) ≤ 32)%nat ∧ 32 < NMAXPROCS.
Proof.
  intros Hrep. split; [|done].
  rewrite <- (length_fmap (λ s, s / 1024) (big_blocks B)).
  change 32%nat with (length (seqZ 0 32)). apply submseteq_length, NoDup_submseteq.
  - apply NoDup_fmap_2_strong; [|apply big_blocks_NoDup].
    intros s s' (n & HB & Hn)%big_blocks_spec (n' & HB' & Hn')%big_blocks_spec Heq.
    destruct (decide (s = s')) as [|Hne]; [done|]. exfalso.
    pose proof (Z.div_mod s 1024). pose proof (Z.div_mod s' 1024).
    pose proof (Z.mod_pos_bound s 1024). pose proof (Z.mod_pos_bound s' 1024).
    destruct (rep_disj _ _ Hrep _ _ _ _ HB HB' Hne); lia.
  - intros q. rewrite list_elem_of_fmap. intros (s & -> & (n & HB & Hn)%big_blocks_spec).
    destruct (rep_in _ _ Hrep _ _ HB) as (? & ? & ?). rewrite MAX_PAGE_eq in *.
    apply elem_of_seqZ. split; [apply Z.div_pos; lia|apply Z.div_lt_upper_bound; lia].
Qed.

(** ** The interface the rest of the kernel allocates through

    [GlobalAlloc] is the trait of [#[global_allocator]]: [Box::new] of a [T] calls
    [galloc] with its size, dropping a [Box] calls [gdealloc].  [GlobalAllocLaws]
    is what [Box] users rely on; [owned a B] says that the live blocks are [B],
    from the address of a block to its number of pages. *)
Class GlobalAlloc (A : Type) := {
  galloc : Z → A → result (Z * A);
  gdealloc : Z → A → result A;
}.

Class GlobalAllocLaws (A : Type) `{GlobalAlloc A} := {
  heap_base : A → Z;
  owned : A → gmap Z Z → Prop;
  owned_block a B p n : owned a B → B !! p = Some n →
    p mod PAGE_SIZE = 0 ∧ 0 < p ∧ 0 < n ∧ p + n * PAGE_SIZE ≤ 2 ^ 63;
  owned_apart a B p n q m : owned a B → B !! p = Some n → B !! q = Some m → p ≠ q →
    apart p (n * PAGE_SIZE) q (m * PAGE_SIZE);
  galloc_new a B size p a' : owned a B → 0 < size → size + 4095 < 2 ^ 64 →
    galloc size a = Ok (p, a') →
    B !! p = None ∧ heap_base a ≤ p ∧ heap_base a' = heap_base a ∧
    owned a' (<[p := pages_of size]> B);
  gdealloc_owned a B p n : owned a B → B !! p = Some n →
    ∃ a', gdealloc p a = Ok a' ∧ heap_base a' = heap_base a ∧ owned a' (delete p B);
}.

(** [unsafe impl GlobalAlloc for OsAllocator]; the [Layout]'s size is all it uses. *)
#[export] Instance OsAllocator : GlobalAlloc Allocator := {|
  galloc size a := allocate a size;
  gdealloc p a := deallocate a p;
|}.

Definition page_addr (b s : Z) : Z := b + s * 4096.
#[export] Instance page_addr_inj b : Inj (=) (=) (page_addr b).
Proof. intros s s'. unfold page_addr. lia. Qed.

Definition os_owned (a : Allocator) (M : gmap Z Z) : Prop :=
  ∃ B, alloc_rep a B ∧ M = kmap (page_addr (base_addr a)) B.

Lemma os_owned_block a B p n :
  os_owned a B → B !! p = Some n →
  p mod PAGE_SIZE = 0 ∧ 0 < p ∧ 0 < n ∧ p + n * PAGE_SIZE ≤ 2 ^ 63.
Proof.
  intros (B' & Hrep & ->) (s & -> & Hs)%lookup_kmap_Some; [|apply _].
  destruct (rep_in _ _ Hrep _ _ Hs) as (? & ? & ?). unfold page_addr.
  pose proof (rep_base _ _ Hrep). pose proof (rep_low _ _ Hrep). pose proof (rep_high _ _ Hrep).
  layout. split_and!; [|lia..]. rewrite Z.add_mod, Z.mod_mul by lia.
  rewrite Z.add_0_r, Z.mod_mod by lia. done.
Qed.

Lemma os_owned_apart a B p n q m :
  os_owned a B → B !! p = Some n → B !! q = Some m → p ≠ q →
  apart p (n * PAGE_SIZE) q (m * PAGE_SIZE).
Proof.
  intros (B' & Hrep & ->) (s & -> & Hs)%lookup_kmap_Some (s' & -> & Hs')%lookup_kmap_Some Hne;
    [|apply _..].
  destruct (rep_disj _ _ Hrep _ _ _ _ Hs Hs') as [?|?]; [congruence|..]; layout;
    unfold apart, page_addr; lia.
Qed.

Lemma os_galloc_new a B size p a' :
  os_owned a B → 0 < size → size + 4095 < 2 ^ 64 → galloc size a = Ok (p, a') →
  B !! p = None ∧ base_addr a ≤ p ∧ base_addr a' = base_addr a ∧
  os_owned a' (<[p := pages_of size]> B).
Proof.
  intros (B' & Hrep & ->) H0 Hs Hal.
  destruct (allocate_Ok _ _ _ _ _ Hrep H0 Hs Hal) as (s & l' & -> & Hrun & _ & -> & _ & Hrep').
  split_and!; [|destruct Hrun as (? & _); lia|done|].
  - apply (lookup_kmap_None _ _ _). intros s' Hs'.
    assert (s' = s) as -> by (unfold page_addr in Hs'; lia).
    destruct (B' !! s) as [n|] eqn:E; [|done]. destruct Hrun as (_ & _ & Hfree).
    destruct (rep_in _ _ Hrep _ _ E) as (? & ? & ?). pose proof (pages_of_pos size H0).
    destruct (Hfree _ _ E); lia.
  - eexists. split; [done|]. cbn [base_addr]. symmetry. apply (kmap_insert (page_addr (base_addr a))).
Qed.

Lemma os_gdealloc_owned a B p n :
  os_owned a B → B !! p = Some n →
  ∃ a', gdealloc p a = Ok a' ∧ base_addr a' = base_addr a ∧ os_owned a' (delete p B).
Proof.
  intros (B' & Hrep & ->) (s & -> & Hs)%lookup_kmap_Some; [|apply _].
  destruct (deallocate_fill _ _ _ _ Hrep Hs) as (l' & Heq & Hl').
  eexists. split_and!; [exact Heq|done|]. eexists. split; [by eapply alloc_rep_delete|].
  cbn [base_addr]. symmetry. apply (kmap_delete (page_addr (base_addr a))).
Qed.

#[export] Instance OsAllocatorLaws : GlobalAllocLaws Allocator := {|
  heap_base := base_addr;
  owned := os_owned;
  owned_block := os_owned_block;
  owned_apart := os_owned_apart;
  galloc_new := os_galloc_new;
  gdealloc_owned := os_gdealloc_owned;
|}.

(** ** Concrete heaps: the properties above at work *)
Definition is_ok {X} (r : result X) : bool := match r with Ok _ => true | Err _ => false end.

Lemma is_ok_Ok {X} (r : result X) : is_ok r = true → ∃ x, r = Ok x.
Proof. destruct r; [by eauto|done]. Qed.

(** The heap after boot, 2 MiB into RAM, and the heap after one request of 5000 bytes *)
Definition heap0 : Allocator :=
  {| page_allocated := replicate (Z.to_nat MAX_PAGE) 0; base_addr := 0x80200000 |}.
Definition heap1 : Allocator :=
  match allocate heap0 5000 with Ok (_, a) => a | Err _ => heap0 end.

Lemma heap0_rep : alloc_rep heap0 ∅.
Proof. apply alloc_rep_empty; [reflexivity|lia|rewrite MAX_PAGE_eq; lia]. Qed.

Lemma heap1_allocate : allocate heap0 5000 = Ok (0x80200000, heap1).
Proof.
  assert (match allocate heap0 5000 with Ok (p, _) => p =? 0x80200000 | _ => false end = true) as Hp
    by (vm_compute; reflexivity).
  unfold heap1. destruct (allocate heap0 5000) as [[p a]|]; [|done]. by apply Z.eqb_eq in Hp as ->.
Qed.

Lemma heap1_rep : alloc_rep heap1 {[0 := 2]}.
Proof.
  destruct (allocate_Ok heap0 ∅ 5000 0x80200000 heap1 heap0_rep) as (s & l' & Hs & _ & _ & _ & _ & Hrep);
    [lia|lia|exact heap1_allocate|].
  change (base_addr heap0) with 0x80200000 in Hs. assert (s = 0) as -> by lia. exact Hrep.
Qed.

Lemma allocate_first_fit_witness :
  ∃ a', allocate heap1 4096 = Ok (base_addr heap1 + 2 * PAGE_SIZE, a') ∧ alloc_rep a' (<[2 := 1]> {[0 := 2]}) ∧
        base_addr a' = base_addr heap1.
Proof.
  apply (allocate_first_fit heap1 {[0 := 2]} 4096 2).
  - apply heap1_rep.
  - lia.
  - lia.
  - split_and!; [lia|rewrite MAX_PAGE_eq; change (pages_of 4096) with 1; lia|]. intros s' n' [<- <-]%lookup_singleton_Some. right. lia.
  - intros s' (Hs & _ & Hf). destruct (Hf 0 2) as [H|H]; [done|change (pages_of 4096) with 1 in H; lia|lia].
Defined.

Lemma allocate_exhausted_witness :
  allocate heap1 (32767 * 4096) = Err (Panic "no available page") ∨
  allocate heap1 (32767 * 4096) = Err IndexOOB.
Proof.
  apply (allocate_exhausted heap1 {[0 := 2]}).
  - apply heap1_rep.
  - lia.
  - lia.
  - intros s (Hs & Hm & Hf). change (pages_of (32767 * 4096)) with 32767 in *.
    rewrite MAX_PAGE_eq in Hm. destruct (Hf 0 2) as [H|H]; [done|lia|lia].
Defined.

Lemma deallocate_frees_witness :
  ∃ a', deallocate heap1 (base_addr heap1 + 0 * PAGE_SIZE) = Ok a' ∧
        alloc_rep a' (delete 0 {[0 := 2]}) ∧ base_addr a' = base_addr heap1.
Proof. apply (deallocate_frees heap1 {[0 := 2]} 0 2); [apply heap1_rep|done]. Defined.

Lemma allocate_deallocate_roundtrip_witness : deallocate heap1 0x80200000 = Ok heap0.
Proof.
  apply (allocate_deallocate_roundtrip heap0 ∅ 5000); [apply heap0_rep|lia|lia|apply heap1_allocate].
Defined.

Lemma debug_terminates_witness :
  ∃ out, debug heap1 = Ok out ∧ ∀ s n, ({[0 := 2]} : gmap Z Z) !! s = Some n ↔
    (s, base_addr heap1 + s * PAGE_SIZE, base_addr heap1 + (s + n) * PAGE_SIZE, n) ∈ out.
Proof. apply (debug_terminates heap1 {[0 := 2]}). apply heap1_rep. Defined.

(** A link of the kernel, and the heap it gives *)
Definition link0 : linker_symbols := {|
  TEXT_START := 0x80000000; TRAMPOLINE_TEXT_START := 0x80001000; TEXT_END := 0x80040000;
  RODATA_START := 0x80040000; RODATA_END := 0x80050000;
  DATA_START := 0x80050000; DATA_END := 0x80060000;
  BSS_START := 0x80060000; BSS_END := 0x80100000;
  KERNEL_STACK_START := 0x80100000; KERNEL_STACK_END := 0x80180000;
  HEAP_START := 0x80180000; HEAP_SIZE := 0x07e80000 |}.

Lemma link0_ld : kernel_ld link0.
Proof. split; vm_compute; intuition discriminate. Qed.

Lemma allocator_exceeds_ram_witness :
  ∃ a0 p a1, init_alloc link0 Allocator_new = Ok a0 ∧ allocate a0 (MAX_PAGE * PAGE_SIZE) = Ok (p, a1) ∧
    HEAP_SIZE link0 < MAX_PAGE * PAGE_SIZE ∧ ORIGIN_ram + LENGTH_ram < p + MAX_PAGE * PAGE_SIZE.
Proof. apply (allocator_exceeds_ram link0 Allocator_new); [apply link0_ld|apply length_replicate]. Defined.

Lemma kernel_stacks_bounded_witness : (length (big_blocks {[0%Z := 2%Z]}) ≤ 32)%nat ∧ 32 < NMAXPROCS.
Proof. apply (kernel_stacks_bounded heap1). apply heap1_rep. Defined.
