(* ===== verification/Page.v ===== *)
(** * Page tables: entries, addresses and the operations on Sv39 trees

    [kernel/src/page.rs].  A physical frame holds either a [Table] of 512 entries
    or a [Page] of 4096 bytes; [kmem] is the global allocator with the contents of
    the frames.  A [&Table] is the address of its frame.  Freeing a frame changes
    the allocator and leaves the contents in place, as the machine does. *)

From S2P Require Import Prelude Symbols Mem.

Definition TABLE_ENTRY_CNT : Z := 512.

(** ** Entries and addresses *)
Module EntryAttributes.
Definition D : Z := Z.shiftl 1 7.
Definition A : Z := Z.shiftl 1 6.
Definition G : Z := Z.shiftl 1 5.
Definition U : Z := Z.shiftl 1 4.
Definition X : Z := Z.shiftl 1 3.
Definition W : Z := Z.shiftl 1 2.
Definition R : Z := Z.shiftl 1 1.
Definition V : Z := Z.shiftl 1 0.
Definition RW : Z := Z.shiftl 3 1.
Definition RX : Z := Z.shiftl 5 1.
Definition UR : Z := 18.
Definition URW : Z := 22.
Definition URX : Z := 26.
End EntryAttributes.

Definition has (e mask : Z) : bool := negb (Z.land e mask =? 0).

Definition is_d (e : Z) : bool := has e EntryAttributes.D.
Definition is_a (e : Z) : bool := has e EntryAttributes.A.
Definition is_g (e : Z) : bool := has e EntryAttributes.G.
Definition is_user (e : Z) : bool := has e EntryAttributes.U.
Definition is_x (e : Z) : bool := has e EntryAttributes.X.
Definition is_w (e : Z) : bool := has e EntryAttributes.W.
Definition is_r (e : Z) : bool := has e EntryAttributes.R.
Definition is_v (e : Z) : bool := has e EntryAttributes.V.
Definition is_leaf (e : Z) : bool := has e 0xe.
Definition Entry_paddr (e : Z) : Z := ushl 64 (Z.land e (unot 64 0x3ff)) 2.
Definition Entry_flags (e : Z) : Z := Z.land e 0x3ff.
Definition Entry_new (ppn flags : Z) : Z :=
  Z.lor (Z.shiftr (Z.land ppn (unot 64 0xfff)) 2) flags.

Definition ppn0 (a : Z) : Z := Z.land (Z.shiftr a 12) 0x1ff.
Definition ppn1 (a : Z) : Z := Z.land (Z.shiftr a 21) 0x1ff.
Definition ppn2 (a : Z) : Z := Z.land (Z.shiftr a 30) 0x3ffffff.
Definition PPN_idx (a id : Z) : result Z :=
  match id with
  | 0 => Ok (ppn0 a)
  | 1 => Ok (ppn1 a)
  | 2 => Ok (ppn2 a)
  | _ => Err Unreachable
  end.

Definition vpn0 (a : Z) : Z := Z.land (Z.shiftr a 12) 0x1ff.
Definition vpn1 (a : Z) : Z := Z.land (Z.shiftr a 21) 0x1ff.
Definition vpn2 (a : Z) : Z := Z.land (Z.shiftr a 30) 0x1ff.
Definition VPN_idx (a id : Z) : result Z :=
  match id with
  | 0 => Ok (vpn0 a)
  | 1 => Ok (vpn1 a)
  | 2 => Ok (vpn2 a)
  | _ => Err Unreachable
  end.

(** ** Frames and the kernel's memory *)
Inductive frame :=
  | FTable (entries : list Z)
  | FPage (data : list Z).

Record kmem (A : Type) := KMem { ga : A; frames : gmap Z frame }.
Arguments KMem {A} ga frames.
Arguments ga {A} k.
Arguments frames {A} k.

Definition Table_new : list Z := replicate 512 0.
Definition Table_len : Z := TABLE_ENTRY_CNT.
Definition zero_page : list Z := replicate 4096 0.

Section ops.
Context {A : Type} `{GlobalAlloc A}.
Implicit Types m : kmem A.

(** [Box::new] of a value that fills a frame, and dropping such a [Box]. *)
Definition box_frame (f : frame) m : result (Z * kmem A) :=
  '(p, a) ← galloc PAGE_SIZE (ga m);
  Ok (p, KMem a (<[p := f]> (frames m))).
Definition drop_frame (p : Z) m : result (kmem A) :=
  a ← gdealloc p (ga m);
  Ok (KMem a (frames m)).

Definition Page_new m : result (Z * kmem A) := box_frame (FPage zero_page) m.

(** [&*(p as *const Table)], its entries, and an entry written back. *)
Definition table_at m (t : Z) : result (list Z) :=
  match frames m !! t with Some (FTable es) => Ok es | _ => Err BadAccess end.
Definition page_at m (p : Z) : result (list Z) :=
  match frames m !! p with Some (FPage d) => Ok d | _ => Err BadAccess end.
Definition read_entry m (t i : Z) : result Z := es ← table_at m t; aget es i.
Definition write_entry m (t i e : Z) : result (kmem A) :=
  es ← table_at m t;
  es ← aset es i e;
  Ok (KMem (ga m) (<[t := FTable es]> (frames m))).

(** [PPN::clone_page] *)
Definition clone_page (p : Z) m : result (Z * kmem A) :=
  '(pg, m) ← Page_new m;
  d ← page_at m p;
  Ok (pg, KMem (ga m) (<[pg := FPage d]> (frames m))).

(** ** [map_addr] and its users *)

(** [for lvl in (level..2).rev()] *)
Definition levels (level : Z) : list Z := rev (seqZ level (2 - level)).

(** The loop of [map_addr]; the reference [v] is the entry [i] of the table [t]. *)
Fixpoint map_walk (lvls : list Z) (vpn t i : Z) m : result (Z * Z * kmem A) :=
  match lvls with
  | [] => Ok (t, i, m)
  | lvl :: lvls =>
      v ← read_entry m t i;
      '(v, m) ←
        (if is_v v then Ok (v, m)
         else
           '(page, m) ← box_frame (FTable Table_new) m;
           let v := Entry_new page EntryAttributes.V in
           m ← write_entry m t i v;
           Ok (v, m));
      let entry := Entry_paddr v in
      idx ← VPN_idx vpn lvl;
      _ ← panic_if (entry + 8 * idx =? 0) UnwrapNone;
      map_walk lvls vpn entry idx m
  end.

Definition map_addr (self vaddr paddr flags level : Z) m : result (kmem A) :=
  _ ← panic_if (negb (paddr mod PAGE_SIZE =? 0)) (Panic "paddr {:x} not aligned");
  _ ← panic_if (negb (vaddr mod PAGE_SIZE =? 0)) (Panic "vaddr {:x} not aligned");
  '(t, i, m) ← map_walk (levels level) vaddr self (vpn2 vaddr) m;
  write_entry m t i (Entry_new paddr (Z.lor flags EntryAttributes.V)).

(** [Table::map]; [pg] is the raw address of the boxed page. *)
Definition Table_map (self vaddr pg flags : Z) m : result (kmem A) :=
  _ ← panic_if (Z.land flags EntryAttributes.U =? 0) (Panic "you may only map user page");
  map_addr self vaddr pg flags 0 m.

Definition kernel_map (self vaddr paddr flags : Z) m : result (kmem A) :=
  _ ← panic_if (negb (Z.land flags EntryAttributes.U =? 0)) (Panic "you may only map kernel page");
  map_addr self vaddr paddr flags 0 m.

(** The loop of [paddr_of]. *)
Fixpoint paddr_walk (lvls : list Z) (vpn t i : Z) m : result (option Z) :=
  v ← read_entry m t i;
  match lvls with
  | [] => Ok (Some (Entry_paddr v))
  | lvl :: lvls =>
      if is_v v then
        let entry := Entry_paddr v in
        idx ← VPN_idx vpn lvl;
        _ ← panic_if (entry + 8 * idx =? 0) UnwrapNone;
        paddr_walk lvls vpn entry idx m
      else Ok None
  end.

Definition paddr_of (self vaddr : Z) m : result (option Z) :=
  _ ← read_entry m self (vpn2 vaddr);
  _ ← panic_if (negb (vaddr mod PAGE_SIZE =? 0)) (Panic "vaddr {:x} not aligned");
  paddr_walk (levels 0) vaddr self (vpn2 vaddr) m.

Definition id_map_range (self start end_ bits : Z) m : result (kmem A) :=
  memaddr ← align_val_down start PAGE_ORDER;
  e ← align_val end_ 12;
  d ← usub e memaddr;
  '(_, m) ← for_range 0 (d / PAGE_SIZE) (λ _ '(memaddr, m),
      m ← map_addr self memaddr memaddr bits 0 m;
      memaddr ← uadd 64 memaddr PAGE_SIZE;
      Ok (memaddr, m)) (memaddr, m);
  Ok m.

Definition map_range (self start end_ vaddr_start bits : Z) m : result (kmem A) :=
  let memaddr := Z.land start (unot 64 (PAGE_SIZE - 1)) in
  let vaddr_start := Z.land vaddr_start (unot 64 (PAGE_SIZE - 1)) in
  e ← align_val end_ 12;
  d ← usub e memaddr;
  '(_, _, m) ← for_range 0 (d / PAGE_SIZE) (λ _ '(memaddr, vaddr_start, m),
      m ← map_addr self vaddr_start memaddr bits 0 m;
      memaddr ← uadd 64 memaddr (Z.shiftl 1 12);
      vaddr_start ← uadd 64 vaddr_start (Z.shiftl 1 12);
      Ok (memaddr, vaddr_start, m)) (memaddr, vaddr_start, m);
  Ok m.

(** ** Whole-tree walks

    The source recurses down the tree; [fuel] bounds the depth. *)
Definition ptr_unwrap (p : Z) : result unit := panic_if (p =? 0) UnwrapNone.

(** [unmap_user] *)
Fixpoint unmap_user (fuel : nat) (self : Z) m : result (kmem A) :=
  match fuel with
  | O => Err NoFuel
  | S fuel =>
      for_range 0 Table_len (λ i m,
        v ← read_entry m self i;
        if is_v v then
          if is_leaf v then
            if is_user v then
              m ← write_entry m self i 0;
              drop_frame (Entry_paddr v) m
            else Ok m
          else
            _ ← ptr_unwrap (Entry_paddr v);
            unmap_user fuel (Entry_paddr v) m
        else Ok m) m
  end.

(** [clone_walk]: returns the address of the new boxed table. *)
Fixpoint clone_walk (fuel : nat) (self level : Z) m : result (Z * kmem A) :=
  match fuel with
  | O => Err NoFuel
  | S fuel =>
      '(pgtable, m) ← for_range 0 Table_len (λ i '(pgtable, m),
        v ← read_entry m self i;
        if is_v v then
          if is_leaf v then
            if is_user v then
              '(pg, m) ← clone_page (Entry_paddr v) m;
              pgtable ← aset pgtable i (Entry_new pg (Entry_flags v));
              Ok (pgtable, m)
            else Ok (pgtable, m)
          else
            _ ← ptr_unwrap (Entry_paddr v);
            level ← usub level 1;
            '(pg, m) ← clone_walk fuel (Entry_paddr v) level m;
            pgtable ← aset pgtable i (Entry_new pg (Entry_flags v));
            Ok (pgtable, m)
        else Ok (pgtable, m)) (Table_new, m);
      box_frame (FTable pgtable) m
  end.

(** [impl Clone for Box<Table>] *)
Definition Table_clone (self : Z) m : result (Z * kmem A) := clone_walk 3 self 2 m.

(** [drop_walk].  The inner [Box<Table>] goes out of scope after its own
    [drop_walk(level - 1)], which runs [impl Drop for Table] on it
    ([drop_walk(2)]) before its frame is freed. *)
Fixpoint drop_walk (fuel : nat) (self level : Z) m : result (kmem A) :=
  match fuel with
  | O => Err NoFuel
  | S fuel =>
      for_range 0 Table_len (λ i m,
        v ← read_entry m self i;
        if is_v v then
          if is_leaf v then
            if is_user v then drop_frame (Entry_paddr v) m else Ok m
          else
            level ← usub level 1;
            m ← drop_walk fuel (Entry_paddr v) level m;
            m ← drop_walk fuel (Entry_paddr v) 2 m;
            drop_frame (Entry_paddr v) m
        else Ok m) m
  end.

(** [impl Drop for Table] *)
Definition Table_drop (self : Z) m : result (kmem A) := drop_walk 3 self 2 m.
End ops.

(** ** Encoding of entries *)
Lemma land_high_low q k x : 0 ≤ k → 0 ≤ x < 2 ^ k → Z.land (q * 2 ^ k) x = 0.
Proof.
  intros Hk Hx. apply Z.bits_inj'. intros i Hi. rewrite Z.land_spec, Z.bits_0.
  destruct (Z.lt_ge_cases i k).
  - by rewrite Z.mul_pow2_bits_low by lia.
  - by rewrite (testbit_is_u k x i), andb_false_r.
Qed.

Lemma lor_high_low q k x : 0 ≤ k → 0 ≤ x < 2 ^ k → Z.lor (q * 2 ^ k) x = q * 2 ^ k + x.
Proof.
  intros Hk Hx. symmetry. rewrite Z.add_nocarry_lxor by (by apply land_high_low).
  by rewrite Z.lxor_lor by (by apply land_high_low).
Qed.

(** A page-aligned word is its page number times 4096. *)
Lemma page_aligned p : p mod 4096 = 0 → p = p / 4096 * 4096.
Proof. intros Hp. pose proof (Z.div_mod p 4096). lia. Qed.

Lemma Entry_new_arith p f :
  is_usize p → p mod PAGE_SIZE = 0 → 0 ≤ f < 2 ^ 10 →
  Entry_new p f = p / 4096 * 2 ^ 10 + f.
Proof.
  intros Hp Ha Hf. layout. unfold Entry_new.
  rewrite land_unot by (done || lia). change 0xfff with (Z.ones 12).
  rewrite ldiff_ones by lia. change (2 ^ 12) with 4096. rewrite Ha, Z.sub_0_r.
  rewrite Z.shiftr_div_pow2 by lia. rewrite (page_aligned p Ha) at 1.
  replace (p / 4096 * 4096) with (p / 4096 * 2 ^ 10 * 2 ^ 2) by lia.
  rewrite Z.div_mul by lia. by apply lor_high_low.
Qed.

Lemma Entry_paddr_arith e : is_usize e → Entry_paddr e = (e / 2 ^ 10 * 4096) mod 2 ^ 64.
Proof.
  intros He. unfold Entry_paddr, ushl. rewrite land_unot by (done || lia).
  change 0x3ff with (Z.ones 10). rewrite ldiff_ones, Z.land_ones, Z.shiftl_mul_pow2 by lia.
  f_equal. pose proof (Z.div_mod e (2 ^ 10)). lia.
Qed.

Lemma Entry_new_usize p f :
  is_usize p → p mod PAGE_SIZE = 0 → 0 ≤ f < 2 ^ 10 → is_usize (Entry_new p f).
Proof.
  intros Hp Ha Hf. rewrite Entry_new_arith by done. destruct Hp.
  pose proof (Z.div_pos p 4096). split; [lia|].
  assert (p / 4096 < 2 ^ 52) by (apply Z.div_lt_upper_bound; lia). lia.
Qed.

Lemma Entry_paddr_new p f :
  is_usize p → p mod PAGE_SIZE = 0 → 0 ≤ f < 2 ^ 10 → Entry_paddr (Entry_new p f) = p.
Proof.
  intros Hp Ha Hf. rewrite Entry_paddr_arith by (by apply Entry_new_usize).
  rewrite Entry_new_arith by done. layout.
  rewrite Z.div_add_l, (Z.div_small f), Z.add_0_r by lia.
  rewrite <- (page_aligned p Ha). by apply Z.mod_small.
Qed.

Lemma Entry_land_new p f mask :
  is_usize p → p mod PAGE_SIZE = 0 → 0 ≤ f < 2 ^ 10 → 0 ≤ mask < 2 ^ 10 →
  Z.land (Entry_new p f) mask = Z.land f mask.
Proof.
  intros Hp Ha Hf Hm. rewrite Entry_new_arith by done.
  rewrite <- lor_high_low by (done || lia).
  by rewrite Z.land_lor_distr_l, land_high_low, Z.lor_0_l by (done || lia).
Qed.

Lemma Entry_flags_new p f :
  is_usize p → p mod PAGE_SIZE = 0 → 0 ≤ f < 2 ^ 10 → Entry_flags (Entry_new p f) = f.
Proof.
  intros. unfold Entry_flags. rewrite Entry_land_new by done. change 0x3ff with (Z.ones 10).
  rewrite Z.land_ones by lia. by apply Z.mod_small.
Qed.

Lemma has_new p f mask :
  is_usize p → p mod PAGE_SIZE = 0 → 0 ≤ f < 2 ^ 10 → 0 ≤ mask < 2 ^ 10 →
  has (Entry_new p f) mask = has f mask.
Proof. intros. unfold has. by rewrite Entry_land_new. Qed.

Lemma Entry_paddr_bounds e : is_usize e → is_usize (Entry_paddr e) ∧ Entry_paddr e mod PAGE_SIZE = 0.
Proof.
  intros He. rewrite Entry_paddr_arith by done. layout. split; [apply Z.mod_pos_bound; lia|].
  change (2 ^ 64) with (2 ^ 52 * 4096). rewrite Z.mul_mod_distr_r by lia. by apply Z.mod_mul.
Qed.

(** An entry built from a page address and flags decodes to that address, those flags
    and the flags' V, U and leaf bits. *)
Theorem entry_roundtrip p f :
  is_usize p → p mod PAGE_SIZE = 0 → 0 ≤ f < 2 ^ 10 →
  Entry_paddr (Entry_new p f) = p ∧ Entry_flags (Entry_new p f) = f ∧
  is_v (Entry_new p f) = is_v f ∧ is_user (Entry_new p f) = is_user f ∧
  is_leaf (Entry_new p f) = is_leaf f.
Proof.
  intros. split_and!; [by apply Entry_paddr_new|by apply Entry_flags_new|
    unfold is_v, is_user, is_leaf; apply has_new; done..].
Qed.

(** Rebuilding an entry from its decoded address and flags gives the entry back, for
    every entry whose reserved top bits are clear. *)
Theorem entry_roundtrip_decode e :
  is_usize e → e < 2 ^ 54 → Entry_new (Entry_paddr e) (Entry_flags e) = e.
Proof.
  intros He Hs. destruct (Entry_paddr_bounds e He).
  assert (Hf : Entry_flags e = e mod 2 ^ 10).
  { unfold Entry_flags. change 0x3ff with (Z.ones 10). by rewrite Z.land_ones by lia. }
  pose proof (Z.mod_pos_bound e (2 ^ 10)). rewrite Entry_new_arith by (done || lia).
  rewrite Entry_paddr_arith, Hf by done. unfold is_u in He.
  assert (e / 2 ^ 10 < 2 ^ 44) by (apply Z.div_lt_upper_bound; lia).
  pose proof (Z.div_pos e (2 ^ 10)). pose proof (Z.div_mod e (2 ^ 10)).
  rewrite Z.mod_small, Z.div_mul by lia. lia.
Qed.

Lemma entry_roundtrip_witness :
  Entry_paddr (Entry_new 0x80201000 EntryAttributes.URX) = 0x80201000 ∧
  Entry_flags (Entry_new 0x80201000 EntryAttributes.URX) = EntryAttributes.URX ∧
  is_v (Entry_new 0x80201000 EntryAttributes.URX) = is_v EntryAttributes.URX ∧
  is_user (Entry_new 0x80201000 EntryAttributes.URX) = is_user EntryAttributes.URX ∧
  is_leaf (Entry_new 0x80201000 EntryAttributes.URX) = is_leaf EntryAttributes.URX.
Proof. apply (entry_roundtrip 0x80201000 EntryAttributes.URX); [split; lia|reflexivity|split; vm_compute; done]. Defined.

Lemma entry_roundtrip_decode_witness :
  Entry_new (Entry_paddr 0x2008041b) (Entry_flags 0x2008041b) = 0x2008041b.
Proof. apply (entry_roundtrip_decode 0x2008041b); [split; lia|lia]. Defined.
