(* ===== verification/PageTree.v ===== *)
(** * Page-table trees: well-formedness and the abstract mapping

    A tree of level [lvl] is a table whose valid entries are leaves (level 0) or
    point to trees of level [lvl - 1].  [fp lvl fr t] is its footprint, the frames
    it owns: its tables and the user pages it maps.  In a well-formed tree no
    frame is owned twice.  [leaf_at lvl fr t va] is the abstract mapping, the valid
    leaf entry the Sv39 walk of [va] reaches. *)

From S2P Require Import Prelude Symbols Mem Page.

Definition entries (fr : gmap Z frame) (t : Z) : option (list Z) :=
  match fr !! t with Some (FTable es) => Some es | _ => None end.

(** Index of [va] in a table of level [lvl] *)
Definition vidx (va : Z) (lvl : nat) : Z := Z.land (Z.shiftr va (12 + 9 * Z.of_nat lvl)) 0x1ff.

Fixpoint fp (lvl : nat) (fr : gmap Z frame) (t x : Z) : Prop :=
  x = t ∨ ∃ es i e, entries fr t = Some es ∧ es !! i = Some e ∧ is_v e = true ∧
    match lvl with
    | O => is_leaf e = true ∧ is_user e = true ∧ x = Entry_paddr e
    | S l => fp l fr (Entry_paddr e) x
    end.

(** What is below one entry of a table of level [lvl] *)
Definition sub (lvl : nat) (fr : gmap Z frame) (e x : Z) : Prop :=
  is_v e = true ∧
  match lvl with
  | O => is_leaf e = true ∧ is_user e = true ∧ x = Entry_paddr e
  | S l => fp l fr (Entry_paddr e) x
  end.

Definition frame_addr (t : Z) : Prop := 0 < t < 2 ^ 63 ∧ t mod PAGE_SIZE = 0.

Fixpoint tree_wf (lvl : nat) (fr : gmap Z frame) (t : Z) : Prop :=
  ∃ es, entries fr t = Some es ∧ length es = 512%nat ∧ frame_addr t ∧
    (∀ i e, es !! i = Some e → is_usize e ∧
      (is_v e = true →
       match lvl with
       | O => is_leaf e = true
       | S l => is_leaf e = false ∧ tree_wf l fr (Entry_paddr e)
       end)) ∧
    (∀ i e, es !! i = Some e → ¬ sub lvl fr e t) ∧
    (∀ i j e e' x, i ≠ j → es !! i = Some e → es !! j = Some e' →
      sub lvl fr e x → ¬ sub lvl fr e' x).

Fixpoint leaf_at (lvl : nat) (fr : gmap Z frame) (t va : Z) : option Z :=
  match entries fr t with
  | Some es =>
      match es !! Z.to_nat (vidx va lvl) with
      | Some e =>
          if is_v e then
            match lvl with O => Some e | S l => leaf_at l fr (Entry_paddr e) va end
          else None
      | None => None
      end
  | None => None
  end.

(** What an entry of level [lvl] maps [va] to *)
Definition leaf_below (lvl : nat) (fr : gmap Z frame) (e va : Z) : option Z :=
  if is_v e then
    match lvl with O => Some e | S l => leaf_at l fr (Entry_paddr e) va end
  else None.

(** ** Unfolding *)
Lemma fp_unfold lvl fr t x :
  fp lvl fr t x ↔
    x = t ∨ ∃ es i e, entries fr t = Some es ∧ es !! i = Some e ∧ sub lvl fr e x.
Proof. destruct lvl; simpl; unfold sub; naive_solver. Qed.

Lemma fp_root lvl fr t : fp lvl fr t t.
Proof. apply fp_unfold. by left. Qed.

Lemma fp_sub lvl fr t es i e x :
  entries fr t = Some es → es !! i = Some e → sub lvl fr e x → fp lvl fr t x.
Proof. intros. apply fp_unfold. right. by exists es, i, e. Qed.

Lemma leaf_at_unfold lvl fr t va es e :
  entries fr t = Some es → es !! Z.to_nat (vidx va lvl) = Some e →
  leaf_at lvl fr t va = leaf_below lvl fr e va.
Proof. intros He Hi. destruct lvl; simpl; by rewrite He, Hi. Qed.

Lemma vidx_bounds va lvl : 0 ≤ vidx va lvl < 512.
Proof. unfold vidx. change 0x1ff with (Z.ones 9). rewrite Z.land_ones by lia. by apply Z.mod_pos_bound. Qed.

Lemma VPN_idx_vidx va lvl : (lvl ≤ 2)%nat → VPN_idx va (Z.of_nat lvl) = Ok (vidx va lvl).
Proof. intros H. destruct lvl as [|[|[|]]]; [done..|lia]. Qed.

Lemma tree_wf_frame_addr lvl fr t : tree_wf lvl fr t → frame_addr t.
Proof. destruct lvl; intros (es & _ & _ & ? & _); done. Qed.

Lemma is_v_0 : is_v 0 = false.
Proof. done. Qed.

(** ** Framing: a tree depends on its own tables only *)
Definition kept (fr fr' : gmap Z frame) (P : Z → Prop) : Prop :=
  ∀ a es, P a → entries fr a = Some es → entries fr' a = Some es.

Lemma fp_frame lvl fr fr' : ∀ t,
  tree_wf lvl fr t → kept fr fr' (fp lvl fr t) → ∀ x, fp lvl fr' t x ↔ fp lvl fr t x.
Proof.
  induction lvl as [|l IH]; intros t (es & He & _ & _ & Hes & _ & _) Hk x;
    pose proof (Hk t es (fp_root _ _ _) He) as He'; rewrite !fp_unfold, He, He'; unfold sub.
  - done.
  - assert (Hsub : ∀ i e, es !! i = Some e → is_v e = true →
      (fp l fr' (Entry_paddr e) x ↔ fp l fr (Entry_paddr e) x)).
    { intros i e Hi Hv. destruct (Hes i e Hi) as [_ Hw]. destruct (Hw Hv) as [_ Hw'].
      apply IH; [done|]. intros a es' Ha. apply Hk. eapply fp_sub; [done..|]. by split. }
    split; (intros [->|(es' & i & e & [= <-] & Hi & Hv & Hx)]; [by left|]);
      right; exists es, i, e; split_and!; try done; by apply (Hsub i e Hi Hv).
Qed.

Lemma sub_frame lvl fr fr' e x :
  (is_v e = true → match lvl with O => True | S l => tree_wf l fr (Entry_paddr e) end) →
  kept fr fr' (sub lvl fr e) → sub lvl fr' e x ↔ sub lvl fr e x.
Proof.
  intros Hw Hk. unfold sub in *. destruct lvl as [|l]; [done|].
  destruct (is_v e); [|naive_solver]. split; intros [? Hx]; split; try done;
    (eapply (fp_frame l fr fr'); [by apply Hw| |exact Hx]); intros a es Ha; by apply Hk.
Qed.

Lemma tree_wf_frame lvl fr fr' : ∀ t,
  tree_wf lvl fr t → kept fr fr' (fp lvl fr t) →
  tree_wf lvl fr' t ∧ ∀ va, leaf_at lvl fr' t va = leaf_at lvl fr t va.
Proof.
  induction lvl as [|l IH]; intros t (es & He & Hlen & Hfa & Hes & Hnt & Hdis) Hk;
    pose proof (Hk t es (fp_root _ _ _) He) as He'.
  - split; [by exists es|]. intros va. simpl. by rewrite He, He'.
  - assert (Hkid : ∀ i e, es !! i = Some e → is_v e = true →
      tree_wf l fr' (Entry_paddr e) ∧
      (∀ va, leaf_at l fr' (Entry_paddr e) va = leaf_at l fr (Entry_paddr e) va) ∧
      ∀ x, fp l fr' (Entry_paddr e) x ↔ fp l fr (Entry_paddr e) x).
    { intros i e Hi Hv. destruct (Hes i e Hi) as [_ Hw]. destruct (Hw Hv) as [_ Hw'].
      assert (kept fr fr' (fp l fr (Entry_paddr e))).
      { intros a es' Ha. apply Hk. eapply fp_sub; [done..|]. by split. }
      destruct (IH _ Hw'); [done|]. split_and!; [done..|]. by apply fp_frame. }
    assert (Hsub : ∀ i e x, es !! i = Some e → sub (S l) fr' e x ↔ sub (S l) fr e x).
    { intros i e x Hi. unfold sub. split; intros [Hv Hx]; split; try done;
        by apply (proj2 (proj2 (Hkid i e Hi Hv))). }
    split.
    + exists es. split_and!; [done..| | |].
      * intros i e Hi. destruct (Hes i e Hi) as [? Hw]. split; [done|]. intros Hv.
        split; [by apply Hw|]. by apply (Hkid i e).
      * intros i e Hi. rewrite (Hsub i e _ Hi). by apply (Hnt i).
      * intros i j e e' x Hij Hi Hj. rewrite (Hsub i e _ Hi), (Hsub j e' _ Hj). by apply (Hdis i j).
    + intros va. simpl. rewrite He, He'. destruct (es !! _) as [e|] eqn:Hi; [|done].
      destruct (is_v e) eqn:Hv; [|done]. by apply (Hkid _ e Hi).
Qed.

(** ** Replacing one entry of a table

    The one lemma behind [map_addr], [unmap_user] and [clone_walk]: the table [t]
    becomes [<[i := v]> es], the other entries keep what is below them. *)
Definition entry_wf (lvl : nat) (fr : gmap Z frame) (e : Z) : Prop :=
  is_usize e ∧ (is_v e = true →
    match lvl with
    | O => is_leaf e = true
    | S l => is_leaf e = false ∧ tree_wf l fr (Entry_paddr e)
    end).

Lemma tree_wf_unfold lvl fr t :
  tree_wf lvl fr t ↔
  ∃ es, entries fr t = Some es ∧ length es = 512%nat ∧ frame_addr t ∧
    (∀ i e, es !! i = Some e → entry_wf lvl fr e) ∧
    (∀ i e, es !! i = Some e → ¬ sub lvl fr e t) ∧
    (∀ i j e e' x, i ≠ j → es !! i = Some e → es !! j = Some e' →
      sub lvl fr e x → ¬ sub lvl fr e' x).
Proof. destruct lvl; done. Qed.

Lemma sub_kept lvl fr fr' e :
  entry_wf lvl fr e → kept fr fr' (sub lvl fr e) →
  (∀ x, sub lvl fr' e x ↔ sub lvl fr e x) ∧ entry_wf lvl fr' e ∧
  ∀ va, leaf_below lvl fr' e va = leaf_below lvl fr e va.
Proof.
  intros [Hu Hw] Hk. split_and!.
  - intros x. apply sub_frame; [|done]. intros Hv. specialize (Hw Hv). destruct lvl; naive_solver.
  - split; [done|]. intros Hv. specialize (Hw Hv). destruct lvl as [|l]; [done|].
    split; [naive_solver|]. destruct Hw as [_ Hw]. eapply tree_wf_frame; [exact Hw|].
    intros a es Ha. apply Hk. by split.
  - intros va. unfold leaf_below. destruct (is_v e) eqn:Hv; [|done]. destruct lvl as [|l]; [done|].
    destruct (Hw eq_refl) as [_ Hw']. eapply tree_wf_frame; [exact Hw'|].
    intros a es Ha. apply Hk. by split.
Qed.

Section slot.
Context (lvl : nat) (fr fr' : gmap Z frame) (t : Z) (es : list Z) (i : nat) (v : Z).
Hypothesis Hwf : tree_wf lvl fr t.
Hypothesis Hes : entries fr t = Some es.
Hypothesis Hi : (i < 512)%nat.
Hypothesis Hes' : entries fr' t = Some (<[i := v]> es).
Hypothesis Hkept : ∀ j e, j ≠ i → es !! j = Some e → kept fr fr' (sub lvl fr e).
Hypothesis Hv : entry_wf lvl fr' v.
Hypothesis Hvt : ¬ sub lvl fr' v t.
Hypothesis Hvdis : ∀ j e x, j ≠ i → es !! j = Some e → sub lvl fr' v x → ¬ sub lvl fr e x.

Lemma slot_other j e : j ≠ i → es !! j = Some e →
  (∀ x, sub lvl fr' e x ↔ sub lvl fr e x) ∧ entry_wf lvl fr' e ∧
  ∀ va, leaf_below lvl fr' e va = leaf_below lvl fr e va.
Proof using Hwf Hes Hkept.
  intros Hj He. apply sub_kept; [|by apply (Hkept j)].
  apply tree_wf_unfold in Hwf as (es0 & Hes0 & _ & _ & Hw & _). assert (es0 = es) as -> by congruence. by apply (Hw j).
Qed.

Lemma slot_insert_Some j e :
  <[i := v]> es !! j = Some e → (j = i ∧ e = v) ∨ (j ≠ i ∧ es !! j = Some e).
Proof using Hwf Hes Hi.
  apply tree_wf_unfold in Hwf as (es0 & Hes0 & Hlen & _).
  assert (es0 = es) as -> by congruence.
  destruct (decide (j = i)) as [->|Hne].
  - rewrite list_lookup_insert_eq by lia. intros [= E]. left. by split.
  - rewrite list_lookup_insert_ne by done. intros E. right. by split.
Qed.

Lemma slot_insert_eq : <[i := v]> es !! i = Some v.
Proof using Hwf Hes Hi.
  apply tree_wf_unfold in Hwf as (es0 & Hes0 & Hlen & _).
  assert (es0 = es) as -> by congruence.
  rewrite list_lookup_insert_eq; [done|lia].
Qed.

Lemma slot_wf : tree_wf lvl fr' t.
Proof using Hwf Hes Hi Hes' Hkept Hv Hvt Hvdis.
  pose proof Hwf as (es0 & Hes0 & Hlen & Hfa & Hw & Hnt & Hdis)%tree_wf_unfold.
  assert (es0 = es) as -> by congruence.
  apply tree_wf_unfold. eexists. split_and!; [done|by rewrite length_insert|done| | |].
  - intros j e [[-> ->]|[Hj He]]%slot_insert_Some; [done|]. by apply (slot_other j).
  - intros j e [[-> ->]|[Hj He]]%slot_insert_Some; [done|].
    rewrite (proj1 (slot_other j e Hj He)). by apply (Hnt j).
  - intros j k e e' x Hjk [[-> ->]|[Hj He]]%slot_insert_Some [[-> ->]|[Hk He']]%slot_insert_Some.
    + done.
    + intros Hx. rewrite (proj1 (slot_other k e' Hk He')). by apply (Hvdis k).
    + rewrite (proj1 (slot_other j e Hj He)). intros Hx Hx'. by apply (Hvdis j e x).
    + rewrite (proj1 (slot_other j e Hj He)), (proj1 (slot_other k e' Hk He')).
      by apply (Hdis j k).
Qed.

Lemma slot_fp x :
  fp lvl fr' t x ↔
  x = t ∨ sub lvl fr' v x ∨ ∃ j e, j ≠ i ∧ es !! j = Some e ∧ sub lvl fr e x.
Proof using Hwf Hes Hi Hes' Hkept.
  rewrite fp_unfold. split.
  - intros [->|(es1 & j & e & Hes1 & He & Hx)]; [by left|]. rewrite Hes' in Hes1.
    injection Hes1 as <-. apply slot_insert_Some in He as [[Ej Ee]|[Hj He]].
    { right. left. by rewrite <- Ee. }
    right. right. exists j, e. split_and!; [done..|]. by apply (slot_other j).
  - intros [->|[Hx|(j & e & Hj & He & Hx)]]; [by left|right..]; rewrite Hes'.
    + exists (<[i := v]> es), i, v. split_and!; [done|apply slot_insert_eq|done].
    + exists (<[i := v]> es), j, e. split_and!; [done|by rewrite list_lookup_insert_ne|].
      by apply (slot_other j).
Qed.

Lemma slot_leaf_here va :
  Z.to_nat (vidx va lvl) = i → leaf_at lvl fr' t va = leaf_below lvl fr' v va.
Proof using Hwf Hes Hi Hes'.
  intros E. eapply leaf_at_unfold; [done|]. rewrite E. apply slot_insert_eq.
Qed.

Lemma slot_leaf_other va :
  Z.to_nat (vidx va lvl) ≠ i → leaf_at lvl fr' t va = leaf_at lvl fr t va.
Proof using Hwf Hes Hi Hes' Hkept.
  intros E. pose proof Hwf as (es0 & Hes0 & Hlen & _)%tree_wf_unfold.
  assert (es0 = es) as -> by congruence.
  destruct (es !! Z.to_nat (vidx va lvl)) as [e|] eqn:He; last first.
  { apply lookup_ge_None in He. pose proof (vidx_bounds va lvl). lia. }
  rewrite (leaf_at_unfold lvl fr t va es e) by done.
  rewrite (leaf_at_unfold lvl fr' t va (<[i := v]> es) e); [|done|by rewrite list_lookup_insert_ne].
  by apply (slot_other (Z.to_nat (vidx va lvl))).
Qed.
End slot.

(** A table of zeroes is a tree of any level that maps nothing. *)
Lemma Table_new_lookup i e : Table_new !! i = Some e → e = 0.
Proof. by intros [-> _]%lookup_replicate_1. Qed.

Lemma zero_sub lvl fr x : ¬ sub lvl fr 0 x.
Proof. intros [? _]. by rewrite is_v_0 in *. Qed.

Lemma fresh_tree lvl fr p :
  entries fr p = Some Table_new → frame_addr p →
  tree_wf lvl fr p ∧ (∀ x, fp lvl fr p x ↔ x = p) ∧ ∀ va, leaf_at lvl fr p va = None.
Proof.
  intros He Hp. split_and!.
  - apply tree_wf_unfold. exists Table_new. split_and!; [done|done|done|..].
    + intros i e ->%Table_new_lookup. split; [done|]. by rewrite is_v_0.
    + intros i e ->%Table_new_lookup. apply zero_sub.
    + intros i j e e' x _ ->%Table_new_lookup _ Hx. by destruct (zero_sub lvl fr x).
  - intros x. rewrite fp_unfold. split; [|by left].
    intros [->|(es & i & e & Hes & Hi & Hx)]; [done|]. rewrite He in Hes. injection Hes as <-.
    apply Table_new_lookup in Hi as ->. by destruct (zero_sub lvl fr x).
  - intros va. assert (Hl : Table_new !! Z.to_nat (vidx va lvl) = Some 0).
    { apply lookup_replicate_2. pose proof (vidx_bounds va lvl). lia. }
    rewrite (leaf_at_unfold _ _ _ _ _ _ He Hl). unfold leaf_below. by rewrite is_v_0.
Qed.

(** Addresses that index the same entries from level [lvl] down *)
Fixpoint same_path (lvl : nat) (va va' : Z) : Prop :=
  vidx va lvl = vidx va' lvl ∧ match lvl with O => True | S l => same_path l va va' end.

#[export] Instance same_path_dec lvl va va' : Decision (same_path lvl va va').
Proof. revert va va'. induction lvl; intros; simpl; apply _. Defined.

(** Below 2^39, the three indices and the page offset determine the address. *)
Lemma vidx_div va lvl : vidx va lvl = va / 2 ^ (12 + 9 * Z.of_nat lvl) mod 512.
Proof.
  unfold vidx. change 0x1ff with (Z.ones 9).
  by rewrite Z.land_ones, Z.shiftr_div_pow2 by lia.
Qed.

Lemma vidx_split va :
  0 ≤ va < 2 ^ 39 → va mod PAGE_SIZE = 0 →
  va = vidx va 2 * 2 ^ 30 + vidx va 1 * 2 ^ 21 + vidx va 0 * 2 ^ 12.
Proof.
  intros Hva Ha. layout. rewrite !vidx_div. change 4096 with (2 ^ 12) in Ha.
  change (2 ^ (12 + 9 * Z.of_nat 0)) with (2 ^ 12).
  change (2 ^ (12 + 9 * Z.of_nat 1)) with (2 ^ 12 * 512).
  change (2 ^ (12 + 9 * Z.of_nat 2)) with (2 ^ 12 * 512 * 512).
  rewrite <- !Z.div_div by lia.
  pose proof (Z.div_mod va (2 ^ 12)). set (q := va / 2 ^ 12) in *.
  pose proof (Z.div_mod q 512). set (q1 := q / 512) in *.
  pose proof (Z.div_mod q1 512). set (q2 := q1 / 512) in *.
  pose proof (Z.mod_pos_bound q 512). pose proof (Z.mod_pos_bound q1 512).
  assert (q2 mod 512 = q2) as ->; [apply Z.mod_small|]; lia.
Qed.

Lemma same_path_eq va va' :
  0 ≤ va < 2 ^ 39 → va mod PAGE_SIZE = 0 → 0 ≤ va' < 2 ^ 39 → va' mod PAGE_SIZE = 0 →
  same_path 2 va va' ↔ va = va'.
Proof.
  intros H1 H2 H3 H4. split; [|by intros ->]. intros (E2 & E1 & E0 & _).
  rewrite (vidx_split va), (vidx_split va') by done. by rewrite E0, E1, E2.
Qed.

(** The entry a walk ends at, valid or not *)
Fixpoint raw_at (lvl : nat) (fr : gmap Z frame) (t va : Z) : option Z :=
  match entries fr t with
  | Some es =>
      match es !! Z.to_nat (vidx va lvl) with
      | Some e =>
          match lvl with
          | O => Some e
          | S l => if is_v e then raw_at l fr (Entry_paddr e) va else None
          end
      | None => None
      end
  | None => None
  end.

Lemma leaf_raw lvl fr : ∀ t va,
  leaf_at lvl fr t va = (e ← raw_at lvl fr t va; if is_v e then Some e else None).
Proof.
  induction lvl as [|l IH]; intros t va; simpl; destruct (entries fr t) as [es|]; try done;
    destruct (es !! _) as [e|]; try done; destruct (is_v e) eqn:Hv; simpl; try done; by rewrite Hv.
Qed.

(** Two addresses with the same upper indices end in the same table. *)
Lemma raw_at_sibling lvl fr : ∀ t va va' e,
  tree_wf lvl fr t → (∀ k, (0 < k ≤ lvl)%nat → vidx va k = vidx va' k) →
  raw_at lvl fr t va = Some e → is_Some (raw_at lvl fr t va').
Proof.
  induction lvl as [|l IH]; intros t va va' e (es & He & Hlen & _ & Hes & _)%tree_wf_unfold Hk;
    simpl; rewrite He.
  - intros _. pose proof (vidx_bounds va' 0).
    destruct (lookup_lt_is_Some_2 es (Z.to_nat (vidx va' 0))) as [e' ->]; [lia|eauto].
  - rewrite (Hk (S l)) by lia. destruct (es !! _) as [e0|] eqn:Hi; [|done].
    destruct (is_v e0) eqn:Hv; [|done]. intros Hr. apply (IH _ va va' e); [|intros; apply Hk; lia|done].
    destruct (Hes _ _ Hi) as [_ Hw]. by apply Hw.
Qed.
