(* ===== verification/PageOps.v ===== *)
(** * Page-table operations implement an abstract mapping

    The theorems on [map_addr], [Table_map], [kernel_map], [paddr_of] and the range
    mappings, proved against the interface [GlobalAllocLaws] of the allocator. *)

From S2P Require Import Prelude Symbols Mem Page PageTree.

Section ops.
Context {A : Type} `{GlobalAllocLaws A}.
Implicit Types (m : kmem A) (B : gmap Z Z).

(** Frames in use: static objects lie below the heap, the others are live blocks. *)
Definition live (a : A) B (x : Z) : Prop := x < heap_base a ∨ is_Some (B !! x).

Record pt_inv (lvl : nat) m B (t : Z) : Prop := {
  pi_owned : owned (ga m) B;
  pi_wf : tree_wf lvl (frames m) t;
  pi_live : ∀ x, fp lvl (frames m) t x → live (ga m) B x;
}.

Lemma live_mono (a a' : A) B B' x :
  heap_base a' = heap_base a → B ⊆ B' → live a B x → live a' B' x.
Proof.
  intros Hb HB [Hx|[n Hn]]; [left; lia|right]. exists n. by eapply lookup_weaken.
Qed.

Lemma box_frame_Ok f m B p m' :
  owned (ga m) B → box_frame f m = Ok (p, m') →
  owned (ga m') (<[p := 1]> B) ∧ B ⊆ <[p := 1]> B ∧ ¬ live (ga m) B p ∧
  heap_base (ga m') = heap_base (ga m) ∧ frames m' = <[p := f]> (frames m) ∧ frame_addr p.
Proof.
  intros Ho Hb. unfold box_frame in Hb. inv_ok.
  destruct (galloc_new (ga m) B PAGE_SIZE p a) as (Hn & Hlo & Hbase & Ho'); [done..|].
  change (pages_of PAGE_SIZE) with 1 in Ho'.
  destruct (owned_block a _ p 1 Ho') as (? & ? & ? & ?); [by rewrite lookup_insert_eq|].
  layout. split_and!; [done| | |done|done|].
  - by apply insert_subseteq.
  - intros [?|[n Hn']]; [lia|congruence].
  - unfold frame_addr. layout. split; [lia|done].
Qed.

Lemma table_at_Ok m t es : table_at m t = Ok es ↔ entries (frames m) t = Some es.
Proof. unfold table_at, entries. destruct (frames m !! t) as [[]|]; naive_solver. Qed.

Lemma read_entry_Ok m t es i e :
  entries (frames m) t = Some es → 0 ≤ i → es !! Z.to_nat i = Some e → read_entry m t i = Ok e.
Proof.
  intros He Hi Hl. unfold read_entry. rewrite (proj2 (table_at_Ok _ _ _) He), bind_Ok_l.
  by apply aget_Ok.
Qed.

Lemma write_entry_Ok m t es i e :
  entries (frames m) t = Some es → 0 ≤ i < Z.of_nat (length es) →
  write_entry m t i e = Ok (KMem (ga m) (<[t := FTable (<[Z.to_nat i := e]> es)]> (frames m))).
Proof.
  intros He Hi. unfold write_entry. rewrite (proj2 (table_at_Ok _ _ _) He), bind_Ok_l.
  by rewrite (proj2 (aset_Ok es i e _)) by done.
Qed.

Lemma entries_insert fr t es : entries (<[t := FTable es]> fr) t = Some es.
Proof. unfold entries. by rewrite lookup_insert_eq. Qed.

Lemma entries_eq fr fr' t : fr' !! t = fr !! t → entries fr' t = entries fr t.
Proof. unfold entries. by intros ->. Qed.

Lemma tree_slot lvl m t va :
  tree_wf lvl (frames m) t →
  ∃ es e, entries (frames m) t = Some es ∧ length es = 512%nat ∧
    es !! Z.to_nat (vidx va lvl) = Some e ∧ entry_wf lvl (frames m) e ∧
    read_entry m t (vidx va lvl) = Ok e.
Proof.
  intros (es & He & Hlen & Hfa & Hes & _)%tree_wf_unfold. pose proof (vidx_bounds va lvl).
  destruct (lookup_lt_is_Some_2 es (Z.to_nat (vidx va lvl))) as [e Hl]; [lia|].
  exists es, e. split_and!; [done..|by eapply Hes|]. eapply read_entry_Ok; [done|lia|done].
Qed.

(** The levels the loop visits below a table of level [lvl] *)
Definition below (lvl : nat) : list Z := rev (seqZ 0 (Z.of_nat lvl)).

Lemma below_S l : below (S l) = Z.of_nat l :: below l.
Proof. unfold below. by rewrite seqZ_S, rev_app_distr. Qed.

Lemma levels_0 : levels 0 = below 2.
Proof. done. Qed.

(** [map_addr] from a table of level [lvl] on: find the leaf entry, write it. *)
Definition map_entry (lvl : nat) (va t e : Z) m : result (kmem A) :=
  '(t, i, m) ← map_walk (below lvl) va t (vidx va lvl) m;
  write_entry m t i e.

(** The table an inner level goes on with, and the state when it does. *)
Record descends (l : nat) m B (t : Z) (es : list Z) (i : nat) (e0 : Z)
    (v : Z) m1 B1 : Prop := {
  de_es : entries (frames m1) t = Some (<[i := v]> es);
  de_v : is_v v = true ∧ is_leaf v = false ∧ is_usize v;
  de_inv : pt_inv l m1 B1 (Entry_paddr v);
  de_grow : B ⊆ B1 ∧ heap_base (ga m1) = heap_base (ga m);
  de_frame : ∀ x, live (ga m) B x → x ≠ t → frames m1 !! x = frames m !! x;
  de_fp : ∀ x, fp l (frames m1) (Entry_paddr v) x →
          ¬ live (ga m) B x ∨ sub (S l) (frames m) e0 x;
  de_leaf : ∀ va, leaf_at l (frames m1) (Entry_paddr v) va = leaf_below (S l) (frames m) e0 va;
}.

Lemma descends_valid l m B t es i e :
  pt_inv (S l) m B t → entries (frames m) t = Some es → es !! i = Some e → is_v e = true →
  descends l m B t es i e e m B.
Proof.
  intros [Ho Hw Hl] He Hi Hv.
  apply tree_wf_unfold in Hw as (es0 & He0 & Hlen & Hfa & Hes & Hnt & Hdis).
  assert (es0 = es) as -> by congruence. destruct (Hes i e Hi) as [Hu Hw']. destruct (Hw' Hv) as [Hlf Hw].
  split; try done.
  - by rewrite list_insert_id.
  - split; [done..|]. intros x Hx. apply Hl. eapply fp_sub; [done..|]. by split.
  - intros x Hx. right. by split.
  - intros va. unfold leaf_below. by rewrite Hv.
Qed.

Lemma V_flags : is_v EntryAttributes.V = true ∧ is_leaf EntryAttributes.V = false.
Proof. done. Qed.

Lemma frame_addr_usize p : frame_addr p → is_usize p.
Proof. unfold frame_addr, is_u. lia. Qed.

Lemma Entry_new_V p :
  frame_addr p →
  is_usize (Entry_new p EntryAttributes.V) ∧ is_v (Entry_new p EntryAttributes.V) = true ∧
  is_leaf (Entry_new p EntryAttributes.V) = false ∧
  Entry_paddr (Entry_new p EntryAttributes.V) = p.
Proof.
  intros Hp. pose proof (frame_addr_usize p Hp). destruct Hp as [? ?].
  split_and!; [by apply Entry_new_usize|unfold is_v; by rewrite has_new|
    unfold is_leaf; by rewrite has_new|by apply Entry_paddr_new].
Qed.

Lemma descends_fresh l m B t es i e p m1 :
  pt_inv (S l) m B t → entries (frames m) t = Some es → es !! i = Some e → is_v e = false →
  box_frame (FTable Table_new) m = Ok (p, m1) →
  descends l m B t es i e (Entry_new p EntryAttributes.V)
    (KMem (ga m1) (<[t := FTable (<[i := Entry_new p EntryAttributes.V]> es)]> (frames m1)))
    (<[p := 1]> B).
Proof.
  intros [Ho Hw Hl] He Hi Hv Hb.
  destruct (box_frame_Ok _ _ _ _ _ Ho Hb) as (Ho1 & Hsub & Hnl & Hbase & Hfr & Hp).
  destruct (Entry_new_V p Hp) as (Hu & Hnv & Hnl' & Hpa).
  assert (p ≠ t) as Hpt. { intros ->. apply Hnl, Hl, fp_root. }
  assert (Hep : entries (<[t := FTable (<[i := Entry_new p EntryAttributes.V]> es)]> (frames m1)) p
    = Some Table_new).
  { unfold entries. rewrite lookup_insert_ne by done. by rewrite Hfr, lookup_insert_eq. }
  destruct (fresh_tree l _ p Hep Hp) as (Hwp & Hfp & Hlf).
  split; cbn [ga frames]; rewrite ?Hpa.
  - apply entries_insert.
  - done.
  - split; [done|done|]. cbn [ga frames]. intros x ->%Hfp. right. rewrite lookup_insert_eq. eauto.
  - done.
  - intros x Hx Hxt. rewrite lookup_insert_ne, Hfr by done. apply lookup_insert_ne.
    intros ->. done.
  - intros x ->%Hfp. by left.
  - intros va. unfold leaf_below. by rewrite Hv, Hlf.
Qed.

(** One inner step of the walk: it fails in the allocator or it descends. *)
Lemma map_entry_step l va t e m m' B :
  (l < 2)%nat → pt_inv (S l) m B t → map_entry (S l) va t e m = Ok m' →
  ∃ es e0 v m1 B1, entries (frames m) t = Some es ∧ es !! Z.to_nat (vidx va (S l)) = Some e0 ∧
    descends l m B t es (Z.to_nat (vidx va (S l))) e0 v m1 B1 ∧
    map_entry l va (Entry_paddr v) e m1 = Ok m'.
Proof.
  intros Hl Hinv Hmap.
  destruct (tree_slot (S l) m t va (pi_wf _ _ _ _ Hinv)) as (es & e0 & He & Hlen & Hi & _ & Hrd).
  pose proof (vidx_bounds va (S l)). exists es, e0.
  unfold map_entry in Hmap. rewrite below_S in Hmap. cbn [map_walk] in Hmap.
  rewrite Hrd, !bind_Ok_l in Hmap. destruct (is_v e0) eqn:Hv.
  - apply bind_Ok in Hmap as ([[t1 i1] m1] & Hw & Hmap).
    rewrite bind_Ok_l, VPN_idx_vidx, bind_Ok_l in Hw by lia.
    apply bind_Ok in Hw as (u & _ & Hw).
    exists e0, m, B. split_and!; [done..|by apply descends_valid|].
    unfold map_entry. by rewrite Hw.
  - apply bind_Ok in Hmap as ([[t1 i1] m2] & Hw & Hmap).
    apply bind_Ok in Hw as ([v m1] & Hnew & Hw).
    apply bind_Ok in Hnew as ([p mp] & Hbox & Hnew).
    pose proof (descends_fresh l m B t es _ e0 p mp Hinv He Hi Hv Hbox) as Hd.
    destruct (box_frame_Ok _ _ _ _ _ (pi_owned _ _ _ _ Hinv) Hbox) as (_ & _ & Hnl & _ & Hfr & _).
    assert (entries (frames mp) t = Some es) as He'.
    { rewrite (entries_eq (frames m)), He; [done|]. rewrite Hfr. apply lookup_insert_ne.
      intros ->. apply Hnl, (pi_live _ _ _ _ Hinv), fp_root. }
    rewrite (write_entry_Ok mp t es) in Hnew by (done || lia).
    rewrite bind_Ok_l in Hnew. injection Hnew as <- <-.
    eexists _, _, _. split_and!; [done..|exact Hd|].
    rewrite VPN_idx_vidx, bind_Ok_l in Hw by lia. apply bind_Ok in Hw as (u & _ & Hw).
    unfold map_entry. by rewrite Hw.
Qed.

(** The leaf level writes the entry in place. *)
Lemma map_entry_leaf va t e m m' es :
  entries (frames m) t = Some es → length es = 512%nat → map_entry 0 va t e m = Ok m' →
  m' = KMem (ga m) (<[t := FTable (<[Z.to_nat (vidx va 0) := e]> es)]> (frames m)).
Proof.
  intros He Hlen Hmap. change (write_entry m t (vidx va 0) e = Ok m') in Hmap.
  pose proof (vidx_bounds va 0). rewrite (write_entry_Ok m t es) in Hmap by (done || lia).
  by inv_bind.
Qed.

Section map_entry_spec.
Context (e va : Z) (Hu : is_usize e) (Hv : is_v e = true) (Hlf : is_leaf e = true).

(** What [map_entry] promises: the tree stays well-formed, no live frame outside of
    it changes, it owns at most the new tables and the mapped page on top of what it
    owned, and the mapping changes at [va] only. *)
Record mapped (lvl : nat) (t : Z) m B m' B' : Prop := {
  mp_inv : pt_inv lvl m' B' t;
  mp_grow : B ⊆ B';
  mp_base : heap_base (ga m') = heap_base (ga m);
  mp_frame : ∀ x, live (ga m) B x → ¬ fp lvl (frames m) t x → frames m' !! x = frames m !! x;
  mp_fp : ∀ x, fp lvl (frames m') t x →
    fp lvl (frames m) t x ∨ ¬ live (ga m) B x ∨ (is_user e = true ∧ x = Entry_paddr e);
  mp_leaf : ∀ va', leaf_at lvl (frames m') t va' =
    if decide (same_path lvl va va') then Some e else leaf_at lvl (frames m) t va';
}.

Definition page_free (lvl : nat) m B (t : Z) : Prop :=
  is_user e = true → live (ga m) B (Entry_paddr e) ∧ ¬ fp lvl (frames m) t (Entry_paddr e).

Lemma mapped_leaf t m B es :
  pt_inv 0 m B t → page_free 0 m B t → entries (frames m) t = Some es →
  mapped 0 t m B
    (KMem (ga m) (<[t := FTable (<[Z.to_nat (vidx va 0) := e]> es)]> (frames m))) B.
Proof using Hu Hv Hlf.
  intros [Ho Hw Hl] Hpg He. set (fr' := <[t := _]> (frames m)).
  pose proof (vidx_bounds va 0) as Hb.
  assert (Hi : (Z.to_nat (vidx va 0) < 512)%nat) by lia.
  assert (He' : entries fr' t = Some (<[Z.to_nat (vidx va 0) := e]> es)) by apply entries_insert.
  assert (Hnew : ∀ x, sub 0 fr' e x → is_user e = true ∧ x = Entry_paddr e) by (by intros x (_ & _ & ? & ?)).
  assert (Hk : ∀ j e', j ≠ Z.to_nat (vidx va 0) → es !! j = Some e' →
    kept (frames m) fr' (sub 0 (frames m) e')).
  { intros j e' Hj He1 a es' Ha. unfold entries, fr'. destruct (decide (a = t)) as [->|Hne].
    - apply tree_wf_unfold in Hw as (es0 & He0 & _ & _ & _ & Hnt & _).
      assert (es0 = es) as -> by congruence. by destruct (Hnt j e' He1).
    - by rewrite lookup_insert_ne by done. }
  assert (Hew : entry_wf 0 fr' e) by (by split).
  assert (Hvt : ¬ sub 0 fr' e t).
  { intros Hs. apply Hnew in Hs as [Hus ->]. destruct (Hpg Hus) as [_ []]. apply fp_root. }
  assert (Hvd : ∀ j e' x, j ≠ Z.to_nat (vidx va 0) → es !! j = Some e' → sub 0 fr' e x →
    ¬ sub 0 (frames m) e' x).
  { intros j e' x Hj He1 Hs Hx. apply Hnew in Hs as [Hus ->]. destruct (Hpg Hus) as [_ []].
    by eapply fp_sub. }
  pose proof (slot_fp 0 (frames m) fr' t es _ e Hw He Hi He' Hk) as Hfp.
  assert (Hfp' : ∀ x, fp 0 fr' t x → fp 0 (frames m) t x ∨ (is_user e = true ∧ x = Entry_paddr e)).
  { intros x [->|[Hs|(j & e' & Hj & He1 & Hx)]]%Hfp; [left; apply fp_root|right; by apply Hnew|].
    left. by eapply fp_sub. }
  split; cbn [ga frames]; try done.
  - split; cbn [ga frames]; [done| |].
    + by apply (slot_wf 0 (frames m) fr' t es (Z.to_nat (vidx va 0)) e).
    + intros x [Hx|[Hus ->]]%Hfp'; [by apply Hl|]. by apply Hpg.
  - intros x Hx Hnx. unfold fr'. apply lookup_insert_ne. intros ->. apply Hnx, fp_root.
  - intros x [Hx|Hx]%Hfp'; [by left|by right; right].
  - intros va'. cbn [same_path]. pose proof (vidx_bounds va' 0). case_decide as Hd.
    + rewrite (slot_leaf_here 0 (frames m) fr' t es (Z.to_nat (vidx va 0)) e); try done.
      * unfold leaf_below. by rewrite Hv.
      * destruct Hd as [-> _]. done.
    + apply (slot_leaf_other 0 (frames m) fr' t es (Z.to_nat (vidx va 0)) e); try done.
      intros E. apply Hd. split; [lia|done].
Qed.

(** What lies outside of the subtree that is descended into *)
Section inner.
Context (l : nat) (t : Z) m B (es : list Z) (e0 v : Z) m1 B1 m' B'.
Context (Hinv : pt_inv (S l) m B t) (Hpg : page_free (S l) m B t)
  (He : entries (frames m) t = Some es)
  (Hi : es !! Z.to_nat (vidx va (S l)) = Some e0)
  (Hd : descends l m B t es (Z.to_nat (vidx va (S l))) e0 v m1 B1)
  (Hm : mapped l (Entry_paddr v) m1 B1 m' B').

Lemma inner_live1 x : live (ga m) B x → live (ga m1) B1 x.
Proof using Hd. destruct (de_grow _ _ _ _ _ _ _ _ _ _ Hd). by apply live_mono. Qed.

(** A live frame that is not below the entry keeps its contents, the table apart. *)
Lemma inner_frame x :
  live (ga m) B x → ¬ sub (S l) (frames m) e0 x → frames m' !! x = frames m1 !! x.
Proof using Hd Hm.
  intros Hx Hns. apply (mp_frame _ _ _ _ _ _ Hm); [by apply inner_live1|].
  intros [?|?]%(de_fp _ _ _ _ _ _ _ _ _ _ Hd); done.
Qed.

Lemma inner_not_t : ¬ sub (S l) (frames m) e0 t.
Proof using Hinv He Hi.
  destruct Hinv as [_ Hw _]. apply tree_wf_unfold in Hw as (es0 & ? & _ & _ & _ & Hnt & _).
  assert (es0 = es) as -> by congruence. by eapply Hnt.
Qed.

Lemma inner_entries : entries (frames m') t = Some (<[Z.to_nat (vidx va (S l)) := v]> es).
Proof using Hinv He Hi Hd Hm.
  rewrite <- (de_es _ _ _ _ _ _ _ _ _ _ Hd). apply entries_eq, inner_frame.
  - apply (pi_live _ _ _ _ Hinv), fp_root.
  - apply inner_not_t.
Qed.

Lemma inner_other j e' x :
  j ≠ Z.to_nat (vidx va (S l)) → es !! j = Some e' → sub (S l) (frames m) e' x →
  live (ga m) B x ∧ x ≠ t ∧ ¬ sub (S l) (frames m) e0 x.
Proof using Hinv He Hi.
  intros Hj He' Hx. destruct Hinv as [_ Hw Hl]. split; [apply Hl; by eapply fp_sub|].
  apply tree_wf_unfold in Hw as (es0 & ? & _ & _ & _ & Hnt & Hdis).
  assert (es0 = es) as -> by congruence. split; [intros ->; by eapply Hnt|].
  intros Hx0. by apply (Hdis j (Z.to_nat (vidx va (S l))) e' e0 x).
Qed.

(** Everything below the new entry was below the old one, is new, or is the page. *)
Lemma inner_new x :
  sub (S l) (frames m') v x →
  sub (S l) (frames m) e0 x ∨ ¬ live (ga m) B x ∨ (is_user e = true ∧ x = Entry_paddr e).
Proof using Hd Hm.
  intros [_ Hx]. apply (mp_fp _ _ _ _ _ _ Hm) in Hx as [Hx|[Hx|Hx]]; [|right; left|by right; right].
  - apply (de_fp _ _ _ _ _ _ _ _ _ _ Hd) in Hx as [?|?]; [by right; left|by left].
  - intros ?. by apply Hx, inner_live1.
Qed.

Lemma inner_page x : fp (S l) (frames m) t x → ¬ (is_user e = true ∧ x = Entry_paddr e).
Proof using Hpg. intros Hx [Hus ->]. by destruct (Hpg Hus) as [_ []]. Qed.

Lemma mapped_inner : mapped (S l) t m B m' B'.
Proof using Hinv Hpg He Hi Hd Hm.
  pose proof (vidx_bounds va (S l)) as Hb.
  destruct (de_v _ _ _ _ _ _ _ _ _ _ Hd) as (Hvv & Hvl & Hvu).
  destruct (de_grow _ _ _ _ _ _ _ _ _ _ Hd) as [Hg1 Hg2].
  pose proof Hinv as [Ho Hw Hl]. pose proof Hm as [[Ho' Hwc Hlc] Hg3 Hg4 Hfrm Hfpc Hlfc].
  assert (Hk : ∀ j e', j ≠ Z.to_nat (vidx va (S l)) → es !! j = Some e' →
    kept (frames m) (frames m') (sub (S l) (frames m) e')).
  { intros j e' Hj He' a es' Ha. destruct (inner_other j e' a Hj He' Ha) as (? & ? & ?).
    by rewrite (entries_eq (frames m) (frames m') a)
      by (by rewrite inner_frame, (de_frame _ _ _ _ _ _ _ _ _ _ Hd)). }
  assert (Hew : entry_wf (S l) (frames m') v) by (by split).
  assert (Hvt : ¬ sub (S l) (frames m') v t).
  { intros [?|[Hx|Hx]]%inner_new; [by apply inner_not_t|apply Hx, Hl, fp_root|].
    eapply inner_page; [apply fp_root|exact Hx]. }
  assert (Hvd : ∀ j e' x, j ≠ Z.to_nat (vidx va (S l)) → es !! j = Some e' →
    sub (S l) (frames m') v x → ¬ sub (S l) (frames m) e' x).
  { intros j e' x Hj He' Hs Hx. destruct (inner_other j e' x Hj He' Hx) as (? & ? & ?).
    apply inner_new in Hs as [?|[?|Hp]]; [done..|].
    eapply inner_page; [|exact Hp]. by eapply fp_sub. }
  assert (Hi' : (Z.to_nat (vidx va (S l)) < 512)%nat) by lia.
  pose proof (slot_fp _ _ _ _ _ _ _ Hw He Hi' inner_entries Hk) as Hfp.
  split; [split| | | | |]; [done|..].
  - by apply (slot_wf _ _ _ _ _ _ _ Hw He Hi' inner_entries Hk).
  - intros x [->|[[_ Hx]|(j & e' & Hj & He' & Hx)]]%Hfp; [|by apply Hlc|];
      (eapply (live_mono (ga m) _ B); [lia|by transitivity B1|]); apply Hl; [apply fp_root|by eapply fp_sub].
  - by transitivity B1.
  - lia.
  - intros x Hx Hnx. rewrite inner_frame, (de_frame _ _ _ _ _ _ _ _ _ _ Hd); try done.
    + intros ->. apply Hnx, fp_root.
    + intros Hs. apply Hnx. by eapply fp_sub.
  - intros x [->|[Hx|(j & e' & Hj & He' & Hx)]]%Hfp; [left; apply fp_root| |left; by eapply fp_sub].
    apply inner_new in Hx as [?|?]; [|by right]. left. by eapply fp_sub.
  - intros va'. cbn [same_path]. pose proof (vidx_bounds va' (S l)).
    destruct (decide (vidx va (S l) = vidx va' (S l))) as [E|E].
    + rewrite (slot_leaf_here _ _ _ _ _ _ _ Hw He Hi' inner_entries) by (by rewrite E).
      rewrite (leaf_at_unfold (S l) (frames m) t va' es e0) by (done || by rewrite <- E).
      unfold leaf_below at 1. rewrite Hvv, Hlfc, (de_leaf _ _ _ _ _ _ _ _ _ _ Hd).
      repeat case_decide; naive_solver.
    + rewrite (slot_leaf_other _ _ _ _ _ _ _ Hw He Hi' inner_entries Hk) by lia.
      case_decide; naive_solver.
Qed.
End inner.

Lemma map_entry_mapped lvl : ∀ t m m' B, (lvl ≤ 2)%nat →
  pt_inv lvl m B t → page_free lvl m B t → map_entry lvl va t e m = Ok m' →
  ∃ B', mapped lvl t m B m' B'.
Proof using Hu Hv Hlf.
  induction lvl as [|l IH]; intros t m m' B Hlvl Hinv Hpg Hmap.
  - destruct (tree_slot 0 m t va (pi_wf _ _ _ _ Hinv)) as (es & e0 & He & Hlen & _).
    apply (map_entry_leaf _ _ _ _ _ es) in Hmap as ->; [|done..]. exists B. by apply mapped_leaf.
  - apply (map_entry_step _ _ _ _ _ _ B) in Hmap as (es & e0 & v & m1 & B1 & He & Hi & Hd & Hmap);
      [|lia|done].
    destruct (IH (Entry_paddr v) m1 m' B1) as (B' & Hm); [lia|apply Hd| |done|].
    + intros Hus. destruct (Hpg Hus) as [Hlp Hnp].
      destruct (de_grow _ _ _ _ _ _ _ _ _ _ Hd) as [? ?]. split; [by eapply live_mono|].
      intros [?|?]%(de_fp _ _ _ _ _ _ _ _ _ _ Hd); [done|]. apply Hnp. by eapply fp_sub.
    + exists B'. by eapply mapped_inner.
Qed.
End map_entry_spec.

(** ** The abstract mapping of a process or kernel page table *)
Definition page_map m (root va : Z) : option Z := leaf_at 2 (frames m) root va.

Definition canonical (va : Z) : Prop := 0 ≤ va < 2 ^ 39 ∧ va mod PAGE_SIZE = 0.

(** A leaf entry as [map_addr] writes it *)
Definition leaf_entry (paddr flags : Z) : Z := Entry_new paddr (Z.lor flags EntryAttributes.V).

Definition leaf_flags (flags : Z) : Prop := 0 ≤ flags < 2 ^ 10 ∧ is_leaf flags = true.

Lemma flags_V flags : 0 ≤ flags < 2 ^ 10 → 0 ≤ Z.lor flags EntryAttributes.V < 2 ^ 10.
Proof.
  intros Hf. split; [apply Z.lor_nonneg; split; [lia|done]|].
  destruct (decide (flags = 0)) as [->|]; [done|].
  apply Z.log2_lt_cancel. rewrite Z.log2_lor by (lia || done).
  assert (Z.log2 flags < 10) by (apply Z.log2_lt_pow2; lia).
  change (Z.log2 (2 ^ 10)) with 10. change (Z.log2 EntryAttributes.V) with 0. lia.
Qed.

Lemma has_V flags mask : has (Z.lor flags EntryAttributes.V) mask = has flags mask || has EntryAttributes.V mask.
Proof.
  unfold has. rewrite Z.land_lor_distr_l.
  pose proof (Z.lor_eq_0_iff (Z.land flags mask) (Z.land EntryAttributes.V mask)). lia.
Qed.

Lemma leaf_entry_spec p f :
  is_usize p → p mod PAGE_SIZE = 0 → leaf_flags f →
  is_usize (leaf_entry p f) ∧ is_v (leaf_entry p f) = true ∧ is_leaf (leaf_entry p f) = true ∧
  Entry_paddr (leaf_entry p f) = p ∧ is_user (leaf_entry p f) = is_user f.
Proof.
  intros Hp Ha [Hf Hl]. pose proof (flags_V f Hf) as Hf'. unfold leaf_entry.
  split_and!; [by apply Entry_new_usize| | |by apply Entry_paddr_new|];
    unfold is_v, is_leaf, is_user in *; rewrite has_new, has_V by done.
  - apply orb_true_r.
  - by rewrite Hl.
  - apply orb_false_r.
Qed.

Lemma RX_flags : leaf_flags EntryAttributes.RX ∧ is_user EntryAttributes.RX = false.
Proof. done. Qed.
Lemma RW_flags : leaf_flags EntryAttributes.RW ∧ is_user EntryAttributes.RW = false.
Proof. done. Qed.
Lemma URX_flags : leaf_flags EntryAttributes.URX ∧ is_user EntryAttributes.URX = true.
Proof. done. Qed.
Lemma URW_flags : leaf_flags EntryAttributes.URW ∧ is_user EntryAttributes.URW = true.
Proof. done. Qed.

Lemma map_addr_entry self vaddr paddr flags m m' :
  map_addr self vaddr paddr flags 0 m = Ok m' →
  paddr mod PAGE_SIZE = 0 ∧ vaddr mod PAGE_SIZE = 0 ∧
  map_entry 2 vaddr self (leaf_entry paddr flags) m = Ok m'.
Proof.
  unfold map_addr. intros Hm. apply bind_Ok in Hm as (u & Hp & Hm).
  apply bind_Ok in Hm as (u' & Hv & Hm). destruct u, u'. apply panic_if_Ok in Hp, Hv.
  split_and!; [lia..|]. exact Hm.
Qed.

(** The frame the page lies in may be handed to the tree. *)
Definition mappable m B (root paddr flags : Z) : Prop :=
  is_user flags = true → live (ga m) B paddr ∧ ¬ fp 2 (frames m) root paddr.

Lemma map_addr_mapped root vaddr paddr flags m m' B :
  pt_inv 2 m B root → is_usize paddr → leaf_flags flags → mappable m B root paddr flags →
  map_addr root vaddr paddr flags 0 m = Ok m' →
  ∃ B', mapped (leaf_entry paddr flags) vaddr 2 root m B m' B'.
Proof.
  intros Hinv Hp Hf Hmp (Ha & Hva & Hm)%map_addr_entry.
  destruct (leaf_entry_spec paddr flags Hp Ha Hf) as (? & ? & ? & Hpa & Hus).
  eapply map_entry_mapped; try done. unfold page_free. rewrite Hus, Hpa. exact Hmp.
Qed.

Lemma map_addr_sets root vaddr paddr flags m m' B :
  pt_inv 2 m B root → canonical vaddr → is_usize paddr → leaf_flags flags →
  mappable m B root paddr flags →
  map_addr root vaddr paddr flags 0 m = Ok m' →
  ∃ B', mapped (leaf_entry paddr flags) vaddr 2 root m B m' B' ∧
    (∀ va, canonical va → page_map m' root va =
      if decide (va = vaddr) then Some (leaf_entry paddr flags) else page_map m root va).
Proof.
  intros Hinv [Hc Hca] Hp Hf Hmp Hm.
  destruct (map_addr_mapped _ _ _ _ _ _ _ Hinv Hp Hf Hmp Hm) as (B' & Hmd).
  exists B'. split; [done|]. destruct Hmd as [_ _ _ _ _ Hlf]. intros va [Hva Hvaa]. unfold page_map. rewrite Hlf.
  pose proof (same_path_eq vaddr va Hc Hca Hva Hvaa) as Hsp.
  destruct (decide (same_path 2 vaddr va)) as [D|D]; destruct (decide (va = vaddr)) as [E|E];
    [done|by apply Hsp in D as ->|destruct D; by apply Hsp|done].
Qed.

(** C4: map_addr on a well-formed Sv39 tree implements the update of one key of the
    abstract mapping from page addresses to leaf entries: the tree stays well-formed
    and owns its frames, vaddr maps to paddr with the flags and V, every other page
    maps as before, and no frame outside the tree is written. *)
Theorem map_addr_refines root vaddr paddr flags m m' B :
  pt_inv 2 m B root → canonical vaddr → is_usize paddr → leaf_flags flags →
  mappable m B root paddr flags →
  map_addr root vaddr paddr flags 0 m = Ok m' →
  ∃ B', pt_inv 2 m' B' root ∧ B ⊆ B' ∧
    (∀ va, canonical va → page_map m' root va =
      if decide (va = vaddr) then Some (leaf_entry paddr flags) else page_map m root va) ∧
    (∀ x, live (ga m) B x → ¬ fp 2 (frames m) root x → frames m' !! x = frames m !! x).
Proof.
  intros Hinv Hc Hp Hf Hmp Hm.
  destruct (map_addr_sets _ _ _ _ _ _ _ Hinv Hc Hp Hf Hmp Hm) as (B' & [Hinv' Hg _ Hfr _ _] & Hlf).
  by exists B'.
Qed.

(** Mapping writes tables only: the pages that are in use keep their contents. *)
Lemma map_entry_keeps va e lvl : ∀ t m m' B x d, (lvl ≤ 2)%nat →
  pt_inv lvl m B t → map_entry lvl va t e m = Ok m' →
  live (ga m) B x → frames m !! x = Some (FPage d) → frames m' !! x = Some (FPage d).
Proof.
  induction lvl as [|l IH]; intros t m m' B x d Hl Hinv Hmap Hx Hd.
  - destruct (tree_slot 0 m t va (pi_wf _ _ _ _ Hinv)) as (es & e0 & He & Hlen & _).
    apply (map_entry_leaf _ _ _ _ _ es) in Hmap as ->; [|done..]. cbn [frames].
    rewrite lookup_insert_ne; [done|]. intros ->. unfold entries in He. by rewrite Hd in He.
  - apply (map_entry_step _ _ _ _ _ _ B) in Hmap as (es & e0 & v & m1 & B1 & He & Hi & Hde & Hmap);
      [|lia|done].
    destruct (de_grow _ _ _ _ _ _ _ _ _ _ Hde) as [Hg Hb].
    eapply (IH (Entry_paddr v) m1 m' B1); [lia|apply Hde|done|by eapply live_mono|].
    rewrite (de_frame _ _ _ _ _ _ _ _ _ _ Hde); [done|done|]. intros ->. unfold entries in He. by rewrite Hd in He.
Qed.

(** ** [map_addr] succeeds when the allocator serves its tables *)
(** The allocator can give [n] more pages, and has the property [P] all the way. *)
Fixpoint serves (P : A → Prop) (n : nat) (a : A) : Prop :=
  P a ∧
  match n with
  | O => True
  | S n => ∃ p a', galloc PAGE_SIZE a = Ok (p, a') ∧ serves P n a'
  end.

Lemma serves_P P n a : serves P n a → P a.
Proof. destruct n; by intros [? _]. Qed.

Lemma serves_less P n : ∀ a, serves P (S n) a → serves P n a.
Proof.
  induction n as [|n IH]; intros a [HP Hs]; (split; [done|]); [done|]. destruct Hs as (p & a' & Ha & Hs).
  exists p, a'. split; [done|]. by apply IH.
Qed.

Lemma map_entry_total {P : A → Prop} e va n lvl : ∀ t m B, (lvl ≤ 2)%nat → pt_inv lvl m B t → serves P (lvl + n) (ga m) →
  ∃ m', map_entry lvl va t e m = Ok m' ∧ serves P n (ga m').
Proof.
  induction lvl as [|l IH]; intros t m B Hl Hinv Hs;
    destruct (tree_slot _ m t va (pi_wf _ _ _ _ Hinv)) as (es & e0 & He & Hlen & Hi & Hew & Hrd);
    pose proof (vidx_bounds va 0) as Hb0.
  - change (map_entry 0 va t e m) with (write_entry m t (vidx va 0) e).
    rewrite (write_entry_Ok m t es); [by eauto|done|lia].
  - pose proof (vidx_bounds va (S l)) as Hb. unfold map_entry. rewrite below_S. cbn [map_walk].
    rewrite Hrd, bind_Ok_l. pose proof (vidx_bounds va l).
    assert (Hnull : ∀ v m1 B1, descends l m B t es (Z.to_nat (vidx va (S l))) e0 v m1 B1 →
      (Entry_paddr v + 8 * vidx va l =? 0) = false).
    { intros v m1 B1 Hd. destruct (de_inv _ _ _ _ _ _ _ _ _ _ Hd) as [_ Hw _].
      apply tree_wf_frame_addr in Hw as [? _]. lia. }
    destruct (is_v e0) eqn:Hv.
    + pose proof (descends_valid l m B t es _ e0 Hinv He Hi Hv) as Hd.
      rewrite bind_Ok_l, VPN_idx_vidx, bind_Ok_l, (Hnull _ _ _ Hd) by lia. simpl.
      eapply IH; [lia|apply Hd|by apply serves_less].
    + destruct Hs as (_ & p & a' & Ha & Hs).
      assert (Hbox : box_frame (FTable Table_new) m = Ok (p, KMem a' (<[p := FTable Table_new]> (frames m))))
        by (unfold box_frame; by rewrite Ha).
      pose proof (descends_fresh l m B t es _ e0 p _ Hinv He Hi Hv Hbox) as Hd.
      destruct (box_frame_Ok _ _ _ _ _ (pi_owned _ _ _ _ Hinv) Hbox) as (_ & _ & Hnl & _ & Hfr & _).
      rewrite Hbox, bind_Ok_l. rewrite (write_entry_Ok _ t es); [|rewrite <- He|lia].
      * rewrite !bind_Ok_l, VPN_idx_vidx, bind_Ok_l, (Hnull _ _ _ Hd) by lia. simpl.
        eapply IH; [lia|apply Hd|done].
      * apply entries_eq. rewrite Hfr. apply lookup_insert_ne.
        intros ->. apply Hnl, (pi_live _ _ _ _ Hinv), fp_root.
Qed.

(** Map_addr on a well-formed tree succeeds whenever the allocator can serve two more
    pages and both addresses are page-aligned, and otherwise stops at the alignment
    check. *)
Theorem map_addr_total root vaddr paddr flags m B :
  pt_inv 2 m B root → serves (λ _, True) 2 (ga m) →
  (vaddr mod PAGE_SIZE = 0 → paddr mod PAGE_SIZE = 0 →
     ∃ m', map_addr root vaddr paddr flags 0 m = Ok m') ∧
  (paddr mod PAGE_SIZE ≠ 0 → map_addr root vaddr paddr flags 0 m = Err (Panic "paddr {:x} not aligned")) ∧
  (paddr mod PAGE_SIZE = 0 → vaddr mod PAGE_SIZE ≠ 0 →
     map_addr root vaddr paddr flags 0 m = Err (Panic "vaddr {:x} not aligned")).
Proof.
  intros Hinv Hs. unfold map_addr. split_and!.
  - intros Hv Hp. rewrite Hv, Hp. destruct (map_entry_total (P:=λ _, True) (leaf_entry paddr flags) vaddr 0 2 root m B) as (m' & Hm & _); [done..|].
    by exists m'.
  - intros Hp%Z.eqb_neq. by rewrite Hp.
  - intros Hp Hv%Z.eqb_neq. by rewrite Hp, Hv.
Qed.

(** ** [paddr_of] *)
Lemma paddr_walk_raw lvl va : ∀ t m,
  (lvl ≤ 2)%nat → tree_wf lvl (frames m) t →
  paddr_walk (below lvl) va t (vidx va lvl) m = Ok (Entry_paddr <$> raw_at lvl (frames m) t va).
Proof.
  induction lvl as [|l IH]; intros t m Hl Hw;
    destruct (tree_slot _ m t va Hw) as (es & e & He & Hlen & Hi & Hew & Hrd).
  - change (paddr_walk (below 0) va t (vidx va 0) m) with
      (v ← read_entry m t (vidx va 0); Ok (Some (Entry_paddr v))).
    rewrite Hrd. simpl. by rewrite He, Hi.
  - rewrite below_S. cbn [paddr_walk raw_at]. rewrite Hrd, bind_Ok_l, He, Hi.
    destruct (is_v e) eqn:Hv; [|done]. destruct Hew as [_ [_ Hw']]; [done|].
    rewrite VPN_idx_vidx, bind_Ok_l by lia. pose proof (tree_wf_frame_addr _ _ _ Hw') as [? _].
    pose proof (vidx_bounds va l). destruct (Z.eqb_spec (Entry_paddr e + 8 * vidx va l) 0); [lia|].
    simpl. apply IH; [lia|done].
Qed.

Lemma paddr_of_raw root va m :
  tree_wf 2 (frames m) root → va mod PAGE_SIZE = 0 →
  paddr_of root va m = Ok (Entry_paddr <$> raw_at 2 (frames m) root va).
Proof.
  intros Hw Ha. unfold paddr_of.
  destruct (tree_slot 2 m root va Hw) as (es & e & _ & _ & _ & _ & Hrd).
  change (vidx va 2) with (vpn2 va) in Hrd. rewrite Hrd, bind_Ok_l, Ha.
  change (negb (0 =? 0)) with false. unfold panic_if. rewrite bind_Ok_l, levels_0. change (vpn2 va) with (vidx va 2). by apply paddr_walk_raw.
Qed.

Lemma page_map_raw m root va e :
  page_map m root va = Some e → raw_at 2 (frames m) root va = Some e ∧ is_v e = true.
Proof.
  unfold page_map. rewrite leaf_raw. destruct (raw_at 2 (frames m) root va) as [e'|]; [|discriminate].
  simpl. destruct (is_v e') eqn:Hv; [|discriminate]. intros [= <-]. done.
Qed.

Lemma paddr_of_page_map root va m e :
  tree_wf 2 (frames m) root → va mod PAGE_SIZE = 0 → page_map m root va = Some e →
  paddr_of root va m = Ok (Some (Entry_paddr e)).
Proof.
  intros Hw Ha [Hr _]%page_map_raw. by rewrite paddr_of_raw, Hr.
Qed.

(** Paddr_of does not test the leaf entry: for an unmapped page whose neighbour under
    the same last-level table is mapped it returns an address instead of none. *)
Theorem paddr_of_unmapped_sibling root va va' m B e :
  pt_inv 2 m B root → va' mod PAGE_SIZE = 0 →
  page_map m root va = Some e → page_map m root va' = None →
  vpn2 va = vpn2 va' → vpn1 va = vpn1 va' →
  ∃ p, paddr_of root va' m = Ok (Some p).
Proof.
  intros [_ Hw _] Ha [Hr _]%page_map_raw _ H2 H1. rewrite paddr_of_raw by done.
  destruct (raw_at_sibling 2 (frames m) root va va' e Hw) as [e' He']; [|exact Hr|].
  - intros [|[|[|k]]] Hk; [lia|exact H1|exact H2|lia].
  - rewrite He'. by exists (Entry_paddr e').
Qed.

(** Paddr_of finds the address that map_addr just installed, and still finds for
    every other mapped page what it found before. *)
Theorem map_paddr_roundtrip root vaddr paddr flags m m' B :
  pt_inv 2 m B root → canonical vaddr → is_usize paddr → leaf_flags flags →
  mappable m B root paddr flags →
  map_addr root vaddr paddr flags 0 m = Ok m' →
  paddr_of root vaddr m' = Ok (Some paddr) ∧
  ∀ va e, canonical va → va ≠ vaddr → page_map m root va = Some e →
    paddr_of root va m' = paddr_of root va m.
Proof.
  intros Hinv Hc Hp Hf Hmp Hm. pose proof (map_addr_entry _ _ _ _ _ _ Hm) as (Ha & Hva & _).
  destruct (leaf_entry_spec paddr flags Hp Ha Hf) as (_ & _ & _ & Hpa & _).
  destruct (map_addr_mapped _ _ _ _ _ _ _ Hinv Hp Hf Hmp Hm) as (B' & [Hinv' _ _ _ _ Hlf]).
  pose proof Hinv as [_ Hw _]. pose proof Hinv' as [_ Hw' _]. split.
  - rewrite (paddr_of_page_map root vaddr m' (leaf_entry paddr flags)), Hpa; [done..|].
    unfold page_map. rewrite Hlf, decide_True; [done|]. destruct Hc. by apply same_path_eq.
  - intros va e [Hva1 Hva2] Hne He. rewrite (paddr_of_page_map root va m e) by done.
    apply paddr_of_page_map; [done..|].
    unfold page_map in *. rewrite Hlf, decide_False; [done|]. destruct Hc.
    rewrite same_path_eq by done. congruence.
Qed.

(** ** Mapping a page whose last-level table exists takes no frame. *)
Lemma map_entry_path e va e0 lvl : ∀ t m B, (lvl ≤ 2)%nat → pt_inv lvl m B t →
  raw_at lvl (frames m) t va = Some e0 → ∃ m', map_entry lvl va t e m = Ok m' ∧ ga m' = ga m.
Proof.
  induction lvl as [|l IH]; intros t m B Hl Hinv Hraw;
    destruct (tree_slot _ m t va (pi_wf _ _ _ _ Hinv)) as (es & e1 & He & Hlen & Hi & Hew & Hrd);
    pose proof (vidx_bounds va 0) as Hb0.
  - change (map_entry 0 va t e m) with (write_entry m t (vidx va 0) e).
    rewrite (write_entry_Ok m t es); [by eauto|done|lia].
  - cbn [raw_at] in Hraw. rewrite He, Hi in Hraw. destruct (is_v e1) eqn:Hv; [|done].
    pose proof (descends_valid l m B t es _ e1 Hinv He Hi Hv) as Hd. pose proof (vidx_bounds va l).
    unfold map_entry. rewrite below_S. cbn [map_walk]. rewrite Hrd, bind_Ok_l, Hv, bind_Ok_l, VPN_idx_vidx, bind_Ok_l by lia.
    destruct (de_inv _ _ _ _ _ _ _ _ _ _ Hd) as [_ Hw _]. apply tree_wf_frame_addr in Hw as [? _].
    destruct (Z.eqb_spec (Entry_paddr e1 + 8 * vidx va l) 0); [lia|]. simpl.
    eapply IH; [lia|apply Hd|done].
Qed.

(** ** Identity mapping of a range *)
Definition in_pages (va lo hi : Z) : Prop := lo ≤ va < hi.
#[export] Instance in_pages_dec va lo hi : Decision (in_pages va lo hi).
Proof. unfold in_pages. apply _. Defined.

Section id_map.
Context (root bits : Z) m B (Hinv : pt_inv 2 m B root)
  (Hbits : leaf_flags bits) (Hker : is_user bits = false).

(** After [k] iterations from page [lo]. *)
Definition id_mapped (lo k : Z) (st : Z * kmem A) : Prop :=
  st.1 = lo + k * 4096 ∧ ∃ B', pt_inv 2 st.2 B' root ∧ B ⊆ B' ∧
    ∀ va, canonical va → page_map st.2 root va =
      if decide (in_pages va lo (lo + k * 4096)) then Some (leaf_entry va bits)
      else page_map m root va.

Lemma id_mapped_step lo k st st' :
  canonical lo → 0 ≤ k → lo + k * 4096 < 2 ^ 39 → id_mapped lo k st →
  ('(memaddr, m) ← Ok st;
   m ← map_addr root memaddr memaddr bits 0 m;
   memaddr ← uadd 64 memaddr PAGE_SIZE;
   Ok (memaddr, m)) = Ok st' →
  id_mapped lo (k + 1) st'.
Proof using Hbits Hker.
  intros [Hlo Hla] Hk Hhi. destruct st as [ma mk]. intros [Hma (Bk & Hik & Hgk & Hlk)] Hst.
  cbn [fst snd] in *. subst ma. rewrite bind_Ok_l in Hst.
  apply bind_Ok in Hst as (m1 & Hmap & Hst). apply bind_Ok in Hst as (a1 & Ha1 & Hst).
  injection Hst as <-. apply uadd_Ok in Ha1 as [-> _]. layout.
  assert (Hcan : canonical (lo + k * 4096)).
  { split; [lia|]. layout. by rewrite Z.mod_add. }
  destruct (map_addr_sets root (lo + k * 4096) (lo + k * 4096) bits mk m1 Bk)
    as (B1 & [Hi1 Hg1 _ _ _ _] & Hl1); [done|done|unfold is_u; lia|done| |done|].
  { intros Hu. congruence. }
  split; cbn [fst snd]; [lia|]. exists B1. split_and!; [done|by transitivity Bk|].
  intros va Hva. rewrite Hl1, Hlk by done. unfold in_pages.
  destruct Hva as [Hva Hvaa]. layout.
  pose proof (Z.div_mod va 4096). pose proof (Z.div_mod lo 4096).
  destruct (decide (va = lo + k * 4096)) as [->|Hne].
  - by rewrite decide_True by lia.
  - destruct (decide (lo ≤ va < lo + k * 4096)), (decide (lo ≤ va < lo + (k + 1) * 4096)); done || lia.
Qed.
End id_map.

Lemma page_down_bounds v : 0 ≤ v → v - v mod 4096 ≤ v ∧ 0 ≤ v - v mod 4096 ∧ (v - v mod 4096) mod 4096 = 0.
Proof.
  intros Hv. pose proof (Z.div_mod v 4096). pose proof (Z.mod_pos_bound v 4096).
  pose proof (Z.div_pos v 4096).
  split_and!; [lia..|]. replace (v - v mod 4096) with (v / 4096 * 4096) by lia. by apply Z.mod_mul.
Qed.

(** The pages from the one of [start] to the last one below [end_] map to themselves. *)
Lemma id_map_range_identity root start end_ bits m m' B :
  pt_inv 2 m B root → leaf_flags bits → is_user bits = false →
  0 ≤ start ≤ end_ → end_ < 2 ^ 39 - PAGE_SIZE →
  id_map_range root start end_ bits m = Ok m' →
  ∃ B', pt_inv 2 m' B' root ∧ B ⊆ B' ∧
    ∀ va, canonical va → page_map m' root va =
      if decide (in_pages va (start - start mod PAGE_SIZE) (pages_of end_ * PAGE_SIZE))
      then Some (leaf_entry va bits) else page_map m root va.
Proof.
  intros Hinv Hbits Hker Hse Hend Hrun. layout. unfold id_map_range in Hrun.
  change (align_val end_ 12) with (align_val end_ PAGE_ORDER) in Hrun.
  rewrite align_val_page in Hrun by (unfold is_u; lia).
  rewrite align_val_down_eq in Hrun by (done || unfold is_u; lia).
  rewrite !bind_Ok_l in Hrun. change (2 ^ PAGE_ORDER) with 4096 in Hrun.
  destruct (page_down_bounds start) as (Hd1 & Hd2 & Hd3); [lia|].
  set (lo := start - start mod 4096) in *.
  assert (end_ ≤ pages_of end_ * 4096 ≤ end_ + 4095).
  { unfold pages_of. pose proof (Z.div_mod (end_ + 4095) 4096).
    pose proof (Z.mod_pos_bound (end_ + 4095) 4096). lia. }
  apply bind_Ok in Hrun as (d & Hd & Hrun). apply usub_Ok in Hd as [-> Hle].
  assert (Hq : (pages_of end_ * 4096 - lo) / PAGE_SIZE * 4096 = pages_of end_ * 4096 - lo).
  { layout. pose proof (Z.div_mod lo 4096).
    replace (pages_of end_ * 4096 - lo) with ((pages_of end_ - lo / 4096) * 4096) by lia.
    by rewrite Z.div_mul. }
  apply bind_Ok in Hrun as ([ma m1] & Hloop & Hrun). injection Hrun as <-.
  assert (Hfin : id_mapped root bits m B lo ((pages_of end_ * 4096 - lo) / PAGE_SIZE) (ma, m1)).
  { revert Hloop. apply (for_range_inv (id_mapped root bits m B lo)).
    - layout. apply Z.div_pos; lia.
    - split; cbn [fst snd]; [lia|]. exists B. split_and!; [done..|]. intros va Hva.
      rewrite decide_False; [done|]. unfold in_pages. lia.
    - intros k st st' Hk Hst Hbody. eapply id_mapped_step; [done|done|..|exact Hst|exact Hbody];
        [split; [lia|by layout]|lia|lia]. }
  destruct Hfin as (_ & B' & ? & ? & Hl). exists B'. split_and!; [done..|]. cbn [snd] in *.
  intros va Hva. rewrite Hl by done. rewrite Hq. replace (lo + _) with (pages_of end_ * 4096) by lia.
  done.
Qed.
End ops.

(** ** Concrete page tables *)
(** An empty table in static memory, below the heap *)
Definition root0 : Z := 0x80100000.
Definition pt0 : kmem Allocator := KMem heap0 {[root0 := FTable Table_new]}.

Lemma pt0_tree :
  tree_wf 2 (frames pt0) root0 ∧ (∀ x, fp 2 (frames pt0) root0 x ↔ x = root0) ∧
  ∀ va, leaf_at 2 (frames pt0) root0 va = None.
Proof. apply fresh_tree; [apply entries_insert|split; [unfold root0; lia|reflexivity]]. Qed.

Lemma heap0_owned : owned heap0 ∅.
Proof. exists ∅. split; [apply heap0_rep|]. symmetry. apply kmap_empty. Qed.

Lemma pt0_inv : pt_inv 2 pt0 ∅ root0.
Proof.
  destruct pt0_tree as (Hw & Hfp & _). split; [apply heap0_owned|done|].
  intros x ->%Hfp. left. vm_compute. done.
Qed.

(** The UART page mapped for the kernel *)
Definition uart : Z := 0x10000000.
Definition or_else {X} (r : result X) (d : X) : X := match r with Ok x => x | Err _ => d end.
Definition pt1 : kmem Allocator := or_else (map_addr root0 uart uart EntryAttributes.RW 0 pt0) pt0.

Lemma or_else_ok {X} (r : result X) d : is_ok r = true → r = Ok (or_else r d).
Proof. by destruct r. Qed.

Lemma pt1_run : map_addr root0 uart uart EntryAttributes.RW 0 pt0 = Ok pt1.
Proof. apply or_else_ok. vm_compute. reflexivity. Qed.

Lemma uart_page : canonical uart ∧ is_usize uart ∧ leaf_flags EntryAttributes.RW.
Proof. split_and!; [split|split|split; [split|]]; vm_compute; done. Qed.

Lemma kernel_mappable B : mappable pt0 B root0 uart EntryAttributes.RW.
Proof. intros Hu. by vm_compute in Hu. Qed.

Lemma map_addr_refines_witness :
  ∃ B', pt_inv 2 pt1 B' root0 ∧ ∅ ⊆ B' ∧
    (∀ va, canonical va → page_map pt1 root0 va =
      if decide (va = uart) then Some (leaf_entry uart EntryAttributes.RW) else page_map pt0 root0 va) ∧
    (∀ x, live (ga pt0) ∅ x → ¬ fp 2 (frames pt0) root0 x → frames pt1 !! x = frames pt0 !! x).
Proof.
  destruct uart_page as (Hc & Hu & Hf).
  exact (map_addr_refines root0 uart uart EntryAttributes.RW pt0 pt1 ∅ pt0_inv Hc Hu Hf
    (kernel_mappable ∅) pt1_run).
Defined.

Lemma heap0_serves : serves (λ _, True) 2 heap0.
Proof.
  destruct (is_ok_Ok ('(p1, a1) ← galloc PAGE_SIZE heap0; '(p2, a2) ← galloc PAGE_SIZE a1; Ok (p1, a1, p2, a2)))
    as [[[[p1 a1] p2] a2] Hr]; [vm_compute; reflexivity|].
  inv_bind. simplify_eq. split; [done|]. exists p1, a1. split; [done|]. split; [done|]. by exists p2, a2.
Qed.

Lemma map_addr_total_witness :
  ∃ m', map_addr root0 uart uart EntryAttributes.RW 0 pt0 = Ok m'.
Proof. apply (map_addr_total root0 uart uart EntryAttributes.RW pt0 ∅ pt0_inv heap0_serves); reflexivity. Defined.

Lemma map_paddr_roundtrip_witness :
  paddr_of root0 uart pt1 = Ok (Some uart) ∧
  ∀ va e, canonical va → va ≠ uart → page_map pt0 root0 va = Some e →
    paddr_of root0 va pt1 = paddr_of root0 va pt0.
Proof.
  destruct uart_page as (Hc & Hu & Hf).
  exact (map_paddr_roundtrip root0 uart uart EntryAttributes.RW pt0 pt1 ∅ pt0_inv Hc Hu Hf
    (kernel_mappable ∅) pt1_run).
Defined.

Lemma pt1_inv : ∃ B, pt_inv 2 pt1 B root0.
Proof.
  destruct uart_page as (Hc & Hu & Hf).
  destruct (map_addr_mapped root0 uart uart EntryAttributes.RW pt0 pt1 ∅ pt0_inv Hu Hf
    (kernel_mappable ∅) pt1_run) as (B' & HB). exists B'. apply HB.
Qed.

(** The page next to the UART is not mapped, and [paddr_of] answers it. *)
Lemma paddr_of_unmapped_sibling_witness : ∃ p, paddr_of root0 (uart + 4096) pt1 = Ok (Some p).
Proof.
  destruct pt1_inv as [B HB].
  apply (paddr_of_unmapped_sibling root0 uart (uart + 4096) pt1 B (leaf_entry uart EntryAttributes.RW) HB);
    vm_compute; reflexivity.
Defined.
