(* ===== verification/PageUser.v ===== *)
(** * Dropping the user half of an address space

    [unmap_user] removes every user mapping, frees every user page and changes
    nothing else: the kernel mappings (trampoline, trapframe) stay. *)

From S2P Require Import Prelude Symbols Mem Page PageTree PageOps.

(** The user pages below an entry of level [lvl], and of a tree *)
Fixpoint user_sub (lvl : nat) (fr : gmap Z frame) (e x : Z) : Prop :=
  is_v e = true ∧
  match lvl with
  | O => is_leaf e = true ∧ is_user e = true ∧ x = Entry_paddr e
  | S l => ∃ es i e', entries fr (Entry_paddr e) = Some es ∧ es !! i = Some e' ∧ user_sub l fr e' x
  end.
Definition upages (lvl : nat) (fr : gmap Z frame) (t x : Z) : Prop :=
  ∃ es i e, entries fr t = Some es ∧ es !! i = Some e ∧ user_sub lvl fr e x.

(** The mapping without its user part *)
Definition kernel_part (o : option Z) : option Z :=
  match o with Some e => if is_user e then None else Some e | None => None end.

Lemma user_sub_S l fr e x : user_sub (S l) fr e x ↔ is_v e = true ∧ upages l fr (Entry_paddr e) x.
Proof. done. Qed.

Lemma user_sub_sub lvl fr : ∀ e x, user_sub lvl fr e x → sub lvl fr e x.
Proof.
  induction lvl as [|l IH]; intros e x; [done|]. intros [Hv (es & i & e' & He & Hi & Hx)].
  split; [done|]. eapply fp_sub; [done..|]. by apply IH.
Qed.

Lemma upages_fp lvl fr t x : upages lvl fr t x → fp lvl fr t x.
Proof. intros (es & i & e & He & Hi & Hx). eapply fp_sub; [done..|]. by apply user_sub_sub. Qed.

Lemma upages_intro lvl fr t es i e x :
  entries fr t = Some es → es !! i = Some e → user_sub lvl fr e x → upages lvl fr t x.
Proof. intros He Hi Hx. by exists es, i, e. Qed.

Lemma user_sub_kept lvl fr fr' : ∀ e x,
  entry_wf lvl fr e → kept fr fr' (sub lvl fr e) → user_sub lvl fr' e x ↔ user_sub lvl fr e x.
Proof.
  induction lvl as [|l IH]; intros e x Hew Hk; [done|].
  rewrite !user_sub_S. destruct (is_v e) eqn:Hv; [|naive_solver]. unfold upages.
  destruct Hew as [_ Hw]. destruct (Hw Hv) as [_ (es & He & _ & _ & Hes & _)%tree_wf_unfold].
  assert (He' : entries fr' (Entry_paddr e) = Some es).
  { apply Hk; [|done]. split; [done|]. apply fp_root. }
  assert (Hkid : ∀ i e', es !! i = Some e' → user_sub l fr' e' x ↔ user_sub l fr e' x).
  { intros i e' Hi. apply IH; [by eapply Hes|]. intros a es' Ha. apply Hk.
    split; [done|]. by eapply fp_sub. }
  split; (intros [_ (es' & i & e' & Hes' & Hi & Hx)]; split; [done|];
    assert (es' = es) as -> by congruence; exists es, i, e'; split_and!; [done..|]; by apply (Hkid i)).
Qed.

Section unmap.
Context {A : Type} `{GlobalAllocLaws A}.
Implicit Types (m : kmem A) (B : gmap Z Z).

(** The blocks that stay when the pages [P] are freed *)
Definition freed B B' (P : Z → Prop) : Prop :=
  ∀ x n, B' !! x = Some n ↔ B !! x = Some n ∧ ¬ P x.

Lemma live_freed (a a' : A) B B' P x :
  heap_base a' = heap_base a → freed B B' P → live a B x → ¬ P x → live a' B' x.
Proof.
  intros Hb Hf [Hx|[n Hn]] HP; [left; lia|right]. exists n. by apply Hf.
Qed.

Record unmapped (lvl : nat) (t : Z) m B m' B' : Prop := {
  um_inv : pt_inv lvl m' B' t;
  um_base : heap_base (ga m') = heap_base (ga m);
  um_freed : freed B B' (upages lvl (frames m) t);
  um_frame : ∀ x, ¬ fp lvl (frames m) t x → frames m' !! x = frames m !! x;
  um_fp : ∀ x, fp lvl (frames m') t x → fp lvl (frames m) t x;
  um_leaf : ∀ va, leaf_at lvl (frames m') t va = kernel_part (leaf_at lvl (frames m) t va);
}.

(** One entry handled: the entry [i] is [v] now, what was below [e] has lost its user
    pages. *)
Record slot_unmapped (lvl : nat) (t : Z) (i : nat) (e v : Z) m B m' B' : Prop := {
  su_owned : owned (ga m') B';
  su_base : heap_base (ga m') = heap_base (ga m);
  su_es : ∀ es, entries (frames m) t = Some es → es !! i = Some e →
          entries (frames m') t = Some (<[i := v]> es);
  su_frame : ∀ x, x ≠ t → ¬ sub lvl (frames m) e x → frames m' !! x = frames m !! x;
  su_freed : freed B B' (user_sub lvl (frames m) e);
  su_wf : entry_wf lvl (frames m') v;
  su_sub : ∀ x, sub lvl (frames m') v x → sub lvl (frames m) e x ∧ live (ga m') B' x;
  su_leaf : ∀ va, leaf_below lvl (frames m') v va = kernel_part (leaf_below lvl (frames m) e va);
}.

(** The state of the loop when entries below [k] are done. *)
Record unmap_inv (lvl : nat) (t : Z) m B (k : Z) mk Bk : Prop := {
  ui_inv : pt_inv lvl mk Bk t;
  ui_base : heap_base (ga mk) = heap_base (ga m);
  ui_frame : ∀ x, ¬ fp lvl (frames m) t x → frames mk !! x = frames m !! x;
  ui_fp : ∀ x, fp lvl (frames mk) t x → fp lvl (frames m) t x;
  ui_freed : freed B Bk (λ x, ∃ es j e, entries (frames m) t = Some es ∧ es !! j = Some e ∧
               Z.of_nat j < k ∧ user_sub lvl (frames m) e x);
  ui_rest : ∀ es j e, entries (frames m) t = Some es → es !! j = Some e → k ≤ Z.of_nat j →
            (∃ esk, entries (frames mk) t = Some esk ∧ esk !! j = Some e) ∧
            kept (frames m) (frames mk) (sub lvl (frames m) e);
  ui_leaf : ∀ va, leaf_at lvl (frames mk) t va =
            if decide (vidx va lvl < k) then kernel_part (leaf_at lvl (frames m) t va)
            else leaf_at lvl (frames m) t va;
}.

Lemma unmap_inv_start lvl t m B : pt_inv lvl m B t → unmap_inv lvl t m B 0 m B.
Proof.
  intros Hinv. split; try done.
  - intros x n. split; [|naive_solver]. intros HB. split; [done|].
    intros (es & j & e & _ & _ & Hj & _). lia.
  - intros es j e He Hj _. split; [eauto|]. by intros a es' _.
  - intros va. pose proof (vidx_bounds va lvl). by rewrite decide_False by lia.
Qed.

Lemma unmap_inv_end lvl t m B m' B' :
  tree_wf lvl (frames m) t → unmap_inv lvl t m B 512 m' B' → unmapped lvl t m B m' B'.
Proof.
  intros (es & He & Hlen & _)%tree_wf_unfold [Hinv Hb Hfr Hfp Hfd _ Hlf]. split; try done.
  - intros x n. rewrite (Hfd x n). split; intros [HB Hn]; split; try done; intros Hx; apply Hn.
    + destruct Hx as (es' & j & e & He' & Hj & Hx). exists es', j, e. split_and!; try done.
      assert (es' = es) as -> by congruence. apply lookup_lt_Some in Hj. lia.
    + destruct Hx as (es' & j & e & He' & Hj & _ & Hx). by eapply upages_intro.
  - intros va. pose proof (vidx_bounds va lvl). rewrite Hlf. by rewrite decide_True by lia.
Qed.

Section step.
Context (lvl : nat) (t : Z) m B (k : Z) (mk : kmem A) (Bk : gmap Z Z) m' B' (es esk : list Z) (e v : Z).
Context (Hinv0 : pt_inv lvl m B t) (Hk : 0 ≤ k < 512)
  (He : entries (frames m) t = Some es) (Hj : es !! Z.to_nat k = Some e)
  (Hui : unmap_inv lvl t m B k mk Bk)
  (Hek : entries (frames mk) t = Some esk) (Hjk : esk !! Z.to_nat k = Some e)
  (Hsu : slot_unmapped lvl t (Z.to_nat k) e v mk Bk m' B').

Lemma step_entry_wf j e' : es !! j = Some e' → entry_wf lvl (frames m) e'.
Proof using Hinv0 He.
  destruct Hinv0 as [_ Hw _]. apply tree_wf_unfold in Hw as (es0 & ? & _ & _ & Hew & _).
  assert (es0 = es) as -> by congruence. apply Hew.
Qed.

(** What is below an entry that is not done yet is what it was. *)
Lemma step_rest j e' :
  es !! j = Some e' → k ≤ Z.of_nat j →
  esk !! j = Some e' ∧ kept (frames m) (frames mk) (sub lvl (frames m) e') ∧
  (∀ x, sub lvl (frames mk) e' x ↔ sub lvl (frames m) e' x) ∧
  (∀ x, user_sub lvl (frames mk) e' x ↔ user_sub lvl (frames m) e' x).
Proof using Hinv0 He Hui Hek.
  intros Hj' Hle. destruct (ui_rest _ _ _ _ _ _ _ Hui es j e' He Hj' Hle) as [(es1 & Hes1 & Hl) Hkp].
  assert (es1 = esk) as -> by congruence. pose proof (step_entry_wf j e' Hj') as Hew.
  split_and!; [done..|by apply sub_kept|]. intros x. by apply user_sub_kept.
Qed.

Lemma step_tree :
  (∀ j e', esk !! j = Some e' → ¬ sub lvl (frames mk) e' t) ∧
  (∀ j e' x, j ≠ Z.to_nat k → esk !! j = Some e' → sub lvl (frames mk) e x →
    ¬ sub lvl (frames mk) e' x).
Proof using Hui Hek Hjk.
  destruct (ui_inv _ _ _ _ _ _ _ Hui) as [_ Hw _].
  apply tree_wf_unfold in Hw as (es0 & ? & _ & _ & _ & Hnt & Hdis).
  assert (es0 = esk) as -> by congruence. split; [done|].
  intros j e' x Hne Hj' Hx Hx'. by apply (Hdis j (Z.to_nat k) e' e x).
Qed.

Lemma step_kept j e' :
  j ≠ Z.to_nat k → esk !! j = Some e' → kept (frames mk) (frames m') (sub lvl (frames mk) e').
Proof using Hui Hek Hjk Hsu.
  intros Hne Hj' a es' Ha. destruct step_tree as [Hnt Hdis].
  rewrite (entries_eq (frames mk) (frames m') a); [done|]. apply (su_frame _ _ _ _ _ _ _ _ _ Hsu).
  - intros ->. by eapply Hnt.
  - intros Ha'. by eapply Hdis.
Qed.

Lemma step_es : entries (frames m') t = Some (<[Z.to_nat k := v]> esk).
Proof using Hek Hjk Hsu. by apply (su_es _ _ _ _ _ _ _ _ _ Hsu). Qed.

Lemma step_fp x :
  fp lvl (frames m') t x ↔ x = t ∨ sub lvl (frames m') v x ∨
    ∃ j e', j ≠ Z.to_nat k ∧ esk !! j = Some e' ∧ sub lvl (frames mk) e' x.
Proof using Hk Hui Hek Hjk Hsu.
  apply slot_fp; [apply Hui|done|lia|apply step_es|apply step_kept].
Qed.

Lemma step_pt_inv : pt_inv lvl m' B' t.
Proof using Hk Hui Hek Hjk Hsu.
  destruct step_tree as [Hnt Hdis]. pose proof Hsu as [Ho Hb _ _ Hfd Hwv Hsub _].
  destruct (ui_inv _ _ _ _ _ _ _ Hui) as [_ Hw Hl]. split; [done|..].
  - eapply slot_wf; [exact Hw|exact Hek| |apply step_es|apply step_kept|done|..]; [lia|..].
    + intros [Hx _]%Hsub. by eapply Hnt.
    + intros j e' x Hne Hj' [Hx _]%Hsub. by eapply Hdis.
  - intros x [->|[Hx|(j & e' & Hne & Hj' & Hx)]]%step_fp; [|by apply Hsub|].
    + eapply live_freed; [done|done|apply Hl, fp_root|]. intros Hx%user_sub_sub. by eapply Hnt.
    + eapply live_freed; [done|done|apply Hl; by eapply fp_sub|]. intros Hx'%user_sub_sub.
      by eapply Hdis.
Qed.

Lemma step_freed :
  freed B B' (λ x, ∃ es j e, entries (frames m) t = Some es ∧ es !! j = Some e ∧
                Z.of_nat j < k + 1 ∧ user_sub lvl (frames m) e x).
Proof using Hinv0 Hk He Hj Hui Hek Hjk Hsu.
  intros x n. rewrite (su_freed _ _ _ _ _ _ _ _ _ Hsu x n), (ui_freed _ _ _ _ _ _ _ Hui x n).
  destruct (step_rest _ _ Hj) as (_ & _ & _ & ->); [lia|]. split.
  - intros [[HB Hn1] Hn2]. split; [done|]. intros (es1 & j & e' & He1 & Hj1 & Hlt & Hx).
    assert (es1 = es) as -> by congruence. destruct (decide (j = Z.to_nat k)) as [->|].
    + apply Hn2. congruence.
    + apply Hn1. exists es, j, e'. split_and!; try done; lia.
  - intros [HB Hn]. split; [split; [done|]|].
    + intros (es1 & j & e' & He1 & Hj1 & Hlt & Hx). apply Hn. exists es1, j, e'.
      split_and!; try done; lia.
    + intros Hx. apply Hn. exists es, (Z.to_nat k), e. split_and!; try done; lia.
Qed.

Lemma step_leaf va :
  leaf_at lvl (frames m') t va =
    if decide (vidx va lvl < k + 1) then kernel_part (leaf_at lvl (frames m) t va)
    else leaf_at lvl (frames m) t va.
Proof using Hk Hui Hek Hjk Hsu.
  pose proof (vidx_bounds va lvl). pose proof (ui_leaf _ _ _ _ _ _ _ Hui va) as Hlf.
  destruct (ui_inv _ _ _ _ _ _ _ Hui) as [_ Hw _].
  destruct (decide (vidx va lvl = k)) as [Ek|Ek].
  - rewrite decide_True by lia.
    rewrite (slot_leaf_here lvl (frames mk) (frames m') t esk (Z.to_nat k) v) by (done || lia || apply step_es || by rewrite Ek).
    rewrite (su_leaf _ _ _ _ _ _ _ _ _ Hsu). f_equal.
    rewrite <- (leaf_at_unfold lvl (frames mk) t va esk e) by (done || by rewrite Ek).
    rewrite Hlf. by rewrite decide_False by lia.
  - rewrite (slot_leaf_other lvl (frames mk) (frames m') t esk (Z.to_nat k) v)
      by (done || lia || apply step_es || apply step_kept). rewrite Hlf.
    destruct (decide (vidx va lvl < k)), (decide (vidx va lvl < k + 1)); done || lia.
Qed.

Lemma unmap_inv_step : unmap_inv lvl t m B (k + 1) m' B'.
Proof using Hinv0 Hk He Hj Hui Hek Hjk Hsu.
  destruct (step_rest _ _ Hj) as (_ & _ & Hss & _); [lia|]. split.
  - apply step_pt_inv.
  - rewrite (su_base _ _ _ _ _ _ _ _ _ Hsu). apply (ui_base _ _ _ _ _ _ _ Hui).
  - intros x Hnx. rewrite (su_frame _ _ _ _ _ _ _ _ _ Hsu).
    + by apply (ui_frame _ _ _ _ _ _ _ Hui).
    + intros ->. apply Hnx, fp_root.
    + intros Hx%Hss. apply Hnx. by eapply fp_sub.
  - intros x Hx%step_fp. apply (ui_fp _ _ _ _ _ _ _ Hui).
    destruct Hx as [->|[Hx|(j & e' & Hne & Hj' & Hx)]]; [apply fp_root| |by eapply fp_sub].
    apply (su_sub _ _ _ _ _ _ _ _ _ Hsu) in Hx as [Hx _]. by eapply fp_sub.
  - apply step_freed.
  - intros es1 j e' He1 Hj1 Hle. assert (es1 = es) as -> by congruence.
    destruct (step_rest j e' Hj1) as (Hjk1 & Hkj & Hsj & _); [lia|].
    assert (j ≠ Z.to_nat k) as Hne by lia. split.
    + eexists. split; [apply step_es|]. by rewrite list_lookup_insert_ne.
    + intros a es' Ha Hea. apply (step_kept j e' Hne Hjk1); [by apply Hsj|by apply Hkj].
  - apply step_leaf.
Qed.
End step.

(** ** The three things the loop does with an entry *)
Lemma slot_same lvl t i e m B es :
  pt_inv lvl m B t → entries (frames m) t = Some es → es !! i = Some e →
  is_v e = false ∨ (lvl = 0%nat ∧ is_user e = false) →
  slot_unmapped lvl t i e e m B m B.
Proof.
  intros [Ho Hw Hl] He Hi Hcase.
  assert (Hnu : ∀ x, ¬ user_sub lvl (frames m) e x).
  { intros x Hx. destruct Hcase as [Hv|[-> Hu]]; [destruct lvl|]; destruct Hx; naive_solver congruence. }
  split; try done.
  - intros es' He' Hi'. by rewrite list_insert_id.
  - intros x n. naive_solver.
  - apply tree_wf_unfold in Hw as (es0 & ? & _ & _ & Hew & _).
    assert (es0 = es) as -> by congruence. by eapply Hew.
  - intros x Hx. split; [done|]. apply Hl. by eapply fp_sub.
  - intros va. unfold leaf_below. destruct Hcase as [->|[-> Hu]]; [done|].
    destruct (is_v e); [|done]. simpl. by rewrite Hu.
Qed.

Lemma slot_user_leaf t i e m B es m' :
  pt_inv 0 m B t → entries (frames m) t = Some es → es !! i = Some e →
  is_v e = true → is_leaf e = true → is_user e = true →
  (∃ n, B !! Entry_paddr e = Some n) →
  (m1 ← write_entry m t (Z.of_nat i) 0; drop_frame (Entry_paddr e) m1) = Ok m' →
  ∃ B', slot_unmapped 0 t i e 0 m B m' B'.
Proof.
  intros [Ho Hw Hl] He Hi Hv Hlf Hu [n Hn] Hrun.
  pose proof (lookup_lt_Some _ _ _ Hi).
  rewrite (write_entry_Ok m t es) in Hrun by (done || lia). rewrite bind_Ok_l, Nat2Z.id in Hrun.
  unfold drop_frame in Hrun. cbn [ga frames] in Hrun.
  destruct (gdealloc_owned (ga m) B _ n Ho Hn) as (a' & Ha' & Hb & Ho').
  rewrite Ha', bind_Ok_l in Hrun. injection Hrun as <-.
  exists (delete (Entry_paddr e) B). split; cbn [ga frames]; try done.
  - intros es' He' Hi'. assert (es' = es) as -> by congruence. apply entries_insert.
  - intros x Hx _. by apply lookup_insert_ne.
  - intros x n'. rewrite lookup_delete_Some. unfold user_sub. split.
    + intros [Hne HB]. split; [done|]. intros (_ & _ & _ & ->). done.
    + intros [HB Hx]. split; [|done]. intros <-. by apply Hx.
  - intros x Hx. by apply zero_sub in Hx.
  - intros va. unfold leaf_below. rewrite Hv, is_v_0. simpl. by rewrite Hu.
Qed.

Lemma slot_child l t i e m B es m' B' :
  pt_inv (S l) m B t → entries (frames m) t = Some es → es !! i = Some e → is_v e = true →
  unmapped l (Entry_paddr e) m B m' B' →
  slot_unmapped (S l) t i e e m B m' B'.
Proof.
  intros [Ho Hw Hl] He Hi Hv [[Ho' Hw' Hl'] Hb Hfd Hfr Hfp Hlf].
  apply tree_wf_unfold in Hw as (es0 & ? & _ & _ & Hew & Hnt & _).
  assert (es0 = es) as -> by congruence. split; try done.
  - intros es' He' Hi'. assert (es' = es) as -> by congruence. rewrite list_insert_id by done.
    rewrite <- He. apply entries_eq, Hfr. intros Ht. eapply Hnt; [exact Hi|]. by split.
  - intros x _ Hx. apply Hfr. intros Hx'. apply Hx. by split.
  - intros x n. rewrite (Hfd x n), user_sub_S. naive_solver.
  - destruct (Hew _ _ Hi) as [Hu Hwe]. split; [done|]. intros _. split; [by apply Hwe|done].
  - intros x [_ Hx]. split; [split; [done|by apply Hfp]|by apply Hl'].
  - intros va. unfold leaf_below. by rewrite Hv, Hlf.
Qed.
(** Every user page below [t] is a live block: what [Box::from_raw] relies on. *)
Definition user_boxed (lvl : nat) m B (t : Z) : Prop :=
  ∀ x, upages lvl (frames m) t x → ∃ n, B !! x = Some n.

Lemma slot_run_total l fuel t m B es i e :
  pt_inv l m B t → entries (frames m) t = Some es → es !! i = Some e →
  (∀ x, user_sub l (frames m) e x → ∃ n, B !! x = Some n) →
  (∀ l' t', l = S l' → pt_inv l' m B t' → user_boxed l' m B t' →
    ∃ m' B', unmap_user fuel t' m = Ok m' ∧ unmapped l' t' m B m' B') →
  ∃ v m' B',
    (if is_v e then
       if is_leaf e then
         if is_user e then m1 ← write_entry m t (Z.of_nat i) 0; drop_frame (Entry_paddr e) m1
         else Ok m
       else _ ← ptr_unwrap (Entry_paddr e); unmap_user fuel (Entry_paddr e) m
     else Ok m) = Ok m' ∧ slot_unmapped l t i e v m B m' B'.
Proof.
  intros Hinv He Hi Hbox Hrec. pose proof Hinv as [Ho Hw Hl].
  apply tree_wf_unfold in Hw as (es0 & ? & Hlen & _ & Hew & _).
  assert (es0 = es) as -> by congruence. destruct (Hew i e Hi) as [Hu Hwe].
  destruct (is_v e) eqn:Hv; [|by exists e, m, B; split; [|eapply slot_same; eauto]].
  specialize (Hwe eq_refl). destruct l as [|l].
  - rewrite Hwe. destruct (is_user e) eqn:Hue;
      [|by exists e, m, B; split; [|eapply slot_same; eauto]].
    destruct (Hbox (Entry_paddr e)) as [n Hn]; [done|].
    pose proof (lookup_lt_Some _ _ _ Hi).
    destruct (gdealloc_owned (ga m) B _ n Ho Hn) as (a' & Ha' & _).
    assert (∃ m', (m1 ← write_entry m t (Z.of_nat i) 0; drop_frame (Entry_paddr e) m1) = Ok m')
      as [m' Hm'].
    { rewrite (write_entry_Ok m t es) by (done || lia). rewrite bind_Ok_l. unfold drop_frame.
      cbn [ga frames]. rewrite Ha'. eauto. }
    destruct (slot_user_leaf t i e m B es m') as [B' HB']; [done..|by exists n|done|].
    by exists 0, m', B'.
  - destruct Hwe as [-> Hwt]. pose proof (tree_wf_frame_addr _ _ _ Hwt) as [Hpos _].
    unfold ptr_unwrap. destruct (Z.eqb_spec (Entry_paddr e) 0); [lia|]. simpl.
    destruct (Hrec l (Entry_paddr e)) as (m' & B' & Hrun & Hum); [done|..].
    + split; [done..|]. intros x Hx. apply Hl. eapply fp_sub; [done..|]. by split.
    + intros x Hx. apply Hbox. by rewrite user_sub_S.
    + exists e, m', B'. split; [done|]. by eapply slot_child.
Qed.

Lemma unmap_user_level lvl : ∀ t m B,
  pt_inv lvl m B t → user_boxed lvl m B t →
  ∃ m' B', unmap_user (S lvl) t m = Ok m' ∧ unmapped lvl t m B m' B'.
Proof.
  induction lvl as [lvl IH] using lt_wf_ind. intros t m B Hinv Hbox.
  pose proof Hinv as [_ Hw _]. pose proof Hw as (es & He & Hlen & _)%tree_wf_unfold.
  assert (∃ m', unmap_user (S lvl) t m = Ok m' ∧ ∃ B', unmap_inv lvl t m B 512 m' B')
    as (m' & Hrun & B' & HB'); last first.
  { exists m', B'. split; [done|]. by apply unmap_inv_end. }
  change (unmap_user (S lvl) t m) with
    (for_range 0 512 (λ i m,
        v ← read_entry m t i;
        if is_v v then
          if is_leaf v then
            if is_user v then m ← write_entry m t i 0; drop_frame (Entry_paddr v) m else Ok m
          else _ ← ptr_unwrap (Entry_paddr v); unmap_user lvl (Entry_paddr v) m
        else Ok m) m).
  apply (for_range_total (λ k mk, ∃ Bk, unmap_inv lvl t m B k mk Bk)); [lia|..].
  { exists B. by apply unmap_inv_start. }
  intros k mk [Hk0 Hk] [Bk Hui]. rename Bk into Bk0.
  destruct (lookup_lt_is_Some_2 es (Z.to_nat k)) as [e Hj]; [lia|].
  destruct (ui_rest _ _ _ _ _ _ _ Hui es (Z.to_nat k) e He Hj) as [(esk & Hek & Hjk) Hkp]; [lia|].
  rewrite (read_entry_Ok mk t esk k e) by done. rewrite bind_Ok_l.
  pose proof (ui_inv _ _ _ _ _ _ _ Hui) as Hinvk.
  destruct (slot_run_total lvl lvl t mk Bk0 esk (Z.to_nat k) e) as (v & m' & B' & Hrun & Hsu);
    [done..| | |].
  - intros x Hx. rewrite (user_sub_kept lvl (frames m)) in Hx by
      (done || by eapply (step_entry_wf lvl t m B es)).
    destruct (Hbox x) as [n Hn]; [by eapply upages_intro|]. exists n.
    apply (ui_freed _ _ _ _ _ _ _ Hui). split; [done|].
    intros (es' & j & e' & He' & Hj' & Hlt & Hx'). assert (es' = es) as -> by congruence.
    apply tree_wf_unfold in Hw as (es0 & ? & _ & _ & _ & _ & Hdis).
    assert (es0 = es) as -> by congruence.
    apply (Hdis j (Z.to_nat k) e' e x); [lia|done..|by apply user_sub_sub|by apply user_sub_sub].
  - intros l' t' -> Hinv' Hbox'. destruct (IH l' ltac:(lia) t' mk Bk0 Hinv' Hbox') as (m' & B' & ?).
    by exists m', B'.
  - rewrite Z2Nat.id in Hrun by lia. exists m'. split; [done|]. exists B'.
    by eapply (unmap_inv_step lvl t m B k mk Bk0 m' B' es esk e v).
Qed.

(** C10: unmap_user terminates without a fault, removes exactly the user leaves from the
    mapping and keeps the kernel ones, frees exactly the user pages and no other
    block, and writes no frame outside the tree. *)
Theorem unmap_user_drops_user_half root m B :
  pt_inv 2 m B root → user_boxed 2 m B root →
  ∃ m' B', unmap_user 3 root m = Ok m' ∧ pt_inv 2 m' B' root ∧
    (∀ va, page_map m' root va = kernel_part (page_map m root va)) ∧
    (∀ x n, B' !! x = Some n ↔ B !! x = Some n ∧ ¬ upages 2 (frames m) root x) ∧
    (∀ x, ¬ fp 2 (frames m) root x → frames m' !! x = frames m !! x).
Proof.
  intros Hinv Hbox. destruct (unmap_user_level 2 root m B Hinv Hbox) as (m' & B' & Hrun & [Hi _ Hf Hfr _ Hl]).
  by exists m', B'.
Qed.

(** ** Trees whose frames are boxed, apart from the root *)
Definition tree_boxed m B (root : Z) : Prop :=
  ∀ x, fp 2 (frames m) root x → x = root ∨ is_Some (B !! x).

Lemma tree_boxed_user m B root :
  pt_inv 2 m B root → tree_boxed m B root → user_boxed 2 m B root.
Proof.
  intros [_ Hw _] Htb x Hx. destruct (Htb x) as [->|[n Hn]]; [by apply upages_fp| |by exists n].
  exfalso. destruct Hx as (es & i & e & He & Hi & Hx). apply user_sub_sub in Hx.
  apply tree_wf_unfold in Hw as (es' & He' & _ & _ & _ & Hnt & _).
  assert (es' = es) as -> by congruence. by apply (Hnt i e).
Qed.

Lemma tree_boxed_map root vaddr paddr flags m m' B :
  pt_inv 2 m B root → is_usize paddr → leaf_flags flags → mappable m B root paddr flags →
  is_Some (B !! paddr) → tree_boxed m B root → map_addr root vaddr paddr flags 0 m = Ok m' →
  ∃ B', pt_inv 2 m' B' root ∧ tree_boxed m' B' root.
Proof.
  intros Hinv Hp Hf Hmp [n Hn] Htb Hrun. pose proof (map_addr_entry _ _ _ _ _ _ Hrun) as (Ha & _).
  destruct (leaf_entry_spec paddr flags Hp Ha Hf) as (_ & _ & _ & Hpa & _).
  destruct (map_addr_mapped _ _ _ _ _ _ _ Hinv Hp Hf Hmp Hrun) as (B' & [Hi Hg Hb _ Hfp _]).
  exists B'. split; [done|]. intros x Hx. destruct (Hfp x Hx) as [Hx'|[Hnl|[_ ->]]].
  - destruct (Htb x Hx') as [->|[k Hk]]; [by left|right]. exists k. by eapply lookup_weaken.
  - right. destruct (pi_live _ _ _ _ Hi x Hx) as [Hlt|?]; [|done]. destruct Hnl. left. lia.
  - right. exists n. rewrite Hpa. by eapply lookup_weaken.
Qed.
End unmap.

(** ** A user page in the table of [pt0] *)
Definition upage : Z := 0x80200000.
Definition pt0' : kmem Allocator := (or_else (Page_new pt0) (0, pt0)).2.
Definition ptu : kmem Allocator := or_else (Table_map root0 0x1000 upage EntryAttributes.URW pt0') pt0.

Lemma pt0'_run : Page_new pt0 = Ok (upage, pt0').
Proof.
  assert (match Page_new pt0 with Ok (p, _) => p =? upage | Err _ => false end = true) as Hp
    by (vm_compute; reflexivity).
  unfold pt0'. destruct (Page_new pt0) as [[p m]|]; [|done]. by apply Z.eqb_eq in Hp as ->.
Qed.

Lemma ptu_run : Table_map root0 0x1000 upage EntryAttributes.URW pt0' = Ok ptu.
Proof. apply or_else_ok. vm_compute. reflexivity. Qed.

Lemma pt0'_inv : pt_inv 2 pt0' {[upage := 1]} root0 ∧ ∀ x, fp 2 (frames pt0') root0 x ↔ x = root0.
Proof.
  destruct (box_frame_Ok (FPage zero_page) pt0 ∅ upage pt0' heap0_owned pt0'_run) as (Ho & _ & _ & Hb & Hfr & _).
  destruct (fresh_tree 2 (frames pt0') root0) as (Hw & Hfp & _).
  - rewrite Hfr. unfold entries. rewrite lookup_insert_ne; [apply entries_insert|by vm_compute].
  - split; [unfold root0; lia|reflexivity].
  - split; [|done]. split; [exact Ho|done|]. intros x ->%Hfp. left. rewrite Hb. vm_compute. done.
Qed.

Lemma ptu_inv : ∃ B, pt_inv 2 ptu B root0 ∧ tree_boxed ptu B root0.
Proof.
  destruct pt0'_inv as [Hi Hfp]. apply (tree_boxed_map root0 0x1000 upage EntryAttributes.URW pt0' ptu {[upage := 1]}).
  - done.
  - split; vm_compute; done.
  - split; [split|]; vm_compute; done.
  - intros _. split; [right; by rewrite lookup_singleton_eq|]. rewrite Hfp. by vm_compute.
  - by rewrite lookup_singleton_eq.
  - intros x ->%Hfp. by left.
  - exact ptu_run.
Qed.

Lemma unmap_user_drops_user_half_witness :
  page_map ptu root0 0x1000 = Some (leaf_entry upage EntryAttributes.URW) ∧
  ∃ m', unmap_user 3 root0 ptu = Ok m' ∧ page_map m' root0 0x1000 = None.
Proof.
  assert (page_map ptu root0 0x1000 = Some (leaf_entry upage EntryAttributes.URW)) as Hm
    by (vm_compute; reflexivity).
  split; [exact Hm|]. destruct ptu_inv as (B & Hi & Hb).
  destruct (unmap_user_drops_user_half root0 ptu B Hi (tree_boxed_user _ _ _ Hi Hb))
    as (m' & B' & Hrun & _ & Hp & _).
  exists m'. split; [exact Hrun|]. rewrite Hp, Hm. vm_compute. reflexivity.
Defined.
