(* ===== verification/PageClone.v ===== *)
(** * Copying an address space

    [clone_walk] and [Clone for Box<Table>], which [fork] uses: the child gets its own
    tables and its own copy of every user page, at the same addresses with the same
    flags; kernel mappings are not copied and the parent does not change. *)

From S2P Require Import Prelude Symbols Mem Page PageTree PageOps PageUser.

(** ** Entries *)
Lemma flags_range e : is_usize e → 0 ≤ Entry_flags e < 2 ^ 10.
Proof.
  intros He. unfold Entry_flags. change 0x3ff with (Z.ones 10). rewrite Z.land_ones by lia. apply Z.mod_pos_bound. lia.
Qed.

Lemma has_flags e mask : 0 ≤ mask < 2 ^ 10 → has (Entry_flags e) mask = has e mask.
Proof.
  intros Hm. unfold has, Entry_flags. rewrite <- Z.land_assoc. change 0x3ff with (Z.ones 10).
  rewrite (Z.land_comm (Z.ones 10)), Z.land_ones, Z.mod_small by lia. done.
Qed.

(** The entry of the copy: another page, the same flags *)
Lemma copy_entry p e : frame_addr p → is_usize e →
  let e' := Entry_new p (Entry_flags e) in
  is_usize e' ∧ Entry_paddr e' = p ∧ is_v e' = is_v e ∧ is_leaf e' = is_leaf e ∧ is_user e' = is_user e.
Proof.
  intros Hp He. pose proof (flags_range e He) as Hf. pose proof (frame_addr_usize p Hp) as Hu. destruct Hp as [_ Hal].
  split_and!; [by apply Entry_new_usize|by apply Entry_paddr_new|..]; unfold is_v, is_leaf, is_user;
    (rewrite has_new; [by apply has_flags|done..]).
Qed.

(** A user leaf is in the tree. *)
Lemma leaf_owned lvl fr : ∀ t va e,
  tree_wf lvl fr t → leaf_at lvl fr t va = Some e → is_user e = true → fp lvl fr t (Entry_paddr e).
Proof.
  induction lvl as [|l IH]; intros t va e (es & He & Hlen & _ & Hes & _)%tree_wf_unfold Hl Hu.
  - cbn in Hl. rewrite He in Hl. destruct (es !! _) as [e0|] eqn:Hi; [|done].
    destruct (is_v e0) eqn:Hv; [|done]. injection Hl as ->. eapply fp_sub; [done..|].
    split; [done|]. split_and!; [by apply (Hes _ _ Hi)|done|done].
  - cbn in Hl. rewrite He in Hl. destruct (es !! _) as [e0|] eqn:Hi; [|done].
    destruct (is_v e0) eqn:Hv; [|done]. eapply fp_sub; [done..|]. split; [done|].
    eapply IH; [|done|done]. by apply (Hes _ _ Hi).
Qed.

Section clone.
Context {A : Type} `{GlobalAllocLaws A}.
Implicit Types (m : kmem A) (B : gmap Z Z).

(** ** Growth: only fresh frames are written *)
Record grows m B m' B' : Prop := {
  gw_owned : owned (ga m') B';
  gw_blocks : B ⊆ B';
  gw_base : heap_base (ga m') = heap_base (ga m);
  gw_frames : ∀ x, live (ga m) B x → frames m' !! x = frames m !! x;
}.

Lemma grows_refl m B : owned (ga m) B → grows m B m B.
Proof. by split. Qed.

Lemma grows_live m B m' B' x : grows m B m' B' → live (ga m) B x → live (ga m') B' x.
Proof. intros [_ Hg Hb _]. by apply live_mono. Qed.

Lemma grows_trans m B m1 B1 m2 B2 : grows m B m1 B1 → grows m1 B1 m2 B2 → grows m B m2 B2.
Proof.
  intros G1 G2. destruct G1 as [O1 S1 H1 F1], G2 as [O2 S2 H2 F2].
  split; [done|by transitivity B1|congruence|]. intros x Hx. rewrite F2; [by apply F1|]. by eapply live_mono.
Qed.

Lemma grows_kept m B m' B' (P : Z → Prop) :
  grows m B m' B' → (∀ x, P x → live (ga m) B x) → kept (frames m) (frames m') P.
Proof. intros [_ _ _ F] HP a es Ha. rewrite (entries_eq (frames m) (frames m') a); [done|]. by apply F, HP. Qed.

Lemma grows_pt_inv lvl m B m' B' t : grows m B m' B' → pt_inv lvl m B t →
  pt_inv lvl m' B' t ∧ (∀ va, leaf_at lvl (frames m') t va = leaf_at lvl (frames m) t va).
Proof.
  intros G [Ho Hw Hl]. pose proof (grows_kept _ _ _ _ _ G Hl) as Hk.
  destruct (tree_wf_frame lvl _ _ t Hw Hk) as [Hw' Hlf]. split; [|done]. split; [apply G|done|].
  intros x Hx%(fp_frame lvl _ _ t Hw Hk). eapply grows_live; [done|]. by apply Hl.
Qed.

Lemma box_grows f m B p m' : owned (ga m) B → box_frame f m = Ok (p, m') →
  grows m B m' (<[p := 1]> B) ∧ ¬ live (ga m) B p ∧ frames m' !! p = Some f ∧ frame_addr p.
Proof.
  intros Ho Hb. destruct (box_frame_Ok _ _ _ _ _ Ho Hb) as (Ho' & Hg & Hn & Hba & Hfr & Hfa).
  split_and!; [|done|rewrite Hfr; apply lookup_insert_eq|done]. split; [done..|].
  intros x Hx. rewrite Hfr, lookup_insert_ne; [done|]. congruence.
Qed.

(** ** What the copy maps

    Where the parent has a user page, the copy has a fresh page with its contents and
    flags; elsewhere nothing. *)
Definition copied m B m' B' (o o' : option Z) : Prop :=
  match o with
  | Some e =>
      if is_user e then
        ∃ pg d, o' = Some (Entry_new pg (Entry_flags e)) ∧ frames m !! Entry_paddr e = Some (FPage d) ∧
          frames m' !! pg = Some (FPage d) ∧ ¬ live (ga m) B pg ∧ is_Some (B' !! pg)
      else o' = None
  | None => o' = None
  end.

Lemma copied_later m B m' B' m2 B2 o o' : grows m' B' m2 B2 → copied m B m' B' o o' → copied m B m2 B2 o o'.
Proof.
  intros [_ Hg _ F]. unfold copied. destruct o as [e|]; [|done]. destruct (is_user e); [|done].
  intros (pg & d & Ho & He & Hd & Hn & [n Hs]). exists pg, d. split_and!; [done|done| |done|exists n; by eapply lookup_weaken].
  rewrite F; [done|]. right. by exists n.
Qed.

Lemma copied_earlier m0 B0 m B m' B' o o' :
  grows m0 B0 m B → (∀ e, o = Some e → is_user e = true → live (ga m0) B0 (Entry_paddr e)) →
  copied m B m' B' o o' → copied m0 B0 m' B' o o'.
Proof.
  intros G Hl. unfold copied. destruct o as [e|]; [|done]. destruct (is_user e) eqn:Hu; [|done].
  intros (pg & d & Ho & He & Hd & Hn & Hs). exists pg, d. split_and!; [done| |done| |done].
  - by rewrite <- (gw_frames _ _ _ _ G) by (by apply Hl).
  - intros Hp. by apply Hn, (grows_live _ _ _ _ _ G).
Qed.

(** A copied tree, and a copied entry *)
Record cloned (lvl : nat) (t : Z) m B (t' : Z) m' B' : Prop := {
  cl_grow : grows m B m' B';
  cl_wf : tree_wf lvl (frames m') t';
  cl_new : ∀ x, fp lvl (frames m') t' x → ¬ live (ga m) B x ∧ is_Some (B' !! x);
  cl_leaf : ∀ va, copied m B m' B' (leaf_at lvl (frames m) t va) (leaf_at lvl (frames m') t' va);
}.
Record slot_cloned (lvl : nat) (e : Z) m B (e' : Z) m' B' : Prop := {
  sc_grow : grows m B m' B';
  sc_wf : entry_wf lvl (frames m') e';
  sc_new : ∀ x, sub lvl (frames m') e' x → ¬ live (ga m) B x ∧ is_Some (B' !! x);
  sc_leaf : ∀ va, copied m B m' B' (leaf_below lvl (frames m) e va) (leaf_below lvl (frames m') e' va);
}.

(** The loop with entries below [k] copied to the local table [pgt] *)
Record clone_inv (lvl : nat) (es : list Z) m B (k : Z) (pgt : list Z) mk Bk : Prop := {
  ci_grow : grows m B mk Bk;
  ci_len : length pgt = 512%nat;
  ci_rest : ∀ j : nat, k ≤ Z.of_nat j → (j < 512)%nat → pgt !! j = Some 0;
  ci_wf : ∀ j e', pgt !! j = Some e' → entry_wf lvl (frames mk) e';
  ci_new : ∀ j e' x, pgt !! j = Some e' → sub lvl (frames mk) e' x → ¬ live (ga m) B x ∧ is_Some (Bk !! x);
  ci_dis : ∀ i j e1 e2 x, i ≠ j → pgt !! i = Some e1 → pgt !! j = Some e2 →
           sub lvl (frames mk) e1 x → ¬ sub lvl (frames mk) e2 x;
  ci_leaf : ∀ j e e' va, es !! j = Some e → pgt !! j = Some e' → Z.of_nat j < k →
            copied m B mk Bk (leaf_below lvl (frames m) e va) (leaf_below lvl (frames mk) e' va);
}.

Lemma zero_entry_wf lvl fr : entry_wf lvl fr 0.
Proof. split; [split; lia|]. by rewrite is_v_0. Qed.

Lemma clone_inv_start lvl es m B : owned (ga m) B → clone_inv lvl es m B 0 Table_new m B.
Proof.
  intros Ho. split.
  - by apply grows_refl.
  - apply length_replicate.
  - intros j _ Hj. by apply lookup_replicate_2.
  - intros j e' ->%Table_new_lookup. apply zero_entry_wf.
  - intros j e' x ->%Table_new_lookup Hx. by apply zero_sub in Hx.
  - intros i j e1 e2 x _ ->%Table_new_lookup _ Hx. by apply zero_sub in Hx.
  - intros j e e' va _ _ Hj. lia.
Qed.

Section step.
Context (lvl : nat) (t : Z) (es : list Z) m B (k : Z) (pgt : list Z) (mk : kmem A) (Bk : gmap Z Z) (e e' : Z) m' B'.
Context (Hinv : pt_inv lvl m B t) (He : entries (frames m) t = Some es) (Hk : 0 ≤ k < 512)
  (Hj : es !! Z.to_nat k = Some e) (Hci : clone_inv lvl es m B k pgt mk Bk)
  (Hsc : slot_cloned lvl e mk Bk e' m' B').

(** The entries copied before keep what is below them. *)
Lemma old_slot j e1 : pgt !! j = Some e1 →
  (∀ x, sub lvl (frames m') e1 x ↔ sub lvl (frames mk) e1 x) ∧ entry_wf lvl (frames m') e1 ∧
  ∀ va, leaf_below lvl (frames m') e1 va = leaf_below lvl (frames mk) e1 va.
Proof using Hci Hsc.
  intros Hj1. apply sub_kept; [by eapply (ci_wf _ _ _ _ _ _ _ _ Hci)|].
  apply (grows_kept mk Bk m' B'); [apply Hsc|]. intros x Hx. right. by eapply (ci_new _ _ _ _ _ _ _ _ Hci).
Qed.

Lemma new_pgt j e1 : <[Z.to_nat k := e']> pgt !! j = Some e1 →
  (j = Z.to_nat k ∧ e1 = e') ∨ (j ≠ Z.to_nat k ∧ pgt !! j = Some e1).
Proof using Hk Hci.
  pose proof (ci_len _ _ _ _ _ _ _ _ Hci) as Hl. destruct (decide (j = Z.to_nat k)) as [->|Hne].
  - rewrite list_lookup_insert_eq by lia. intros [= <-]. by left.
  - rewrite list_lookup_insert_ne by done. by right.
Qed.

(** Below the entry [e] the parent is as it was. *)
Lemma parent_slot :
  (∀ va, leaf_below lvl (frames mk) e va = leaf_below lvl (frames m) e va) ∧
  (∀ va e0, leaf_below lvl (frames m) e va = Some e0 → is_user e0 = true → live (ga m) B (Entry_paddr e0)).
Proof using Hinv He Hj Hci Hsc.
  destruct Hinv as [_ Hw Hl]. apply tree_wf_unfold in Hw as (es0 & He0 & _ & _ & Hew & _).
  assert (es0 = es) as -> by congruence. pose proof (Hew _ _ Hj) as Hwe.
  assert (Hsub : ∀ x, sub lvl (frames m) e x → live (ga m) B x) by (intros x Hx; apply Hl; by eapply fp_sub).
  split.
  - apply sub_kept; [done|]. apply (grows_kept m B mk Bk); [apply Hci|done].
  - intros va e0 Hlb Hu. apply Hsub. unfold leaf_below in Hlb. destruct (is_v e) eqn:Hv; [|done].
    destruct Hwe as [_ Hwe]. specialize (Hwe Hv). destruct lvl as [|l].
    + injection Hlb as <-. done.
    + split; [done|]. eapply leaf_owned; [apply Hwe|done|done].
Qed.

Lemma clone_inv_step : clone_inv lvl es m B (k + 1) (<[Z.to_nat k := e']> pgt) m' B'.
Proof using Hinv He Hk Hj Hci Hsc.
  pose proof Hci as [Hg Hlen Hrest Hwf Hnew Hdis Hleaf]. pose proof Hsc as [Hg' Hwf' Hnew' Hleaf'].
  assert (Hfar : ∀ j e1 x, pgt !! j = Some e1 → sub lvl (frames mk) e1 x → ¬ sub lvl (frames m') e' x).
  { intros j e1 x Hj1 Hx [Hn _]%Hnew'. apply Hn. right. by eapply Hnew. }
  split.
  - by eapply grows_trans.
  - by rewrite length_insert.
  - intros j Hkj Hj512. rewrite list_lookup_insert_ne by lia. apply Hrest; lia.
  - intros j e1 [[-> ->]|[_ Hj1]]%new_pgt; [done|]. by apply (old_slot j).
  - intros j e1 x [[-> ->]|[_ Hj1]]%new_pgt Hx.
    + apply Hnew' in Hx as [Hn Hs]. split; [|done]. intros Hlx. apply Hn. by eapply grows_live.
    + apply (old_slot j e1 Hj1), (Hnew j e1 x Hj1) in Hx as [Hn [n Hs]]. split; [done|]. exists n.
      by eapply lookup_weaken, (gw_blocks _ _ _ _ Hg').
  - intros i j e1 e2 x Hij [[-> ->]|[Hi Hi1]]%new_pgt [[-> ->]|[Hj' Hj1]]%new_pgt Hx; [done|..].
    + intros Hx2%(old_slot j e2 Hj1). by eapply Hfar.
    + apply (old_slot i e1 Hi1) in Hx. by eapply Hfar.
    + rewrite (proj1 (old_slot j e2 Hj1)). apply (old_slot i e1 Hi1) in Hx. by apply (Hdis i j e1 e2 x).
  - intros j e0 e1 va He0 [[-> ->]|[Hne Hj1]]%new_pgt Hlt.
    + assert (e0 = e) as -> by congruence. destruct parent_slot as [Hsame Hown].
      eapply copied_earlier; [exact Hg|intros e1 Hl1; by eapply Hown|]. rewrite <- Hsame. apply Hleaf'.
    + rewrite (proj2 (proj2 (old_slot j e1 Hj1))). eapply copied_later; [exact Hg'|].
      eapply Hleaf; [done|done|lia].
Qed.
End step.

(** The table is boxed at the end. *)
Lemma clone_inv_end lvl t es m B pgt mk Bk t' m' :
  pt_inv lvl m B t → entries (frames m) t = Some es → length es = 512%nat →
  clone_inv lvl es m B 512 pgt mk Bk → box_frame (FTable pgt) mk = Ok (t', m') →
  cloned lvl t m B t' m' (<[t' := 1]> Bk).
Proof.
  intros Hinv He Hes [Hg Hlen _ Hwf Hnew Hdis Hleaf] Hbox.
  destruct (box_grows _ _ Bk _ _ (gw_owned _ _ _ _ Hg) Hbox) as (Hg' & Hn & Hd & Hfa).
  assert (entries (frames m') t' = Some pgt) as He' by (unfold entries; by rewrite Hd).
  assert (Hold : ∀ j e1, pgt !! j = Some e1 →
    (∀ x, sub lvl (frames m') e1 x ↔ sub lvl (frames mk) e1 x) ∧ entry_wf lvl (frames m') e1 ∧
    ∀ va, leaf_below lvl (frames m') e1 va = leaf_below lvl (frames mk) e1 va).
  { intros j e1 Hj1. apply sub_kept; [by eapply Hwf|]. eapply grows_kept; [exact Hg'|].
    intros x Hx. right. by eapply Hnew. }
  split.
  - by eapply grows_trans.
  - apply tree_wf_unfold. exists pgt. split_and!; [done..| | |].
    + intros j e1 Hj1. by apply (Hold j).
    + intros j e1 Hj1 Hx%(Hold j e1 Hj1). apply Hn. right. by eapply Hnew.
    + intros i j e1 e2 x Hij Hi Hj. rewrite (proj1 (Hold i e1 Hi)), (proj1 (Hold j e2 Hj)). by apply (Hdis i j).
  - intros x [->|(es' & j & e1 & Hes' & Hj1 & Hx)]%fp_unfold.
    + split; [|rewrite lookup_insert_eq; eauto]. intros Hx. by apply Hn, (grows_live _ _ _ _ _ Hg).
    + assert (es' = pgt) as -> by congruence. apply (Hold j e1 Hj1), (Hnew j e1 x Hj1) in Hx as [Hx [n Hs]].
      split; [done|]. exists n. eapply lookup_weaken; [exact Hs|apply Hg'].
  - intros va. pose proof (vidx_bounds va lvl).
    destruct (lookup_lt_is_Some_2 es (Z.to_nat (vidx va lvl))) as [e Hi]; [lia|].
    destruct (lookup_lt_is_Some_2 pgt (Z.to_nat (vidx va lvl))) as [e1 Hi1]; [lia|].
    rewrite (leaf_at_unfold lvl (frames m) t va es e He Hi), (leaf_at_unfold lvl (frames m') t' va pgt e1 He' Hi1).
    rewrite (proj2 (proj2 (Hold _ e1 Hi1))). eapply copied_later; [exact Hg'|]. eapply Hleaf; [done|done|lia].
Qed.

(** ** The cases of the loop *)
(** Nothing is copied for an invalid entry or a kernel page. *)
Lemma slot_none lvl e m B : owned (ga m) B → is_v e = false ∨ (lvl = 0%nat ∧ is_user e = false) →
  slot_cloned lvl e m B 0 m B.
Proof.
  intros Ho Hc. split; [by apply grows_refl|apply zero_entry_wf|intros x Hx; by apply zero_sub in Hx|].
  intros va. unfold leaf_below at 2. rewrite is_v_0. unfold copied, leaf_below.
  destruct Hc as [->|[-> Hu]]; [done|]. destruct (is_v e); [by rewrite Hu|done].
Qed.

(** A user page *)
Lemma slot_page e m B pg m' :
  owned (ga m) B → is_usize e → is_v e = true → is_leaf e = true → is_user e = true → live (ga m) B (Entry_paddr e) →
  clone_page (Entry_paddr e) m = Ok (pg, m') →
  slot_cloned 0 e m B (Entry_new pg (Entry_flags e)) m' (<[pg := 1]> B).
Proof.
  intros Ho Heu Hv Hlf Hu Hlive Hrun. unfold clone_page in Hrun. apply bind_Ok in Hrun as ([p m1] & Hbox & Hrun).
  apply bind_Ok in Hrun as (d & Hd & Hrun). injection Hrun as <- <-.
  destruct (box_grows _ _ B _ _ Ho Hbox) as (Hg & Hn & Hfr & Hfa).
  destruct (copy_entry p e Hfa Heu) as (Hu' & Hpa & Hv' & Hlf' & Hus').
  assert (frames m !! Entry_paddr e = Some (FPage d)) as Hde.
  { unfold page_at in Hd. rewrite (gw_frames _ _ _ _ Hg) in Hd by done.
    destruct (frames m !! Entry_paddr e) as [[]|]; [done|congruence|done]. }
  split.
  - destruct Hg as [O S Hb F]. split; [done..|]. intros x Hx. cbn [frames].
    rewrite lookup_insert_ne by congruence. by apply F.
  - split; [done|]. intros _. by rewrite Hlf'.
  - intros x (_ & _ & _ & ->). rewrite Hpa. split; [done|]. rewrite lookup_insert_eq. eauto.
  - intros va. unfold leaf_below, copied. rewrite Hv', Hv, Hu. exists p, d. cbn [frames].
    split_and!; [done|done|by rewrite lookup_insert_eq|done|rewrite lookup_insert_eq; eauto].
Qed.

(** A table *)
Lemma slot_table l e m B c m' B' :
  is_usize e → is_v e = true → is_leaf e = false → cloned l (Entry_paddr e) m B c m' B' →
  slot_cloned (S l) e m B (Entry_new c (Entry_flags e)) m' B'.
Proof.
  intros Hu Hv Hlf [Hg Hw Hnew Hleaf].
  destruct (copy_entry c e (tree_wf_frame_addr _ _ _ Hw) Hu) as (Hu' & Hpa & Hv' & Hlf' & _).
  split; [done|split; [done|]; intros _; by rewrite Hlf', Hpa|intros x [_ Hx]; rewrite Hpa in Hx; by apply Hnew|].
  intros va. unfold leaf_below. rewrite Hv', Hv, Hpa. apply Hleaf.
Qed.

(** One iteration: the entry of the local table is the copy. *)
Lemma slot_run lvl fuel e m B k (pgt pgt' : list Z) m' :
  owned (ga m) B → entry_wf lvl (frames m) e → (∀ x, sub lvl (frames m) e x → live (ga m) B x) →
  pgt !! Z.to_nat k = Some 0 →
  (∀ l c m2, lvl = S l → is_v e = true → clone_walk fuel (Entry_paddr e) (Z.of_nat l) m = Ok (c, m2) →
    ∃ B2, cloned l (Entry_paddr e) m B c m2 B2) →
  (if is_v e then
     if is_leaf e then
       if is_user e then
         '(pg, m) ← clone_page (Entry_paddr e) m; pgt ← aset pgt k (Entry_new pg (Entry_flags e)); Ok (pgt, m)
       else Ok (pgt, m)
     else
       _ ← ptr_unwrap (Entry_paddr e);
       level ← usub (Z.of_nat lvl) 1;
       '(pg, m) ← clone_walk fuel (Entry_paddr e) level m;
       pgt ← aset pgt k (Entry_new pg (Entry_flags e)); Ok (pgt, m)
   else Ok (pgt, m)) = Ok (pgt', m') →
  ∃ e' B', pgt' = <[Z.to_nat k := e']> pgt ∧ slot_cloned lvl e m B e' m' B'.
Proof.
  intros Ho [Hu Hwe] Hlive Hk Hrec Hbody. destruct (is_v e) eqn:Hv; last first.
  { injection Hbody as <- <-. exists 0, B. split; [symmetry; by apply list_insert_id|]. apply slot_none; [done|by left]. }
  destruct lvl as [|l].
  - rewrite (Hwe eq_refl) in Hbody. destruct (is_user e) eqn:Hus; last first.
    { injection Hbody as <- <-. exists 0, B. split; [symmetry; by apply list_insert_id|]. apply slot_none; [done|by right]. }
    apply bind_Ok in Hbody as ([pg m3] & Hcp & Hbody). apply bind_Ok in Hbody as (pg3 & Hset & [= <- <-]).
    apply aset_Ok in Hset as [_ ->]. eexists _, _. split; [done|]. eapply slot_page; try done; [by apply Hwe|].
    apply Hlive. split; [done|]. split_and!; [by apply Hwe|done|done].
  - destruct (Hwe eq_refl) as [Hlf Hwt]. rewrite Hlf in Hbody. apply bind_Ok in Hbody as (u & _ & Hbody).
    rewrite usub_eq, bind_Ok_l in Hbody by lia. replace (Z.of_nat (S l) - 1) with (Z.of_nat l) in Hbody by lia.
    apply bind_Ok in Hbody as ([c m3] & Hcw & Hbody). apply bind_Ok in Hbody as (pg3 & Hset & [= <- <-]).
    apply aset_Ok in Hset as [_ ->]. destruct (Hrec l c m3) as [B3 Hcl]; [done..|].
    eexists _, B3. split; [done|]. by apply slot_table.
Qed.

Lemma clone_walk_level lvl : ∀ t m B t' m',
  pt_inv lvl m B t → clone_walk (S lvl) t (Z.of_nat lvl) m = Ok (t', m') → ∃ B', cloned lvl t m B t' m' B'.
Proof.
  induction lvl as [lvl IH] using lt_wf_ind. intros t m B t' m' Hinv Hrun.
  pose proof Hinv as [Ho Hw Hl]. pose proof Hw as (es & He & Hlen & _ & Hew & _)%tree_wf_unfold.
  cbn [clone_walk] in Hrun. apply bind_Ok in Hrun as ([pgt mk] & Hloop & Hbox).
  assert (∃ Bk, clone_inv lvl es m B 512 pgt mk Bk) as [Bk Hci]; [|eexists; by eapply clone_inv_end].
  revert Hloop. apply (for_range_inv (λ k '(pgt, mk), ∃ Bk, clone_inv lvl es m B k pgt mk Bk));
    [done|exists B; by apply clone_inv_start|].
  intros k [pg1 m1] [pg2 m2] Hk [Bk Hci] Hbody. change Table_len with 512 in Hk.
  destruct (lookup_lt_is_Some_2 es (Z.to_nat k)) as [e Hj]; [lia|].
  pose proof (ci_grow _ _ _ _ _ _ _ _ Hci) as Hg.
  assert (Hsub : ∀ x, sub lvl (frames m) e x → live (ga m) B x) by (intros x Hx; apply Hl; by eapply fp_sub).
  destruct (sub_kept lvl (frames m) (frames m1) e (Hew _ _ Hj)) as (Hs1 & Hw1 & _);
    [by apply (grows_kept m B m1 Bk)|].
  rewrite (read_entry_Ok m1 t es k e), bind_Ok_l in Hbody
    by (lia || done || (rewrite (entries_eq (frames m)); [done|apply Hg, Hl, fp_root])).
  destruct (slot_run lvl lvl e m1 Bk k pg1 pg2 m2) as (e' & B' & -> & Hsc).
  - apply Hg.
  - done.
  - intros x Hx%Hs1. eapply grows_live; [exact Hg|]. by apply Hsub.
  - apply (ci_rest _ _ _ _ _ _ _ _ Hci); lia.
  - intros l c m3 -> Hv Hcw. refine (IH l ltac:(lia) _ m1 Bk c m3 _ Hcw).
    eapply (grows_pt_inv l m B); [exact Hg|]. destruct (Hew _ _ Hj) as [_ Hwe].
    split; [done|by apply Hwe|]. intros x Hx. apply Hsub. by split.
  - exact Hbody.
  - exists B'. by eapply (clone_inv_step lvl t).
Qed.

(** C12: a cloned page table is a well-formed tree made of fresh frames only; it maps
    exactly the pages that the original maps for the user, with the same flags, each
    to a fresh page with equal contents; the original tree, and every frame in use, is
    unchanged. *)
Theorem clone_copies_user_half root m B r m' :
  pt_inv 2 m B root → Table_clone root m = Ok (r, m') →
  ∃ B', pt_inv 2 m' B' r ∧ pt_inv 2 m' B' root ∧ B ⊆ B' ∧
    (∀ x, live (ga m) B x → frames m' !! x = frames m !! x) ∧
    (∀ x, fp 2 (frames m') r x → ¬ live (ga m) B x) ∧
    (∀ va, page_map m' root va = page_map m root va) ∧
    (∀ va, match page_map m root va with
           | Some e =>
               if is_user e then
                 ∃ pg d, page_map m' r va = Some (Entry_new pg (Entry_flags e)) ∧
                   frames m !! Entry_paddr e = Some (FPage d) ∧ frames m' !! pg = Some (FPage d) ∧
                   ¬ live (ga m) B pg
               else page_map m' r va = None
           | None => page_map m' r va = None
           end).
Proof.
  intros Hinv Hrun. destruct (clone_walk_level 2 root m B r m' Hinv Hrun) as (B' & [Hg Hw Hnew Hleaf]).
  destruct (grows_pt_inv 2 m B m' B' root Hg Hinv) as [Hp Hlf]. exists B'. split_and!.
  - split; [apply Hg|done|]. intros x Hx%Hnew. right. apply Hx.
  - done.
  - apply Hg.
  - apply Hg.
  - intros x Hx%Hnew. apply Hx.
  - exact Hlf.
  - intros va. specialize (Hleaf va). unfold copied in Hleaf. unfold page_map.
    destruct (leaf_at 2 (frames m) root va) as [e|]; [|done]. destruct (is_user e); [|done].
    destruct Hleaf as (pg & d & ? & ? & ? & ? & _). by exists pg, d.
Qed.
End clone.

Lemma clone_copies_user_half_witness :
  ∃ r m' pg, Table_clone root0 ptu = Ok (r, m') ∧
    page_map m' r 0x1000 = Some (Entry_new pg (Z.lor EntryAttributes.URW EntryAttributes.V)) ∧
    frames m' !! pg = Some (FPage zero_page).
Proof.
  destruct (is_ok_Ok (Table_clone root0 ptu)) as [[r m'] Hrun]; [vm_compute; reflexivity|].
  destruct ptu_inv as (B & Hi & _).
  destruct (clone_copies_user_half root0 ptu B r m' Hi Hrun) as (B' & _ & _ & _ & _ & _ & _ & Hl).
  specialize (Hl 0x1000). assert (page_map ptu root0 0x1000 = Some (leaf_entry upage EntryAttributes.URW)) as Hm
    by (vm_compute; reflexivity). rewrite Hm in Hl.
  assert (frames ptu !! upage = Some (FPage zero_page)) as Hz by (vm_compute; reflexivity).
  assert (is_user (leaf_entry upage EntryAttributes.URW) = true ∧ Entry_paddr (leaf_entry upage EntryAttributes.URW) = upage ∧
    Entry_flags (leaf_entry upage EntryAttributes.URW) = Z.lor EntryAttributes.URW EntryAttributes.V) as (H1 & H2 & H3)
    by (split_and!; vm_compute; reflexivity).
  rewrite H1, H2, H3 in Hl. destruct Hl as (pg & d & Hp & Hd & Hd' & _). exists r, m', pg.
  split_and!; [exact Hrun|exact Hp|]. rewrite Hd'. congruence.
Defined.
