(* ===== verification/Hart.v ===== *)
(** * Harts: interrupt state, [IntrLock], [satp]

    [arch.rs] and [process/cpu.rs].  A hart is its [tp] register (the hart id) and
    the interrupt bits the kernel touches; [sstatus.SIE] is what [intr_get] reads.
    [IntrLock] nests interrupt-disabled sections; the nesting theorem shows that it
    is a counter on top of the saved interrupt state. *)

From S2P Require Import Prelude Symbols.

(** ** [arch.rs] *)
Record hart := Hart {
  tp : Z;
  sstatus_sie : bool;
  sie_sext : bool;
  sie_ssoft : bool;
  sie_stimer : bool;
}.

Definition hart_id (h : hart) : Z := tp h.
Definition intr_get (h : hart) : bool := sstatus_sie h.
Definition intr_on (h : hart) : hart := Hart (tp h) true true true true.
Definition intr_off (h : hart) : hart :=
  Hart (tp h) false (sie_sext h) (sie_ssoft h) (sie_stimer h).

Definition build_satp (mode asid addr : Z) : result Z :=
  _ ← panic_if (negb (addr mod PAGE_SIZE =? 0)) (Panic "satp not aligned!");
  Ok (Z.lor (Z.lor (ushl 64 mode 60) (ushl 64 (Z.land asid 0xffff) 44))
            (Z.land (Z.shiftr addr 12) 0xffffffffff)).

(** ** [process/cpu.rs] *)
Record IntrLock := mkIntrLock {
  is_enabled_before : bool;
  cnt : Z;
  il_hart_id : Z;
}.

Definition IntrLock_new : IntrLock := mkIntrLock false 0 23333.

(** [isize] arithmetic *)
Definition isize (x : Z) : result Z :=
  if (- 2 ^ 63 <=? x) && (x <? 2 ^ 63) then Ok x else Err Overflow.
#[global] Arguments isize : simpl never.

Definition IntrLock_lock (h : hart) (l : IntrLock) : result (hart * IntrLock) :=
  let enabled := intr_get h in
  let h := intr_off h in
  l ← (if cnt l =? 0 then Ok (mkIntrLock enabled (cnt l) (hart_id h))
       else
         _ ← panic_if enabled (Panic "lock held but intr enabled");
         _ ← panic_if (negb (il_hart_id l =? hart_id h)) (Panic "lock on different hart");
         Ok l);
  c ← isize (cnt l + 1);
  Ok (h, mkIntrLock (is_enabled_before l) c (il_hart_id l)).

(** [IntrLockGuard::drop] *)
Definition IntrLock_drop (h : hart) (l : IntrLock) : result (hart * IntrLock) :=
  _ ← panic_if (intr_get h) (Panic "{} intr enabled");
  _ ← panic_if (negb (hart_id h =? il_hart_id l)) (Panic "unlock on different hart");
  c ← isize (cnt l - 1);
  let h := if c =? 0 then (if is_enabled_before l then intr_on h else h) else h in
  _ ← panic_if (c <? 0) (Panic "cnt < 0");
  Ok (h, mkIntrLock (is_enabled_before l) c (il_hart_id l)).

(** ** Nesting

    [intr_depth n b h l]: [n] guards are alive on [h], and [b] is the interrupt
    state to return to when the last one goes. *)
Record intr_depth (n : nat) (b : bool) (h : hart) (l : IntrLock) : Prop := {
  id_cnt : cnt l = Z.of_nat n;
  id_sie : intr_get h = b && (n =? 0)%nat;
  id_saved : (0 < n)%nat → is_enabled_before l = b ∧ il_hart_id l = hart_id h;
}.

Lemma intr_depth_0 h l : cnt l = 0 → intr_depth 0 (intr_get h) h l.
Proof. intros Hc. split; [done|by rewrite andb_true_r|lia]. Qed.

Lemma isize_Ok x : - 2 ^ 63 ≤ x < 2 ^ 63 → isize x = Ok x.
Proof. intros [H1 H2]. unfold isize. by rewrite (proj2 (Z.leb_le _ _) H1), (proj2 (Z.ltb_lt _ _) H2). Qed.

Lemma intr_lock_depth n b h l :
  Z.of_nat n + 1 < 2 ^ 63 → intr_depth n b h l →
  ∃ h' l', IntrLock_lock h l = Ok (h', l') ∧ intr_depth (S n) b h' l' ∧ hart_id h' = hart_id h.
Proof.
  intros Hn [Hc Hs Hv]. unfold IntrLock_lock. rewrite Hc. destruct n as [|n]; simpl.
  - eexists _, _. split; [done|]. split; [|done]. split; simpl.
    + done.
    + by rewrite andb_false_r.
    + intros _. by rewrite Hs, andb_true_r.
  - destruct Hv as [Hb Hh]; [lia|]. rewrite Hs, Hh, andb_false_r. simpl.
    change (hart_id (intr_off h)) with (hart_id h). rewrite Z.eqb_refl. simpl. rewrite Hc.
    rewrite isize_Ok by lia. eexists _, _. split; [done|]. split; [|done]. split; simpl; [lia| |done].
    by rewrite andb_false_r.
Qed.

Lemma intr_drop_depth n b h l :
  Z.of_nat n < 2 ^ 63 → intr_depth (S n) b h l →
  ∃ h' l', IntrLock_drop h l = Ok (h', l') ∧ intr_depth n b h' l' ∧ hart_id h' = hart_id h.
Proof.
  intros Hn [Hc Hs Hv]. unfold IntrLock_drop. destruct Hv as [Hb Hh]; [lia|].
  rewrite Hs, Hh, Hc, andb_false_r, Z.eqb_refl. cbn [negb panic_if Nat.eqb]. rewrite !bind_Ok_l.
  replace (Z.of_nat (S n) - 1) with (Z.of_nat n) by lia.
  rewrite isize_Ok by lia. rewrite bind_Ok_l.
  destruct (Z.ltb_spec (Z.of_nat n) 0); [lia|]. cbn [panic_if]. rewrite bind_Ok_l. eexists _, _. split; [done|].
  destruct n as [|n]; simpl in *.
  - rewrite Hb. destruct b; (split; [split; simpl; [done| |lia]|done]).
    + done.
    + by rewrite Hs.
  - split; [|done]. split; simpl; [done|by rewrite Hs, andb_false_r|done].
Qed.

(** Histories of [lock()] and guard drops on one hart, and their nesting depth *)
Inductive iop := ILock | IDrop.

Definition run_iop (o : iop) (s : hart * IntrLock) : result (hart * IntrLock) :=
  match o with ILock => IntrLock_lock s.1 s.2 | IDrop => IntrLock_drop s.1 s.2 end.
Fixpoint run_iops (os : list iop) (s : hart * IntrLock) : result (hart * IntrLock) :=
  match os with [] => Ok s | o :: os => s' ← run_iop o s; run_iops os s' end.

(** [None]: a drop without a guard, which the borrow checker rules out. *)
Fixpoint depth (n : nat) (os : list iop) : option nat :=
  match os, n with
  | [], _ => Some n
  | ILock :: os, _ => depth (S n) os
  | IDrop :: os, S n => depth n os
  | IDrop :: os, O => None
  end.

Lemma run_iops_depth os : ∀ n k b h l,
  Z.of_nat (n + length os) < 2 ^ 63 → intr_depth n b h l → depth n os = Some k →
  ∃ h' l', run_iops os (h, l) = Ok (h', l') ∧ intr_depth k b h' l' ∧ hart_id h' = hart_id h.
Proof.
  induction os as [|o os IH]; intros n k b h l Hlen Hd Hk.
  - simpl in *. injection Hk as ->. eauto.
  - cbn [length] in Hlen. cbn [run_iops]. destruct o.
    + destruct (intr_lock_depth n b h l) as (h1 & l1 & Hr & Hd1 & Ht); [lia|done|].
      unfold run_iop. cbn [fst snd]. rewrite Hr, bind_Ok_l.
      destruct (IH (S n) k b h1 l1) as (h2 & l2 & Hr2 & Hd2 & Ht2); [lia|done..|].
      exists h2, l2. split_and!; [done..|congruence].
    + destruct n as [|n]; [done|].
      destruct (intr_drop_depth n b h l) as (h1 & l1 & Hr & Hd1 & Ht); [lia|done|].
      unfold run_iop. cbn [fst snd]. rewrite Hr, bind_Ok_l.
      destruct (IH n k b h1 l1) as (h2 & l2 & Hr2 & Hd2 & Ht2); [lia|done..|].
      exists h2, l2. split_and!; [done..|congruence].
Qed.

(** Any nested history of IntrLock::lock and guard drops on one hart runs without a
    panic; interrupts are off while a guard is alive and return to their first state
    when the last guard goes. *)
Theorem intr_lock_nesting h l os k :
  cnt l = 0 → Z.of_nat (length os) < 2 ^ 63 → depth 0 os = Some k →
  ∃ h' l', run_iops os (h, l) = Ok (h', l') ∧ cnt l' = Z.of_nat k ∧
    intr_get h' = intr_get h && (k =? 0)%nat ∧ hart_id h' = hart_id h.
Proof.
  intros Hc Hlen Hk.
  destruct (run_iops_depth os 0 k (intr_get h) h l) as (h' & l' & Hr & [Hcn Hs _] & Ht);
    [done|by apply intr_depth_0|done|].
  by exists h', l'.
Qed.

(** ** [satp] *)
Lemma satp_bits mode asid addr x i :
  build_satp mode asid addr = Ok x → 0 ≤ i →
  Z.testbit x i =
    ((i <? 64) && (60 <=? i) && Z.testbit mode (i - 60)) ||
    ((i <? 64) && (44 <=? i) && (i <? 60) && Z.testbit asid (i - 44)) ||
    ((i <? 40) && Z.testbit addr (i + 12)).
Proof.
  intros H Hi. unfold build_satp in H. inv_bind. unfold ushl.
  change 0xffff with (Z.ones 16). change 0xffffffffff with (Z.ones 40).
  rewrite !Z.lor_spec, !Z.land_spec, !testbit_ones, !Z.shiftl_spec, Z.shiftr_spec, Z.land_spec by lia.
  rewrite (andb_comm (Z.testbit addr _)).
  destruct (Z.leb_spec 60 i), (Z.leb_spec 44 i); try lia.
  - rewrite (testbit_ones 16) by lia. destruct (Z.ltb_spec i 60), (Z.ltb_spec (i - 44) 16); try lia.
    destruct (i <? 64); simpl; rewrite ?andb_false_r, ?andb_true_r; simpl; done.
  - rewrite (testbit_ones 16), (Z.testbit_neg_r mode) by lia.
    destruct (Z.ltb_spec i 60), (Z.ltb_spec (i - 44) 16); try lia.
    destruct (i <? 64); simpl; rewrite ?andb_false_r, ?andb_true_r; done.
  - rewrite (Z.testbit_neg_r mode), (Z.testbit_neg_r asid) by lia.
    destruct (i <? 64); done.
Qed.

Lemma satp_word mode asid addr :
  is_u 4 mode → is_u 16 asid → is_u 52 addr → addr mod PAGE_SIZE = 0 →
  ∃ x, build_satp mode asid addr = Ok x ∧
    Z.shiftr x 60 = mode ∧ Z.land (Z.shiftr x 44) 0xffff = asid ∧
    Z.shiftl (Z.land x (Z.ones 44)) 12 = addr.
Proof.
  intros Hm Ha Hp Hal.
  assert (∃ x, build_satp mode asid addr = Ok x) as [x Hx].
  { unfold build_satp. rewrite (proj2 (Z.eqb_eq _ _) Hal). eauto. }
  pose proof (satp_bits mode asid addr x) as Hbit. exists x. split; [done|].
  assert (Hlow : ∀ i, i < 12 → Z.testbit addr i = false).
  { intros i Hi. destruct (Z.ltb_spec i 0); [by apply Z.testbit_neg_r|].
    apply Z.mod_divide in Hal as [q ->]; [|done]. change PAGE_SIZE with (2 ^ 12).
    apply Z.mul_pow2_bits_low. lia. }
  split_and!; apply Z.bits_inj'; intros i Hi.
  - rewrite Z.shiftr_spec, Hbit by (done || lia). replace (i + 60 - 60) with i by lia.
    destruct (Z.ltb_spec (i + 60) 64), (Z.leb_spec 60 (i + 60)), (Z.ltb_spec (i + 60) 60),
      (Z.ltb_spec (i + 60) 40); try lia; rewrite ?andb_false_r, ?orb_false_r; simpl; [done|].
    by rewrite (testbit_is_u 4) by (done || lia).
  - change 0xffff with (Z.ones 16).
    rewrite Z.land_spec, Z.shiftr_spec, testbit_ones, Hbit by (done || lia).
    replace (i + 44 - 44) with i by lia.
    destruct (Z.ltb_spec i 16); [|by rewrite andb_false_r, (testbit_is_u 16) by (done || lia)].
    destruct (Z.ltb_spec (i + 44) 64), (Z.leb_spec 60 (i + 44)), (Z.ltb_spec (i + 44) 60),
      (Z.leb_spec 44 (i + 44)), (Z.ltb_spec (i + 44) 40); try lia.
    by rewrite andb_true_r, orb_false_r.
  - rewrite Z.shiftl_spec by lia. destruct (Z.ltb_spec i 12).
    { by rewrite Z.testbit_neg_r, Hlow by lia. }
    rewrite Z.land_spec, testbit_ones, Hbit by (done || lia). replace (i - 12 + 12) with i by lia.
    destruct (Z.ltb_spec (i - 12) 44); last first.
    { by rewrite andb_false_r, (testbit_is_u 52) by (done || lia). }
    destruct (Z.ltb_spec (i - 12) 64), (Z.leb_spec 60 (i - 12)), (Z.ltb_spec (i - 12) 60),
      (Z.leb_spec 44 (i - 12)), (Z.ltb_spec (i - 12) 40); try lia; simpl; [by rewrite andb_true_r|].
    by rewrite (testbit_is_u 52) by (done || lia).
Qed.

(** Build_satp puts mode, asid and page number into their fields of satp without
    overlap, for 52-bit physical addresses, and panics on an unaligned table. *)
Theorem build_satp_fields mode asid addr :
  is_u 4 mode → is_u 16 asid → is_u 52 addr →
  (addr mod PAGE_SIZE ≠ 0 → build_satp mode asid addr = Err (Panic "satp not aligned!")) ∧
  (addr mod PAGE_SIZE = 0 → ∃ x, build_satp mode asid addr = Ok x ∧
    Z.shiftr x 60 = mode ∧ Z.land (Z.shiftr x 44) 0xffff = asid ∧
    Z.shiftl (Z.land x (Z.ones 44)) 12 = addr).
Proof.
  intros Hm Ha Hp. split; intros Hal; [|by apply satp_word].
  unfold build_satp. by rewrite (proj2 (Z.eqb_neq _ _) Hal).
Qed.

(** ** Two guards taken and one dropped; an address space of the kernel *)
Definition hart0 : hart := Hart 0 true true true true.

Lemma intr_lock_nesting_witness :
  ∃ h' l', run_iops [ILock; ILock; IDrop] (hart0, IntrLock_new) = Ok (h', l') ∧ cnt l' = 1 ∧
    intr_get h' = false ∧ hart_id h' = 0.
Proof. apply (intr_lock_nesting hart0 IntrLock_new [ILock; ILock; IDrop] 1); [reflexivity|cbn; lia|reflexivity]. Defined.

Lemma build_satp_fields_witness :
  ∃ x, build_satp 8 0 0x80201000 = Ok x ∧ Z.shiftr x 60 = 8 ∧ Z.land (Z.shiftr x 44) 0xffff = 0 ∧
    Z.shiftl (Z.land x (Z.ones 44)) 12 = 0x80201000.
Proof. apply (build_satp_fields 8 0 0x80201000); [split; lia|split; lia|split; lia|reflexivity]. Defined.
