(* ===== verification/Devices.v ===== *)
(** * Memory-mapped devices: interrupt controller and timer

    [plic.rs], [clint.rs] and the machine-mode timer handler of [asm/kernelvec.S].
    A device is what a volatile read or write of a register does to it: the class
    [Mmio].  [RegFile] is the instance in which a register holds what was last
    written, enough for the configuration registers of both devices. *)

From S2P Require Import Prelude Symbols.

(** ** Volatile accesses *)
Class Mmio (D : Type) := {
  mmio_read : Z → D → Z * D;
  mmio_write : Z → Z → D → D;
}.

Record RegFile := mkRegFile { regs_of : gmap Z Z }.
Definition reg (d : RegFile) (a : Z) : Z := default 0 (regs_of d !! a).
#[global] Instance RegFile_mmio : Mmio RegFile := {
  mmio_read a d := (reg d a, d);
  mmio_write a x d := mkRegFile (<[a := x]> (regs_of d));
}.

Lemma reg_write a x d b : reg (mmio_write a x d) b = if decide (a = b) then x else reg d b.
Proof.
  unfold reg. cbn. destruct (decide (a = b)) as [->|].
  - by rewrite lookup_insert_eq.
  - by rewrite lookup_insert_ne.
Qed.

(** [1 << id] on a [u32] panics from 32 on. *)
Definition shl32 (x k : Z) : result Z := if k <? 32 then Ok (ushl 32 x k) else Err Overflow.

(** ** [plic.rs] *)
Definition UART_BASE_ADDR : Z := 0x10000000.
Definition VIRTIO_MMIO_BASE : Z := 0x10001000.

Definition PLIC_BASE : Z := 0x0c000000.
Definition PLIC_PRIORITY : Z := PLIC_BASE + 0x0.
Definition PLIC_PENDING : Z := PLIC_BASE + 0x1000.
Definition PLIC_MENABLE_BASE : Z := PLIC_BASE + 0x2000.
Definition PLIC_SENABLE_BASE : Z := PLIC_BASE + 0x2080.
Definition PLIC_MPRIORITY_BASE : Z := PLIC_BASE + 0x200000.
Definition PLIC_SPRIORITY_BASE : Z := PLIC_BASE + 0x201000.
Definition PLIC_MCLAIM_BASE : Z := PLIC_BASE + 0x200004.
Definition PLIC_SCLAIM_BASE : Z := PLIC_BASE + 0x201004.

(** [base + hart * stride], checked *)
Definition per_hart (base stride hart : Z) : result Z := o ← umul 64 hart stride; uadd 64 base o.
Definition PLIC_MENABLE (hart : Z) : result Z := per_hart PLIC_MENABLE_BASE 0x100 hart.
Definition PLIC_SENABLE (hart : Z) : result Z := per_hart PLIC_SENABLE_BASE 0x100 hart.
Definition PLIC_MPRIORITY (hart : Z) : result Z := per_hart PLIC_MPRIORITY_BASE 0x2000 hart.
Definition PLIC_SPRIORITY (hart : Z) : result Z := per_hart PLIC_SPRIORITY_BASE 0x2000 hart.
Definition PLIC_MCLAIM (hart : Z) : result Z := per_hart PLIC_MCLAIM_BASE 0x2000 hart.
Definition PLIC_SCLAIM (hart : Z) : result Z := per_hart PLIC_SCLAIM_BASE 0x2000 hart.

Definition UART0_IRQ : Z := 10.
Definition VIRTIO0_IRQ : Z := 1.

(** [impl Plic]; [h] is [hart_id()]. *)
Module Plic.
Section ops.
Context {D : Type} `{Mmio D}.
Implicit Types d : D.

Definition next (h : Z) d : result (option Z * D) :=
  claim_reg ← PLIC_SCLAIM h;
  let '(claim_no, d) := mmio_read claim_reg d in
  Ok (if claim_no =? 0 then None else Some claim_no, d).

Definition complete (h id : Z) d : result D :=
  complete_reg ← PLIC_SCLAIM h;
  Ok (mmio_write complete_reg id d).

Definition init (id : Z) d : D := mmio_write (PLIC_BASE + 4 * id) 1 d.

Definition is_pending (id : Z) d : result (bool * D) :=
  actual_id ← shl32 1 id;
  let '(pend_ids, d) := mmio_read PLIC_PENDING d in
  Ok (negb (Z.land actual_id pend_ids =? 0), d).

Definition enable (h id : Z) d : result D :=
  enables ← PLIC_SENABLE h;
  actual_id ← shl32 1 id;
  let '(x, d) := mmio_read enables d in
  Ok (mmio_write enables (Z.lor x actual_id) d).

Definition set_threshold (h tsh : Z) d : result D :=
  let actual_tsh := Z.land tsh 7 in
  tsh_reg ← PLIC_SPRIORITY h;
  Ok (mmio_write tsh_reg actual_tsh d).

Definition set_priority (h id prio : Z) d : result D :=
  let actual_prio := Z.land prio 7 in
  prio_reg ← PLIC_SPRIORITY h;
  Ok (mmio_write (prio_reg + 4 * id) actual_prio d).
End ops.
End Plic.

Section plic.
Context {D : Type} `{Mmio D}.

Definition plic_init (d : D) : D := Plic.init VIRTIO0_IRQ (Plic.init UART0_IRQ d).

Definition plic_hartinit (h : Z) (d : D) : result D :=
  d ← Plic.enable h UART0_IRQ d;
  d ← Plic.enable h VIRTIO0_IRQ d;
  d ← Plic.set_threshold h 0 d;
  d ← Plic.set_priority h UART0_IRQ 1 d;
  Plic.set_priority h VIRTIO0_IRQ 1 d.
End plic.

(** ** What the controller is left with *)
Lemma per_hart_eq base stride h :
  0 ≤ base < 2 ^ 62 → 0 ≤ stride < 2 ^ 32 → 0 ≤ h < NCPUS → per_hart base stride h = Ok (base + h * stride).
Proof.
  intros Hb Hs Hh. unfold per_hart, NCPUS in *. rewrite umul_eq, bind_Ok_l by nia. apply uadd_eq. nia.
Qed.

(** The registers of hart [h] *)
Definition senable (h : Z) : Z := PLIC_SENABLE_BASE + h * 0x100.
Definition threshold (h : Z) : Z := PLIC_SPRIORITY_BASE + h * 0x2000.
Definition sclaim (h : Z) : Z := PLIC_SCLAIM_BASE + h * 0x2000.

Lemma plic_regs h : 0 ≤ h < NCPUS →
  PLIC_SENABLE h = Ok (senable h) ∧ PLIC_SPRIORITY h = Ok (threshold h) ∧ PLIC_SCLAIM h = Ok (sclaim h).
Proof. intros Hh. split_and!; apply per_hart_eq; done. Qed.

(** An interrupt source reaches a hart: its priority is above the threshold of the hart
    and its enable bit is set. *)
Definition deliverable (d : RegFile) (h id : Z) : Prop :=
  reg d (threshold h) < reg d (PLIC_PRIORITY + 4 * id) ∧ Z.testbit (reg d (senable h)) id = true.

(** The registers [hartinit] writes on hart [h] *)
Definition hart_regs (h : Z) : list Z := [senable h; threshold h; threshold h + 40; sclaim h].

Lemma plic_hartinit_writes h (d : RegFile) :
  0 ≤ h < NCPUS →
  ∃ d', plic_hartinit h d = Ok d' ∧
    reg d' (senable h) = Z.lor (reg d (senable h)) 0x402 ∧
    reg d' (threshold h) = 0 ∧ reg d' (threshold h + 40) = 1 ∧ reg d' (sclaim h) = 1 ∧
    ∀ a, a ∉ hart_regs h → reg d' a = reg d a.
Proof.
  intros Hh. destruct (plic_regs h Hh) as (He & Ht & _).
  unfold plic_hartinit, Plic.enable, Plic.set_threshold, Plic.set_priority.
  rewrite He, Ht, !bind_Ok_l. change (shl32 1 UART0_IRQ) with (@Ok Z 0x400).
  change (shl32 1 VIRTIO0_IRQ) with (@Ok Z 2). rewrite !bind_Ok_l.
  change (mmio_read (senable h) ?x) with (reg x (senable h), x). cbn beta iota zeta.
  eexists. split; [done|].
  assert (threshold h + 4 * VIRTIO0_IRQ = sclaim h) as ->
    by (unfold threshold, sclaim, PLIC_SPRIORITY_BASE, PLIC_SCLAIM_BASE, VIRTIO0_IRQ; lia).
  assert (threshold h + 4 * UART0_IRQ = threshold h + 40) as -> by done.
  change (Z.land 1 7) with 1. change (Z.land 0 7) with 0.
  assert (senable h < threshold h) by (unfold senable, threshold, NCPUS, PLIC_SENABLE_BASE, PLIC_SPRIORITY_BASE, PLIC_BASE in *; lia).
  assert (sclaim h = threshold h + 4) by (unfold threshold, sclaim, PLIC_SPRIORITY_BASE, PLIC_SCLAIM_BASE; lia).
  split_and!; [..|intros a Ha; unfold hart_regs in Ha; rewrite !not_elem_of_cons in Ha];
    rewrite !reg_write; repeat (case_decide; try lia; try done).
  by rewrite <- Z.lor_assoc.
Qed.

(** Different harts have different registers. *)
Lemma hart_regs_disjoint h k a :
  0 ≤ h < NCPUS → 0 ≤ k < NCPUS → h ≠ k → a ∈ hart_regs h → a ∉ hart_regs k.
Proof.
  unfold hart_regs, NCPUS, senable, threshold, sclaim, PLIC_SENABLE_BASE, PLIC_SPRIORITY_BASE, PLIC_SCLAIM_BASE, PLIC_BASE.
  intros Hh Hk Hne Ha. rewrite !elem_of_cons in *. rewrite elem_of_nil in *. lia.
Qed.

(** [kmain]: the harts initialise their part one after the other. *)
Fixpoint boot_harts (hs : list Z) (d : RegFile) : result RegFile :=
  match hs with [] => Ok d | h :: hs => d ← plic_hartinit h d; boot_harts hs d end.

(** What [d'] has for hart [h], with [d] the state before *)
Record configured (d d' : RegFile) (h : Z) : Prop := {
  cf_enable : reg d' (senable h) = Z.lor (reg d (senable h)) 0x402;
  cf_threshold : reg d' (threshold h) = 0;
  cf_priority : reg d' (threshold h + 40) = 1 ∧ reg d' (sclaim h) = 1;
}.

Lemma configured_frame d d1 d' d2 h :
  configured d1 d' h → reg d1 (senable h) = reg d (senable h) →
  (∀ a, a ∈ hart_regs h → reg d2 a = reg d' a) → configured d d2 h.
Proof.
  unfold hart_regs. intros [He Ht [Hp Hs]] H1 H2.
  split; [rewrite H2, He, H1 by set_solver; done|rewrite H2 by set_solver; done|].
  rewrite !H2 by set_solver. done.
Qed.

Lemma boot_harts_configured hs : ∀ d, Forall (λ k, 0 ≤ k < NCPUS) hs →
  ∃ d', boot_harts hs d = Ok d' ∧ (∀ h, h ∈ hs → configured d d' h) ∧
    ∀ a, (∀ h, h ∈ hs → a ∉ hart_regs h) → reg d' a = reg d a.
Proof.
  induction hs as [|k hs IH]; intros d Hhs.
  { exists d. split_and!; [done| |done]. by intros h ?%elem_of_nil. }
  apply list.Forall_cons in Hhs as [Hk Hhs]. cbn [boot_harts].
  destruct (plic_hartinit_writes k d Hk) as (d1 & -> & He & Ht & Hp & Hs & Hfr). rewrite bind_Ok_l.
  destruct (IH d1 Hhs) as (d' & -> & Hc & Hfr'). exists d'. split_and!; [done| |].
  - intros h Hh. destruct (decide (h ∈ hs)) as [Hin|Hout].
    + destruct (decide (h = k)) as [->|Hne].
      * destruct (Hc k Hin) as [Hen ? ?]. split; [|done..]. by rewrite Hen, He, <- Z.lor_assoc.
      * apply (configured_frame d d1 d' d'); [by apply Hc| |done]. apply Hfr.
        apply (hart_regs_disjoint h); [|done|done|by left].
        by eapply (list.Forall_forall (λ k, 0 ≤ k < NCPUS)).
    + assert (h = k) as -> by set_solver. apply (configured_frame d d d1 d'); [by split|done|].
      intros a Ha. apply Hfr'. intros j Hj. apply (hart_regs_disjoint k); [done| |congruence|done].
      by eapply (list.Forall_forall (λ k, 0 ≤ k < NCPUS)).
  - intros a Ha. rewrite Hfr' by set_solver. apply Hfr. set_solver.
Qed.

(** After plic init and hartinit on any harts, UART and disk interrupts reach each of
    them: enabled and with a priority above the threshold; other enable bits and all
    other registers are kept, while set_priority writes the claim register and the
    word 40 bytes past the threshold instead of the priorities. *)
Theorem plic_boot_delivers hs (d : RegFile) :
  Forall (λ k, 0 ≤ k < NCPUS) hs →
  ∃ d', boot_harts hs (plic_init d) = Ok d' ∧
    (∀ h, h ∈ hs → deliverable d' h UART0_IRQ ∧ deliverable d' h VIRTIO0_IRQ ∧
      (∀ id, id ≠ UART0_IRQ → id ≠ VIRTIO0_IRQ →
        Z.testbit (reg d' (senable h)) id = Z.testbit (reg d (senable h)) id) ∧
      reg d' (sclaim h) = 1 ∧ reg d' (threshold h + 4 * UART0_IRQ) = 1) ∧
    ∀ a, a ≠ PLIC_PRIORITY + 4 * UART0_IRQ → a ≠ PLIC_PRIORITY + 4 * VIRTIO0_IRQ →
      (∀ h, h ∈ hs → a ∉ hart_regs h) → reg d' a = reg d a.
Proof.
  intros Hhs. destruct (boot_harts_configured hs (plic_init d) Hhs) as (d' & Hrun & Hc & Hfr).
  assert (Hlow : ∀ a h, 0 ≤ h < NCPUS → a < PLIC_SENABLE_BASE → a ∉ hart_regs h).
  { intros a h Hh Ha. unfold hart_regs, senable, threshold, sclaim, PLIC_SPRIORITY_BASE, PLIC_SCLAIM_BASE, PLIC_SENABLE_BASE in *.
    rewrite !not_elem_of_cons. split_and!; [lia..|apply not_elem_of_nil]. }
  assert (Hprio : ∀ a, a < PLIC_SENABLE_BASE → reg d' a = reg (plic_init d) a).
  { intros a Ha. apply Hfr. intros h Hh. apply Hlow; [|done].
    by eapply (list.Forall_forall (λ k, 0 ≤ k < NCPUS)). }
  exists d'. split; [done|]. split.
  - intros h Hh. destruct (Hc h Hh) as [He Ht [Hp Hs]].
    assert (0 ≤ h < NCPUS) as Hr by (by eapply (list.Forall_forall (λ k, 0 ≤ k < NCPUS))).
    assert (reg (plic_init d) (senable h) = reg d (senable h)) as Hsame.
    { unfold plic_init, Plic.init. rewrite !reg_write, !decide_False; [done|..];
        unfold senable, PLIC_SENABLE_BASE, UART0_IRQ, VIRTIO0_IRQ; lia. }
    rewrite Hsame in He. unfold deliverable. rewrite Ht, He, !Z.lor_spec, !Hprio by done.
    assert (Hone : ∀ id, id = UART0_IRQ ∨ id = VIRTIO0_IRQ → reg (plic_init d) (PLIC_PRIORITY + 4 * id) = 1).
    { intros id [-> | ->]; unfold plic_init, Plic.init; rewrite !reg_write; done. }
    rewrite !Hone by auto.
    split_and!; [done|by rewrite orb_true_r|done|by rewrite orb_true_r| |done|done].
    intros id H1 H2. rewrite Z.lor_spec.
    assert (Z.testbit 0x402 id = false) as ->; [|by rewrite orb_false_r].
    unfold UART0_IRQ, VIRTIO0_IRQ in *. destruct (Z.ltb_spec id 0); [by apply Z.testbit_neg_r|].
    destruct (Z.ltb_spec id 11); [|apply (testbit_is_u 11); [split; lia|lia]].
    assert (id ∈ [0; 2; 3; 4; 5; 6; 7; 8; 9]) as Hin by (rewrite !elem_of_cons; lia).
    revert Hin. apply (list.Forall_forall (λ id, Z.testbit 0x402 id = false)). by repeat constructor.
  - intros a H1 H2 Ha. rewrite Hfr by done. unfold plic_init, Plic.init.
    change PLIC_BASE with PLIC_PRIORITY. rewrite !reg_write, !decide_False; [done|..]; congruence.
Qed.

Lemma plic_boot_delivers_witness :
  ∃ d', boot_harts [0; 2] (plic_init (mkRegFile ∅)) = Ok d' ∧
    deliverable d' 2 VIRTIO0_IRQ ∧ reg d' (sclaim 2) = 1 ∧ reg d' (senable 1) = 0.
Proof.
  destruct (plic_boot_delivers [0; 2] (mkRegFile ∅)) as (d' & Hrun & Hh & Hfr).
  { by repeat constructor. }
  exists d'. destruct (Hh 2) as (_ & Hv & _ & Hs & _); [by right; left|].
  split_and!; [exact Hrun|exact Hv|exact Hs|].
  rewrite Hfr; [reflexivity|by vm_compute|by vm_compute|].
  intros h [->|[->|?%elem_of_nil]%elem_of_cons]%elem_of_cons; [| |done];
    (apply (hart_regs_disjoint 1); [done|done|lia|by left]).
Defined.

(** ** [clint.rs] and [timervec] *)
Definition CLINT_BASE : Z := 0x2000000.
Definition CLINT_MTIMECMP_BASE : Z := CLINT_BASE + 0x4000.
Definition CLINT_MTIMECMP (hart : Z) : result Z := o ← umul 64 8 hart; uadd 64 CLINT_MTIMECMP_BASE o.
Definition CLINT_MTIME_BASE : Z := CLINT_BASE + 0xBFF8.

(** The machine-mode registers the timer uses *)
Record mcsr := MCsr {
  mscratch : Z;
  mtvec : Z;
  mstatus_mie : bool;
  mie_mtimer : bool;
  sip : Z;
}.

Definition MSCRATCH0_new : list (list Z) := replicate (Z.to_nat NCPUS) (replicate 8 0).

Section clint.
Context {D : Type} `{Mmio D}.

(** [id] is [mhartid], [scratch_at] the address of [MSCRATCH0], [timervec] that of the
    handler.  A row of [MSCRATCH0] has eight words of eight bytes. *)
Definition timer_init (id scratch_at timervec : Z) (sc : list (list Z)) (r : mcsr) (d : D)
    : result (list (list Z) * mcsr * D) :=
  let interval := SCHEDULER_INTERVAL in
  mtimecmp ← CLINT_MTIMECMP id;
  let mtime := CLINT_MTIME_BASE in
  let '(now, d) := mmio_read mtime d in
  next ← uadd 64 now interval;
  let d := mmio_write mtimecmp next d in
  scratch ← aget sc id;
  let r := MCsr (scratch_at + 64 * id) (mtvec r) (mstatus_mie r) (mie_mtimer r) (sip r) in
  scratch ← aset scratch 3 mtime;
  scratch ← aset scratch 4 mtimecmp;
  scratch ← aset scratch 5 interval;
  sc ← aset sc id scratch;
  Ok (sc, MCsr (mscratch r) timervec true true (sip r), d).

(** [timervec]: the registers a1..a3 of the interrupted code pass through the row. *)
Definition timervec (a1 a2 a3 : Z) (scratch : list Z) (r : mcsr) (d : D)
    : result (Z * Z * Z * list Z * mcsr * D) :=
  scratch ← aset scratch 0 a1;
  scratch ← aset scratch 1 a2;
  scratch ← aset scratch 2 a3;
  cmp ← aget scratch 4;
  interval ← aget scratch 5;
  let '(t, d) := mmio_read cmp d in
  let d := mmio_write cmp (as_u 64 (t + interval)) d in
  let r := MCsr (mscratch r) (mtvec r) (mstatus_mie r) (mie_mtimer r) 2 in
  a3 ← aget scratch 2;
  a2 ← aget scratch 1;
  a1 ← aget scratch 0;
  Ok (a1, a2, a3, scratch, r, d).
End clint.

(** *** The period *)
(** A row of [MSCRATCH0] set up for the comparator [cmp] *)
Record timer_row (row : list Z) (cmp : Z) : Prop := {
  tr_len : length row = 8%nat;
  tr_cmp : row !! 4%nat = Some cmp;
  tr_interval : row !! 5%nat = Some SCHEDULER_INTERVAL;
}.

Lemma timervec_step a1 a2 a3 row r (d : RegFile) cmp :
  timer_row row cmp →
  ∃ row' r' d', timervec a1 a2 a3 row r d = Ok (a1, a2, a3, row', r', d') ∧ timer_row row' cmp ∧
    sip r' = 2 ∧ reg d' cmp = as_u 64 (reg d cmp + SCHEDULER_INTERVAL) ∧
    ∀ a, a ≠ cmp → reg d' a = reg d a.
Proof.
  intros [Hlen Hc Hi].
  destruct row as [|x0 [|x1 [|x2 [|x3 [|x4 [|x5 [|x6 [|x7 [|? ?]]]]]]]]]; try done.
  cbn in Hc, Hi. injection Hc as ->. injection Hi as ->.
  eexists _, _, _. split; [reflexivity|]. split_and!; [by split|done|..].
  - rewrite reg_write, decide_True by done. done.
  - intros a Ha. by rewrite reg_write, decide_False.
Qed.

(** The interrupts of one hart, by the registers they interrupt, with those it returns *)
Fixpoint run_timer (ts : list (Z * Z * Z)) (row : list Z) (r : mcsr) (d : RegFile)
    : result (list (Z * Z * Z) * list Z * RegFile) :=
  match ts with
  | [] => Ok ([], row, d)
  | (a1, a2, a3) :: ts =>
      '(b1, b2, b3, row, r, d) ← timervec a1 a2 a3 row r d;
      '(out, row, d) ← run_timer ts row r d;
      Ok ((b1, b2, b3) :: out, row, d)
  end.

Lemma run_timer_period cmp ts : ∀ row r (d : RegFile),
  timer_row row cmp → is_usize (reg d cmp) →
  ∃ row' d', run_timer ts row r d = Ok (ts, row', d') ∧
    reg d' cmp = (reg d cmp + SCHEDULER_INTERVAL * Z.of_nat (length ts)) mod 2 ^ 64 ∧
    ∀ a, a ≠ cmp → reg d' a = reg d a.
Proof.
  induction ts as [|[[a1 a2] a3] ts IH]; intros row r d Hrow Hu; cbn [run_timer].
  { exists row, d. split_and!; [done| |done]. cbn [length]. rewrite Z.mul_0_r, Z.add_0_r. symmetry. by apply Z.mod_small. }
  destruct (timervec_step a1 a2 a3 row r d cmp Hrow) as (row1 & r1 & d1 & -> & Hrow1 & _ & Hc & Hfr).
  rewrite bind_Ok_l. unfold as_u in Hc. rewrite Z.land_ones in Hc by lia.
  destruct (IH row1 r1 d1 Hrow1) as (row' & d' & -> & Hc' & Hfr').
  { rewrite Hc. apply Z.mod_pos_bound. lia. }
  rewrite bind_Ok_l. exists row', d'. split_and!; [done|..].
  - rewrite Hc', Hc, Zplus_mod_idemp_l. cbn [length]. f_equal. lia.
  - intros a Ha. by rewrite Hfr', Hfr.
Qed.

(** After timer_init, every timer interrupt hands the interrupted registers back and
    moves the comparator of the hart by one interval, modulo 2^64, counted from the
    time of the boot without drift; no other device register changes. *)
Theorem timer_period id at_ tv sc r (d : RegFile) ts :
  0 ≤ id < NCPUS → length sc = Z.to_nat NCPUS → Forall (λ row, length row = 8%nat) sc →
  0 ≤ reg d CLINT_MTIME_BASE < 2 ^ 64 - SCHEDULER_INTERVAL →
  ∃ sc' r' d' row row' d'', timer_init id at_ tv sc r d = Ok (sc', r', d') ∧
    mtvec r' = tv ∧ mscratch r' = at_ + 64 * id ∧ mstatus_mie r' = true ∧ mie_mtimer r' = true ∧
    sc' = <[Z.to_nat id := row]> sc ∧ run_timer ts row r' d' = Ok (ts, row', d'') ∧
    reg d'' (CLINT_MTIMECMP_BASE + 8 * id) =
      (reg d CLINT_MTIME_BASE + SCHEDULER_INTERVAL * (1 + Z.of_nat (length ts))) mod 2 ^ 64 ∧
    ∀ a, a ≠ CLINT_MTIMECMP_BASE + 8 * id → reg d'' a = reg d a.
Proof.
  intros Hid Hsc Hrows Ht.
  assert (CLINT_MTIMECMP id = Ok (CLINT_MTIMECMP_BASE + 8 * id)) as Hcmp.
  { unfold CLINT_MTIMECMP, NCPUS in *. rewrite umul_eq, bind_Ok_l by lia. apply uadd_eq.
    unfold CLINT_MTIMECMP_BASE, CLINT_BASE. lia. }
  destruct (aget_range sc id) as (row & Hg & Hrow); [rewrite Hsc; unfold NCPUS in *; lia|].
  assert (length row = 8%nat) as Hlen by (by eapply (list.Forall_lookup_1 (λ row, length row = 8%nat))).
  unfold timer_init. rewrite Hcmp, bind_Ok_l. cbn [mmio_read RegFile_mmio].
  rewrite uadd_eq by lia. rewrite bind_Ok_l, Hg, bind_Ok_l.
  destruct row as [|x0 [|x1 [|x2 [|x3 [|x4 [|x5 [|x6 [|x7 [|? ?]]]]]]]]]; try done.
  change (aset [x0; x1; x2; x3; x4; x5; x6; x7] 3 ?y) with (Ok [x0; x1; x2; y; x4; x5; x6; x7]).
  rewrite bind_Ok_l. change (aset [x0; x1; x2; ?x3; x4; x5; x6; x7] 4 ?y) with (Ok [x0; x1; x2; x3; y; x5; x6; x7]).
  rewrite bind_Ok_l. change (aset [x0; x1; x2; ?x3; ?x4; x5; x6; x7] 5 ?y) with (Ok [x0; x1; x2; x3; x4; y; x6; x7]).
  rewrite bind_Ok_l, (aset_eq sc id) by (rewrite Hsc; unfold NCPUS in *; lia).
  rewrite bind_Ok_l.
  destruct (run_timer_period (CLINT_MTIMECMP_BASE + 8 * id) ts
    [x0; x1; x2; CLINT_MTIME_BASE; CLINT_MTIMECMP_BASE + 8 * id; SCHEDULER_INTERVAL; x6; x7]
    (MCsr (at_ + 64 * id) tv true true (sip r))
    (mmio_write (CLINT_MTIMECMP_BASE + 8 * id) (reg d CLINT_MTIME_BASE + SCHEDULER_INTERVAL) d))
    as (row' & d' & Hrun & Hc & Hfr); [by split|rewrite reg_write, decide_True by done; unfold is_u; split; unfold SCHEDULER_INTERVAL in *; lia|].
  eexists _, _, _, _, row', d'. split; [reflexivity|]. split_and!; [done..|exact Hrun| |].
  - rewrite Hc, reg_write, decide_True by done. f_equal. lia.
  - intros a Ha. by rewrite Hfr, reg_write, decide_False by done.
Qed.

Lemma timer_period_witness :
  ∃ sc' r' d' row row' d'',
    timer_init 1 0x80060000 0x80000200 MSCRATCH0_new (MCsr 0 0 false false 0) (mkRegFile {[CLINT_MTIME_BASE := 77]})
      = Ok (sc', r', d') ∧
    sc' = <[1%nat := row]> MSCRATCH0_new ∧ run_timer [(1, 2, 3); (4, 5, 6)] row r' d' = Ok ([(1, 2, 3); (4, 5, 6)], row', d'') ∧
    reg d'' (CLINT_MTIMECMP_BASE + 8) = 3000077.
Proof.
  destruct (timer_period 1 0x80060000 0x80000200 MSCRATCH0_new (MCsr 0 0 false false 0)
    (mkRegFile {[CLINT_MTIME_BASE := 77]}) [(1, 2, 3); (4, 5, 6)])
    as (sc' & r' & d' & row & row' & d'' & H1 & _ & _ & _ & _ & H2 & H3 & H4 & _);
    [done|reflexivity|by repeat constructor|done|].
  exists sc', r', d', row, row', d''. split_and!; [exact H1|exact H2|exact H3|exact H4].
Defined.
