(* ===== verification/KernelMap.v ===== *)
(** * The kernel's address space

    [mem::init] after the allocator is set up, and [mem::hartinit]: the table
    [KERNEL_PGTABLE] is filled from the linker symbols and the device addresses, then
    every hart switches to it. *)

From S2P Require Import Prelude Symbols Mem Page PageTree PageOps Hart Devices.

Section init.
Context {A : Type} `{GlobalAlloc A}.

(** [init] from the first mapping on; [pgtable] is [&KERNEL_PGTABLE]. *)
Definition init_map (s : linker_symbols) (pgtable : Z) (m : kmem A) : result (kmem A) :=
  m ← id_map_range pgtable (TEXT_START s) (TEXT_END s) EntryAttributes.RX m;
  m ← id_map_range pgtable (RODATA_START s) (RODATA_END s) EntryAttributes.RX m;
  m ← id_map_range pgtable (DATA_START s) (DATA_END s) EntryAttributes.RW m;
  m ← id_map_range pgtable (BSS_START s) (BSS_END s) EntryAttributes.RW m;
  m ← id_map_range pgtable (KERNEL_STACK_START s) (KERNEL_STACK_END s) EntryAttributes.RW m;
  m ← kernel_map pgtable UART_BASE_ADDR UART_BASE_ADDR EntryAttributes.RW m;
  m ← kernel_map pgtable VIRTIO_MMIO_BASE VIRTIO_MMIO_BASE EntryAttributes.RW m;
  m ← kernel_map pgtable TRAMPOLINE_START (TRAMPOLINE_TEXT_START s) EntryAttributes.RX m;
  heap_end ← uadd 64 (HEAP_START s) (HEAP_SIZE s);
  m ← id_map_range pgtable (HEAP_START s) heap_end EntryAttributes.RW m;
  m ← id_map_range pgtable CLINT_BASE (CLINT_BASE + 0x10000) EntryAttributes.RW m;
  id_map_range pgtable PLIC_BASE (PLIC_BASE + 0x400000) EntryAttributes.RW m.
End init.

Definition mem_init (s : linker_symbols) (pgtable : Z) (m : kmem Allocator) : result (kmem Allocator) :=
  a ← init_alloc s (ga m);
  init_map s pgtable (KMem a (frames m)).

(** [hartinit]: the value written to [satp] *)
Definition mem_hartinit (pgtable : Z) : result Z := build_satp 8 0 pgtable.

(** ** The intended address space *)
Definition page_up (v : Z) : Z := pages_of v * PAGE_SIZE.

Definition in_text (s : linker_symbols) (va : Z) : Prop :=
  in_pages va (TEXT_START s) (page_up (TEXT_END s)) ∨
  in_pages va (RODATA_START s) (page_up (RODATA_END s)).
(** Everything from .data to the end of RAM, but for the gaps before aligned sections *)
Definition in_data (s : linker_symbols) (va : Z) : Prop :=
  in_pages va (DATA_START s) (page_up (DATA_END s)) ∨
  in_pages va (BSS_START s) (ORIGIN_ram + LENGTH_ram).
Definition in_device (va : Z) : Prop :=
  va = UART_BASE_ADDR ∨ va = VIRTIO_MMIO_BASE ∨
  in_pages va CLINT_BASE (CLINT_BASE + 0x10000) ∨ in_pages va PLIC_BASE (PLIC_BASE + 0x400000).

#[local] Instance in_text_dec s va : Decision (in_text s va).
Proof. unfold in_text. apply _. Defined.
#[local] Instance in_data_dec s va : Decision (in_data s va).
Proof. unfold in_data. apply _. Defined.
#[local] Instance in_device_dec va : Decision (in_device va).
Proof. unfold in_device. apply _. Defined.

Definition kernel_space (s : linker_symbols) (va : Z) : option Z :=
  if decide (va = TRAMPOLINE_START) then Some (leaf_entry (TRAMPOLINE_TEXT_START s) EntryAttributes.RX)
  else if decide (in_text s va) then Some (leaf_entry va EntryAttributes.RX)
  else if decide (in_data s va ∨ in_device va) then Some (leaf_entry va EntryAttributes.RW)
  else None.

(** ** Page rounding *)
Lemma page_up_bounds v : v ≤ page_up v < v + 4096.
Proof.
  unfold page_up, pages_of. layout. pose proof (Z.div_mod (v + 4095) 4096).
  pose proof (Z.mod_pos_bound (v + 4095) 4096). lia.
Qed.

Lemma page_up_le v w : v ≤ w → w mod 4096 = 0 → page_up v ≤ w.
Proof.
  intros Hv Hw. unfold page_up, pages_of. layout. pose proof (Z.div_mod w 4096).
  assert ((v + 4095) / 4096 < w / 4096 + 1); [|lia]. apply Z.div_lt_upper_bound; lia.
Qed.

Lemma page_down_le v w : w ≤ v → w mod 4096 = 0 → w ≤ v - v mod 4096.
Proof.
  intros Hv Hw. pose proof (Z.div_mod w 4096). pose proof (Z.div_mod v 4096).
  assert (w / 4096 ≤ v / 4096); [|lia]. apply Z.div_le_mono; lia.
Qed.

(** ** Each mapping updates the abstract space *)
Section steps.
Context {A : Type} `{GlobalAllocLaws A} {P : A → Prop} (root : Z).
Implicit Types (m : kmem A) (f : Z → option Z).

Definition spaces f m : Prop :=
  ∃ B, pt_inv 2 m B root ∧ ∀ va, canonical va → page_map m root va = f va.

Definition with_range (lo hi bits : Z) f : Z → option Z :=
  λ va, if decide (in_pages va lo hi) then Some (leaf_entry va bits) else f va.
Definition with_page (va0 pa bits : Z) f : Z → option Z :=
  λ va, if decide (va = va0) then Some (leaf_entry pa bits) else f va.

(** *** How many tables a range takes *)
Definition chunk (va : Z) : Z := va / 2 ^ 21.

Lemma chunk_vidx va va' k : chunk va = chunk va' → (0 < k ≤ 2)%nat → vidx va k = vidx va' k.
Proof.
  intros Hc Hk. rewrite !vidx_div. unfold chunk in Hc. destruct k as [|[|[|]]]; [lia| | |lia].
  - change (2 ^ (12 + 9 * Z.of_nat 1)) with (2 ^ 21). by rewrite Hc.
  - change (2 ^ (12 + 9 * Z.of_nat 2)) with (2 ^ 21 * 2 ^ 9). by rewrite <- !Z.div_div, Hc by lia.
Qed.

Lemma serves_le n k (a : A) : (k ≤ n)%nat → serves P n a → serves P k a.
Proof. induction 1; [done|]. intros Hs. by apply IHle, serves_less. Qed.

(** A page is mapped from the tables of its neighbour, or takes at most two. *)
Lemma page_total va bits m B n :
  pt_inv 2 m B root → canonical va →
  (∃ va' e, chunk va' = chunk va ∧ page_map m root va' = Some e) ∧ serves P n (ga m) ∨ serves P (2 + n) (ga m) →
  ∃ m', map_addr root va va bits 0 m = Ok m' ∧ serves P n (ga m').
Proof.
  intros Hinv [Hva Hal] Hs. unfold map_addr. rewrite Hal. cbn [negb Z.eqb panic_if]. rewrite !bind_Ok_l.
  destruct Hs as [[(va' & e & Hc & He) Hs]|Hs].
  - apply page_map_raw in He as [Hr _]. pose proof Hinv as [_ Hw _].
    destruct (raw_at_sibling 2 (frames m) root va' va e Hw) as [e' He']; [|done|].
    { intros k Hk. by apply chunk_vidx. }
    destruct (map_entry_path (leaf_entry va bits) va e' 2 root m B) as (m' & Hm & Hg); [done..|].
    exists m'. split; [exact Hm|]. by rewrite Hg.
  - destruct (map_entry_total (P:=P) (leaf_entry va bits) va n 2 root m B) as (m' & Hm & Hg); [done..|].
    by exists m'.
Qed.

Definition tables_for (lo hi : Z) : Z := 2 * (chunk hi - chunk lo + 1).

Lemma chunk_mono va va' : va ≤ va' → chunk va ≤ chunk va'.
Proof. intros. by apply Z.div_le_mono. Qed.

(** The state of the loop: [k] pages mapped, tables left for the chunks that are not
    reached yet *)
Definition range_state (bits lo hi : Z) m B (n : nat) (k : Z) (st : Z * kmem A) : Prop :=
  id_mapped root bits m B lo k st ∧
  serves P (Z.to_nat (2 * (chunk hi - (if decide (k = 0) then chunk lo - 1 else chunk (lo + (k - 1) * 4096)))) + n)
    (ga st.2).

Lemma range_step bits lo hi m B n k st :
  leaf_flags bits → is_user bits = false → canonical lo → 0 ≤ k → lo + k * 4096 ≤ hi → hi < 2 ^ 39 - 4096 →
  range_state bits lo hi m B n k st →
  ∃ st', ('(memaddr, m) ← Ok st;
          m ← map_addr root memaddr memaddr bits 0 m;
          memaddr ← uadd 64 memaddr PAGE_SIZE;
          Ok (memaddr, m)) = Ok st' ∧ range_state bits lo hi m B n (k + 1) st'.
Proof.
  intros Hb Hu Hlo Hk Hle Hhi [Hid Hs]. pose proof Hlo as [Hlo1 Hlo2]. destruct st as [ma mk].
  pose proof Hid as [Hma (Bk & Hik & _ & Hlk)]. cbn [fst snd] in *. subst ma. layout.
  assert (Hc : canonical (lo + k * 4096)) by (split; [lia|layout; by rewrite Z.mod_add]).
  pose proof (chunk_mono (lo + k * 4096) hi Hle) as Hch.
  destruct (page_total (lo + k * 4096) bits mk Bk (Z.to_nat (2 * (chunk hi - chunk (lo + k * 4096))) + n) Hik Hc)
    as (m1 & Hm1 & Hs1).
  { destruct (decide (k = 0)) as [->|Hk0]; [right; eapply serves_le; [|exact Hs]; rewrite Z.mul_0_l, Z.add_0_r in *; lia|].
    pose proof (chunk_mono (lo + (k - 1) * 4096) (lo + k * 4096)).
    destruct (decide (chunk (lo + (k - 1) * 4096) = chunk (lo + k * 4096))) as [E|E].
    - left. split; [|by rewrite <- E]. exists (lo + (k - 1) * 4096). rewrite Hlk.
      + rewrite decide_True by (unfold in_pages; lia). by eauto.
      + split; [lia|]. layout. by rewrite Z.mod_add.
    - right. eapply serves_le; [|exact Hs]. lia. }
  eexists. rewrite bind_Ok_l, Hm1, bind_Ok_l, uadd_eq by lia. split; [done|]. split.
  - eapply (id_mapped_step root bits m B Hb Hu lo k (lo + k * 4096, mk)); [done|done|lia|done|].
    rewrite bind_Ok_l, Hm1, bind_Ok_l. layout. by rewrite uadd_eq by lia.
  - cbn [snd]. rewrite decide_False by lia. by replace (k + 1 - 1) with k by lia.
Qed.

Lemma spaces_range f m start end_ bits n :
  spaces f m → serves P (Z.to_nat (tables_for (start - start mod PAGE_SIZE) end_) + n) (ga m) →
  leaf_flags bits → is_user bits = false → 0 ≤ start ≤ end_ → end_ < 2 ^ 39 - 2 * PAGE_SIZE →
  ∃ m', id_map_range root start end_ bits m = Ok m' ∧ serves P n (ga m') ∧
    spaces (with_range (start - start mod PAGE_SIZE) (page_up end_) bits f) m'.
Proof.
  intros (B & Hinv & Hf) Hs Hb Hu Hse He.
  assert (∃ m', id_map_range root start end_ bits m = Ok m' ∧ serves P n (ga m')) as (m' & Hrun & Hs').
  { unfold id_map_range. change (align_val end_ 12) with (align_val end_ PAGE_ORDER). layout.
    rewrite align_val_page by (unfold is_u; lia). rewrite align_val_down_eq by (done || unfold is_u; lia).
    rewrite !bind_Ok_l. change (2 ^ PAGE_ORDER) with 4096.
    destruct (page_down_bounds start) as (Hd1 & Hd2 & Hd3); [lia|]. set (lo := start - start mod 4096) in *.
    pose proof (page_up_bounds end_) as Hup. unfold page_up in Hup. layout.
    rewrite usub_eq, bind_Ok_l by lia. set (K := (pages_of end_ * 4096 - lo) / 4096).
    assert (HK : K * 4096 = pages_of end_ * 4096 - lo).
    { unfold K. pose proof (Z.div_mod lo 4096).
      replace (pages_of end_ * 4096 - lo) with ((pages_of end_ - lo / 4096) * 4096) by lia. by rewrite Z.div_mul. }
    destruct (for_range_total (range_state bits lo end_ m B n) 0 K
      (λ (_ : Z) '(memaddr, m), m ← map_addr root memaddr memaddr bits 0 m;
         memaddr ← uadd 64 memaddr 4096; Ok (memaddr, m)) (lo, m)) as ([ma m'] & Hrun & [_ Hs']).
    - lia.
    - split; cbn [snd].
      + split; cbn [fst snd]; [lia|]. exists B. split_and!; [done..|]. intros va _.
        rewrite decide_False; [done|]. unfold in_pages. lia.
      + rewrite decide_True by done. unfold tables_for in Hs. by replace (chunk end_ - (chunk lo - 1)) with (chunk end_ - chunk lo + 1) by lia.
    - intros k [ma mk] Hk Hst. destruct (range_step bits lo end_ m B n k (ma, mk)) as (st' & Hst' & Hr');
        [done|done|split; [lia|by layout]|lia|lia|lia|done|]. exists st'. split; [|done]. exact Hst'.
    - rewrite Hrun, bind_Ok_l. exists m'. split; [done|]. eapply serves_le; [|exact Hs']. lia. }
  exists m'. split_and!; [done..|].
  destruct (id_map_range_identity root start end_ bits m m' B Hinv Hb Hu Hse) as (B' & Hi & _ & Hp);
    [layout; lia|done|].
  exists B'. split; [done|]. intros va Hva. rewrite Hp by done. unfold with_range, page_up.
  destruct (decide (in_pages va _ _)); [done|]. by apply Hf.
Qed.

Lemma spaces_page f m va pa bits n :
  spaces f m → serves P (2 + n) (ga m) →
  leaf_flags bits → is_user bits = false → canonical va → is_usize pa → pa mod PAGE_SIZE = 0 →
  ∃ m', kernel_map root va pa bits m = Ok m' ∧ serves P n (ga m') ∧ spaces (with_page va pa bits f) m'.
Proof.
  intros (B & Hinv & Hf) Hs Hb Hu Hva Hpa Hal.
  destruct (map_entry_total (P:=P) (leaf_entry pa bits) va n 2 root m B) as (m' & Hm & Hs'); [done..|].
  assert (map_addr root va pa bits 0 m = Ok m') as Hrun.
  { unfold map_addr. rewrite Hal, (proj2 Hva). exact Hm. }
  exists m'. split_and!; [|done|].
  { unfold kernel_map. unfold is_user, has in Hu. by rewrite Hu. }
  destruct (map_addr_sets root va pa bits m m' B Hinv Hva Hpa Hb) as (B' & [Hi _ _ _ _ _] & Hp); [|done|].
  { intros Hu'. congruence. }
  exists B'. split; [done|]. intros va' Hva'. rewrite Hp by done. unfold with_page.
  destruct (decide (va' = va)); [done|]. by apply Hf.
Qed.

(** A range inside RAM lies in 64 chunks. *)
Lemma spaces_ram f m start end_ bits n :
  spaces f m → serves P (130 + n) (ga m) →
  leaf_flags bits → is_user bits = false → 0x80000000 ≤ start ≤ end_ → end_ ≤ 0x88000000 →
  ∃ m', id_map_range root start end_ bits m = Ok m' ∧ serves P n (ga m') ∧
    spaces (with_range (start - start mod PAGE_SIZE) (page_up end_) bits f) m'.
Proof.
  intros Hsp Hs Hb Hu Hse He. apply spaces_range; [done| |done|done|lia|layout; lia].
  eapply serves_le; [|exact Hs]. layout.
  pose proof (chunk_mono 0x80000000 (start - start mod 4096)
    ltac:(apply page_down_le; [lia|done])) as H1.
  pose proof (chunk_mono end_ 0x88000000 He) as H2.
  change (chunk 0x80000000) with 1024 in H1. change (chunk 0x88000000) with 1088 in H2.
  unfold tables_for. lia.
Qed.
End steps.


(** What the sequence of [init] composes to *)
Definition mapped_space (s : linker_symbols) : Z → option Z :=
  let id lo hi bits f := with_range (lo - lo mod PAGE_SIZE) (page_up hi) bits f in
  id PLIC_BASE (PLIC_BASE + 0x400000) EntryAttributes.RW
  (id CLINT_BASE (CLINT_BASE + 0x10000) EntryAttributes.RW
  (id (HEAP_START s) (HEAP_START s + HEAP_SIZE s) EntryAttributes.RW
  (with_page TRAMPOLINE_START (TRAMPOLINE_TEXT_START s) EntryAttributes.RX
  (with_page VIRTIO_MMIO_BASE VIRTIO_MMIO_BASE EntryAttributes.RW
  (with_page UART_BASE_ADDR UART_BASE_ADDR EntryAttributes.RW
  (id (KERNEL_STACK_START s) (KERNEL_STACK_END s) EntryAttributes.RW
  (id (BSS_START s) (BSS_END s) EntryAttributes.RW
  (id (DATA_START s) (DATA_END s) EntryAttributes.RW
  (id (RODATA_START s) (RODATA_END s) EntryAttributes.RX
  (id (TEXT_START s) (TEXT_END s) EntryAttributes.RX (λ _, None))))))))))).

Section kernel_space.
Context (s : linker_symbols) (Hld : kernel_ld s).

Ltac ld := destruct Hld as [[? ?] [[? ?] ?] [[? ?] ?] [[? ?] ?] [[? ?] ?] [? ?] [? ?] ?];
  unfold ORIGIN_ram, LENGTH_ram in *.

Lemma init_map_mapped {A} `{GlobalAllocLaws A} {P : A → Prop} root (m : kmem A) :
  spaces root (λ _, None) m → serves P 1000 (ga m) →
  ∃ m', init_map s root m = Ok m' ∧ spaces root (mapped_space s) m' ∧ P (ga m').
Proof using Hld.
  intros Hsp Hs. ld.
  assert (Hpages : canonical UART_BASE_ADDR ∧ canonical VIRTIO_MMIO_BASE ∧ canonical TRAMPOLINE_START)
    by (split_and!; (split; [vm_compute; done|done])).
  destruct Hpages as (Hp1 & Hp2 & Hp3). unfold init_map.
  destruct (spaces_ram root _ m (TEXT_START s) (TEXT_END s) EntryAttributes.RX 870 Hsp Hs) as (m1 & -> & Hs1 & Hsp1);
    [apply RX_flags|apply RX_flags|lia|lia|]. rewrite bind_Ok_l.
  destruct (spaces_ram root _ m1 (RODATA_START s) (RODATA_END s) EntryAttributes.RX 740 Hsp1 Hs1) as (m2 & -> & Hs2 & Hsp2);
    [apply RX_flags|apply RX_flags|lia|lia|]. rewrite bind_Ok_l.
  destruct (spaces_ram root _ m2 (DATA_START s) (DATA_END s) EntryAttributes.RW 610 Hsp2 Hs2) as (m3 & -> & Hs3 & Hsp3);
    [apply RW_flags|apply RW_flags|lia|lia|]. rewrite bind_Ok_l.
  destruct (spaces_ram root _ m3 (BSS_START s) (BSS_END s) EntryAttributes.RW 480 Hsp3 Hs3) as (m4 & -> & Hs4 & Hsp4);
    [apply RW_flags|apply RW_flags|lia|lia|]. rewrite bind_Ok_l.
  destruct (spaces_ram root _ m4 (KERNEL_STACK_START s) (KERNEL_STACK_END s) EntryAttributes.RW 350 Hsp4 Hs4) as (m5 & -> & Hs5 & Hsp5);
    [apply RW_flags|apply RW_flags|lia|lia|]. rewrite bind_Ok_l.
  destruct (spaces_page root _ m5 UART_BASE_ADDR UART_BASE_ADDR EntryAttributes.RW 348 Hsp5 Hs5) as (m6 & -> & Hs6 & Hsp6);
    [apply RW_flags|apply RW_flags|exact Hp1|by vm_compute|done|]. rewrite bind_Ok_l.
  destruct (spaces_page root _ m6 VIRTIO_MMIO_BASE VIRTIO_MMIO_BASE EntryAttributes.RW 346 Hsp6 Hs6) as (m7 & -> & Hs7 & Hsp7);
    [apply RW_flags|apply RW_flags|exact Hp2|by vm_compute|done|]. rewrite bind_Ok_l.
  destruct (spaces_page root _ m7 TRAMPOLINE_START (TRAMPOLINE_TEXT_START s) EntryAttributes.RX 344 Hsp7 Hs7) as (m8 & -> & Hs8 & Hsp8);
    [apply RX_flags|apply RX_flags|exact Hp3|unfold is_u; lia|done|]. rewrite bind_Ok_l.
  rewrite uadd_eq, bind_Ok_l by lia.
  destruct (spaces_ram root _ m8 (HEAP_START s) (HEAP_START s + HEAP_SIZE s) EntryAttributes.RW 214 Hsp8 Hs8) as (m9 & -> & Hs9 & Hsp9);
    [apply RW_flags|apply RW_flags|lia|lia|]. rewrite bind_Ok_l.
  destruct (spaces_range (P:=P) root _ m9 CLINT_BASE (CLINT_BASE + 0x10000) EntryAttributes.RW 100 Hsp9)
    as (m10 & -> & Hs10 & Hsp10); [|apply RW_flags|apply RW_flags|unfold CLINT_BASE; lia|unfold CLINT_BASE; layout; lia|].
  { eapply serves_le; [|exact Hs9]. vm_compute. lia. }
  rewrite bind_Ok_l.
  destruct (spaces_range (P:=P) root _ m10 PLIC_BASE (PLIC_BASE + 0x400000) EntryAttributes.RW 0 Hsp10)
    as (m11 & -> & Hs11 & Hsp11); [|apply RW_flags|apply RW_flags|unfold PLIC_BASE; lia|unfold PLIC_BASE; layout; lia|].
  { eapply serves_le; [|exact Hs10]. vm_compute. lia. }
  exists m11. split_and!; [done|done|]. by eapply serves_P.
Qed.

Lemma mapped_space_eq va : canonical va → mapped_space s va = kernel_space s va.
Proof using Hld.
  intros [Hva Hal]. ld. unfold mapped_space, kernel_space, with_range, with_page, in_text, in_data, in_device, in_pages.
  cbn zeta. layout.
  assert (Hal' : ∀ x, x mod 4096 = 0 → x - x mod 4096 = x) by lia.
  rewrite (Hal' (TEXT_START s)), (Hal' (RODATA_START s)), (Hal' (DATA_START s)), (Hal' (BSS_START s)) by done.
  pose proof (page_up_bounds (TEXT_END s)). pose proof (page_up_bounds (RODATA_END s)).
  pose proof (page_up_bounds (DATA_END s)). pose proof (page_up_bounds (BSS_END s)).
  pose proof (page_up_bounds (KERNEL_STACK_END s)).
  assert (page_up (TEXT_END s) ≤ RODATA_START s) by by apply page_up_le.
  assert (page_up (RODATA_END s) ≤ DATA_START s) by by apply page_up_le.
  assert (page_up (DATA_END s) ≤ BSS_START s) by by apply page_up_le.
  assert (page_up (KERNEL_STACK_END s) ≤ 0x88000000) by (apply page_up_le; [lia|done]).
  assert (BSS_START s ≤ KERNEL_STACK_START s - KERNEL_STACK_START s mod 4096) by (apply page_down_le; lia).
  pose proof (Z.mod_pos_bound (KERNEL_STACK_START s) 4096 ltac:(done)).
  pose proof (Z.mod_pos_bound (HEAP_START s) 4096 ltac:(done)).
  replace (HEAP_START s + HEAP_SIZE s) with 0x88000000 by lia.
  change (page_up 0x88000000) with 0x88000000.
  change (page_up (PLIC_BASE + 0x400000)) with (PLIC_BASE + 0x400000).
  change (page_up (CLINT_BASE + 0x10000)) with (CLINT_BASE + 0x10000).
  change (PLIC_BASE - PLIC_BASE mod 4096) with PLIC_BASE. change (CLINT_BASE - CLINT_BASE mod 4096) with CLINT_BASE.
  unfold PLIC_BASE, CLINT_BASE, VIRTIO_MMIO_BASE, UART_BASE_ADDR.
  clear Hld Hal' Hal H0 H6 H9 H12 H3. unfold ORIGIN_ram, LENGTH_ram.
  generalize dependent (KERNEL_STACK_START s mod 4096). generalize dependent (HEAP_START s mod 4096). intros d2 Hd2 d1 Hd1 ?.
  repeat (case_decide; [first [congruence|reflexivity|exfalso; lia|idtac]|]); try reflexivity; exfalso; lia.
Qed.
End kernel_space.

(** ** The allocator after boot serves the tables *)
Lemma allocate_run_ok a B size k :
  alloc_rep a B → 0 < size → size + 4095 < 2 ^ 64 → free_run B k (pages_of size) → ∃ p a', allocate a size = Ok (p, a').
Proof.
  intros Hrep Hs Hf Hfr. pose proof (pages_of_bounds size Hs Hf) as Hn. pose proof Hfr as (Hk & Hkm & _).
  rewrite allocate_unfold by done.
  destruct (ctl_range_outcome (λ i (_ : unit), allocate_at a (pages_of size) i) 0 MAX_PAGE) as [[_ Hall]|(i & Hi & Hp & -> & Hne)].
  - rewrite MAX_PAGE_eq. lia.
  - specialize (Hall k ltac:(lia)). cbn beta in Hall.
    pose proof (allocate_at_outcome a B (pages_of size) k Hrep ltac:(lia) Hn) as Ho. rewrite Hall in Ho.
    inversion Ho. done.
  - destruct (decide (i ≤ k)) as [Hik|Hik].
    + destruct (allocate_at_outcome a B (pages_of size) i Hrep Hi Hn) as [|l' _ _|Hend]; [done| |lia]. simpl. eauto.
    + specialize (Hp k ltac:(lia)). cbn beta in Hp.
      pose proof (allocate_at_outcome a B (pages_of size) k Hrep ltac:(lia) Hn) as Ho. rewrite Hp in Ho. inversion Ho. done.
Qed.

(** Every block lies below page [k] of the heap. *)
Definition low (k : Z) (a : Allocator) : Prop :=
  ∃ B, alloc_rep a B ∧ ∀ s l, B !! s = Some l → s + l ≤ k.

Lemma low_le k k' a : k ≤ k' → low k a → low k' a.
Proof. intros Hk (B & Hrep & Hb). exists B. split; [done|]. intros s l Hs. specialize (Hb s l Hs). lia. Qed.

(** First fit serves from the pages behind, or better. *)
Lemma low_alloc k size a :
  low k a → 0 ≤ k → 0 < size → size + 4095 < 2 ^ 64 → k + pages_of size ≤ MAX_PAGE →
  ∃ p a', allocate a size = Ok (p, a') ∧ low (k + pages_of size) a'.
Proof.
  intros (B & Hrep & Hb) Hk Hs Hf Hm. pose proof (pages_of_bounds size Hs Hf) as Hn.
  assert (free_run B k (pages_of size)) as Hfr.
  { split_and!; [lia|lia|]. intros s l Hl. right. by apply Hb. }
  destruct (allocate_run_ok a B size k Hrep Hs Hf Hfr) as (p & a' & Ha). exists p, a'. split; [exact Ha|].
  destruct (allocate_Ok a B size p a' Hrep Hs Hf Ha) as (s & l' & _ & _ & Hmin & _ & _ & Hrep').
  specialize (Hmin k Hfr). eexists. split; [exact Hrep'|].
  intros s' n' [[<- <-]|[_ HB]]%lookup_insert_Some; [lia|]. specialize (Hb s' n' HB). lia.
Qed.

Lemma low_serves K n : ∀ (a : Allocator) k,
  low k a → 0 ≤ k → k + Z.of_nat n ≤ K → K ≤ MAX_PAGE → serves (low K) n a.
Proof.
  induction n as [|n IH]; intros a k Hl Hk Hn Hm; (split; [by apply (low_le k); [lia|]|]); [done|].
  destruct (low_alloc k PAGE_SIZE a Hl Hk) as (p & a' & Ha & Hl'); [layout; lia|layout; lia|change (pages_of PAGE_SIZE) with 1; lia|].
  exists p, a'. split; [exact Ha|]. change (pages_of PAGE_SIZE) with 1 in Hl'. apply (IH a' (k + 1)); [done|lia..].
Qed.

(** [mem::init] and [mem::hartinit] on a fresh allocator *)
Lemma mem_init_maps s root a fr :
  kernel_ld s → length (page_allocated a) = Z.to_nat MAX_PAGE →
  frame_addr root → root < HEAP_START s → fr !! root = Some (FTable Table_new) →
  ∃ m' x, mem_init s root (KMem a fr) = Ok m' ∧ low 1000 (ga m') ∧ (∃ B, pt_inv 2 m' B root) ∧
    (∀ va, canonical va → page_map m' root va = kernel_space s va) ∧
    mem_hartinit root = Ok x ∧ Z.shiftr x 60 = 8 ∧ Z.shiftl (Z.land x (Z.ones 44)) 12 = root.
Proof.
  intros Hld Hlen Hfa Hlt Hroot. unfold mem_init. cbn [ga frames].
  destruct (init_alloc_empty s a Hld Hlen) as (a0 & -> & Hrep & Hbase). rewrite bind_Ok_l.
  destruct (fresh_tree 2 fr root) as (Hw & Hfp & Hlf); [unfold entries; by rewrite Hroot|done|].
  destruct (init_map_mapped (P:=low 1000) s Hld root (KMem a0 fr)) as (m' & Hrun & (B & Hi & Hp) & Hlow).
  { exists ∅. split; [|intros va _; apply Hlf]. split; [exists ∅; split; [done|symmetry; apply kmap_empty]|done|].
    intros x ->%Hfp. left. cbn [ga]. change (heap_base a0) with (base_addr a0). lia. }
  { apply (low_serves 1000 1000 a0 0); [|lia|lia|rewrite MAX_PAGE_eq; lia]. exists ∅. split; [done|]. intros *. by rewrite lookup_empty. }
  destruct Hfa as [Hr Hal]. destruct (satp_word 8 0 root) as (x & Hx & Hm & _ & Hpn); [split; lia|split; lia| |done|].
  { destruct Hld as [[? ?] _ _ _ _ _ [? ?] ?]. unfold is_u, ORIGIN_ram, LENGTH_ram in *. lia. }
  exists m', x. split_and!; [exact Hrun|exact Hlow|by exists B| |exact Hx|exact Hm|exact Hpn].
  intros va Hva. rewrite Hp by done. by apply mapped_space_eq.
Qed.

(** C27: on a fresh allocator mem::init returns, its root table is a well-formed tree, and
    the tree maps exactly the kernel address space of the layout: each region of init
    to itself with the bits of that region (the later call wins where two regions
    share a page), the trampoline at its high address, and nothing else; hartinit
    loads the satp of that table. *)
Theorem kernel_address_space s root a fr :
  kernel_ld s → length (page_allocated a) = Z.to_nat MAX_PAGE →
  frame_addr root → root < HEAP_START s → fr !! root = Some (FTable Table_new) →
  ∃ m' x, mem_init s root (KMem a fr) = Ok m' ∧ (∃ B, pt_inv 2 m' B root) ∧
    (∀ va, canonical va → page_map m' root va = kernel_space s va) ∧
    mem_hartinit root = Ok x ∧ Z.shiftr x 60 = 8 ∧ Z.shiftl (Z.land x (Z.ones 44)) 12 = root.
Proof.
  intros Hld Hlen Hfa Hlt Hroot.
  destruct (mem_init_maps s root a fr Hld Hlen Hfa Hlt Hroot) as (m' & x & ? & _ & ?). by exists m', x.
Qed.

(** ** The link [link0], with [KERNEL_PGTABLE] in its .bss *)
Definition kpt : Z := 0x80070000.

Lemma kernel_address_space_witness :
  ∃ m' x, mem_init link0 kpt (KMem Allocator_new {[kpt := FTable Table_new]}) = Ok m' ∧
    (∃ B, pt_inv 2 m' B kpt) ∧
    (∀ va, canonical va → page_map m' kpt va = kernel_space link0 va) ∧
    mem_hartinit kpt = Ok x ∧ Z.shiftr x 60 = 8 ∧ Z.shiftl (Z.land x (Z.ones 44)) 12 = kpt.
Proof.
  apply (kernel_address_space link0 kpt Allocator_new {[kpt := FTable Table_new]});
    [apply link0_ld|apply length_replicate|split; [unfold kpt; lia|reflexivity]|vm_compute; reflexivity|
     apply lookup_singleton_eq].
Defined.
