(* ===== verification/Spinlock.v ===== *)
(** * The spinning [Mutex], interleaved over the harts

    [spinlock.rs].  A hart runs [Mutex::lock] and [MutexGuard::drop] one memory
    access at a time; [mpc] is the place it has reached.  The accesses of different
    harts interleave freely, each one atomic and in program order ([amoswap.aq] and
    the fences of the source).  The hart's [IntrLock] is its own, so that the
    interrupt bookkeeping of a place runs with its access.

    A caller may call [lock] while it already has the guard; that is the [true] of
    the places of [lock]. *)

From S2P Require Import Prelude Symbols Hart.

Record Mutex := mkMutex { lock : Z; mhart : Z }.
Definition Mutex_new : Mutex := mkMutex 0 (-1).

Inductive mpc :=
  | Idle
  | LHold0 (re : bool)     (* lock: [holding] is to read [self.lock] *)
  | LHold1 (re : bool)     (* lock: [holding] read 1, is to read [self.hart] *)
  | LTas (re : bool)       (* [obtain_lock]: spinning *)
  | LChk (re : bool)       (* lock: is to check [self.lock != 1] *)
  | LOwn (re : bool)       (* lock: is to write [self.hart] *)
  | Held                   (* the guard is alive *)
  | DHold0                 (* drop: [holding] is to read [self.lock] *)
  | DHold1                 (* drop: [holding] read 1, is to read [self.hart] *)
  | DClr                   (* drop: is to write [self.hart = -1] *)
  | DRel                   (* drop: is to release [self.lock] *)
  | DIntr.                 (* drop: the field [intr_lock] is to be dropped *)

#[global] Instance mpc_eq_dec : EqDecision mpc.
Proof. solve_decision. Defined.

Record mcpu := MCpu { mhw : hart; mintr : IntrLock; mat : mpc }.

(** What a hart does next: go on with the code it is in, or call an operation. *)
Inductive mcall := Go | CallLock | CallDrop.

(** [__sync_lock_test_and_set], [__sync_lock_release] *)
Definition sync_lock_test_and_set (m : Mutex) (b : Z) : Z * Mutex := (lock m, mkMutex b (mhart m)).
Definition sync_lock_release (m : Mutex) : Mutex := mkMutex 0 (mhart m).

Definition set_pc (c : mcpu) (p : mpc) : mcpu := MCpu (mhw c) (mintr c) p.
Definition intr_push (c : mcpu) : result mcpu :=
  '(h, l) ← IntrLock_lock (mhw c) (mintr c); Ok (MCpu h l (mat c)).
Definition intr_pop (c : mcpu) : result mcpu :=
  '(h, l) ← IntrLock_drop (mhw c) (mintr c); Ok (MCpu h l (mat c)).

(** Entry of [lock]: [my_cpu().intr_lock.lock()] *)
Definition lock_enter (re : bool) (m : Mutex) (c : mcpu) : result (Mutex * mcpu) :=
  c ← intr_push c; Ok (m, set_pc c (LHold0 re)).

(** [holding]: both accesses, with its own interrupt guard around them *)
Definition holding0 (m : Mutex) (c : mcpu) (yes no : mpc) : result mcpu :=
  c ← intr_push c;
  if lock m =? 1 then Ok (set_pc c yes) else c ← intr_pop c; Ok (set_pc c no).
Definition holding1 (m : Mutex) (c : mcpu) : result (bool * mcpu) :=
  let r := mhart m =? hart_id (mhw c) in
  c ← intr_pop c; Ok (r, c).

Definition mutex_run (m : Mutex) (c : mcpu) (a : mcall) : option (result (Mutex * mcpu)) :=
  match mat c, a with
  | Idle, CallLock => Some (lock_enter false m c)
  | Held, CallLock => Some (lock_enter true m c)
  | Held, CallDrop => Some (Ok (m, set_pc c DHold0))
  | LHold0 re, Go => Some (c ← holding0 m c (LHold1 re) (LTas re); Ok (m, c))
  | LHold1 re, Go => Some (
      '(r, c) ← holding1 m c;
      _ ← panic_if r (Panic "lock {}: hart {} already holding the lock!");
      Ok (m, set_pc c (LTas re)))
  | LTas re, Go => Some (
      let '(old, m) := sync_lock_test_and_set m 1 in
      if negb (old =? 0) then Ok (m, c) else Ok (m, set_pc c (LChk re)))
  | LChk re, Go => Some (
      _ ← panic_if (negb (lock m =? 1)) (Panic "lock {}: not locked!");
      Ok (m, set_pc c (LOwn re)))
  | LOwn re, Go => Some (Ok (mkMutex (lock m) (hart_id (mhw c)), set_pc c Held))
  | DHold0, Go => Some (
      c ← holding0 m c DHold1 DIntr;
      _ ← panic_if (bool_decide (mat c = DIntr)) (Panic "lock {}: unlock from another hart {}!");
      Ok (m, c))
  | DHold1, Go => Some (
      '(r, c) ← holding1 m c;
      _ ← panic_if (negb r) (Panic "lock {}: unlock from another hart {}!");
      Ok (m, set_pc c DClr))
  | DClr, Go => Some (Ok (mkMutex (lock m) (-1), set_pc c DRel))
  | DRel, Go => Some (Ok (sync_lock_release m, set_pc c DIntr))
  | DIntr, Go => Some (c ← intr_pop c; Ok (m, set_pc c Idle))
  | _, _ => None
  end.

(** ** The machine: one mutex, any number of harts

    At the start a hart may be inside sections of other locks ([n] guards). *)
Record msys := MSys { mtx : Mutex; mharts : list mcpu }.

Definition mexec (s : msys) (h : nat) (a : mcall) : option (result msys) :=
  c ← mharts s !! h;
  r ← mutex_run (mtx s) c a;
  Some ('(m, c) ← r; Ok (MSys m (<[h := c]> (mharts s)))).

Definition mstart (h : nat) (c : mcpu) : Prop :=
  mat c = Idle ∧ hart_id (mhw c) = Z.of_nat h ∧
  ∃ n b, Z.of_nat n + 3 < 2 ^ 63 ∧ intr_depth n b (mhw c) (mintr c).
Inductive mreach : msys → Prop :=
  | mreach_init cs : (∀ h c, cs !! h = Some c → mstart h c) → mreach (MSys Mutex_new cs)
  | mreach_step s h a s' : mreach s → mexec s h a = Some (Ok s') → mreach s'.

(** ** The invariant *)
(** Interrupt guards alive at a place *)
Definition nguards (p : mpc) : nat :=
  match p with
  | Idle => 0
  | LHold0 re | LTas re | LChk re | LOwn re => if re then 2 else 1
  | LHold1 re => if re then 3 else 2
  | DHold1 => 2
  | _ => 1
  end.
(** The hart's [amoswap] has taken the lock and it has not been released. *)
Definition owns (p : mpc) : bool :=
  match p with
  | Idle | DIntr => false
  | LHold0 re | LHold1 re | LTas re => re
  | _ => true
  end.
(** [self.hart] is this hart's id. *)
Definition named (p : mpc) : bool :=
  match p with LChk _ | LOwn _ | DRel => false | _ => owns p end.
(** Places that are not reached: the caller that has the guard stops in [holding]. *)
Definition possible (p : mpc) : bool :=
  match p with LTas true | LChk true | LOwn true => false | _ => true end.

Record hart_ok (h : nat) (c : mcpu) : Prop := {
  ho_id : hart_id (mhw c) = Z.of_nat h;
  ho_depth : ∃ n b, Z.of_nat n + 3 < 2 ^ 63 ∧ intr_depth (nguards (mat c) + n) b (mhw c) (mintr c);
  ho_possible : possible (mat c) = true;
}.
Record minv (s : msys) : Prop := {
  mi_hart : ∀ h c, mharts s !! h = Some c → hart_ok h c;
  mi_excl : ∀ h1 h2 c1 c2, mharts s !! h1 = Some c1 → mharts s !! h2 = Some c2 →
            owns (mat c1) = true → owns (mat c2) = true → h1 = h2;
  mi_lock : (lock (mtx s) = 0 ∧ ∀ h c, mharts s !! h = Some c → owns (mat c) = false) ∨
            (lock (mtx s) = 1 ∧ ∃ h c, mharts s !! h = Some c ∧ owns (mat c) = true);
  mi_named : ∀ h c, mharts s !! h = Some c →
             named (mat c) = true ↔ mhart (mtx s) = Z.of_nat h;
}.

(** What a step of hart [h] does to the mutex, and to what the hart has of it *)
Inductive effect (h : nat) : Mutex → mpc → Mutex → mpc → Prop :=
  | ESame m p p' : owns p' = owns p → named p' = named p → effect h m p m p'
  | ETake m p p' : lock m = 0 → owns p = false → owns p' = true → named p = false →
      named p' = false → effect h m p (mkMutex 1 (mhart m)) p'
  | EName m p p' : owns p = true → owns p' = true → named p' = true →
      effect h m p (mkMutex (lock m) (Z.of_nat h)) p'
  | EClear m p p' : owns p = true → owns p' = true → named p = true → named p' = false →
      effect h m p (mkMutex (lock m) (-1)) p'
  | ERelease m p p' : owns p = true → owns p' = false → named p = false → named p' = false →
      effect h m p (mkMutex 0 (mhart m)) p'.

Lemma minv_init cs : (∀ h c, cs !! h = Some c → mstart h c) → minv (MSys Mutex_new cs).
Proof.
  intros Hcs. split; simpl.
  - intros h c (Hp & Hid & n & b & Hn & Hd)%Hcs. split; [done| |by rewrite Hp].
    exists n, b. by rewrite Hp.
  - intros h1 h2 c1 c2 (Hp & _)%Hcs _. by rewrite Hp.
  - left. split; [done|]. intros h c (Hp & _)%Hcs. by rewrite Hp.
  - intros h c (Hp & _)%Hcs. rewrite Hp. simpl. split; [done|lia].
Qed.

(** Another hart is not owner when [h] is. *)
Lemma minv_other s h1 h2 c1 c2 :
  minv s → mharts s !! h1 = Some c1 → mharts s !! h2 = Some c2 → h1 ≠ h2 →
  owns (mat c1) = true → owns (mat c2) = false ∧ named (mat c2) = false.
Proof.
  intros Hinv H1 H2 Hne Ho. assert (owns (mat c2) = false) as Ho2.
  { apply not_true_is_false. intros Ho2. by eapply Hne, mi_excl. }
  split; [done|]. by destruct (mat c2).
Qed.

Lemma minv_owner s h c :
  minv s → mharts s !! h = Some c → owns (mat c) = true → lock (mtx s) = 1.
Proof. intros Hinv Hh Ho. destruct (mi_lock s Hinv) as [[_ Hn]|[? _]]; [|done]. by rewrite (Hn h c) in Ho. Qed.

Lemma effect_named h m p m' p' : effect h m p m' p' → named p' = true → owns p' = true.
Proof. intros _. by destruct p'. Qed.

Lemma effect_excl s h c m' c' j cj :
  minv s → mharts s !! h = Some c → effect h (mtx s) (mat c) m' (mat c') →
  mharts s !! j = Some cj → j ≠ h → owns (mat c') = true → owns (mat cj) = false.
Proof.
  intros Hinv Hh He Hj Hne Ho. apply not_true_is_false. intros Hoj.
  destruct (owns (mat c)) eqn:Hc; [by eapply Hne, mi_excl|].
  inversion He; try congruence. pose proof (minv_owner s j cj Hinv Hj Hoj). congruence.
Qed.

Lemma effect_inv s h c m' c' :
  minv s → mharts s !! h = Some c → hart_ok h c' →
  effect h (mtx s) (mat c) m' (mat c') → minv (MSys m' (<[h := c']> (mharts s))).
Proof.
  intros Hinv Hh Hok He. pose proof (lookup_lt_Some _ _ _ Hh) as Hlt.
  assert (Hlk : ∀ j cj, <[h := c']> (mharts s) !! j = Some cj →
    (j = h ∧ cj = c') ∨ (j ≠ h ∧ mharts s !! j = Some cj)).
  { intros j cj [(-> & <- & _)|[? ?]]%list_lookup_insert_Some; [by left|right; by split]. }
  split; cbn [mtx mharts].
  - intros j cj [[-> ->]|[_ Hj]]%Hlk; [done|by apply (mi_hart s)].
  - intros h1 h2 c1 c2 [[-> ->]|[N1 H1]]%Hlk [[-> ->]|[N2 H2]]%Hlk O1 O2; [done| | |by eapply mi_excl].
    + by rewrite (effect_excl s h c m' c' h2 c2) in O2.
    + by rewrite (effect_excl s h c m' c' h1 c1) in O1.
  - destruct (owns (mat c')) eqn:Ho.
    + right. split; [|exists h, c'; by rewrite list_lookup_insert_eq].
      inversion He; subst; simpl; try congruence; eapply (minv_owner s h c); try done; congruence.
    + assert (Hj0 : (∀ j cj, mharts s !! j = Some cj → j ≠ h → owns (mat cj) = false) →
        ∀ j cj, <[h := c']> (mharts s) !! j = Some cj → owns (mat cj) = false).
      { intros Hrest j cj [[-> ->]|[Hne Hj]]%Hlk; [done|by eapply Hrest]. }
      inversion He; subst; try congruence.
      * destruct (mi_lock s Hinv) as [[Hl Hn]|[Hl (j & cj & Hj & Hoj)]]; [left; eauto|].
        right. split; [done|]. exists j, cj. split; [|done].
        rewrite list_lookup_insert_ne; [done|]. intros ->. congruence.
      * left. split; [done|]. apply Hj0. intros j cj Hj Hne. by eapply (minv_other s h j c cj).
  - pose proof (mi_named s Hinv) as Hnm.
    intros j cj [[-> ->]|[Hne Hj]]%Hlk.
    + pose proof (Hnm h c Hh) as Hh'. inversion He; subst; simpl; rewrite <- ?Hh';
        try (split; intros; congruence). split; [congruence|lia].
    + pose proof (Hnm j cj Hj) as Hj'. inversion He as [| |? ? ? Ho|? ? ? Ho|]; subst; simpl; try done.
      * destruct (minv_other s h j c cj) as [_ ->]; try done. split; [done|lia].
      * destruct (minv_other s h j c cj) as [_ ->]; try done. split; [done|lia].
Qed.

(** ** Every step has an effect, or stops the caller that locks twice *)
Definition relock : fault := Panic "lock {}: hart {} already holding the lock!".

Lemma intr_push_ok c n b :
  Z.of_nat n + 1 < 2 ^ 63 → intr_depth n b (mhw c) (mintr c) →
  ∃ h l, intr_push c = Ok (MCpu h l (mat c)) ∧ intr_depth (S n) b h l ∧ hart_id h = hart_id (mhw c).
Proof.
  intros Hn Hd. destruct (intr_lock_depth n b _ _ Hn Hd) as (h & l & Hr & ? & ?).
  exists h, l. unfold intr_push. by rewrite Hr.
Qed.

Lemma intr_pop_ok c n b :
  Z.of_nat n < 2 ^ 63 → intr_depth (S n) b (mhw c) (mintr c) →
  ∃ h l, intr_pop c = Ok (MCpu h l (mat c)) ∧ intr_depth n b h l ∧ hart_id h = hart_id (mhw c).
Proof.
  intros Hn Hd. destruct (intr_drop_depth n b _ _ Hn Hd) as (h & l & Hr & ? & ?).
  exists h, l. unfold intr_pop. by rewrite Hr.
Qed.

Lemma holding0_ok m c n b yes no :
  Z.of_nat n + 1 < 2 ^ 63 → intr_depth n b (mhw c) (mintr c) →
  ∃ h l, hart_id h = hart_id (mhw c) ∧
    holding0 m c yes no = Ok (MCpu h l (if lock m =? 1 then yes else no)) ∧
    intr_depth (if lock m =? 1 then S n else n) b h l.
Proof.
  intros Hn Hd. unfold holding0. destruct (intr_push_ok c n b) as (h & l & -> & Hd' & Hid); [done..|].
  rewrite bind_Ok_l. destruct (lock m =? 1); [by exists h, l|].
  destruct (intr_pop_ok (MCpu h l (mat c)) n b) as (h' & l' & -> & Hd'' & Hid'); [lia|done|].
  exists h', l'. split_and!; [by rewrite Hid'|done..].
Qed.

Lemma holding1_ok m c n b :
  Z.of_nat n < 2 ^ 63 → intr_depth (S n) b (mhw c) (mintr c) →
  ∃ h l, holding1 m c = Ok (mhart m =? hart_id (mhw c), MCpu h l (mat c)) ∧
    intr_depth n b h l ∧ hart_id h = hart_id (mhw c).
Proof.
  intros Hn Hd. unfold holding1. destruct (intr_pop_ok c n b) as (h & l & -> & ? & ?); [done..|].
  by exists h, l.
Qed.

Lemma hart_ok_intro h hw l p n b :
  hart_id hw = Z.of_nat h → Z.of_nat n + 3 < 2 ^ 63 → intr_depth (nguards p + n) b hw l →
  possible p = true → hart_ok h (MCpu hw l p).
Proof. intros. split; [done|by exists n, b|done]. Qed.

(** The outcome of a place: the new state of the hart, and the effect *)
Ltac effect_by E :=
  right; eexists _, _; split; [reflexivity|]; split;
  [ eapply hart_ok_intro; [cbn [mhw] in *; congruence|eassumption|eassumption|reflexivity]
  | cbn [mat]; eapply E; try reflexivity; try done ].

Definition outcome (s : msys) (h : nat) (c : mcpu) (r : result (Mutex * mcpu)) : Prop :=
  (r = Err relock ∧ mat c = LHold1 true) ∨
  ∃ m' c', r = Ok (m', c') ∧ hart_ok h c' ∧ effect h (mtx s) (mat c) m' (mat c').

Section run.
Context (s : msys) (h : nat) (hw : hart) (l : IntrLock) (n : nat) (b : bool).
Context (Hinv : minv s) (Hid : hart_id hw = Z.of_nat h) (Hn : Z.of_nat n + 3 < 2 ^ 63).

Lemma outcome_enter p (re : bool) :
  p = (if re then Held else Idle) → intr_depth (nguards p + n) b hw l →
  outcome s h (MCpu hw l p) (lock_enter re (mtx s) (MCpu hw l p)).
Proof using Hid Hn.
  intros -> Hd. unfold lock_enter.
  destruct (intr_push_ok (MCpu hw l (if re then Held else Idle))
    (nguards (if re then Held else Idle) + n) b) as (h1 & l1 & -> & Hd1 & Hi1);
    [|exact Hd|]; [destruct re; simpl; lia|]. rewrite bind_Ok_l. destruct re; effect_by ESame.
Qed.

Lemma outcome_holding0 (re : bool) :
  intr_depth (nguards (LHold0 re) + n) b hw l →
  mharts s !! h = Some (MCpu hw l (LHold0 re)) →
  outcome s h (MCpu hw l (LHold0 re))
    (c ← holding0 (mtx s) (MCpu hw l (LHold0 re)) (LHold1 re) (LTas re); Ok (mtx s, c)).
Proof using Hinv Hid Hn.
  intros Hd Hh.
  destruct (holding0_ok (mtx s) (MCpu hw l (LHold0 re)) (nguards (LHold0 re) + n) b (LHold1 re) (LTas re))
    as (h1 & l1 & Hi1 & -> & Hd1); [|exact Hd|]; [destruct re; simpl; lia|]. rewrite bind_Ok_l.
  destruct re.
  - rewrite (minv_owner s h _ Hinv Hh) in * by done. effect_by ESame.
  - destruct (lock (mtx s) =? 1); effect_by ESame.
Qed.

Lemma outcome_holding1 (re : bool) :
  intr_depth (nguards (LHold1 re) + n) b hw l →
  mharts s !! h = Some (MCpu hw l (LHold1 re)) →
  outcome s h (MCpu hw l (LHold1 re))
    ('(r, c) ← holding1 (mtx s) (MCpu hw l (LHold1 re));
     _ ← panic_if r (Panic "lock {}: hart {} already holding the lock!"); Ok (mtx s, set_pc c (LTas re))).
Proof using Hinv Hid Hn.
  intros Hd Hh.
  destruct (holding1_ok (mtx s) (MCpu hw l (LHold1 re)) ((if re then 2 else 1) + n) b)
    as (h1 & l1 & -> & Hd1 & Hi1); [destruct re; simpl; lia|by destruct re|].
  rewrite bind_Ok_l. cbn [mhw]. pose proof (mi_named s Hinv h _ Hh) as Hnm. cbn [mat] in Hnm.
  rewrite Hid. destruct (Z.eqb_spec (mhart (mtx s)) (Z.of_nat h)) as [E|E].
  - apply Hnm in E. simpl in E. subst re. by left.
  - destruct re; [by destruct E; apply Hnm|]. cbn [panic_if]. rewrite bind_Ok_l. effect_by ESame.
Qed.

Lemma outcome_tas :
  intr_depth (nguards (LTas false) + n) b hw l → mharts s !! h = Some (MCpu hw l (LTas false)) →
  outcome s h (MCpu hw l (LTas false))
    (let '(old, m) := sync_lock_test_and_set (mtx s) 1 in
     if negb (old =? 0) then Ok (m, MCpu hw l (LTas false))
     else Ok (m, set_pc (MCpu hw l (LTas false)) (LChk false))).
Proof using Hinv Hid Hn.
  intros Hd Hh. cbn [sync_lock_test_and_set]. destruct (mi_lock s Hinv) as [[E _]|[E _]]; rewrite E.
  - effect_by ETake.
  - assert (mkMutex 1 (mhart (mtx s)) = mtx s) as -> by (destruct (mtx s); simpl in *; by subst).
    right. eexists _, _. split; [reflexivity|]. split; [by eapply hart_ok_intro|by apply ESame].
Qed.

Lemma outcome_dhold0 :
  intr_depth (nguards DHold0 + n) b hw l → mharts s !! h = Some (MCpu hw l DHold0) →
  outcome s h (MCpu hw l DHold0)
    (c ← holding0 (mtx s) (MCpu hw l DHold0) DHold1 DIntr;
     _ ← panic_if (bool_decide (mat c = DIntr)) (Panic "lock {}: unlock from another hart {}!"); Ok (mtx s, c)).
Proof using Hinv Hid Hn.
  intros Hd Hh.
  destruct (holding0_ok (mtx s) (MCpu hw l DHold0) (nguards DHold0 + n) b DHold1 DIntr)
    as (h1 & l1 & Hi1 & -> & Hd1);
    [|exact Hd|]; [simpl; lia|]. rewrite bind_Ok_l.
  rewrite (minv_owner s h _ Hinv Hh) in * by done. effect_by ESame.
Qed.

Lemma outcome_dhold1 :
  intr_depth (nguards DHold1 + n) b hw l → mharts s !! h = Some (MCpu hw l DHold1) →
  outcome s h (MCpu hw l DHold1)
    ('(r, c) ← holding1 (mtx s) (MCpu hw l DHold1);
     _ ← panic_if (negb r) (Panic "lock {}: unlock from another hart {}!"); Ok (mtx s, set_pc c DClr)).
Proof using Hinv Hid Hn.
  intros Hd Hh.
  destruct (holding1_ok (mtx s) (MCpu hw l DHold1) (1 + n) b) as (h1 & l1 & -> & Hd1 & Hi1);
    [simpl; lia|done|].
  rewrite bind_Ok_l. cbn [mhw]. rewrite Hid.
  rewrite (proj1 (mi_named s Hinv h _ Hh) eq_refl), Z.eqb_refl. effect_by ESame.
Qed.
End run.

Lemma mrun_outcome s h c a r :
  minv s → mharts s !! h = Some c → mutex_run (mtx s) c a = Some r → outcome s h c r.
Proof.
  intros Hinv Hh Hr. destruct (mi_hart s Hinv h c Hh) as [Hid (n & b & Hn & Hd) Hp].
  pose proof (minv_owner s h c Hinv Hh) as Hown.
  unfold mutex_run in Hr. destruct c as [hw l p]. cbn [mat mhw mintr] in *.
  destruct p as [|re|re|re|re|re| | | | | |], a; try discriminate Hr; injection Hr as <-.
  - by eapply outcome_enter.
  - by eapply outcome_holding0.
  - by eapply outcome_holding1.
  - destruct re; [done|]. by eapply outcome_tas.
  - destruct re; [done|]. rewrite Hown by done. effect_by ESame.
  - destruct re; [done|]. cbn [mhw]. rewrite Hid. effect_by EName.
  - by eapply outcome_enter.
  - effect_by ESame.
  - by eapply outcome_dhold0.
  - by eapply outcome_dhold1.
  - effect_by EClear.
  - effect_by ERelease.
  - destruct (intr_pop_ok (MCpu hw l DIntr) n b) as (h1 & l1 & -> & Hd1 & Hi1); [lia|done|].
    rewrite bind_Ok_l. effect_by ESame.
Qed.

Lemma mexec_outcome s h a r :
  mexec s h a = Some r ↔ ∃ c q, mharts s !! h = Some c ∧ mutex_run (mtx s) c a = Some q ∧
    r = ('(m, c) ← q; Ok (MSys m (<[h := c]> (mharts s)))).
Proof.
  unfold mexec. split.
  - intros (c & Hc & (q & Hq & [= <-])%bind_Some)%bind_Some. eauto.
  - intros (c & q & Hc & Hq & ->). rewrite Hc. simpl. by rewrite Hq.
Qed.

Lemma mreach_inv s : mreach s → minv s.
Proof.
  induction 1 as [cs Hcs|s h a s' _ Hinv Hx]; [by apply minv_init|].
  apply mexec_outcome in Hx as (c & q & Hc & Hq & Heq).
  destruct (mrun_outcome s h c a q Hinv Hc Hq) as [[-> _]|(m' & c' & -> & Hok & He)]; [done|].
  injection Heq as ->. by eapply effect_inv.
Qed.

(** C3: in every interleaving of the memory accesses of lock and of dropping a guard, a
    hart that has the guard finds the lock word 1 and its own hart id in it, has
    interrupts off, and is the only hart with a guard. *)
Theorem mutex_mutual_exclusion s h c :
  mreach s → mharts s !! h = Some c → mat c = Held →
  lock (mtx s) = 1 ∧ mhart (mtx s) = hart_id (mhw c) ∧ intr_get (mhw c) = false ∧
  ∀ h' c', mharts s !! h' = Some c' → mat c' = Held → h' = h.
Proof.
  intros Hr%mreach_inv Hh Hp. destruct (mi_hart s Hr h c Hh) as [Hid (n & b & _ & [_ Hs _]) _].
  rewrite Hp in Hs. simpl in Hs. split_and!.
  - eapply minv_owner; [done..|]. by rewrite Hp.
  - rewrite Hid. apply (mi_named s Hr h c Hh). by rewrite Hp.
  - by rewrite Hs, andb_false_r.
  - intros h' c' Hh' Hp'. eapply (mi_excl s Hr); [done..|by rewrite Hp'|by rewrite Hp].
Qed.

(** The only panic a reachable state of the mutex can run into is that of a hart
    locking the mutex it already holds. *)
Theorem mutex_faults_only_on_relock s h a e :
  mreach s → mexec s h a = Some (Err e) →
  e = relock ∧ ∃ c, mharts s !! h = Some c ∧ mat c = LHold1 true ∧ a = Go.
Proof.
  intros Hr%mreach_inv (c & q & Hc & Hq & Heq)%mexec_outcome.
  destruct (mrun_outcome s h c a q Hr Hc Hq) as [[-> Hp]|(m' & c' & -> & _)]; [|done].
  injection Heq as ->. split; [done|]. exists c. split_and!; [done..|].
  unfold mutex_run in Hq. rewrite Hp in Hq. by destruct a.
Qed.

(** A hart that calls lock while it has the guard never spins on its own lock: it
    stays on the path that reads its hart id and stops with the panic. *)
Theorem mutex_relock_never_spins s h c :
  mreach s → mharts s !! h = Some c → owns (mat c) = true →
  (∀ re, mat c ≠ LTas re) ∧
  (mat c = LHold1 true → mexec s h Go = Some (Err relock)) ∧
  (mat c = LHold0 true → ∃ s' c', mexec s h Go = Some (Ok s') ∧
     mharts s' !! h = Some c' ∧ mat c' = LHold1 true).
Proof.
  intros Hr%mreach_inv Hh Ho. destruct (mi_hart s Hr h c Hh) as [Hid (n & b & Hn & Hd) Hp].
  pose proof (minv_owner s h c Hr Hh Ho) as Hl. pose proof (lookup_lt_Some _ _ _ Hh) as Hlt.
  destruct c as [hw l p]. cbn [mat mhw mintr] in *. split_and!.
  - intros re ->. simpl in *. by subst re.
  - intros ->. apply mexec_outcome. eexists _, (Err relock). split_and!; [done| |done].
    unfold mutex_run. cbn [mat].
    destruct (holding1_ok (mtx s) (MCpu hw l (LHold1 true)) (2 + n) b) as (h1 & l1 & -> & _ & _);
      [simpl; lia|done|].
    rewrite bind_Ok_l. cbn [mhw]. rewrite (proj1 (mi_named s Hr h _ Hh) eq_refl), Hid, Z.eqb_refl. done.
  - intros ->.
    destruct (holding0_ok (mtx s) (MCpu hw l (LHold0 true)) (2 + n) b (LHold1 true) (LTas true))
      as (h1 & l1 & _ & Hrun & _); [simpl; lia|done|]. rewrite Hl in Hrun.
    exists (MSys (mtx s) (<[h := MCpu h1 l1 (LHold1 true)]> (mharts s))), (MCpu h1 l1 (LHold1 true)).
    split_and!; [|by cbn [mharts]; rewrite list_lookup_insert_eq|done].
    apply mexec_outcome. eexists _, _. split_and!; [done|by unfold mutex_run; cbn [mat]; rewrite Hrun|done].
Qed.

(** ** Two harts: one takes the lock, the other spins, the first asks again *)
Fixpoint mrun (l : list (nat * mcall)) (s : msys) : option msys :=
  match l with
  | [] => Some s
  | (h, a) :: l => match mexec s h a with Some (Ok s) => mrun l s | _ => None end
  end.

Lemma mrun_reach l : ∀ s s', mreach s → mrun l s = Some s' → mreach s'.
Proof.
  induction l as [|[h a] l IH]; intros s s' Hr Hs; simpl in Hs; [by simplify_eq|].
  destruct (mexec s h a) as [[s1|]|] eqn:E; [|done..]. eapply IH; [|exact Hs]. by eapply mreach_step.
Qed.

Definition msys0 : msys :=
  MSys Mutex_new [MCpu (Hart 0 true true true true) IntrLock_new Idle;
                  MCpu (Hart 1 true true true true) IntrLock_new Idle].
Definition mtrace : list (nat * mcall) :=
  [(0, CallLock); (0, Go); (0, Go); (1, CallLock); (1, Go); (1, Go); (1, Go); (0, Go); (0, Go)]%nat.
Definition msys1 : msys := default msys0 (mrun mtrace msys0).
Definition msys2 : msys := default msys0 (mrun (mtrace ++ [(0, CallLock); (0, Go)]%nat) msys0).

Lemma msys0_reach : mreach msys0.
Proof.
  constructor. intros h c Hc. split_and!; [| |exists 0%nat, true].
  1,2: destruct h as [|[|]]; by simplify_eq/=.
  split; [lia|]. destruct h as [|[|]]; simplify_eq/=; split; cbn; done || lia.
Qed.

Lemma msys_reach : mreach msys1 ∧ mreach msys2.
Proof.
  split; [eapply (mrun_reach mtrace msys0)|eapply (mrun_reach (mtrace ++ [(0, CallLock); (0, Go)]%nat) msys0)];
    first [exact msys0_reach|vm_compute; reflexivity].
Qed.

Lemma mutex_mutual_exclusion_witness :
  ∃ c, mharts msys1 !! 0%nat = Some c ∧ mat c = Held ∧ lock (mtx msys1) = 1 ∧
    mhart (mtx msys1) = hart_id (mhw c) ∧ intr_get (mhw c) = false ∧
    ∀ h' c', mharts msys1 !! h' = Some c' → mat c' = Held → h' = 0%nat.
Proof.
  eexists. split; [vm_compute; reflexivity|]. split; [reflexivity|].
  eapply (mutex_mutual_exclusion msys1 0); [apply msys_reach|vm_compute; reflexivity|reflexivity].
Defined.

Lemma mutex_faults_only_on_relock_witness :
  mexec msys2 0 Go = Some (Err relock) ∧
  ∃ c, mharts msys2 !! 0%nat = Some c ∧ mat c = LHold1 true ∧ Go = Go.
Proof.
  split; [vm_compute; reflexivity|].
  apply (mutex_faults_only_on_relock msys2 0 Go relock); [apply msys_reach|vm_compute; reflexivity].
Defined.

Lemma mutex_relock_never_spins_witness :
  ∃ c, mharts msys2 !! 0%nat = Some c ∧ mat c = LHold1 true ∧ mexec msys2 0 Go = Some (Err relock).
Proof.
  eexists. split; [vm_compute; reflexivity|]. split; [reflexivity|].
  eapply (mutex_relock_never_spins msys2 0); [apply msys_reach|vm_compute; reflexivity|reflexivity|reflexivity].
Defined.
