(* ===== verification/Proc.v ===== *)
(** * Processes and the process pool

    [process.rs], [process/process.rs], [process/schedule.rs], [process/trapframe.rs]
    and [process/context.rs]: the data of a process, and every section of code that
    runs under the lock of [PROCS_POOL], as a function on the pool.  Sched.v
    interleaves these sections over the harts. *)

From S2P Require Import Prelude Symbols.

(** ** Data *)
Inductive ProcessState := UNUSED | SLEEPING | RUNNABLE | RUNNING | ZOMBIE.

#[global] Instance ProcessState_eq_dec : EqDecision ProcessState.
Proof. solve_decision. Defined.

(** [Register]: index of a register in [TrapFrame::regs] *)
Module Register.
Definition zero := 0.
Definition ra := 1.
Definition sp := 2.
Definition gp := 3.
Definition tp := 4.
Definition t0 := 5.
Definition t1 := 6.
Definition t2 := 7.
Definition s0 := 8.
Definition s1 := 9.
Definition a0 := 10.
Definition a1 := 11.
Definition a2 := 12.
Definition a3 := 13.
Definition a4 := 14.
Definition a5 := 15.
Definition a6 := 16.
Definition a7 := 17.
End Register.

Record TrapFrame := mkTrapFrame {
  regs : list Z;
  fregs : list Z;
  tf_satp : Z;
  tf_sp : Z;
  tf_hartid : Z;
  tf_trap : Z;
  epc : Z;
}.
Definition TrapFrame_zero : TrapFrame := mkTrapFrame (replicate 32 0) (replicate 32 0) 0 0 0 0 0.

(** A suspended kernel thread: [regs] is what [__swtch] saved (ra, sp, s0..s11);
    [resume] is the code that ra and the stack at sp stand for. *)
Inductive kthread :=
  | Forkret                       (* a new process: [forkret] *)
  | InTrap                        (* in [usertrap]/[kerneltrap], or back in user code *)
  | InFork (f_pid : Z)            (* in [fork], after [find_available_pid] *)
  | InSleep                       (* in [sleep], after [sched] *)
  | InSwtch.                      (* interrupted inside [__swtch] of [scheduler] *)
Record Context := mkContext { cregs : list Z; resume : kthread }.
Definition Context_zero : Context := mkContext (replicate 14 0) Forkret.

(** [Box]es are addresses; [files] holds [Arc]s, identified by the address of the
    shared file; [drop_on_put_back] holds the guard of [PROCS_POOL_SLEEP] or none. *)
Record Process := mkProcess {
  pgtable : Z;
  trapframe_at : Z;
  trapframe : TrapFrame;
  context : Context;
  state : ProcessState;
  kstack : Z;
  kstack_sp : Z;
  pid : Z;
  channel : Z;
  drop_on_put_back : bool;
  files : list (option Z);
}.

Definition set_state (st : ProcessState) (p : Process) : Process :=
  mkProcess (pgtable p) (trapframe_at p) (trapframe p) (context p) st (kstack p) (kstack_sp p)
    (pid p) (channel p) (drop_on_put_back p) (files p).
Definition set_context (c : Context) (p : Process) : Process :=
  mkProcess (pgtable p) (trapframe_at p) (trapframe p) c (state p) (kstack p) (kstack_sp p)
    (pid p) (channel p) (drop_on_put_back p) (files p).
Definition set_channel (ch : Z) (p : Process) : Process :=
  mkProcess (pgtable p) (trapframe_at p) (trapframe p) (context p) (state p) (kstack p) (kstack_sp p)
    (pid p) ch (drop_on_put_back p) (files p).
Definition set_drop (b : bool) (p : Process) : Process :=
  mkProcess (pgtable p) (trapframe_at p) (trapframe p) (context p) (state p) (kstack p) (kstack_sp p)
    (pid p) (channel p) b (files p).
Definition set_trapframe (tf : TrapFrame) (p : Process) : Process :=
  mkProcess (pgtable p) (trapframe_at p) tf (context p) (state p) (kstack p) (kstack_sp p)
    (pid p) (channel p) (drop_on_put_back p) (files p).
Definition set_files (fs : list (option Z)) (p : Process) : Process :=
  mkProcess (pgtable p) (trapframe_at p) (trapframe p) (context p) (state p) (kstack p) (kstack_sp p)
    (pid p) (channel p) (drop_on_put_back p) fs.

Inductive ProcInPool :=
  | NoProc
  | Scheduled
  | Pooling (p : Process)
  | BeingSlept.

(** [PROCS_POOL] *)
Notation Pool := (list ProcInPool).
Definition PROCS_POOL_new : Pool := replicate (Z.to_nat NMAXPROCS) NoProc.

(** ** The sections under the lock of [PROCS_POOL] *)
Implicit Types (pool : Pool) (p : Process).

Definition find_available_pid pool : result (option Z) :=
  c ← ctl_range 0 NMAXPROCS (λ i (_ : unit),
    in_pool ← aget pool i;
    match in_pool with
    | NoProc => Ok (Stop (as_i 32 i))
    | _ => Ok (Next tt)
    end) tt;
  Ok (match c with Stop i => Some i | Next _ => None end).

Definition find_next_runnable_proc (from_pid : Z) pool : result (option Process * Pool) :=
  c ← ctl_range from_pid NMAXPROCS (λ pid (_ : unit),
    in_pool ← aget pool pid;
    match in_pool with
    | Pooling p =>
        if decide (state p = RUNNABLE) then pool ← aset pool pid Scheduled; Ok (Stop (p, pool))
        else Ok (Next tt)
    | _ => Ok (Next tt)
    end) tt;
  Ok (match c with Stop (p, pool) => (Some p, pool) | Next _ => (None, pool) end).

(** The flag tells whether the guard of [PROCS_POOL_SLEEP] was dropped. *)
Definition put_back_proc p pool : result (bool * Pool) :=
  p_in_pool ← aget pool (as_u 64 (pid p));
  let released := drop_on_put_back p in
  let p := set_drop false p in
  match p_in_pool with
  | Pooling _ => Err (Panic "pid {} already occupied")
  | _ => pool ← aset pool (as_u 64 (pid p)) (Pooling p); Ok (released, pool)
  end.

(** [sleep]: the process is marked as being slept. *)
Definition sleep_mark p pool : result Pool :=
  p_in_pool ← aget pool (as_u 64 (pid p));
  match p_in_pool with
  | Scheduled => aset pool (as_u 64 (pid p)) BeingSlept
  | _ => Err (Panic "invalid proc pool state")
  end.

(** [wakeup]: the body of the loop *)
Definition wakeup_body (chan i : Z) pool : result (ctl Pool (Pool * Z)) :=
  in_pool ← aget pool i;
  match in_pool with
  | Pooling p =>
      if decide (state p = SLEEPING ∧ channel p = chan)
      then pool ← aset pool i (Pooling (set_state RUNNABLE p)); Ok (Next pool)
      else Ok (Next pool)
  | BeingSlept => Ok (Stop (pool, i))
  | _ => Ok (Next pool)
  end.

(** [wakeup]: from one acquisition of the lock to its release.  [Some i]: the scan
    stopped at a process that is being slept, and continues there. *)
Definition wakeup_scan (chan i : Z) pool : result (Pool * option Z) :=
  c ← ctl_range i NMAXPROCS (wakeup_body chan) pool;
  Ok (match c with Next pool => (pool, None) | Stop (pool, i) => (pool, Some i) end).

(** ** What the sections do *)
Definition pool_size pool : Prop := length pool = Z.to_nat NMAXPROCS.
Definition runnable (x : ProcInPool) : bool :=
  match x with Pooling p => bool_decide (state p = RUNNABLE) | _ => false end.
Definition runnable_at pool (k : Z) : Prop :=
  ∃ x, pool !! Z.to_nat k = Some x ∧ runnable x = true.

(** A slot after [wakeup] has passed it *)
Definition wake_slot (chan : Z) (x : ProcInPool) : ProcInPool :=
  match x with
  | Pooling p => if decide (state p = SLEEPING ∧ channel p = chan) then Pooling (set_state RUNNABLE p) else x
  | _ => x
  end.

Lemma NMAXPROCS_eq : NMAXPROCS = 256.
Proof. done. Qed.

Lemma pool_get pool k :
  pool_size pool → 0 ≤ k < NMAXPROCS → ∃ x, aget pool k = Ok x ∧ pool !! Z.to_nat k = Some x.
Proof. intros Hp Hk. apply aget_range. unfold pool_size in Hp. rewrite Hp. lia. Qed.

Lemma aset_pool pool k x :
  pool_size pool → 0 ≤ k < NMAXPROCS → aset pool k x = Ok (<[Z.to_nat k := x]> pool).
Proof. intros Hp Hk. apply aset_Ok. unfold pool_size in Hp. rewrite Hp. split; [lia|done]. Qed.

Lemma find_available_pid_spec pool :
  pool_size pool →
  (∃ i, find_available_pid pool = Ok (Some i) ∧ 0 ≤ i < NMAXPROCS ∧
     pool !! Z.to_nat i = Some NoProc ∧
     ∀ j, 0 ≤ j < i → pool !! Z.to_nat j ≠ Some NoProc) ∨
  (find_available_pid pool = Ok None ∧ ∀ j, 0 ≤ j < NMAXPROCS → pool !! Z.to_nat j ≠ Some NoProc).
Proof.
  intros Hsz. unfold find_available_pid.
  set (body := λ (i : Z) (_ : unit), _).
  assert (Hbody : ∀ i x, 0 ≤ i < NMAXPROCS → pool !! Z.to_nat i = Some x →
    body i tt = Ok (match x with NoProc => Stop (as_i 32 i) | _ => Next tt end)).
  { intros i x Hi Hx. unfold body. rewrite (proj2 (aget_Ok pool i x)) by (split; [lia|done]).
    rewrite bind_Ok_l. by destruct x. }
  assert (Hpass : ∀ k, 0 ≤ k ≤ NMAXPROCS → passes body 0 k → ∀ j, 0 ≤ j < k → pool !! Z.to_nat j ≠ Some NoProc).
  { intros k Hk Hp j Hj Hx. specialize (Hp j Hj). by rewrite (Hbody j NoProc) in Hp by (done || lia). }
  destruct (ctl_range_outcome body 0 NMAXPROCS) as [[H Hp]|(k & Hk & Hp & H & Hne)]; [by rewrite NMAXPROCS_eq|..].
  - right. rewrite H, bind_Ok_l. split; [done|]. by apply Hpass.
  - left. exists k. destruct (pool_get pool k Hsz Hk) as (x & _ & Hx).
    rewrite (Hbody k x Hk Hx) in H, Hne. destruct x; try done. rewrite H, bind_Ok_l.
    rewrite as_i_id by (rewrite NMAXPROCS_eq in Hk; lia). split_and!; [done|lia|lia|done|].
    apply Hpass; [lia|done].
Qed.

Lemma find_next_spec from pool :
  pool_size pool → 0 ≤ from ≤ NMAXPROCS →
  (∃ k p, find_next_runnable_proc from pool = Ok (Some p, <[Z.to_nat k := Scheduled]> pool) ∧
     from ≤ k < NMAXPROCS ∧ pool !! Z.to_nat k = Some (Pooling p) ∧ state p = RUNNABLE ∧
     ∀ j, from ≤ j < k → ¬ runnable_at pool j) ∨
  (find_next_runnable_proc from pool = Ok (None, pool) ∧
     ∀ j, from ≤ j < NMAXPROCS → ¬ runnable_at pool j).
Proof.
  intros Hsz Hfrom. unfold find_next_runnable_proc.
  set (body := λ (pid : Z) (_ : unit), _).
  assert (Hbody : ∀ i x, from ≤ i < NMAXPROCS → pool !! Z.to_nat i = Some x →
    body i tt = Ok (match x with
      | Pooling p => if decide (state p = RUNNABLE) then Stop (p, <[Z.to_nat i := Scheduled]> pool) else Next tt
      | _ => Next tt end)).
  { intros i x Hi Hx. unfold body. rewrite (proj2 (aget_Ok pool i x)) by (split; [lia|done]).
    rewrite bind_Ok_l. destruct x; try done. destruct (decide _); [|done].
    by rewrite aset_pool by (done || lia). }
  assert (Hpass : ∀ k, from ≤ k ≤ NMAXPROCS → passes body from k → ∀ j, from ≤ j < k → ¬ runnable_at pool j).
  { intros k Hk Hp j Hj (x & Hx & Hr). specialize (Hp j Hj). rewrite (Hbody j x) in Hp by (done || lia).
    destruct x as [| |p|]; try done. apply bool_decide_eq_true in Hr. by rewrite decide_True in Hp. }
  destruct (ctl_range_outcome body from NMAXPROCS) as [[H Hp]|(k & Hk & Hp & H & Hne)]; [lia|..].
  - right. rewrite H, bind_Ok_l. split; [done|]. apply Hpass; [lia|done].
  - left. destruct (pool_get pool k Hsz) as (x & _ & Hx); [lia|].
    rewrite (Hbody k x Hk Hx) in H, Hne. destruct x as [| |p|]; try done.
    destruct (decide (state p = RUNNABLE)); [|done]. exists k, p. rewrite H, bind_Ok_l.
    split_and!; [done|lia|lia|done|done|]. apply Hpass; [lia|done].
Qed.

Lemma put_back_spec p pool x :
  pool_size pool → 0 ≤ pid p < NMAXPROCS → pool !! Z.to_nat (pid p) = Some x →
  put_back_proc p pool =
    match x with
    | Pooling _ => Err (Panic "pid {} already occupied")
    | _ => Ok (drop_on_put_back p, <[Z.to_nat (pid p) := Pooling (set_drop false p)]> pool)
    end.
Proof.
  intros Hsz Hpid Hx. unfold put_back_proc. cbn [pid set_drop].
  rewrite as_u_id by (unfold is_u; rewrite NMAXPROCS_eq in Hpid; lia).
  rewrite (proj2 (aget_Ok pool (pid p) x)) by (split; [lia|done]). rewrite bind_Ok_l.
  rewrite aset_pool by done. by destruct x.
Qed.

Lemma sleep_mark_spec p pool x :
  pool_size pool → 0 ≤ pid p < NMAXPROCS → pool !! Z.to_nat (pid p) = Some x →
  sleep_mark p pool =
    match x with
    | Scheduled => Ok (<[Z.to_nat (pid p) := BeingSlept]> pool)
    | _ => Err (Panic "invalid proc pool state")
    end.
Proof.
  intros Hsz Hpid Hx. unfold sleep_mark.
  rewrite as_u_id by (unfold is_u; rewrite NMAXPROCS_eq in Hpid; lia).
  rewrite (proj2 (aget_Ok pool (pid p) x)) by (split; [lia|done]). rewrite bind_Ok_l.
  rewrite aset_pool by done. by destruct x.
Qed.

(** [pool'] is [pool] with the slots of [[lo, hi)] woken. *)
Definition woken (chan lo hi : Z) pool pool' : Prop :=
  length pool' = length pool ∧
  ∀ j : nat, pool' !! j = if decide (lo ≤ Z.of_nat j < hi) then wake_slot chan <$> pool !! j else pool !! j.

Lemma woken_refl chan lo pool : woken chan lo lo pool pool.
Proof. split; [done|]. intros j. by rewrite decide_False by lia. Qed.

Lemma woken_step chan lo k pool pool' x :
  0 ≤ lo ≤ k → woken chan lo k pool pool' → pool !! Z.to_nat k = Some x →
  woken chan lo (k + 1) pool (<[Z.to_nat k := wake_slot chan x]> pool').
Proof.
  intros Hk [Hlen Hw] Hx. pose proof (lookup_lt_Some _ _ _ Hx). split; [by rewrite length_insert|].
  intros j. destruct (decide (j = Z.to_nat k)) as [->|Hne].
  - rewrite list_lookup_insert_eq by lia. rewrite decide_True by lia. by rewrite Hx.
  - rewrite list_lookup_insert_ne by done. rewrite Hw.
    destruct (decide (lo ≤ Z.of_nat j < k)), (decide (lo ≤ Z.of_nat j < k + 1)); done || lia.
Qed.

Lemma wakeup_body_at chan k pool x :
  0 ≤ k → pool !! Z.to_nat k = Some x →
  wakeup_body chan k pool =
    Ok (match x with BeingSlept => Stop (pool, k) | _ => Next (<[Z.to_nat k := wake_slot chan x]> pool) end).
Proof.
  intros Hk Hx. pose proof (lookup_lt_Some _ _ _ Hx). unfold wakeup_body.
  rewrite (proj2 (aget_Ok pool k x)) by done. rewrite bind_Ok_l.
  assert (wake_slot chan x = x → <[Z.to_nat k := wake_slot chan x]> pool = pool) as Hid.
  { intros ->. by apply list_insert_id. }
  destruct x as [| |p|]; try (by rewrite Hid); [|done]. unfold wake_slot in *.
  destruct (decide _); [|by rewrite Hid].
  rewrite (proj2 (aset_Ok pool k (Pooling (set_state RUNNABLE p)) (<[Z.to_nat k := Pooling (set_state RUNNABLE p)]> pool)));
    [done|split; [lia|done]].
Qed.

Lemma wakeup_loop chan lo pool n : ∀ k pool',
  0 ≤ lo ≤ k → Z.of_nat (length pool) = k + Z.of_nat n → woken chan lo k pool pool' →
  let r := ctl_loop n k (wakeup_body chan) pool' in
  (∀ j, lo ≤ j < k → pool !! Z.to_nat j ≠ Some BeingSlept) →
  ∃ e pool'', woken chan lo e pool pool'' ∧ k ≤ e ≤ k + Z.of_nat n ∧
    (∀ j, lo ≤ j < e → pool !! Z.to_nat j ≠ Some BeingSlept) ∧
    ((r = Ok (Next pool'') ∧ e = k + Z.of_nat n) ∨
     (r = Ok (Stop (pool'', e)) ∧ pool !! Z.to_nat e = Some BeingSlept)).
Proof.
  induction n as [|n IH]; intros k pool' Hk Hlen Hw r Hns.
  { exists k, pool'. split_and!; [done|lia|lia|done|]. left. split; [done|lia]. }
  destruct (lookup_lt_is_Some_2 pool (Z.to_nat k)) as [x Hx]; [lia|].
  assert (pool' !! Z.to_nat k = Some x) as Hx'.
  { destruct Hw as [_ Hw]. by rewrite Hw, decide_False by lia. }
  assert (Hstep : x ≠ BeingSlept → ∀ pl, woken chan lo (k + 1) pool pl →
    ∃ e pool'', woken chan lo e pool pool'' ∧ k ≤ e ≤ k + Z.of_nat (S n) ∧
    (∀ j, lo ≤ j < e → pool !! Z.to_nat j ≠ Some BeingSlept) ∧
    ((ctl_loop n (k + 1) (wakeup_body chan) pl = Ok (Next pool'') ∧ e = k + Z.of_nat (S n)) ∨
     (ctl_loop n (k + 1) (wakeup_body chan) pl = Ok (Stop (pool'', e)) ∧ pool !! Z.to_nat e = Some BeingSlept))).
  { intros Hxs pl Hpl. destruct (IH (k + 1) pl) as (e & p2 & H1 & H2 & H3 & H4); [lia|lia|done| |].
    - intros j Hj. destruct (decide (j = k)) as [->|]; [congruence|]. apply Hns. lia.
    - exists e, p2. split_and!; [done|lia|lia|done|]. destruct H4 as [[H4 H5]|[H4 H5]]; [left|right].
      + split; [exact H4|lia].
      + split; [exact H4|done]. }
  subst r. cbn [ctl_loop]. rewrite (wakeup_body_at chan k pool' x) by (done || lia). rewrite bind_Ok_l.
  destruct x as [| |p|]; [apply Hstep; [done|by apply woken_step]..|].
  exists k, pool'. split_and!; [done|lia|lia|done|]. by right.
Qed.

(** One scan wakes every sleeper up to the first process that is being slept. *)
Lemma wakeup_scan_spec chan i pool :
  pool_size pool → 0 ≤ i ≤ NMAXPROCS →
  ∃ e pool', woken chan i e pool pool' ∧ i ≤ e ≤ NMAXPROCS ∧
    (∀ j, i ≤ j < e → pool !! Z.to_nat j ≠ Some BeingSlept) ∧
    ((wakeup_scan chan i pool = Ok (pool', None) ∧ e = NMAXPROCS) ∨
     (wakeup_scan chan i pool = Ok (pool', Some e) ∧ pool !! Z.to_nat e = Some BeingSlept)).
Proof.
  intros Hsz Hi. unfold wakeup_scan, ctl_range.
  destruct (wakeup_loop chan i pool (Z.to_nat (NMAXPROCS - i)) i pool) as (e & p' & H1 & H2 & H3 & H4).
  - lia.
  - rewrite Hsz. lia.
  - apply woken_refl.
  - intros j Hj. lia.
  - exists e, p'. split_and!; [done|lia|lia|done|]. destruct H4 as [[-> H5]|[-> H5]]; [left|right].
    + rewrite bind_Ok_l. split; [done|lia].
    + by rewrite bind_Ok_l.
Qed.
