(* ===== verification/Sched.v ===== *)
(** * Scheduling: the sections of Proc.v interleaved over the harts

    A hart is in its scheduler loop or runs the kernel thread of a process; one step
    is one section under a lock, or the code between two of them.  [place] is where
    a hart is.  The lock of [PROCS_POOL] makes each of its sections atomic
    (Spinlock.v); [PROCS_POOL_SLEEP], which is held across sections, is [sleep_lock].

    [__swtch] and [fork] have data this file does not fix: the registers saved by a
    switch and the parts of a new process are arguments of the action.

    Interrupts: [sie] is the SIE bit of the hart.  A trap clears it, [intr_on],
    [intr_off] and the guards of spin locks change it, and a timer interrupt of kernel
    code needs it set.  [sched] runs [__swtch] with interrupts off; [scheduler] runs it
    with interrupts on, so that its switch is two steps, [SwtchSave] for the first store
    and [Swtch] for the rest, and a timer interrupt may come between them.

    Two races of the code break the scheduler.  [fork] does not reserve the pid it
    found ([fork_pid_race] in SchedLive.v), and a timer interrupt inside the [__swtch]
    of [scheduler] makes [kerneltrap] switch to the half-saved scheduler context
    ([swtch_interrupted] below).  [race_free] names the steps that are neither; the
    theorems are about the executions of such steps, and say so.  A trap of kernel code
    is one step, which goes on at the interrupted instruction: Vectors.v shows when it
    does, and Trap.v the nested interrupt after which it does not. *)

From S2P Require Import Prelude Symbols Proc.

(** ** State *)
Inductive place :=
  | InScheduler                  (* [scheduler]: in the loop, after [intr_on] *)
  | Picked (ctx : Context)       (* [scheduler]: a process taken, before [swtch] to [ctx] *)
  | Switching (ctx : Context)    (* [scheduler]: inside [__swtch] to [ctx], [ra] is stored *)
  | InProc (k : kthread)         (* the thread of the process runs *)
  | SleepMarked                  (* [sleep]: marked in the pool, [PROCS_POOL_SLEEP] to be taken *)
  | Switched (to : Context).     (* [sched] switched to [to]: [scheduler] after [swtch] *)

(** [wakeup]: scanning from [i], or waiting for [PROCS_POOL_SLEEP] at [i] *)
Inductive wake := WScan (chan i : Z) | WWait (chan i : Z).

Record scpu := SCpu {
  process : option Process;
  at_ : place;
  lst_pid : Z;
  scheduler_context : Context;
  waking : option wake;
  sie : bool;
}.
Record ssys := SSys { pool : Pool; sleep_lock : option nat; cpus : list scpu }.

Definition CPU_zero : scpu := SCpu None InScheduler 0 Context_zero None true.
Definition set_at (c : scpu) (l : place) : scpu :=
  SCpu (process c) l (lst_pid c) (scheduler_context c) (waking c) (sie c).
Definition set_proc (c : scpu) (p : Process) : scpu :=
  SCpu (Some p) (at_ c) (lst_pid c) (scheduler_context c) (waking c) (sie c).
Definition set_waking (c : scpu) (w : option wake) : scpu :=
  SCpu (process c) (at_ c) (lst_pid c) (scheduler_context c) w (sie c).
(** [intr_on], [intr_off] *)
Definition set_sie (c : scpu) (b : bool) : scpu :=
  SCpu (process c) (at_ c) (lst_pid c) (scheduler_context c) (waking c) b.

(** ** Code of one hart *)
Definition ctx_ra (c : Context) : result Z := aget (cregs c) 0.

(** [my_proc] *)
Definition my_proc (c : scpu) : result Process := unwrap (process c).

(** [sched], up to the switch: [rs] is what [__swtch] saves, [k] the thread that goes on
    when the process is switched to again. *)
Definition sched (rs : list Z) (k : kthread) (c : scpu) : result scpu :=
  p ← my_proc c;
  _ ← panic_if (bool_decide (state p = RUNNING)) (Panic "process running");
  _ ← panic_if (sie c) (Panic "yield interruptable");
  let ctx := scheduler_context c in
  Ok (SCpu (Some (set_context (mkContext rs k) p)) (Switched ctx) (lst_pid c) Context_zero (waking c) (sie c)).

Definition yield_cpu (rs : list Z) (k : kthread) (c : scpu) : result scpu :=
  p ← my_proc c;
  sched rs k (set_proc c (set_state RUNNABLE p)).

(** [usertrap] on a timer interrupt: the trap clears SIE. *)
Definition user_timer (rs : list Z) (c : scpu) : result scpu := yield_cpu rs InTrap (set_sie c false).

(** [kerneltrap] on a timer interrupt: the trap clears SIE, and [sret] sets it again. *)
Definition kernel_timer (rs : list Z) (k : kthread) (c : scpu) : result scpu :=
  r ← ctx_ra (scheduler_context c);
  if negb (r =? 0) then
    match process c with
    | Some p => if decide (state p = RUNNING) then yield_cpu rs k (set_sie c false) else Ok c
    | None => Ok c
    end
  else Ok c.

Definition exit (rs : list Z) (c : scpu) : result scpu :=
  p ← my_proc c;
  _ ← panic_if (pid p =? 0) (Panic "init exiting");
  let c := set_proc c (set_state ZOMBIE p) in
  sched rs InTrap (set_sie c false).

(** [sleep]: up to the pool section, with the guard [lck] of the caller held;
    [PROCS_POOL_SLEEP] taken, [lck] released, [sched]; after [sched], [lck] taken again. *)
Definition sleep_enter (chan : Z) (pl : Pool) (c : scpu) : result (Pool * scpu) :=
  p ← my_proc c;
  let p := set_state SLEEPING (set_channel chan p) in
  pl ← sleep_mark p pl;
  Ok (pl, set_at (set_proc c p) SleepMarked).
Definition sleep_switch (rs : list Z) (c : scpu) : result scpu :=
  p ← my_proc c;
  let c := set_sie c false in
  sched rs InSleep (set_proc c (set_drop true p)).
Definition sleep_return (c : scpu) : result scpu :=
  p ← my_proc c;
  let c := set_sie c false in
  Ok (set_at (set_proc c (set_channel 0 p)) (InProc InTrap)).

(** [scheduler]: the loop from [intr_on] up to [swtch], and after it up to the next
    [intr_on] *)
Definition scheduler_find (pl : Pool) (c : scpu) : result (Pool * scpu) :=
  '(o, pl) ← find_next_runnable_proc (lst_pid c) pl;
  match o with
  | Some p =>
      let ctx := context p in
      let p := set_context Context_zero (set_state RUNNING p) in
      Ok (pl, SCpu (Some p) (Picked ctx) (lst_pid c) (scheduler_context c) (waking c) (sie c))
  | None => Ok (pl, SCpu (process c) (at_ c) 0 (scheduler_context c) (waking c) true)
  end.
Definition scheduler_back (pl : Pool) (c : scpu) : result (bool * Pool * scpu) :=
  p ← unwrap (process c);
  lst ← uadd 64 (as_u 64 (pid p)) 1;
  let lst := if NMAXPROCS <=? lst then 0 else lst in
  '(released, pl) ← put_back_proc p pl;
  Ok (released, pl, SCpu None InScheduler lst (scheduler_context c) (waking c) true).

(** [__swtch] of [scheduler]: the store of [ra]; the other stores, the loads of [ctx]
    and [ret].  [rs] are the registers it stores, [ra] first. *)
Definition swtch_save (ra : Z) (ctx : Context) (c : scpu) : scpu :=
  let sc := scheduler_context c in
  SCpu (process c) (Switching ctx) (lst_pid c) (mkContext (<[0%nat := ra]> (cregs sc)) (resume sc)) (waking c) (sie c).
Definition swtch_load (rs : list Z) (k : kthread) (c : scpu) : scpu :=
  SCpu (process c) (InProc k) (lst_pid c) (mkContext rs InTrap) (waking c) (sie c).

(** [fork]: the search, and the child of [Process::from_exist] put into the pool *)
Definition fork_find (pl : Pool) : result Z :=
  o ← find_available_pid pl;
  match o with Some i => Ok i | None => Err (Panic "pid unavailable") end.
Record fork_parts := ForkParts {
  fk_pgtable : Z; fk_tf_at : Z; fk_tf : TrapFrame; fk_regs : list Z; fk_kstack : Z;
  fk_files : list (option Z) }.
Definition fork_child (f_pid : Z) (x : fork_parts) : Process :=
  mkProcess (fk_pgtable x) (fk_tf_at x) (fk_tf x) (mkContext (fk_regs x) Forkret) RUNNABLE
    (fk_kstack x) (fk_kstack x + PAGE_SIZE * 1024) f_pid 0 false (fk_files x).

(** [forkret] goes straight to user code. *)
Definition entered (k : kthread) : kthread := match k with Forkret => InTrap | _ => k end.

(** ** Steps *)
Inductive action :=
  | Find | SwtchSave (ra : Z) | Swtch (rs : list Z) | PutBack
  | Yield (rs : list Z) | Timer (rs : list Z) | Exit (rs : list Z)
  | Sleep (chan : Z) | SleepLock (rs : list Z) | SleepReturn
  | ForkFind | ForkPut (x : fork_parts)
  | WakeCall (chan : Z) | WakeScan | WakeWait
  | Intr (b : bool).            (* other kernel code of the thread turns interrupts on or off *)

(** A section that ran on hart [h]: the new pool, sleep lock and hart *)
Definition ret (s : ssys) (h : nat) (r : result (Pool * option nat * scpu)) : option (result ssys) :=
  Some ('(pl, lk, c) ← r; Ok (SSys pl lk (<[h := c]> (cpus s)))).
Definition local (s : ssys) (h : nat) (r : result scpu) : option (result ssys) :=
  ret s h (c ← r; Ok (pool s, sleep_lock s, c)).

(** A timer interrupt of kernel code *)
Definition timer (s : ssys) (h : nat) (k : kthread) (rs : list Z) (c : scpu) : option (result ssys) :=
  if sie c then local s h (kernel_timer rs k c) else None.

Definition hart_step (s : ssys) (h : nat) (c : scpu) (a : action) : option (result ssys) :=
  match waking c with
  | Some (WScan chan i) =>
      match a with
      | WakeScan => ret s h ('(pl, o) ← wakeup_scan chan i (pool s);
          Ok (pl, sleep_lock s, set_waking c (match o with Some e => Some (WWait chan e) | None => None end)))
      | _ => None
      end
  | Some (WWait chan i) =>
      match a, sleep_lock s with
      | WakeWait, None => local s h (Ok (set_waking c (Some (WScan chan i))))
      | _, _ => None
      end
  | None =>
      match at_ c, a with
      | InScheduler, Find => ret s h ('(pl, c) ← scheduler_find (pool s) c; Ok (pl, sleep_lock s, c))
      | InScheduler, WakeCall chan | Picked _, WakeCall chan | Switching _, WakeCall chan
      | InProc _, WakeCall chan => local s h (Ok (set_waking c (Some (WScan chan 0))))
      | InScheduler, Timer rs | Picked _, Timer rs => timer s h InTrap rs c
      | Switching _, Timer rs => timer s h InSwtch rs c
      | InProc k, Timer rs => timer s h k rs c
      | Picked ctx, SwtchSave ra =>
          if negb (ra =? 0) then local s h (Ok (swtch_save ra ctx c)) else None
      | Switching ctx, Swtch rs =>
          if decide (rs !! 0%nat = cregs (scheduler_context c) !! 0%nat)
          then local s h (Ok (swtch_load rs (entered (resume ctx)) c)) else None
      | InProc _, Intr b => local s h (Ok (set_sie c b))
      | InProc InTrap, Yield rs => local s h (user_timer rs c)
      | InProc InTrap, Exit rs => local s h (exit rs c)
      | InProc InTrap, Sleep chan =>
          ret s h ('(pl, c) ← sleep_enter chan (pool s) c; Ok (pl, sleep_lock s, c))
      | SleepMarked, SleepLock rs =>
          match sleep_lock s with
          | None => ret s h (c ← sleep_switch rs c; Ok (pool s, Some h, c))
          | Some _ => None
          end
      | InProc InSleep, SleepReturn => local s h (sleep_return c)
      | InProc InTrap, ForkFind => local s h (i ← fork_find (pool s); Ok (set_at c (InProc (InFork i))))
      | InProc (InFork f), ForkPut x =>
          ret s h ('(_, pl) ← put_back_proc (fork_child f x) (pool s);
                   Ok (pl, sleep_lock s, set_at c (InProc InTrap)))
      | Switched _, PutBack =>
          ret s h ('(released, pl, c) ← scheduler_back (pool s) c;
                   Ok (pl, if released : bool then None else sleep_lock s, c))
      | _, _ => None
      end
  end.

Definition sstep (s : ssys) (h : nat) (a : action) : option (result ssys) :=
  c ← cpus s !! h; hart_step s h c a.

(** The start: [init_proc] put its process into the pool; every hart enters
    [scheduler]. *)
Definition sched_init (x : fork_parts) (n : nat) : ssys :=
  SSys (<[0%nat := Pooling (fork_child 0 x)]> PROCS_POOL_new) None (replicate n CPU_zero).

(** The steps that win neither race of the code: a [fork] puts its child into a slot
    that is still free, and no timer interrupt comes inside the [__swtch] of
    [scheduler]. *)
Definition race_free (s : ssys) (h : nat) (a : action) : Prop :=
  match a with
  | ForkPut _ => ∀ c f, cpus s !! h = Some c → at_ c = InProc (InFork f) →
                 pool s !! Z.to_nat f = Some NoProc
  | Timer _ => ∀ c ctx, cpus s !! h = Some c → at_ c ≠ Switching ctx
  | _ => True
  end.

Inductive reach (P : ssys → nat → action → Prop) (s0 : ssys) : ssys → Prop :=
  | reach_refl : reach P s0 s0
  | reach_step s h a s' : reach P s0 s → P s h a → sstep s h a = Some (Ok s') → reach P s0 s'.

(** ** The invariant *)
Definition kthread_ok (k : kthread) : Prop :=
  match k with InFork f => 0 ≤ f < NMAXPROCS | _ => True end.
Definition disarmed (c : scpu) : Prop := ctx_ra (scheduler_context c) = Ok 0.
Definition armed (x : Context) : Prop := ∃ ra, ctx_ra x = Ok ra ∧ ra ≠ 0.
Definition waking_ok (c : scpu) : Prop :=
  match waking c with Some (WScan _ i) | Some (WWait _ i) => 0 ≤ i ≤ NMAXPROCS | None => True end.

(** A process in the pool, at slot [i] *)
Record pooled (i : nat) (p : Process) : Prop := {
  po_pid : pid p = Z.of_nat i;
  po_drop : drop_on_put_back p = false;
  po_state : state p = RUNNABLE ∨ state p = SLEEPING ∨ state p = ZOMBIE;
  po_resume : kthread_ok (resume (context p));
}.

(** A process on a hart, by place *)
Definition proc_ok (c : scpu) (p : Process) : Prop :=
  0 ≤ pid p < NMAXPROCS ∧
  match at_ c with
  | InScheduler => False
  | Picked ctx => state p = RUNNING ∧ drop_on_put_back p = false ∧ kthread_ok (resume ctx) ∧ disarmed c
  | Switching ctx => state p = RUNNING ∧ drop_on_put_back p = false ∧ kthread_ok (resume ctx) ∧
                     armed (scheduler_context c)
  | InProc k => state p = RUNNING ∧ drop_on_put_back p = false ∧ kthread_ok k ∧ armed (scheduler_context c)
  | SleepMarked => state p = SLEEPING ∧ drop_on_put_back p = false ∧ waking c = None ∧
                   armed (scheduler_context c)
  | Switched to => (state p = RUNNABLE ∨ state p = SLEEPING ∨ state p = ZOMBIE) ∧
                   (drop_on_put_back p = true ↔ state p = SLEEPING) ∧
                   kthread_ok (resume (context p)) ∧ waking c = None ∧ disarmed c ∧ armed to
  end.
Record cpu_ok (c : scpu) : Prop := {
  co_lst : 0 ≤ lst_pid c < NMAXPROCS;
  co_wake : waking_ok c;
  co_proc : match process c with Some p => proc_ok c p | None => at_ c = InScheduler ∧ disarmed c end;
}.

(** A hart holds [PROCS_POOL_SLEEP]; what the slot of its process shows *)
Definition holds_sleep (c : scpu) : bool :=
  match at_ c, process c with Switched _, Some p => drop_on_put_back p | _, _ => false end.
Definition slot_of (c : scpu) : ProcInPool :=
  match at_ c with
  | SleepMarked => BeingSlept
  | _ => if holds_sleep c then BeingSlept else Scheduled
  end.
Definition running (c : scpu) : option Z := pid <$> process c.

Record sinv (s : ssys) : Prop := {
  si_size : pool_size (pool s);
  si_pool : ∀ i p, pool s !! i = Some (Pooling p) → pooled i p;
  si_cpu : ∀ h c, cpus s !! h = Some c → cpu_ok c;
  si_slot : ∀ h c i, cpus s !! h = Some c → running c = Some i → pool s !! Z.to_nat i = Some (slot_of c);
  si_excl : ∀ h1 h2 c1 c2 i, cpus s !! h1 = Some c1 → cpus s !! h2 = Some c2 →
            running c1 = Some i → running c2 = Some i → h1 = h2;
  si_held : ∀ i x, pool s !! i = Some x → x = Scheduled ∨ x = BeingSlept →
            ∃ h c, cpus s !! h = Some c ∧ running c = Some (Z.of_nat i);
  si_sleep : ∀ h, sleep_lock s = Some h ↔ ∃ c, cpus s !! h = Some c ∧ holds_sleep c = true;
}.

Lemma sinv_init x n : sinv (sched_init x n).
Proof.
  unfold sched_init. split; cbn [pool sleep_lock cpus].
  - unfold pool_size, PROCS_POOL_new. by rewrite length_insert, length_replicate.
  - intros i p [(<- & [= <-] & _)|[_ H]]%list_lookup_insert_Some.
    + split; cbn; auto.
    + apply lookup_replicate in H as [? _]. done.
  - intros h c [-> _]%lookup_replicate. split; done.
  - intros h c i [-> _]%lookup_replicate. done.
  - intros h1 h2 c1 c2 i [-> _]%lookup_replicate. done.
  - intros i y [(<- & <- & _)|[_ H]]%list_lookup_insert_Some; [naive_solver|].
    apply lookup_replicate in H as [-> _]. naive_solver.
  - intros h. split; [done|]. intros (c & [-> _]%lookup_replicate & ?). done.
Qed.

(** Updating one hart *)
Lemma cpus_upd (cs : list scpu) h c0 c' j cj :
  cs !! h = Some c0 → <[h := c']> cs !! j = Some cj ↔ (j = h ∧ cj = c') ∨ (j ≠ h ∧ cs !! j = Some cj).
Proof.
  intros Hh. pose proof (lookup_lt_Some _ _ _ Hh). rewrite list_lookup_insert_Some. naive_solver.
Qed.

(** The slot of a hart's process does not show the process. *)
Lemma slot_of_cases c : slot_of c = Scheduled ∨ slot_of c = BeingSlept.
Proof. unfold slot_of. destruct (at_ c); [..|by right|]; destruct (holds_sleep c); auto. Qed.

Section steps.
Context (s : ssys) (h : nat) (c c' : scpu).
Context (Hinv : sinv s) (Hh : cpus s !! h = Some c) (Hok : cpu_ok c').

(** The hart goes on with the same process. *)
Lemma inv_local pl :
  running c' = running c → slot_of c' = slot_of c → holds_sleep c' = holds_sleep c →
  pool_size pl → (∀ i p, pl !! i = Some (Pooling p) → pooled i p) →
  (∀ i x, x = Scheduled ∨ x = BeingSlept → pl !! i = Some x ↔ pool s !! i = Some x) →
  sinv (SSys pl (sleep_lock s) (<[h := c']> (cpus s))).
Proof using Hinv Hh Hok.
  intros Hr Hs Hl Hsz Hpl Hsame. destruct Hinv as [_ _ Hcpu Hslot Hex Hheld Hsl].
  split; cbn [pool sleep_lock cpus]; [done|done|..].
  - intros j cj [[-> ->]|[_ Hj]]%(cpus_upd _ _ _ _ _ _ Hh); [done|by eapply Hcpu].
  - intros j cj i [[-> ->]|[_ Hj]]%(cpus_upd _ _ _ _ _ _ Hh) Hi; (apply Hsame; [apply slot_of_cases|]).
    + rewrite Hs. apply (Hslot h); [done|congruence].
    + by eapply Hslot.
  - intros h1 h2 c1 c2 i H1 H2 R1 R2.
    apply (cpus_upd _ _ _ _ _ _ Hh) in H1 as [[-> ->]|[N1 H1]];
    apply (cpus_upd _ _ _ _ _ _ Hh) in H2 as [[-> ->]|[N2 H2]]; rewrite ?Hr in *; try done; by eapply Hex.
  - intros i x Hx Hor. apply Hsame in Hx; [|done]. destruct (Hheld i x Hx Hor) as (j & cj & Hj & Hrj).
    destruct (decide (j = h)) as [->|Hne].
    + exists h, c'. split; [apply (cpus_upd _ _ c); auto|]. congruence.
    + exists j, cj. split; [|done]. apply (cpus_upd _ _ c); auto.
  - intros j. rewrite Hsl. split; intros (cj & Hj & Hhs).
    + destruct (decide (j = h)) as [->|Hne].
      * exists c'. split; [apply (cpus_upd _ _ c); auto|]. congruence.
      * exists cj. split; [|done]. apply (cpus_upd _ _ c); auto.
    + apply (cpus_upd _ _ _ _ _ _ Hh) in Hj as [[-> ->]|[_ Hj]]; [exists c|exists cj]; split; congruence.
Qed.

(** The slot [k] changes to [x]: the only process that enters, leaves or is marked on
    the hart is the one of [k]. *)
Lemma inv_slot k x lk :
  0 ≤ k < NMAXPROCS →
  (∀ p, x = Pooling p → pooled (Z.to_nat k) p) →
  (∀ i, running c' = Some i → i = k ∧ x = slot_of c') →
  (x = Scheduled ∨ x = BeingSlept → running c' = Some k) →
  (∀ i, running c = Some i → i = k) →
  (∀ j cj, j ≠ h → cpus s !! j = Some cj → running cj ≠ Some k) →
  (∀ j, lk = Some j ↔ (j = h ∧ holds_sleep c' = true) ∨ (j ≠ h ∧ sleep_lock s = Some j)) →
  sinv (SSys (<[Z.to_nat k := x]> (pool s)) lk (<[h := c']> (cpus s))).
Proof using Hinv Hh Hok.
  intros Hk Hx Hc' Hheld' Hc Hoth Hlk. destruct Hinv as [Hsz Hpl Hcpu Hslot Hex Hheld Hsl].
  assert (Hrange : ∀ j cj i, cpus s !! j = Some cj → running cj = Some i → 0 ≤ i < NMAXPROCS).
  { intros j cj i Hj%Hcpu Hi. destruct Hj as [_ _ Hp]. unfold running in Hi.
    destruct (process cj) as [p|]; [|done]. injection Hi as <-. by destruct Hp. }
  assert (Hnth : ∀ i, 0 ≤ i < NMAXPROCS → i ≠ k → Z.to_nat k ≠ Z.to_nat i) by lia.
  split; cbn [pool sleep_lock cpus].
  - unfold pool_size. by rewrite length_insert.
  - intros i p [(<- & -> & _)|[_ Hi]]%list_lookup_insert_Some; [by apply Hx|by apply Hpl].
  - intros j cj [[-> ->]|[_ Hj]]%(cpus_upd _ _ _ _ _ _ Hh); [done|by eapply Hcpu].
  - intros j cj i [[-> ->]|[Hne Hj]]%(cpus_upd _ _ _ _ _ _ Hh) Hi.
    + destruct (Hc' i Hi) as [-> ->]. apply list_lookup_insert_eq. rewrite Hsz. lia.
    + rewrite list_lookup_insert_ne; [by eapply Hslot|]. apply Hnth; [by eapply Hrange|].
      intros ->. by eapply Hoth.
  - intros h1 h2 c1 c2 i H1 H2 R1 R2.
    apply (cpus_upd _ _ _ _ _ _ Hh) in H1 as [[-> ->]|[N1 H1]];
    apply (cpus_upd _ _ _ _ _ _ Hh) in H2 as [[-> ->]|[N2 H2]]; [done|..|by eapply Hex].
    + destruct (Hc' i R1) as [-> _]. by destruct (Hoth h2 c2 N2 H2).
    + destruct (Hc' i R2) as [-> _]. by destruct (Hoth h1 c1 N1 H1).
  - intros i y [(<- & <- & _)|[Hne Hi]]%list_lookup_insert_Some Hor.
    + exists h, c'. split; [apply (cpus_upd _ _ c); auto|]. rewrite Z2Nat.id by lia. auto.
    + destruct (Hheld i y Hi Hor) as (j & cj & Hj & Hrj). exists j, cj. split; [|done].
      apply (cpus_upd _ _ c); [done|]. right. split; [|done]. intros ->.
      assert (cj = c) as -> by congruence. apply Hc in Hrj. lia.
  - intros j. rewrite Hlk, Hsl. split.
    + intros [[-> ?]|[Hne (cj & Hj & Hs)]]; [exists c'|exists cj]; (split; [|done]);
        apply (cpus_upd _ _ c); auto.
    + intros (cj & Hj & Hs). apply (cpus_upd _ _ _ _ _ _ Hh) in Hj as [[-> ->]|[Hne Hj]]; [by left|].
      right. eauto.
Qed.
End steps.

(** ** Every step keeps the invariant *)
(** The hart's process, its slot and the sleep lock are as before. *)
Definition same_view (c c' : scpu) : Prop :=
  running c' = running c ∧ slot_of c' = slot_of c ∧ holds_sleep c' = holds_sleep c.

Lemma inv_same s h c c' :
  sinv s → cpus s !! h = Some c → cpu_ok c' → same_view c c' →
  sinv (SSys (pool s) (sleep_lock s) (<[h := c']> (cpus s))).
Proof.
  intros Hinv Hh Hok (Hr & Hs & Hl). eapply inv_local; try done; apply Hinv.
Qed.

Lemma zero_disarmed : ctx_ra Context_zero = Ok 0.
Proof. done. Qed.

(** The interrupt flag is not part of the invariant. *)
Lemma set_sie_ok c b : cpu_ok c → cpu_ok (set_sie c b) ∧ same_view c (set_sie c b).
Proof. intros [Hl Hw Hp]. split; [|done]. by split. Qed.

(** [sched] from a running thread with interrupts off, into state [st] *)
Lemma sched_from_running rs k st p k0 lst sc b :
  cpu_ok (SCpu (Some p) (InProc k0) lst sc None b) → kthread_ok k → st = RUNNABLE ∨ st = ZOMBIE →
  let c := SCpu (Some p) (InProc k0) lst sc None b in
  let c' := SCpu (Some (set_context (mkContext rs k) (set_state st p))) (Switched sc) lst Context_zero None false in
  sched rs k (set_sie (set_proc c (set_state st p)) false) = Ok c' ∧ cpu_ok c' ∧ same_view c c'.
Proof.
  intros [Hl Hw (Hpid & Hst & Hd & Hk & Ha)] Hk' Hst' c c'. cbn [process at_ scheduler_context] in *.
  split; [by destruct Hst' as [-> | ->]|]. split.
  - split; [done..|]. split; [done|]. cbn. split_and!; try done.
    + destruct Hst'; auto.
    + rewrite Hd. destruct Hst' as [-> | ->]; done.
  - unfold same_view, running, slot_of, holds_sleep. cbn. by rewrite Hd.
Qed.

Lemma yield_ok rs k p k0 lst sc b :
  cpu_ok (SCpu (Some p) (InProc k0) lst sc None b) → kthread_ok k →
  ∃ c', yield_cpu rs k (set_sie (SCpu (Some p) (InProc k0) lst sc None b) false) = Ok c' ∧ cpu_ok c' ∧
    same_view (SCpu (Some p) (InProc k0) lst sc None b) c'.
Proof.
  intros Hok Hk. destruct (sched_from_running rs k RUNNABLE p k0 lst sc b Hok Hk) as (H & ? & ?); [by left|].
  eexists. split; [exact H|]. by split.
Qed.

(** The timer does not yield out of the scheduler. *)
Lemma kernel_timer_disarmed rs k c : disarmed c → kernel_timer rs k c = Ok c.
Proof. intros Hd. unfold kernel_timer. by rewrite Hd. Qed.

Lemma kernel_timer_ok rs k c :
  cpu_ok c → waking c = None → (∀ k0, at_ c = InProc k0 → kthread_ok k) →
  match at_ c with InScheduler | Picked _ | InProc _ => True | _ => False end →
  ∃ c', kernel_timer rs k c = Ok c' ∧ cpu_ok c' ∧ same_view c c'.
Proof.
  intros Hok Hw Hk Hat. assert (Hid : disarmed c → ∃ c', kernel_timer rs k c = Ok c' ∧ cpu_ok c' ∧ same_view c c').
  { intros Hd. exists c. rewrite kernel_timer_disarmed by done. done. }
  destruct c as [[p|] a lst sc w b]; cbn [waking at_] in *; subst w.
  - destruct a as [|ctx|ctx|k0| |]; try done.
    + by destruct Hok as [_ _ [_ []]].
    + apply Hid. destruct Hok as [_ _ [_ Hp]]. apply Hp.
    + pose proof Hok as [_ _ (_ & Hst & _ & _ & (ra & Hra & Hne))]. unfold kernel_timer.
      cbn [scheduler_context process at_] in *. rewrite Hra, bind_Ok_l.
      destruct (Z.eqb_spec ra 0); [done|]. cbn [negb]. rewrite decide_True by done.
      eapply yield_ok; eauto.
  - apply Hid. by destruct Hok as [_ _ [_ ?]].
Qed.

Lemma exit_ok rs p k0 lst sc b :
  let c := SCpu (Some p) (InProc k0) lst sc None b in
  cpu_ok c →
  exit rs c = Err (Panic "init exiting") ∨ ∃ c', exit rs c = Ok c' ∧ cpu_ok c' ∧ same_view c c'.
Proof.
  intros c Hok. unfold exit. change (my_proc c) with (Ok p). rewrite bind_Ok_l.
  destruct (pid p =? 0); [by left|]. right. cbn [panic_if]. rewrite bind_Ok_l.
  destruct (sched_from_running rs InTrap ZOMBIE p k0 lst sc b Hok) as (H & ? & ?); [done|by right|].
  eexists. split; [exact H|]. by split.
Qed.

Section pool_steps.
Context (s : ssys) (h : nat) (c : scpu).
Context (Hinv : sinv s) (Hh : cpus s !! h = Some c).

Lemma hart_ok_at : cpu_ok c.
Proof using Hinv Hh. by apply (si_cpu s Hinv h). Qed.

Lemma hart_alone i : running c = Some i → ∀ j cj, j ≠ h → cpus s !! j = Some cj → running cj ≠ Some i.
Proof using Hinv Hh. intros Hi j cj Hne Hj Hij. by eapply Hne, (si_excl s Hinv). Qed.

Lemma lock_same c' : holds_sleep c = false → holds_sleep c' = false →
  ∀ j, sleep_lock s = Some j ↔ (j = h ∧ holds_sleep c' = true) ∨ (j ≠ h ∧ sleep_lock s = Some j).
Proof using Hinv Hh.
  intros Hc Hc' j. rewrite Hc'. split; [|naive_solver]. intros Hj. right. split; [|done].
  intros ->. apply (si_sleep s Hinv) in Hj as (cj & Hj & Hs). congruence.
Qed.

(** [scheduler]: a process moves from its slot to the hart. *)
Lemma find_keeps_inv :
  at_ c = InScheduler →
  ∃ pl c', scheduler_find (pool s) c = Ok (pl, c') ∧
    sinv (SSys pl (sleep_lock s) (<[h := c']> (cpus s))).
Proof using Hinv Hh.
  intros Hat. pose proof hart_ok_at as [Hl Hw Hp]. rewrite Hat in Hp.
  destruct (process c) as [p0|] eqn:Hpc; [by unfold proc_ok in Hp; rewrite Hat in Hp; destruct Hp|].
  destruct Hp as [_ Hd]. unfold scheduler_find.
  destruct (find_next_spec (lst_pid c) (pool s)) as [(k & p & -> & Hk & Hslot & Hst & _)|[-> _]];
    [apply Hinv|lia|rewrite bind_Ok_l..].
  - eexists _, _. split; [reflexivity|]. destruct (si_pool s Hinv _ _ Hslot) as [Hpid Hdrop _ Hres].
    rewrite Z2Nat.id in Hpid by lia.
    apply (inv_slot s h c); [done|done| |lia|done|..].
    + split; [done|done|]. split; [cbn [pid set_context set_state]; lia|]. cbn. by split_and!.
    + intros i [= <-]. cbn. split; [done|]. unfold slot_of, holds_sleep. by cbn.
    + intros _. cbn. by rewrite Hpid.
    + unfold running. by rewrite Hpc.
    + intros j cj Hne Hj Hr. pose proof (si_slot s Hinv j cj k Hj Hr) as Hs.
      destruct (slot_of_cases cj); congruence.
    + apply lock_same; [|done]. unfold holds_sleep. by rewrite Hat.
  - eexists _, _. split; [reflexivity|]. eapply inv_same; [done..| |].
    + split; [cbn; rewrite NMAXPROCS_eq; lia|done|]. cbn. by rewrite Hpc.
    + done.
Qed.
End pool_steps.

(** [sleep]: the slot is marked. *)
Lemma sleep_keeps_inv s h c chan k0 :
  sinv s → cpus s !! h = Some c → at_ c = InProc k0 → waking c = None →
  ∃ pl c', sleep_enter chan (pool s) c = Ok (pl, c') ∧
    sinv (SSys pl (sleep_lock s) (<[h := c']> (cpus s))).
Proof.
  intros Hinv Hh Hat Hwk. pose proof (hart_ok_at s h c Hinv Hh) as [Hl Hw Hp]. destruct c as [[p|] a lst sc w si] eqn:Ec; cbn in *;
    subst; [|by destruct Hp].
  destruct Hp as (Hpid & Hst & Hd & Hk & Ha). cbn in *.
  pose proof (si_slot s Hinv h _ (pid p) Hh eq_refl) as Hslot.
  unfold sleep_enter. cbn [my_proc process unwrap].
  rewrite (sleep_mark_spec _ _ Scheduled) by (done || apply Hinv). rewrite bind_Ok_l.
  eexists _, _. split; [reflexivity|]. eapply inv_slot; [done|exact Hh| |done|done|..].
  - split; [done|done|]. split; [done|]. cbn. by split_and!.
  - by intros i [= <-].
  - done.
  - by intros i [= <-].
  - by eapply hart_alone.
  - by eapply (lock_same s h _ Hinv Hh).
Qed.

(** [sleep]: [PROCS_POOL_SLEEP] is taken. *)
Lemma sleep_lock_keeps_inv s h c rs :
  sinv s → cpus s !! h = Some c → at_ c = SleepMarked → sleep_lock s = None →
  ∃ c', sleep_switch rs c = Ok c' ∧ sinv (SSys (pool s) (Some h) (<[h := c']> (cpus s))).
Proof.
  intros Hinv Hh Hat Hfree. pose proof (hart_ok_at s h c Hinv Hh) as [Hl Hw Hp]. destruct c as [[p|] a lst sc w si] eqn:Ec; cbn in *;
    subst; [|by destruct Hp].
  destruct Hp as (Hpid & Hst & Hd & Hwk & Ha). cbn in *. subst w.
  pose proof (si_slot s Hinv h _ (pid p) Hh eq_refl) as Hslot. unfold slot_of in Hslot. cbn in Hslot.
  unfold sleep_switch, sched. cbn [my_proc process unwrap set_proc set_sie sie].
  cbn [state set_drop]. rewrite Hst. cbn [bool_decide decide ProcessState_eq_dec panic_if].
  eexists. split; [reflexivity|].
  rewrite <- (list_insert_id (pool s) (Z.to_nat (pid p)) BeingSlept Hslot).
  eapply inv_slot; [done|exact Hh| |done|done|..].
  - split; [done|done|]. split; [done|]. cbn. by split_and!; [auto|..].
  - by intros i [= <-].
  - done.
  - by intros i [= <-].
  - by eapply hart_alone.
  - intros j. rewrite Hfree. cbn. naive_solver.
Qed.

(** [scheduler] after the switch: the process is back in its slot. *)
Lemma back_keeps_inv s h c to :
  sinv s → cpus s !! h = Some c → at_ c = Switched to →
  ∃ b pl c', scheduler_back (pool s) c = Ok (b, pl, c') ∧
    sinv (SSys pl (if b : bool then None else sleep_lock s) (<[h := c']> (cpus s))).
Proof.
  intros Hinv Hh Hat. pose proof (hart_ok_at s h c Hinv Hh) as [Hl Hw Hp]. destruct c as [[p|] a lst sc w si] eqn:Ec; cbn in *;
    subst; [|by destruct Hp].
  destruct Hp as (Hpid & Hst & Hd & Hk & Hwk & Hdis & Ha). cbn in *. subst w.
  pose proof (si_slot s Hinv h _ (pid p) Hh eq_refl) as Hslot.
  unfold scheduler_back. cbn [process unwrap].
  rewrite as_u_id by (unfold is_u; rewrite NMAXPROCS_eq in Hpid; lia).
  unfold uadd. rewrite (proj2 (Z.ltb_lt _ _)) by (rewrite NMAXPROCS_eq in Hpid; lia). rewrite bind_Ok_l.
  rewrite (put_back_spec p _ _ (si_size s Hinv) Hpid Hslot).
  set (lst' := if NMAXPROCS <=? pid p + 1 then 0 else pid p + 1).
  assert (0 ≤ lst' < NMAXPROCS).
  { subst lst'. destruct (Z.leb_spec NMAXPROCS (pid p + 1)); [rewrite NMAXPROCS_eq; lia|lia]. }
  exists (drop_on_put_back p), (<[Z.to_nat (pid p) := Pooling (set_drop false p)]> (pool s)),
    (SCpu None InScheduler lst' sc None true).
  split; [by destruct (slot_of_cases (SCpu (Some p) (Switched to) lst sc None si)) as [-> | ->]|].
  eapply inv_slot; [done|exact Hh|done|done|..].
  - intros q [= <-]. split; cbn; [lia|done..].
  - done.
  - naive_solver.
  - by intros i [= <-].
  - by eapply hart_alone.
  - intros j. pose proof (si_sleep s Hinv) as Hsl. destruct (drop_on_put_back p) eqn:Hdp.
    + split; [done|]. intros [[_ ?]|[Hne Hj]]; [done|]. exfalso. apply Hne.
      assert (sleep_lock s = Some h) by (apply Hsl; eexists; split; [exact Hh|by cbn]). congruence.
    + eapply lock_same; [done|exact Hh|by cbn|done].
Qed.

(** [fork]: a free slot gets the child. *)
Lemma fork_keeps_inv s h c f x :
  sinv s → cpus s !! h = Some c → at_ c = InProc (InFork f) → pool s !! Z.to_nat f = Some NoProc →
  ∃ b pl, put_back_proc (fork_child f x) (pool s) = Ok (b, pl) ∧
    sinv (SSys pl (sleep_lock s) (<[h := set_at c (InProc InTrap)]> (cpus s))).
Proof.
  intros Hinv Hh Hat Hfree. pose proof (hart_ok_at s h c Hinv Hh) as [Hl Hw Hp]. destruct c as [[p|] a lst sc w si] eqn:Ec; cbn in *;
    subst; [|by destruct Hp].
  destruct Hp as (Hpid & Hst & Hd & Hk & Ha). cbn in *.
  rewrite (put_back_spec _ _ NoProc) by (done || apply Hinv). cbn [fork_child drop_on_put_back pid].
  eexists _, _. split; [reflexivity|]. eapply inv_local; [done|exact Hh|..].
  - split; [done..|]. split; [done|]. cbn. by split_and!.
  - done.
  - done.
  - done.
  - unfold pool_size. rewrite length_insert. apply Hinv.
  - intros i q [(<- & [= <-] & _)|[_ Hi]]%list_lookup_insert_Some; [|by apply (si_pool s Hinv)].
    split; cbn; [lia|auto..].
  - intros i y Hy. rewrite list_lookup_insert_Some. split.
    + intros [(<- & <- & _)|[_ ?]]; [naive_solver|done].
    + intros Hi. right. split; [|done]. intros <-. rewrite Hfree in Hi. naive_solver.
Qed.

(** [wakeup]: sleeping processes become runnable, nothing else changes. *)
Lemma wake_keeps_inv s h c chan i :
  sinv s → cpus s !! h = Some c → waking c = Some (WScan chan i) →
  ∃ pl o, wakeup_scan chan i (pool s) = Ok (pl, o) ∧
    sinv (SSys pl (sleep_lock s) (<[h := set_waking c
      (match o with Some e => Some (WWait chan e) | None => None end)]> (cpus s))).
Proof.
  intros Hinv Hh Hwk. pose proof (hart_ok_at s h c Hinv Hh) as [Hl Hw Hp]. unfold waking_ok in Hw. rewrite Hwk in Hw.
  destruct (wakeup_scan_spec chan i (pool s)) as (e & pl & [Hlen Hpl] & He & _ & Hr); [apply Hinv|done|].
  assert (∃ o, wakeup_scan chan i (pool s) = Ok (pl, o) ∧ (∀ e', o = Some e' → e' = e)) as (o & -> & Ho).
  { destruct Hr as [[-> _]|[-> _]]; eexists; (split; [done|]); naive_solver. }
  exists pl, o. split; [done|]. eapply inv_local; [done|exact Hh| |done|done|done|..].
  - split; [done|..].
    + unfold waking_ok. cbn. destruct o as [e'|]; [|done]. rewrite (Ho e') by done. lia.
    + cbn. destruct (process c); [|done]. destruct Hp as [? Hp]. split; [done|]. cbn.
      destruct (at_ c); try done; naive_solver congruence.
  - unfold pool_size. rewrite Hlen. apply Hinv.
  - intros j q Hj. rewrite Hpl in Hj. destruct (decide _); [|by apply (si_pool s Hinv)].
    apply fmap_Some in Hj as (y & Hy & Hq). destruct y as [| |p|]; try done. cbn in Hq.
    destruct (si_pool s Hinv j p Hy) as [? ? ? ?].
    destruct (decide _); injection Hq as ->; [|by split]. split; cbn; auto.
  - intros j y Hy. rewrite Hpl. destruct (decide _); [|done].
    destruct (pool s !! j) as [z|]; [|done]. cbn. unfold wake_slot. destruct z as [| |p|]; try done.
    destruct (decide _); naive_solver.
Qed.

Definition expected (e : fault) : Prop := e = Panic "init exiting" ∨ e = Panic "pid unavailable".

Definition sound (r : result ssys) : Prop :=
  match r with Ok s' => sinv s' | Err e => expected e end.

Lemma ret_sound s h r v : ret s h v = Some r →
  match v with Ok (pl, lk, c) => sinv (SSys pl lk (<[h := c]> (cpus s))) | Err e => expected e end → sound r.
Proof. unfold ret. intros [= <-]. by destruct v as [[[pl lk] c]|e]. Qed.

Lemma local_sound s h c r v :
  sinv s → cpus s !! h = Some c → local s h v = Some r →
  match v with Ok c' => cpu_ok c' ∧ same_view c c' | Err e => expected e end → sound r.
Proof.
  intros Hinv Hh Hr Hv. eapply ret_sound; [exact Hr|]. destruct v as [c'|e]; [|done].
  destruct Hv. by eapply inv_same.
Qed.

Lemma same_view_place c l :
  match at_ c, l with InProc _, InProc _ => True | _, _ => False end → same_view c (set_at c l).
Proof. unfold same_view, running, slot_of, holds_sleep. cbn. destruct (at_ c), l; done. Qed.

Lemma waking_upd_ok c w :
  cpu_ok c → match at_ c with InScheduler | Picked _ | Switching _ | InProc _ => True | _ => False end →
  match w with Some (WScan _ i) | Some (WWait _ i) => 0 ≤ i ≤ NMAXPROCS | None => True end →
  cpu_ok (set_waking c w) ∧ same_view c (set_waking c w).
Proof.
  intros [Hl Hw Hp] Hat Hi. split; [|done]. split; [done|done|]. cbn. destruct (process c); [|done].
  destruct Hp as [? Hp]. split; [done|]. cbn. by destruct (at_ c).
Qed.

Lemma in_proc_ok c k k' :
  cpu_ok c → at_ c = InProc k → kthread_ok k' →
  cpu_ok (set_at c (InProc k')) ∧ same_view c (set_at c (InProc k')).
Proof.
  intros [Hl Hw Hp] Hat Hk. split; [|apply same_view_place; by rewrite Hat].
  split; [done..|]. cbn. destruct (process c); [|destruct Hp; congruence].
  unfold proc_ok in *. rewrite Hat in Hp. cbn. naive_solver.
Qed.

Lemma fork_find_ok s :
  sinv s → fork_find (pool s) = Err (Panic "pid unavailable") ∨
    ∃ i, fork_find (pool s) = Ok i ∧ 0 ≤ i < NMAXPROCS.
Proof.
  intros Hinv. unfold fork_find.
  destruct (find_available_pid_spec (pool s)) as [(i & -> & Hi & _)|[-> _]]; [apply Hinv|..].
  - right. exists i. by rewrite bind_Ok_l.
  - by left.
Qed.

Lemma swtch_save_ok c ctx ra :
  cpu_ok c → at_ c = Picked ctx → ra ≠ 0 → cpu_ok (swtch_save ra ctx c) ∧ same_view c (swtch_save ra ctx c).
Proof.
  intros [Hl Hw Hp] Hat Hne. split.
  - split; [done..|]. cbn. destruct (process c) as [p|]; [|destruct Hp; congruence].
    destruct Hp as [? Hp]. rewrite Hat in Hp. destruct Hp as (? & ? & ? & [_ Hd]%aget_Ok).
    split; [done|]. cbn. split_and!; [done..|]. exists ra. split; [|done]. apply aget_Ok. split; [done|].
    apply list_lookup_insert_eq. by eapply lookup_lt_Some.
  - unfold same_view, running, slot_of, holds_sleep. cbn. by rewrite Hat.
Qed.

Lemma swtch_load_ok c ctx rs :
  cpu_ok c → at_ c = Switching ctx → rs !! 0%nat = cregs (scheduler_context c) !! 0%nat →
  cpu_ok (swtch_load rs (entered (resume ctx)) c) ∧ same_view c (swtch_load rs (entered (resume ctx)) c).
Proof.
  intros [Hl Hw Hp] Hat Hrs. split.
  - split; [done..|]. cbn. destruct (process c) as [p|]; [|destruct Hp; congruence].
    destruct Hp as [? Hp]. rewrite Hat in Hp. split; [done|]. cbn. destruct Hp as (? & ? & Hk & (ra & [_ Hra]%aget_Ok & ?)).
    split_and!; [done|done| |].
    + by destruct (resume ctx).
    + exists ra. split; [|done]. apply aget_Ok. split; [done|]. by rewrite <- Hra.
  - unfold same_view, running, slot_of, holds_sleep. cbn. by rewrite Hat.
Qed.

(** A timer interrupt outside of [__swtch] *)
Lemma timer_sound s h c k rs r :
  sinv s → cpus s !! h = Some c → waking c = None → (∀ k0, at_ c = InProc k0 → kthread_ok k) →
  match at_ c with InScheduler | Picked _ | InProc _ => True | _ => False end →
  timer s h k rs c = Some r → sound r.
Proof.
  intros Hinv Hh Hwk Hk Hat Hr. unfold timer in Hr. destruct (sie c); [|done].
  destruct (kernel_timer_ok rs k c) as (c' & Hx & Hc'); [by eapply hart_ok_at|done..|].
  eapply local_sound; [done..|]. by rewrite Hx.
Qed.

Lemma waking_waits_ok s h c chan i :
  sinv s → cpus s !! h = Some c → waking c = Some (WWait chan i) →
  cpu_ok (set_waking c (Some (WScan chan i))) ∧ same_view c (set_waking c (Some (WScan chan i))).
Proof.
  intros Hinv Hh Hwk. pose proof (hart_ok_at s h c Hinv Hh) as Hok.
  pose proof (co_wake c Hok) as Hw. unfold waking_ok in Hw. rewrite Hwk in Hw.
  apply waking_upd_ok; [done| |done]. pose proof (co_proc c Hok) as Hp.
  destruct (process c) as [p|]; [|destruct Hp as [-> _]; done].
  destruct Hp as [_ Hp]. destruct (at_ c); try done; naive_solver congruence.
Qed.

(** A hart in one of its own threads *)
Lemma in_proc_shape c k :
  cpu_ok c → at_ c = InProc k → waking c = None →
  ∃ p, c = SCpu (Some p) (InProc k) (lst_pid c) (scheduler_context c) None (sie c).
Proof.
  intros [_ _ Hp] Hat Hw. destruct c as [[p|] a lst sc w si]; cbn in *; subst; [by exists p|by destruct Hp].
Qed.

Lemma in_proc_sound s h c k a r :
  sinv s → race_free s h a → cpus s !! h = Some c → at_ c = InProc k → waking c = None →
  hart_step s h c a = Some r → sound r.
Proof.
  intros Hinv Hcl Hh Hat Hwk Hr. pose proof (hart_ok_at s h c Hinv Hh) as Hok.
  unfold hart_step in Hr. rewrite Hwk, Hat in Hr.
  destruct (in_proc_shape c k Hok Hat Hwk) as [p Hc].
  assert (Hk : kthread_ok k).
  { destruct Hok as [_ _ Hp]. rewrite Hc in Hp. by destruct Hp as (_ & _ & _ & ? & _). }
  destruct a; try (by destruct k).
  - destruct k; try done. eapply local_sound; [done..|]. unfold user_timer. rewrite Hc in Hok |- *.
    destruct (yield_ok rs InTrap p _ _ _ _ Hok) as (c' & -> & Hc'); [done|exact Hc'].
  - assert (timer s h k rs c = Some r) as Hr' by (by destruct k).
    eapply timer_sound; [done..|by rewrite Hat|exact Hr'].
  - destruct k; try done. eapply local_sound; [done..|]. rewrite Hc in Hok |- *.
    destruct (exit_ok rs p _ _ _ _ Hok) as [->|(c' & -> & Hc')]; [by left|exact Hc'].
  - destruct k; try done. destruct (sleep_keeps_inv s h c chan InTrap) as (pl & c' & Hx & Hs); [done..|].
    eapply ret_sound; [exact Hr|]. by rewrite Hx, bind_Ok_l.
  - destruct k; try done. eapply local_sound; [done..|].
    destruct (in_proc_ok (set_proc (set_sie c false) (set_channel 0 p)) InSleep InTrap) as [H1 H2]; [|done|done|].
    + rewrite Hc in Hok |- *. destruct Hok as [? ? Hp]. by split.
    + rewrite Hc in H1, H2 |- *. by split.
  - destruct k; try done. eapply local_sound; [done..|].
    destruct (fork_find_ok s Hinv) as [->|(i & -> & Hi)]; [by right|]. rewrite bind_Ok_l.
    by eapply in_proc_ok.
  - destruct k as [| |f| |]; try done.
    destruct (fork_keeps_inv s h c f x) as (b & pl & Hx & Hs); [done|done|done|by eapply Hcl|].
    eapply ret_sound; [exact Hr|]. by rewrite Hx, bind_Ok_l.
  - assert (local s h (Ok (set_waking c (Some (WScan chan 0)))) = Some r) as Hr' by (by destruct k).
    eapply local_sound; [done..|]. apply waking_upd_ok; [done|by rewrite Hat|done].
  - assert (local s h (Ok (set_sie c b)) = Some r) as Hr' by (by destruct k).
    eapply local_sound; [done..|]. by apply set_sie_ok.
Qed.

Lemma sstep_sound s h a r : sinv s → race_free s h a → sstep s h a = Some r → sound r.
Proof.
  intros Hinv Hcl (c & Hh & Hr)%bind_Some. pose proof (hart_ok_at s h c Hinv Hh) as Hok.
  unfold hart_step in Hr. destruct (waking c) as [[chan i|chan i]|] eqn:Hwk.
  - destruct a; try done. destruct (wake_keeps_inv s h c chan i) as (pl & o & Hx & Hs); [done..|].
    eapply ret_sound; [exact Hr|]. rewrite Hx, bind_Ok_l. exact Hs.
  - destruct a, (sleep_lock s); try done. eapply local_sound; [done..|]. by eapply waking_waits_ok.
  - destruct (at_ c) as [|ctx|ctx|k| |to] eqn:Hat.
    + destruct a; try done.
      * destruct (find_keeps_inv s h c Hinv Hh Hat) as (pl & c' & Hx & Hs).
        eapply ret_sound; [exact Hr|]. by rewrite Hx, bind_Ok_l.
      * by apply (timer_sound s h c InTrap rs r); rewrite ?Hat.
      * eapply local_sound; [done..|]. apply waking_upd_ok; [done|by rewrite Hat|done].
    + destruct a; try done.
      * destruct (Z.eqb_spec ra 0); [done|]. cbn [negb] in Hr.
        eapply local_sound; [done..|]. by apply swtch_save_ok.
      * by apply (timer_sound s h c InTrap rs r); rewrite ?Hat.
      * eapply local_sound; [done..|]. apply waking_upd_ok; [done|by rewrite Hat|done].
    + destruct a; try done.
      * destruct (decide _); [|done]. eapply local_sound; [done..|]. by apply swtch_load_ok.
      * by destruct (Hcl c ctx Hh).
      * eapply local_sound; [done..|]. apply waking_upd_ok; [done|by rewrite Hat|done].
    + eapply in_proc_sound; [done..|]. unfold hart_step. by rewrite Hwk, Hat.
    + destruct a, (sleep_lock s) eqn:Hsl; try done.
      destruct (sleep_lock_keeps_inv s h c rs) as (c' & Hx & Hs); [done..|].
      eapply ret_sound; [exact Hr|]. by rewrite Hx, bind_Ok_l.
    + destruct a; try done. destruct (back_keeps_inv s h c to) as (b & pl & c' & Hx & Hs); [done..|].
      eapply ret_sound; [exact Hr|]. by rewrite Hx, bind_Ok_l.
Qed.

Lemma reach_inv x n s : reach race_free (sched_init x n) s → sinv s.
Proof.
  induction 1 as [|s h a s' _ Hinv Hcl Hs]; [apply sinv_init|]. by apply (sstep_sound s h a (Ok s')).
Qed.

(** ** What a step does to the pool *)
Inductive pool_effect (pl : Pool) (c : scpu) : action → Pool → Prop :=
  | PSame a : pool_effect pl c a pl
  | PTake k p : pl !! k = Some (Pooling p) → state p = RUNNABLE →
      pool_effect pl c Find (<[k := Scheduled]> pl)
  | PMark k chan : pl !! k = Some Scheduled → pool_effect pl c (Sleep chan) (<[k := BeingSlept]> pl)
  | PBack k p to x : process c = Some p → at_ c = Switched to → k = Z.to_nat (pid p) →
      pl !! k = Some x → (∀ q, x ≠ Pooling q) →
      pool_effect pl c PutBack (<[k := Pooling (set_drop false p)]> pl)
  | PFork k x p : pl !! k = Some NoProc → pool_effect pl c (ForkPut x) (<[k := Pooling p]> pl)
  | PWake chan lo e pl' : waking c = Some (WScan chan lo) → 0 ≤ lo →
      woken chan lo e pl pl' → (∀ j, lo ≤ j < e → pl !! Z.to_nat j ≠ Some BeingSlept) →
      pool_effect pl c WakeScan pl'.

(** The life of a process in its slot *)
Lemma pooled_effect pl c a pl' i p :
  pool_effect pl c a pl' → pl !! i = Some (Pooling p) →
  pl' !! i = Some (Pooling p) ∨
  (state p = RUNNABLE ∧ a = Find ∧ pl' !! i = Some Scheduled) ∨
  (state p = SLEEPING ∧ a = WakeScan ∧ pl' !! i = Some (Pooling (set_state RUNNABLE p))).
Proof.
  intros He Hi. pose proof (lookup_lt_Some _ _ _ Hi) as Hlt.
  inversion He as [|k q Hk Hq|k ch Hk|k q to y Hq Hat Hk Hy Hny|k y q Hk|ch lo e pl2 Hw Hlo [_ Hpl] Hns]; subst.
  - by left.
  - destruct (decide (k = i)) as [->|]; [|left; by rewrite list_lookup_insert_ne].
    right. left. rewrite list_lookup_insert_eq by done. split_and!; congruence.
  - left. rewrite list_lookup_insert_ne; [done|]. intros ->. congruence.
  - left. rewrite list_lookup_insert_ne; [done|]. intros E. rewrite E, Hi in Hy. injection Hy as <-. by eapply Hny.
  - left. rewrite list_lookup_insert_ne; [done|]. intros ->. congruence.
  - rewrite Hpl, Hi. destruct (decide (lo ≤ _ < _)); [|by left]. cbn. destruct (decide _) as [[Hst _]|]; [|by left].
    right. right. done.
Qed.

Lemma ret_inv s h v s' : ret s h v = Some (Ok s') →
  ∃ pl lk c', v = Ok (pl, lk, c') ∧ s' = SSys pl lk (<[h := c']> (cpus s)).
Proof. unfold ret. destruct v as [[[pl lk] c']|e]; [|done]. intros [= <-]. eauto. Qed.

Lemma local_inv s h v s' : local s h v = Some (Ok s') →
  ∃ c', v = Ok c' ∧ s' = SSys (pool s) (sleep_lock s) (<[h := c']> (cpus s)).
Proof.
  intros (pl & lk & c' & H & ->)%ret_inv. destruct v as [c0|]; [|done]. injection H as <- <- <-. eauto.
Qed.

Lemma step_pool s h a s' :
  sinv s → race_free s h a → sstep s h a = Some (Ok s') →
  ∃ c c', cpus s !! h = Some c ∧ cpus s' = <[h := c']> (cpus s) ∧ pool_effect (pool s) c a (pool s').
Proof.
  intros Hinv Hcl (c & Hh & Hr)%bind_Some. pose proof (hart_ok_at s h c Hinv Hh) as Hok. exists c.
  assert (Hloc : ∀ v, local s h v = Some (Ok s') →
    ∃ c', cpus s !! h = Some c ∧ cpus s' = <[h := c']> (cpus s) ∧ pool_effect (pool s) c a (pool s')).
  { intros v (c' & _ & ->)%local_inv. exists c'. split_and!; [done..|apply PSame]. }
  assert (Hret : ∀ v, ret s h v = Some (Ok s') →
    (∀ pl lk c', v = Ok (pl, lk, c') → pool_effect (pool s) c a pl) →
    ∃ c', cpus s !! h = Some c ∧ cpus s' = <[h := c']> (cpus s) ∧ pool_effect (pool s) c a (pool s')).
  { intros v (pl & lk & c' & -> & ->)%ret_inv Hv. exists c'. split_and!; [done..|]. by eapply Hv. }
  assert (Hslot : ∀ p, process c = Some p → 0 ≤ pid p < NMAXPROCS ∧ ∃ x, pool s !! Z.to_nat (pid p) = Some x ∧
    (∀ q, x ≠ Pooling q)).
  { intros p Hp. destruct Hok as [_ _ Hok]. rewrite Hp in Hok. split; [apply Hok|]. eexists.
    split; [eapply (si_slot s Hinv h); [done|unfold running; by rewrite Hp]|].
    intros q. destruct (slot_of_cases c) as [-> | ->]; done. }
  unfold hart_step in Hr. destruct (waking c) as [[chan i|chan i]|] eqn:Hwk.
  - destruct a; try done. apply (Hret _ Hr). intros pl lk c' Hv.
    pose proof (co_wake c Hok) as Hw. unfold waking_ok in Hw. rewrite Hwk in Hw.
    destruct (wakeup_scan_spec chan i (pool s)) as (e & pl' & Hpl & He & Hns & Hx); [apply Hinv|done|].
    assert (pl = pl') as -> by (destruct Hx as [[Hx _]|[Hx _]]; rewrite Hx in Hv; cbn in Hv; congruence).
    eapply PWake; [done|lia|done..].
  - destruct a, (sleep_lock s); try done. by eapply Hloc.
  - assert (Htimer : ∀ k rs, timer s h k rs c = Some (Ok s') →
      ∃ c', cpus s !! h = Some c ∧ cpus s' = <[h := c']> (cpus s) ∧ pool_effect (pool s) c a (pool s')).
    { intros k rs Ht. unfold timer in Ht. destruct (sie c); [by eapply Hloc|done]. }
    destruct (at_ c) as [|ctx|ctx|k| |to] eqn:Hat; destruct a; try done; try (by eapply Hloc);
      try (by eapply Htimer); try (destruct k; try done; first [by eapply Hloc|by eapply Htimer]).
    + apply (Hret _ Hr). intros pl lk c' Hv. unfold scheduler_find in Hv.
      pose proof (co_lst c Hok).
      destruct (find_next_spec (lst_pid c) (pool s)) as [(k & p & Hx & Hk & Hsl & Hst & _)|[Hx _]];
        [apply Hinv|lia|..]; rewrite Hx in Hv; injection Hv as <- <- <-; [by eapply PTake|apply PSame].
    + destruct (negb _); [|done]. by apply (Hloc _ Hr).
    + destruct (decide _); [|done]. by apply (Hloc _ Hr).
    + destruct k; try done. apply (Hret _ Hr). intros pl lk c' Hv. unfold sleep_enter in Hv.
      destruct (in_proc_shape c InTrap Hok Hat Hwk) as [p Hc].
      destruct (Hslot p) as (Hpid & x & Hx & _); [by rewrite Hc|].
      rewrite Hc in Hv. cbn in Hv. rewrite (sleep_mark_spec _ _ x) in Hv by (done || apply Hinv).
      destruct x; try done. injection Hv as <- <- <-. by apply PMark.
    + destruct k as [| |f| |]; try done. apply (Hret _ Hr). intros pl lk c' Hv.
      assert (0 ≤ f < NMAXPROCS) as Hf.
      { destruct (in_proc_shape c (InFork f) Hok Hat Hwk) as [p Hc]. destruct Hok as [_ _ Hp].
        rewrite Hc in Hp. by destruct Hp as (_ & _ & _ & ? & _). }
      rewrite (put_back_spec _ _ NoProc) in Hv; [|apply Hinv|done|by eapply Hcl].
      injection Hv as <- <- <-. apply PFork. by eapply Hcl.
    + destruct (sleep_lock s); [done|]. apply (Hret _ Hr). intros pl lk c' Hv.
      apply bind_Ok in Hv as (? & _ & [= <- <- <-]). apply PSame.
    + apply (Hret _ Hr). intros pl lk c' Hv. unfold scheduler_back in Hv. inv_bind.
      destruct (Hslot _ ltac:(eassumption)) as (Hpid & x & Hx & Hnp).
      match goal with H : put_back_proc ?p _ = Ok _ |- _ =>
        rewrite (put_back_spec p _ x) in H by (done || apply Hinv) end.
      destruct x; try (by exfalso; eapply Hnp); simplify_eq; by eapply PBack.
Qed.

(** C1: in every state the harts reach by race-free steps (every fork finds its slot still
    free when it puts its child there, and no timer interrupt comes inside the __swtch
    of scheduler; the two races themselves are shown to break the kernel by
    fork_pid_race and swtch_interrupted), a process is in exactly one place: a process
    stored in the pool has the pid of its slot, is not RUNNING and is on no hart; no
    two harts run the same pid; a slot is Scheduled or BeingSlept exactly when some
    hart has its process. *)
Theorem process_in_one_place x n s :
  reach race_free (sched_init x n) s →
  (∀ i p, pool s !! i = Some (Pooling p) →
     pid p = Z.of_nat i ∧ state p ≠ RUNNING ∧
     ∀ h c, cpus s !! h = Some c → running c ≠ Some (Z.of_nat i)) ∧
  (∀ h1 h2 c1 c2 i, cpus s !! h1 = Some c1 → cpus s !! h2 = Some c2 →
     running c1 = Some i → running c2 = Some i → h1 = h2) ∧
  (∀ i, pool s !! i = Some Scheduled ∨ pool s !! i = Some BeingSlept ↔
     ∃ h c, cpus s !! h = Some c ∧ running c = Some (Z.of_nat i)).
Proof.
  intros Hinv%reach_inv. split_and!.
  - intros i p Hi. destruct (si_pool s Hinv i p Hi) as [Hpid _ Hst _]. split_and!; [done|naive_solver congruence|].
    intros h c Hh Hr. pose proof (si_slot s Hinv h c _ Hh Hr) as Hs. rewrite Nat2Z.id in Hs.
    destruct (slot_of_cases c); congruence.
  - apply (si_excl s Hinv).
  - intros i. split.
    + intros [Hi|Hi]; (eapply (si_held s Hinv); [exact Hi|auto]).
    + intros (h & c & Hh & Hr). pose proof (si_slot s Hinv h c _ Hh Hr) as Hs. rewrite Nat2Z.id in Hs.
      destruct (slot_of_cases c) as [E|E]; rewrite E in Hs; auto.
Qed.


(** A zombie in the pool is never taken, woken or changed by any step. *)
Theorem zombie_never_runs x n s h a s' i p :
  reach race_free (sched_init x n) s → race_free s h a → sstep s h a = Some (Ok s') →
  pool s !! i = Some (Pooling p) → state p = ZOMBIE → pool s' !! i = Some (Pooling p).
Proof.
  intros Hinv%reach_inv Hcl Hs Hi Hz.
  destruct (step_pool s h a s' Hinv Hcl Hs) as (c & c' & Hh & _ & He).
  destruct (pooled_effect _ _ _ _ _ _ He Hi) as [?|[[? _]|[? _]]]; [done|congruence..].
Qed.

Lemma back_released pl c b pl' c' :
  scheduler_back pl c = Ok (b, pl', c') →
  b = match process c with Some p => drop_on_put_back p | None => false end.
Proof.
  unfold scheduler_back. intros Hx. inv_bind. simplify_eq.
  match goal with H : put_back_proc _ _ = Ok _ |- _ => unfold put_back_proc in H; inv_bind end.
  match goal with H : process c = _ |- _ => rewrite H end.
  match goal with H : match ?y with _ => _ end = Ok _ |- _ => destruct y; inv_bind; by simplify_eq end.
Qed.

(** Whoever holds PROCS_POOL_SLEEP across sections can always take the step that
    releases it, so a wakeup waiting for it is never blocked for good. *)
Theorem sleep_lock_holder_progress x n s h :
  reach race_free (sched_init x n) s → sleep_lock s = Some h →
  ∃ s', sstep s h PutBack = Some (Ok s') ∧ sleep_lock s' = None.
Proof.
  intros Hinv%reach_inv Hl. destruct (proj1 (si_sleep s Hinv h) Hl) as (c & Hh & Hs).
  pose proof (hart_ok_at s h c Hinv Hh) as Hok.
  destruct (at_ c) as [| | | | |to] eqn:Hat; unfold holds_sleep in Hs; rewrite Hat in Hs; try done.
  destruct (back_keeps_inv s h c to) as (b & pl & c' & Hx & Hinv'); [done..|].
  assert (waking c = None) as Hwk.
  { destruct Hok as [_ _ Hp]. destruct (process c); [|done]. destruct Hp as [_ Hp]. rewrite Hat in Hp. naive_solver. }
  eexists. unfold sstep. rewrite Hh. cbn. unfold hart_step, ret. rewrite Hwk, Hat, Hx. split; [done|]. cbn.
  by rewrite (back_released _ _ _ _ _ Hx), Hs.
Qed.

(** ** Executions of two harts *)
Definition race_freeb (s : ssys) (h : nat) (a : action) : bool :=
  match a, cpus s !! h with
  | ForkPut _, Some c =>
      match at_ c with
      | InProc (InFork f) => match pool s !! Z.to_nat f with Some NoProc => true | _ => false end
      | _ => true
      end
  | Timer _, Some c => match at_ c with Switching _ => false | _ => true end
  | _, _ => true
  end.

Lemma race_freeb_spec s h a : race_freeb s h a = true → race_free s h a.
Proof.
  unfold race_freeb, race_free. destruct a; try done; intros Hc c f Hh.
  - rewrite Hh in Hc. by destruct (at_ c).
  - intros Hat. rewrite Hh, Hat in Hc. by destruct (pool s !! Z.to_nat f) as [[]|].
Qed.

Fixpoint run_free (s : ssys) (l : list (nat * action)) : option ssys :=
  match l with
  | [] => Some s
  | (h, a) :: l =>
      if race_freeb s h a then match sstep s h a with Some (Ok s') => run_free s' l | _ => None end else None
  end.

Lemma run_free_reach l s0 : ∀ s t, reach race_free s0 s → run_free s l = Some t → reach race_free s0 t.
Proof.
  induction l as [|[h a] l IH]; intros s t Hr Ht; cbn in Ht; [by injection Ht as <-|].
  destruct (race_freeb s h a) eqn:Hc; [|done]. destruct (sstep s h a) as [[s'|]|] eqn:E; try done.
  apply (IH s'); [|done]. eapply reach_step; [done|by apply race_freeb_spec|done].
Qed.

(** The same without the restriction on [fork] *)
Fixpoint run_acts (s : ssys) (l : list (nat * action)) : option ssys :=
  match l with
  | [] => Some s
  | (h, a) :: l => match sstep s h a with Some (Ok s') => run_acts s' l | _ => None end
  end.
Definition any (s : ssys) (h : nat) (a : action) : Prop := True.

Lemma run_acts_reach l s0 t : run_acts s0 l = Some t → reach any s0 t.
Proof.
  assert (∀ s, reach any s0 s → run_acts s l = Some t → reach any s0 t) as H; [|apply H; constructor].
  induction l as [|[h a] l IH]; intros s Hr Ht; cbn in Ht; [by injection Ht as <-|].
  destruct (sstep s h a) as [[s'|]|] eqn:E; try done. apply (IH s'); [|done]. by eapply reach_step.
Qed.

Definition fp0 : fork_parts := ForkParts 0 0 TrapFrame_zero (replicate 14 0) 0 (replicate 256 None).
Definition sys0 : ssys := sched_init fp0 2.

(** Process 0 runs; it forks process 1; hart 1 runs process 1, which exits. *)
Definition acts_run : list (nat * action) := [(0, Find); (0, SwtchSave 1); (0, Swtch [1]%Z)]%nat.
Definition acts_fork : list (nat * action) := acts_run ++ [(0, ForkFind); (0, ForkPut fp0)]%nat.
Definition acts_exit : list (nat * action) :=
  acts_fork ++ [(1, Find); (1, SwtchSave 1); (1, Swtch [1]%Z); (1, Exit [1]%Z); (1, PutBack)]%nat.
Definition acts_sleep : list (nat * action) := acts_run ++ [(0, Sleep 7); (0, SleepLock [1]%Z)]%nat.
Definition sys_run : ssys := default sys0 (run_free sys0 acts_run).
Definition sys_fork : ssys := default sys0 (run_free sys0 acts_fork).
Definition sys_exit : ssys := default sys0 (run_free sys0 acts_exit).
Definition sys_sleep : ssys := default sys0 (run_free sys0 acts_sleep).

Lemma sys_reach :
  reach race_free sys0 sys_run ∧ reach race_free sys0 sys_fork ∧ reach race_free sys0 sys_exit ∧
  reach race_free sys0 sys_sleep.
Proof.
  split_and!; [apply (run_free_reach acts_run sys0 sys0)|apply (run_free_reach acts_fork sys0 sys0)|
    apply (run_free_reach acts_exit sys0 sys0)|apply (run_free_reach acts_sleep sys0 sys0)];
    first [apply reach_refl|vm_compute; reflexivity].
Qed.

(** A timer interrupt inside the [__swtch] of [scheduler], after the store of [ra]: the
    handler sees a scheduler context with a return address and a running process, yields,
    and [sched] switches to the scheduler with the stack pointer 0 that was there before. *)
Theorem swtch_interrupted :
  ∃ s c to, reach any sys0 s ∧ cpus s !! 0%nat = Some c ∧ at_ c = Switched to ∧
    cregs to !! 0%nat = Some 1 ∧ cregs to !! 1%nat = Some 0.
Proof.
  destruct (run_acts sys0 [(0, Find); (0, SwtchSave 1); (0, Timer [1]%Z)]%nat) as [s|] eqn:E; [|by vm_compute in E].
  exists s. pose proof (run_acts_reach _ sys0 _ E) as Hr. vm_compute in E. injection E as <-.
  eexists _, _. split; [exact Hr|]. by vm_compute.
Qed.

Lemma process_in_one_place_witness :
  (∃ p, pool sys_fork !! 1%nat = Some (Pooling p) ∧ pid p = 1 ∧ state p ≠ RUNNING ∧
     ∀ h c, cpus sys_fork !! h = Some c → running c ≠ Some 1) ∧
  ∃ h c, cpus sys_fork !! h = Some c ∧ running c = Some 0.
Proof.
  destruct (process_in_one_place fp0 2 sys_fork) as (H1 & _ & H3); [apply sys_reach|]. split.
  - eexists. split; [vm_compute; reflexivity|]. apply (H1 1%nat). vm_compute. reflexivity.
  - apply (H3 0%nat). left. vm_compute. reflexivity.
Defined.


Lemma zombie_never_runs_witness :
  ∃ p s', pool sys_exit !! 1%nat = Some (Pooling p) ∧ state p = ZOMBIE ∧
    sstep sys_exit 1 Find = Some (Ok s') ∧ pool s' !! 1%nat = Some (Pooling p).
Proof.
  destruct (sstep sys_exit 1 Find) as [[s'|]|] eqn:E; [|by vm_compute in E..].
  eexists _, s'. split; [vm_compute; reflexivity|]. split; [reflexivity|]. split; [reflexivity|].
  apply (zombie_never_runs fp0 2 sys_exit 1 Find s' 1);
    [apply sys_reach|exact I|exact E|vm_compute; reflexivity|reflexivity].
Defined.

Lemma sleep_lock_holder_progress_witness :
  sleep_lock sys_sleep = Some 0%nat ∧
  ∃ s', sstep sys_sleep 0 PutBack = Some (Ok s') ∧ sleep_lock s' = None.
Proof.
  split; [vm_compute; reflexivity|].
  apply (sleep_lock_holder_progress fp0 2 sys_sleep 0); [apply sys_reach|vm_compute; reflexivity].
Defined.
