(* ===== verification/SchedLive.v ===== *)
(** * Scheduling: what happens along executions

    No wakeup is lost, a runnable process waits a bounded number of rounds, and the
    executions in which two forks choose the same pid. *)

From S2P Require Import Prelude Symbols Proc Sched.

(** An execution: who did what, and the state it led to *)
Notation event := (nat * action * ssys)%type.
Inductive path : ssys → list event → Prop :=
  | path_nil s : path s []
  | path_cons s h a s' l : race_free s h a → sstep s h a = Some (Ok s') → path s' l → path s ((h, a, s') :: l).

Fixpoint final (s : ssys) (l : list event) : ssys :=
  match l with [] => s | (_, _, t) :: l => final t l end.

(** ** No lost wakeup *)
(** The process of slot [i] sleeps on [chan], or is on its way there: it has marked its
    slot and is not back in the pool. *)
Definition falling (chan : Z) (i : nat) (c : scpu) : Prop :=
  match process c with
  | Some p => Z.to_nat (pid p) = i ∧ state p = SLEEPING ∧ channel p = chan
  | None => False
  end.
Definition asleep (chan : Z) (i : nat) (s : ssys) : Prop :=
  (∃ p, pool s !! i = Some (Pooling p) ∧ state p = SLEEPING ∧ channel p = chan) ∨
  (∃ h c, cpus s !! h = Some c ∧ falling chan i c).
Definition awake (i : nat) (s : ssys) : bool :=
  match pool s !! i with Some x => runnable x | None => false end.
(** Hart [w] is inside [wakeup(chan)] and has not passed slot [i]. *)
Definition scanning (w : nat) (chan : Z) (i : nat) (s : ssys) : Prop :=
  ∃ c j, cpus s !! w = Some c ∧ (waking c = Some (WScan chan j) ∨ waking c = Some (WWait chan j)) ∧
    0 ≤ j ≤ Z.of_nat i.

Lemma sleeper_step s h a s' chan i p :
  sinv s → race_free s h a → sstep s h a = Some (Ok s') →
  pool s !! i = Some (Pooling p) → state p = SLEEPING → channel p = chan →
  awake i s' = true ∨ asleep chan i s'.
Proof.
  intros Hinv Hcl Hs Hi Hst Hch.
  destruct (step_pool s h a s' Hinv Hcl Hs) as (c & c' & Hh & _ & He).
  destruct (pooled_effect _ _ _ _ _ _ He Hi) as [E|[[E _]|(_ & _ & E)]]; [|congruence|].
  - right. left. eauto.
  - left. unfold awake. by rewrite E.
Qed.

(** A hart whose process is going to sleep has two steps left to the pool. *)
Lemma falling_step s h a s' chan i c :
  sinv s → race_free s h a → sstep s h a = Some (Ok s') → cpus s !! h = Some c → falling chan i c →
  asleep chan i s'.
Proof.
  intros Hinv Hcl (c0 & Hh & Hr)%bind_Some Hc Hf. assert (c0 = c) as -> by congruence. clear Hc.
  pose proof (hart_ok_at s h c Hinv Hh) as [_ _ Hp]. pose proof (lookup_lt_Some _ _ _ Hh).
  unfold falling in Hf. destruct (process c) as [p|] eqn:Hpc; [|done]. destruct Hf as (Hpid & Hst & Hch).
  destruct Hp as [Hrange Hp]. pose proof (si_slot s Hinv h c (pid p) Hh) as Hsl.
  unfold running in Hsl. rewrite Hpc in Hsl. specialize (Hsl eq_refl).
  unfold hart_step in Hr. destruct (at_ c) as [| | | | |to] eqn:Hat; try naive_solver congruence.
  - destruct Hp as (_ & _ & Hw & _). rewrite Hw in Hr. destruct a; try done.
    destruct (sleep_lock s); [done|]. apply ret_inv in Hr as (pl & lk & c' & Hv & ->).
    unfold sleep_switch, my_proc in Hv. rewrite Hpc in Hv. cbn in Hv. rewrite Hst in Hv.
    injection Hv as <- <- <-. right. exists h. eexists. cbn.
    split; [by apply list_lookup_insert_eq|]. done.
  - destruct Hp as (_ & _ & _ & Hw & _). rewrite Hw in Hr. destruct a; try done.
    apply ret_inv in Hr as (pl & lk & c' & Hv & ->). unfold scheduler_back in Hv. inv_bind. simplify_eq.
    match goal with H : put_back_proc ?q _ = Ok _ |- _ =>
      rewrite (put_back_spec q _ _ (si_size s Hinv) Hrange Hsl) in H end.
    left. eexists. cbn. destruct (slot_of_cases c) as [E|E]; rewrite E in *; simplify_eq;
      (split; [apply list_lookup_insert_eq; rewrite (si_size s Hinv); lia|done]).
Qed.

Lemma asleep_step s h a s' chan i :
  sinv s → race_free s h a → sstep s h a = Some (Ok s') → asleep chan i s →
  awake i s' = true ∨ asleep chan i s'.
Proof.
  intros Hinv Hcl Hs [(p & Hi & Hst & Hch)|(h' & c & Hc & Hf)]; [by eapply sleeper_step|].
  destruct (decide (h' = h)) as [->|Hne]; [right; by eapply falling_step|].
  right. right. exists h', c. split; [|done].
  destruct (step_pool s h a s' Hinv Hcl Hs) as (c0 & c' & _ & -> & _). by rewrite list_lookup_insert_ne.
Qed.

(** A falling process has its slot marked, so that a scan does not pass it. *)
Lemma falling_slot s h c chan i :
  sinv s → cpus s !! h = Some c → falling chan i c → pool s !! i = Some BeingSlept.
Proof.
  intros Hinv Hh Hf. pose proof (hart_ok_at s h c Hinv Hh) as [_ _ Hp]. unfold falling in Hf.
  destruct (process c) as [p|] eqn:Hpc; [|done]. destruct Hf as (<- & Hst & _).
  pose proof (si_slot s Hinv h c (pid p) Hh) as Hsl. unfold running in Hsl. rewrite Hpc in Hsl.
  rewrite (Hsl eq_refl). f_equal. destruct Hp as [_ Hp]. unfold slot_of, holds_sleep. rewrite Hpc.
  destruct (at_ c); try naive_solver congruence. destruct Hp as (_ & Hd & _). by rewrite (proj2 Hd Hst).
Qed.

(** The scan meets the sleeper or stays before it. *)
Lemma scan_step s w a s' chan i :
  sinv s → race_free s w a → sstep s w a = Some (Ok s') → asleep chan i s → (i < Z.to_nat NMAXPROCS)%nat →
  scanning w chan i s → awake i s' = true ∨ scanning w chan i s'.
Proof.
  intros Hinv Hcl (c & Hh & Hr)%bind_Some Has Hi (c0 & j & Hc & Hw & Hj).
  assert (c0 = c) as -> by congruence. pose proof (lookup_lt_Some _ _ _ Hh).
  unfold hart_step in Hr. destruct Hw as [Hw|Hw]; rewrite Hw in Hr.
  - destruct a; try done. apply ret_inv in Hr as (pl & lk & c' & Hv & ->).
    destruct (wakeup_scan_spec chan j (pool s)) as (e & pl' & [_ Hpl] & He & Hns & Hx); [apply Hinv|lia|].
    destruct (decide (e ≤ Z.of_nat i)) as [Hle|Hgt].
    + destruct Hx as [[_ ?]|[Hx _]]; [lia|]. rewrite Hx in Hv. injection Hv as <- <- <-.
      right. eexists _, e. cbn. split; [by apply list_lookup_insert_eq|]. split; [by right|lia].
    + left. assert (pl = pl') as ->.
      { destruct Hx as [[Hx _]|[Hx _]]; rewrite Hx in Hv; cbn in Hv; congruence. }
      unfold awake. cbn [pool]. rewrite Hpl, decide_True by lia.
      destruct Has as [(p & Hp & Hst & Hch)|(h' & c1 & Hc1 & Hf)].
      * rewrite Hp. cbn. by rewrite decide_True.
      * pose proof (falling_slot s h' c1 chan i Hinv Hc1 Hf) as Hb. destruct (Hns (Z.of_nat i)); [lia|].
        by rewrite Nat2Z.id.
  - destruct a, (sleep_lock s); try done. apply local_inv in Hr as (c' & [= <-] & ->).
    right. eexists _, j. cbn. split; [by apply list_lookup_insert_eq|]. split; [by left|done].
Qed.

Lemma scanning_step s h a s' w chan i :
  sinv s → race_free s h a → sstep s h a = Some (Ok s') → asleep chan i s → (i < Z.to_nat NMAXPROCS)%nat →
  scanning w chan i s → awake i s' = true ∨ scanning w chan i s'.
Proof.
  intros Hinv Hcl Hs Has Hi Hsc. destruct (decide (h = w)) as [->|Hne]; [by eapply scan_step|].
  right. destruct Hsc as (c & j & Hc & Hrest). exists c, j. split; [|done].
  destruct (step_pool s h a s' Hinv Hcl Hs) as (c0 & c' & _ & -> & _). by rewrite list_lookup_insert_ne.
Qed.

Lemma path_wakes l : ∀ s w chan i,
  sinv s → path s l → (i < Z.to_nat NMAXPROCS)%nat → asleep chan i s → scanning w chan i s →
  (∃ h a t, (h, a, t) ∈ l ∧ awake i t = true) ∨ scanning w chan i (final s l).
Proof.
  induction l as [|[[h a] s'] l IH]; intros s w chan i Hinv Hp Hi Has Hsc; [by right|].
  inversion Hp as [|? ? ? ? ? Hcl Hs Hp']; subst.
  pose proof (sstep_sound s h a (Ok s') Hinv Hcl Hs) as Hinv'.
  destruct (asleep_step s h a s' chan i Hinv Hcl Hs Has) as [Hw|Has'];
    [left; exists h, a, s'; split; [left|done]|].
  destruct (scanning_step s h a s' w chan i Hinv Hcl Hs Has Hi Hsc) as [Hw|Hsc'];
    [left; exists h, a, s'; split; [left|done]|].
  destruct (IH s' w chan i Hinv' Hp' Hi Has' Hsc') as [(h1 & a1 & t & Hin & Ht)|Hf]; [left|by right].
  exists h1, a1, t. split; [by right|done].
Qed.

(** C2: in executions of race-free steps (no fork finds its slot taken meanwhile, no timer
    interrupt inside the __swtch of scheduler): if a process sleeps on a channel, or
    is on its way to sleep, when a hart enters wakeup on that channel, and that wakeup
    returns, then the process was made runnable, however sleep, put_back_proc and the
    scan interleave. *)
Theorem no_lost_wakeup x n s l w chan i :
  reach race_free (sched_init x n) s → path s l → (i < Z.to_nat NMAXPROCS)%nat →
  asleep chan i s → (∃ c, cpus s !! w = Some c ∧ waking c = Some (WScan chan 0)) →
  (∀ c, cpus (final s l) !! w = Some c → waking c = None) →
  ∃ h a t, (h, a, t) ∈ l ∧ awake i t = true.
Proof.
  intros Hinv%reach_inv Hp Hi Has (c & Hc & Hw) Hend.
  destruct (path_wakes l s w chan i Hinv Hp Hi Has) as [?|(c' & j & Hc' & Hw' & _)]; [|done|].
  - exists c, 0. split_and!; [done|by left|lia|lia].
  - rewrite (Hend c' Hc') in Hw'. by destruct Hw'.
Qed.

(** ** Round robin *)
(** Where the next search of a hart starts *)
Definition wrap (i : Z) : Z := if NMAXPROCS <=? i then 0 else i.
Definition next_from (c : scpu) : Z :=
  match running c with Some i => wrap (i + 1) | None => lst_pid c end.
(** How many slots the hart still visits before [q] *)
Definition rank (q : Z) (c : scpu) : Z :=
  if next_from c <=? q then q - next_from c else NMAXPROCS + 1 + q - next_from c.

Lemma wrap_range i : 0 ≤ i → 0 ≤ wrap i < NMAXPROCS.
Proof. intros Hi. unfold wrap. destruct (Z.leb_spec NMAXPROCS i); [by rewrite NMAXPROCS_eq|lia]. Qed.

Lemma rank_bounds q c : cpu_ok c → 0 ≤ q < NMAXPROCS → 0 ≤ rank q c ≤ NMAXPROCS.
Proof.
  intros Hok Hq. assert (0 ≤ next_from c < NMAXPROCS) as Hn.
  { unfold next_from, running. pose proof (co_proc c Hok) as Hp. destruct (process c) as [p|]; cbn.
    - apply wrap_range. destruct Hp as [? _]. lia.
    - apply (co_lst c Hok). }
  unfold rank. destruct (Z.leb_spec (next_from c) q); lia.
Qed.

Lemma yield_keeps_next rs k c c' : yield_cpu rs k c = Ok c' → next_from c' = next_from c.
Proof.
  unfold yield_cpu, my_proc. intros (p & Hp%unwrap_Ok & Hy)%bind_Ok. unfold sched in Hy. inv_bind. simplify_eq.
  unfold next_from, running. cbn in *. simplify_eq. by rewrite Hp.
Qed.

Lemma step_next s h a s' c c' :
  sinv s → sstep s h a = Some (Ok s') → cpus s !! h = Some c → cpus s' !! h = Some c' → a ≠ Find →
  next_from c' = next_from c.
Proof.
  intros Hinv (c0 & Hh & Hr)%bind_Some Hc Hc' Ha. assert (c0 = c) as -> by congruence.
  pose proof (hart_ok_at s h c Hinv Hh) as Hok. pose proof (lookup_lt_Some _ _ _ Hh) as Hlt.
  assert (Hret : ∀ v, ret s h v = Some (Ok s') → ∃ pl lk, v = Ok (pl, lk, c')).
  { intros v (pl & lk & c1 & -> & ->)%ret_inv. cbn in Hc'. rewrite list_lookup_insert_eq in Hc' by done.
    injection Hc' as ->. eauto. }
  assert (Hloc : ∀ v, local s h v = Some (Ok s') → v = Ok c').
  { intros v (pl & lk & Hv)%Hret. destruct v; [|done]. by injection Hv as <- <- <-. }
  assert (Htimer : ∀ rs k, timer s h k rs c = Some (Ok s') → next_from c' = next_from c).
  { intros rs k Hv. unfold timer in Hv. destruct (sie c); [|done]. apply Hloc in Hv. unfold kernel_timer in Hv. apply bind_Ok in Hv as (r & _ & Hv).
    destruct (negb _); [|by injection Hv as <-]. destruct (process c); [|by injection Hv as <-].
    destruct (decide _); [by apply yield_keeps_next in Hv|by injection Hv as <-]. }
  unfold hart_step in Hr. destruct (waking c) as [[chan i|chan i]|] eqn:Hwk.
  - destruct a; try done. apply Hret in Hr as (pl & lk & Hv).
    apply bind_Ok in Hv as ([pl' o] & _ & [= _ _ <-]). done.
  - destruct a, (sleep_lock s); try done. by apply Hloc in Hr as [= <-].
  - destruct (at_ c) as [|ctx|ctx|k| |to] eqn:Hat; destruct a; try done; try (by eapply Htimer);
      try (by apply Hloc in Hr as [= <-]); try (by destruct k; try done; apply Hloc in Hr as [= <-]).
    + destruct (negb _); [|done]. by apply Hloc in Hr as [= <-].
    + destruct (decide _); [|done]. by apply Hloc in Hr as [= <-].
    + destruct k; try done. apply Hloc in Hr. by apply yield_keeps_next in Hr.
    + by destruct k; eapply Htimer.
    + destruct k; try done. apply Hloc in Hr. unfold exit in Hr. apply bind_Ok in Hr as (p & Hp%unwrap_Ok & Hr).
      inv_bind. unfold sched in Hr. cbn in Hr. injection Hr as <-. unfold next_from, running. cbn. by rewrite Hp.
    + destruct k; try done. apply Hret in Hr as (pl & lk & Hv). unfold sleep_enter in Hv.
      apply bind_Ok in Hv as ([pl1 c1] & Hv & [= _ _ <-]). apply bind_Ok in Hv as (p & Hp%unwrap_Ok & Hv).
      apply bind_Ok in Hv as (pl2 & _ & [= _ <-]). unfold next_from, running. cbn. by rewrite Hp.
    + destruct k; try done. apply Hloc in Hr. unfold sleep_return in Hr. apply bind_Ok in Hr as (p & Hp%unwrap_Ok & Hr).
      injection Hr as <-. unfold next_from, running. cbn. by rewrite Hp.
    + destruct k; try done. apply Hloc in Hr. inv_bind. by simplify_eq.
    + destruct k; try done. apply Hret in Hr as (pl & lk & Hv). inv_bind. by simplify_eq.
    + destruct (sleep_lock s); [done|]. apply Hret in Hr as (pl & lk & Hv).
      apply bind_Ok in Hv as (c1 & Hv & [= _ _ <-]). unfold sleep_switch in Hv.
      apply bind_Ok in Hv as (p & Hp%unwrap_Ok & Hv). unfold sched in Hv. inv_bind. simplify_eq.
      unfold next_from, running. cbn in *. simplify_eq. by rewrite Hp.
    + apply Hret in Hr as (pl & lk & Hv). apply bind_Ok in Hv as ([[b pl'] c1] & Hv & [= _ _ <-]).
      unfold scheduler_back in Hv. apply bind_Ok in Hv as (p & Hp%unwrap_Ok & Hv).
      destruct Hok as [_ _ Hok]. rewrite Hp in Hok. destruct Hok as [Hpid _].
      rewrite as_u_id in Hv by (unfold is_u; rewrite NMAXPROCS_eq in Hpid; lia).
      inv_ok. simplify_eq. unfold next_from, running, wrap. cbn. by rewrite Hp.
Qed.

(** A search that does not take [q] moves the hart closer to it. *)
Lemma find_rank s h s' c c' q :
  sinv s → sstep s h Find = Some (Ok s') → cpus s !! h = Some c → cpus s' !! h = Some c' →
  0 ≤ q < NMAXPROCS → awake (Z.to_nat q) s = true → awake (Z.to_nat q) s' = true →
  rank q c' + 1 ≤ rank q c.
Proof.
  intros Hinv (c0 & Hh & Hr)%bind_Some Hc Hc' Hq Haw Haw'. assert (c0 = c) as -> by congruence.
  pose proof (hart_ok_at s h c Hinv Hh) as [Hl _ Hp]. pose proof (lookup_lt_Some _ _ _ Hh) as Hlt.
  unfold hart_step in Hr. destruct (waking c) as [[|]|]; [done|by destruct (sleep_lock s)|].
  destruct (at_ c) as [| | |k| |] eqn:Hat; try (by destruct k); try done. apply ret_inv in Hr as (pl & lk & c1 & Hv & ->).
  cbn in Hc'. rewrite list_lookup_insert_eq in Hc' by done. injection Hc' as ->.
  apply bind_Ok in Hv as ([pl1 c1] & Hv & [= <- _ <-]).
  assert (running c = None) as Hrun.
  { unfold running. destruct (process c); [|done]. destruct Hp as [_ Hp]. by rewrite Hat in Hp. }
  assert (Hraq : runnable_at (pool s) q).
  { unfold awake in Haw. destruct (pool s !! Z.to_nat q) as [x|] eqn:E; [|done]. by exists x. }
  assert (next_from c = lst_pid c) as Hnf by (unfold next_from; by rewrite Hrun).
  unfold scheduler_find in Hv. unfold rank. rewrite !Hnf.
  destruct (find_next_spec (lst_pid c) (pool s)) as [(k & p & Hx & Hk & Hsl & Hst & Hmin)|[Hx Hnone]];
    [apply Hinv|lia|..]; rewrite Hx in Hv; injection Hv as <- <-.
  - destruct (si_pool s Hinv _ _ Hsl) as [Hpid _ _ _]. rewrite Z2Nat.id in Hpid by lia.
    unfold next_from, running. cbn [process fmap option_fmap option_map pid set_context set_state]. rewrite Hpid.
    assert (k ≠ q) as Hkq.
    { intros ->. unfold awake in Haw'. cbn [pool] in Haw'. rewrite list_lookup_insert_eq in Haw'; [done|].
      rewrite (si_size s Hinv). lia. }
    assert (q < lst_pid c ∨ k < q) as Hcase.
    { destruct (decide (q < lst_pid c)); [by left|right]. destruct (decide (k < q)); [done|].
      by destruct (Hmin q); [lia|]. }
    unfold wrap. destruct (Z.leb_spec NMAXPROCS (k + 1)), (Z.leb_spec (lst_pid c) q); try lia.
    + destruct (Z.leb_spec 0 q); lia.
    + destruct (Z.leb_spec (k + 1) q); lia.
    + destruct (Z.leb_spec (k + 1) q); lia.
  - unfold running in Hrun. destruct (process c); [done|]. cbn [next_from running process fmap option_fmap option_map lst_pid].
    destruct (Z.leb_spec 0 q); [|lia].
    destruct (Z.leb_spec (lst_pid c) q); [by destruct (Hnone q); [lia|]|lia].
Qed.

(** Searches of hart [h] in an execution *)
Fixpoint finds (h : nat) (l : list event) : Z :=
  match l with
  | [] => 0
  | (h', Find, _) :: l => (if decide (h' = h) then 1 else 0) + finds h l
  | _ :: l => finds h l
  end.

Lemma step_rank s h a s' w c c' q :
  sinv s → race_free s h a → sstep s h a = Some (Ok s') → cpus s !! w = Some c → cpus s' !! w = Some c' →
  0 ≤ q < NMAXPROCS → awake (Z.to_nat q) s = true → awake (Z.to_nat q) s' = true →
  rank q c' + finds w [(h, a, s')] ≤ rank q c.
Proof.
  intros Hinv Hcl Hs Hc Hc' Hq Haw Haw'. destruct (decide (h = w)) as [->|Hne].
  - assert (a = Find ∨ a ≠ Find) as [->|Ha] by (destruct a; auto).
    + cbn. rewrite decide_True by done. rewrite Z.add_0_r. by eapply find_rank.
    + pose proof (step_next s w a s' c c' Hinv Hs Hc Hc' Ha) as E. unfold rank. rewrite E.
      destruct a; done || (cbn; lia).
  - destruct (step_pool s h a s' Hinv Hcl Hs) as (c0 & c1 & _ & E & _).
    rewrite E, list_lookup_insert_ne in Hc' by done. assert (c' = c) as -> by congruence.
    destruct a; cbn; rewrite ?decide_False by done; lia.
Qed.

Lemma finds_cons w h a s' l : finds w ((h, a, s') :: l) = finds w [(h, a, s')] + finds w l.
Proof. destruct a; cbn; lia. Qed.

Lemma path_rank l : ∀ s w c q,
  sinv s → path s l → cpus s !! w = Some c → 0 ≤ q < NMAXPROCS → awake (Z.to_nat q) s = true →
  (∀ h a t, (h, a, t) ∈ l → awake (Z.to_nat q) t = true) → finds w l ≤ rank q c.
Proof.
  induction l as [|[[h a] s'] l IH]; intros s w c q Hinv Hp Hc Hq Haw Hl.
  { apply (rank_bounds q c); [by eapply (si_cpu s)|done]. }
  inversion Hp as [|? ? ? ? ? Hcl Hs Hp']; subst.
  pose proof (sstep_sound s h a (Ok s') Hinv Hcl Hs) as Hinv'.
  assert (∃ c', cpus s' !! w = Some c') as [c' Hc'].
  { destruct (step_pool s h a s' Hinv Hcl Hs) as (c0 & c1 & _ & -> & _).
    apply lookup_lt_is_Some. rewrite length_insert. by apply lookup_lt_is_Some. }
  assert (awake (Z.to_nat q) s' = true) as Haw' by (apply (Hl h a); left).
  pose proof (step_rank s h a s' w c c' q Hinv Hcl Hs Hc Hc' Hq Haw Haw') as Hr.
  pose proof (IH s' w c' q Hinv' Hp' Hc' Hq Haw') as Hrest. rewrite finds_cons.
  assert (finds w l ≤ rank q c') by (apply Hrest; intros h1 a1 t Hin; apply (Hl h1 a1); by right). lia.
Qed.

(** C22: in executions of race-free steps (no fork finds its slot taken meanwhile, no
    timer interrupt inside the __swtch of scheduler), while a process stays runnable
    in the pool, a hart searches the pool at most NMAXPROCS times without taking it:
    the rotation of lst_pid starves nobody. *)
Theorem round_robin_bounded_wait x n s l w q :
  reach race_free (sched_init x n) s → path s l → is_Some (cpus s !! w) → 0 ≤ q < NMAXPROCS →
  awake (Z.to_nat q) s = true → (∀ h a t, (h, a, t) ∈ l → awake (Z.to_nat q) t = true) →
  finds w l ≤ NMAXPROCS.
Proof.
  intros Hinv%reach_inv Hp [c Hc] Hq Haw Hl. trans (rank q c); [by eapply path_rank|].
  apply rank_bounds; [by eapply (si_cpu s)|done].
Qed.

(** ** [fork] does not reserve its pid *)
(** Process 0 forks process 1, is preempted in its second [fork] with pid 2 chosen;
    process 1 forks process 2. *)
Definition race_prefix : list (nat * action) :=
  [(0, Find); (0, SwtchSave 1); (0, Swtch [1]%Z); (0, ForkFind); (0, ForkPut fp0); (0, ForkFind); (0, Timer [1]%Z);
   (0, PutBack); (0, Find); (0, SwtchSave 1); (0, Swtch [1]%Z); (0, ForkFind); (0, ForkPut fp0)]%nat.
(** Hart 1 takes process 0 up again; or hart 0 takes process 2 first, then hart 1 process 0. *)
Definition race_panic : list (nat * action) := (race_prefix ++ [(1, Find); (1, SwtchSave 1); (1, Swtch [1]%Z)])%nat.
Definition race_twice : list (nat * action) :=
  (race_prefix ++ [(0, Yield [1]%Z); (0, PutBack); (0, Find); (0, SwtchSave 1); (0, Swtch [1]%Z); (1, Find); (1, SwtchSave 1); (1, Swtch [1]%Z);
                   (1, ForkPut fp0)])%nat.

(** C39: fork does not reserve the pid it found: two harts can reach the panic of an
    occupied pid, and a state in which pid 2 runs on a hart while another process 2 is
    in the pool. *)
Theorem fork_pid_race :
  (∃ s, reach any sys0 s ∧ sstep s 1 (ForkPut fp0) = Some (Err (Panic "pid {} already occupied"))) ∧
  (∃ s c p, reach any sys0 s ∧ cpus s !! 0%nat = Some c ∧ running c = Some 2 ∧
     pool s !! 2%nat = Some (Pooling p) ∧ pid p = 2).
Proof.
  split.
  - destruct (run_acts sys0 race_panic) as [s|] eqn:E; [|by vm_compute in E].
    exists s. split; [by apply (run_acts_reach race_panic sys0)|].
    vm_compute in E. injection E as <-. by vm_compute.
  - destruct (run_acts sys0 race_twice) as [s|] eqn:E; [|by vm_compute in E].
    exists s. pose proof (run_acts_reach race_twice sys0 _ E) as Hr.
    vm_compute in E. injection E as <-. eexists _, _. split; [exact Hr|]. by vm_compute.
Qed.

(** ** Executions of two harts *)
Fixpoint events (s : ssys) (l : list (nat * action)) : list event :=
  match l with
  | [] => []
  | (h, a) :: l => match sstep s h a with Some (Ok t) => (h, a, t) :: events t l | _ => [] end
  end.

Lemma events_path l : ∀ s t, run_free s l = Some t → path s (events s l) ∧ final s (events s l) = t.
Proof.
  induction l as [|[h a] l IH]; intros s t Ht; cbn in Ht; [split; [constructor|by injection Ht]|].
  destruct (race_freeb s h a) eqn:Hc; [|done]. cbn [events].
  destruct (sstep s h a) as [[s'|]|] eqn:E; try done. destruct (IH s' t Ht). split; [|done].
  constructor; [by apply race_freeb_spec|done..].
Qed.

(** Process 0 marks itself as going to sleep on 7 while hart 1 starts [wakeup(7)]: the
    scan waits for it, then wakes it. *)
Definition wake_start : list (nat * action) :=
  [(0, Find); (0, SwtchSave 1); (0, Swtch [1]%Z); (0, Sleep 7); (1, WakeCall 7)]%nat.
Definition wake_acts : list (nat * action) :=
  [(1, WakeScan); (0, SleepLock [1]%Z); (0, PutBack); (1, WakeWait); (1, WakeScan)]%nat.
Definition sys_wake : ssys := default sys0 (run_free sys0 wake_start).

Lemma no_lost_wakeup_witness :
  ∃ h a t, (h, a, t) ∈ events sys_wake wake_acts ∧ awake 0 t = true.
Proof.
  destruct (events_path wake_acts sys_wake (default sys0 (run_free sys_wake wake_acts))) as [Hp Hf];
    [vm_compute; reflexivity|].
  apply (no_lost_wakeup fp0 2 sys_wake (events sys_wake wake_acts) 1 7 0).
  - apply (run_free_reach wake_start sys0 sys0); [constructor|vm_compute; reflexivity].
  - exact Hp.
  - vm_compute. lia.
  - right. exists 0%nat. eexists. split; [vm_compute; reflexivity|]. vm_compute. split_and!; reflexivity.
  - eexists. split; vm_compute; reflexivity.
  - rewrite Hf. intros c Hc. vm_compute in Hc. injection Hc as <-. reflexivity.
Defined.

(** Two forks; hart 1 takes the first child while the second waits. *)
Definition wait_start : list (nat * action) :=
  [(0, Find); (0, SwtchSave 1); (0, Swtch [1]%Z); (0, ForkFind); (0, ForkPut fp0); (0, ForkFind); (0, ForkPut fp0)]%nat.
Definition sys_wait : ssys := default sys0 (run_free sys0 wait_start).

Lemma round_robin_bounded_wait_witness :
  finds 1 (events sys_wait [(1%nat, Find)]) = 1 ∧ finds 1 (events sys_wait [(1%nat, Find)]) ≤ NMAXPROCS.
Proof.
  split; [vm_compute; reflexivity|].
  destruct (events_path [(1%nat, Find)] sys_wait (default sys0 (run_free sys_wait [(1%nat, Find)]))) as [Hp _];
    [vm_compute; reflexivity|].
  apply (round_robin_bounded_wait fp0 2 sys_wait (events sys_wait [(1%nat, Find)]) 1 2).
  - apply (run_free_reach wait_start sys0 sys0); [constructor|vm_compute; reflexivity].
  - exact Hp.
  - vm_compute. eexists. reflexivity.
  - split; vm_compute; congruence.
  - vm_compute. reflexivity.
  - intros h a t Hin. unfold events in Hin.
    destruct (sstep sys_wait 1 Find) as [[t'|]|] eqn:E; [|by apply elem_of_nil in Hin..].
    apply list_elem_of_singleton in Hin. injection Hin as -> -> ->. vm_compute in E. injection E as <-.
    vm_compute. reflexivity.
Defined.
