(* ===== verification/Sleeplock.v ===== *)
(** * Sleep locks

    [sleeplock.rs] over the scheduler of Sched.v.  The spin lock [spin] protects the
    information; a process that finds it locked sleeps, and the drop of a guard calls
    [wakeup].  A step is one section of [acquire] or of the drop on some hart, or a step
    of the scheduler that is not part of this code.  The scheduler steps are [race_free]
    ones: the lock knows its owner by pid only, so that after the pid race of [fork]
    two processes would hold it.  A process inside the sections of the lock takes no
    other [sleep] or [exit] step ([foreign]).

    [sleep(&self, lk)] sleeps on the address of the local [self] of [acquire], and
    [wakeup(&self.lock)] wakes the address of the field of the guard; [self_at p] and
    [guard_at p] are these addresses for process [p]. *)

From S2P Require Import Prelude Symbols Proc Sched SchedLive.

(** ** Data and the code under [spin] *)
Record SleepLockInfo := mkInfo { locked : bool; owner : Z }.
Definition SleepLock_new : SleepLockInfo := mkInfo false 0.

(** [acquire]: the loop condition, and what follows the loop *)
Definition acquire_waits (lk : SleepLockInfo) : bool := locked lk.
Definition acquire_take (p : Process) (lk : SleepLockInfo) : SleepLockInfo := mkInfo true (pid p).
Definition holding (p : Process) (lk : SleepLockInfo) : bool := locked lk && (owner lk =? pid p).
Definition guard_drop (lk : SleepLockInfo) : SleepLockInfo := mkInfo false 0.

(** Where a process is *)
Inductive slpos :=
  | Outside
  | Testing                 (* [acquire]: has [spin], at the loop condition *)
  | Falling                 (* [sleep]: marked, [spin] not released *)
  | Sleeping                (* [sleep]: [spin] released *)
  | Relocking               (* [sleep]: woken, [into_guard] to take [spin] *)
  | HasGuard
  | Dropping                (* drop: has [spin] *)
  | Waking.                 (* drop: in [wakeup], has [spin] *)
#[global] Instance slpos_eq_dec : EqDecision slpos.
Proof. solve_decision. Defined.

Record lsys := LSys {
  sys : ssys;
  spin : option Z;
  info : SleepLockInfo;
  pos : Z → slpos;
}.

Section sleeplock.
Context (self_at guard_at : Z → Z).

(** Hart [h] has process [p]; and it runs the code of [p] outside of [sleep] and [wakeup]. *)
Definition runs (s : ssys) (h : nat) (p : Process) : Prop :=
  ∃ c, cpus s !! h = Some c ∧ process c = Some p.
Definition works (s : ssys) (h : nat) (p : Process) : Prop :=
  ∃ c, cpus s !! h = Some c ∧ process c = Some p ∧ at_ c = InProc InTrap ∧ waking c = None.

(** A step of code other than the sleep lock's: a process in its sections takes no step
    of [sleep] or [exit], and nobody else wakes the address of a local of [acquire]. *)
Definition foreign (s : ssys) (h : nat) (a : action) (f : Z → slpos) : Prop :=
  match a with
  | WakeCall chan => ∀ p, chan ≠ self_at p
  | Sleep _ | SleepLock _ | SleepReturn | Exit _ =>
      ∀ p, runs s h p → f (pid p) = Outside ∨ f (pid p) = HasGuard
  | _ => True
  end.

Inductive lstep : lsys → lsys → Prop :=
  | l_lock s i f h p :
      works s h p → f (pid p) = Outside →
      lstep (LSys s None i f) (LSys s (Some (pid p)) i (upd f (pid p) Testing))
  | l_take s i f h p :
      works s h p → f (pid p) = Testing → acquire_waits i = false →
      lstep (LSys s (Some (pid p)) i f) (LSys s None (acquire_take p i) (upd f (pid p) HasGuard))
  | l_sleep s i f h p s' :
      runs s h p → f (pid p) = Testing → acquire_waits i = true →
      sstep s h (Sleep (self_at (pid p))) = Some (Ok s') →
      lstep (LSys s (Some (pid p)) i f) (LSys s' (Some (pid p)) i (upd f (pid p) Falling))
  | l_switch s i f h p rs s' :
      runs s h p → f (pid p) = Falling →
      sstep s h (SleepLock rs) = Some (Ok s') →
      lstep (LSys s (Some (pid p)) i f) (LSys s' None i (upd f (pid p) Sleeping))
  | l_return s sp i f h p s' :
      runs s h p → f (pid p) = Sleeping →
      sstep s h SleepReturn = Some (Ok s') →
      lstep (LSys s sp i f) (LSys s' sp i (upd f (pid p) Relocking))
  | l_relock s i f h p :
      works s h p → f (pid p) = Relocking →
      lstep (LSys s None i f) (LSys s (Some (pid p)) i (upd f (pid p) Testing))
  | l_drop s i f h p :
      works s h p → f (pid p) = HasGuard →
      lstep (LSys s None i f) (LSys s (Some (pid p)) i (upd f (pid p) Dropping))
  | l_wake s i f h p s' :
      runs s h p → f (pid p) = Dropping →
      sstep s h (WakeCall (guard_at (pid p))) = Some (Ok s') →
      lstep (LSys s (Some (pid p)) i f) (LSys s' (Some (pid p)) (guard_drop i) (upd f (pid p) Waking))
  | l_dropped s i f h p :
      works s h p → f (pid p) = Waking →
      lstep (LSys s (Some (pid p)) i f) (LSys s None i (upd f (pid p) Outside))
  | l_other s sp i f h a s' :
      foreign s h a f → race_free s h a → sstep s h a = Some (Ok s') →
      lstep (LSys s sp i f) (LSys s' sp i f).

Inductive lreach (t0 : lsys) : lsys → Prop :=
  | lreach_refl : lreach t0 t0
  | lreach_step t t' : lreach t0 t → lstep t t' → lreach t0 t'.

Definition lock_init (x : fork_parts) (n : nat) : lsys :=
  LSys (sched_init x n) None SleepLock_new (λ _, Outside).

(** ** Mutual exclusion *)
Definition has_spin (x : slpos) : bool :=
  match x with Testing | Falling | Dropping | Waking => true | _ => false end.
Definition has_guard (x : slpos) : bool := match x with HasGuard | Dropping => true | _ => false end.

Record linv (t : lsys) : Prop := {
  li_spin : ∀ p, spin t = Some p ↔ has_spin (pos t p) = true;
  li_guard : ∀ p, has_guard (pos t p) = true ↔ locked (info t) = true ∧ owner (info t) = p;
}.

(** A move of [p] that takes or gives back [spin] *)
Lemma spin_move (f : Z → slpos) p x sp sp' :
  (∀ q, sp = Some q ↔ has_spin (f q) = true) → (sp = None ∨ sp = Some p) →
  sp' = (if has_spin x then Some p else None) →
  ∀ q, sp' = Some q ↔ has_spin (upd f p x q) = true.
Proof.
  intros H Hp -> q. destruct (decide (q = p)) as [->|Hne].
  - rewrite upd_eq. by destruct (has_spin x).
  - rewrite upd_ne by done. rewrite <- H. destruct Hp as [-> | ->], (has_spin x); naive_solver congruence.
Qed.

(** A move that changes neither lock *)
Lemma same_move (g : slpos → bool) (f : Z → slpos) p x q : g x = g (f p) → g (upd f p x q) = g (f q).
Proof. intros. destruct (decide (q = p)) as [->|]; [by rewrite upd_eq|by rewrite upd_ne]. Qed.

Lemma linv_step t t' : linv t → lstep t t' → linv t'.
Proof.
  intros [Hs Hg] Hst.
  inversion Hst as [s i f h p Hr Hf|s i f h p Hr Hf Hw|s i f h p s' Hr Hf Hw Hss|s i f h p rs s' Hr Hf Hss|
    s sp i f h p s' Hr Hf Hss|s i f h p Hr Hf|s i f h p Hr Hf|s i f h p s' Hr Hf Hss|s i f h p Hr Hf|s sp i f h a s' Hfo Hcl Hss];
    subst; cbn [spin info pos] in *;
    try (split; cbn [spin info pos]; [by apply (spin_move f _ _ _ _ Hs); auto|];
         intros q; rewrite (same_move has_guard) by (by rewrite Hf); by apply Hg);
    try (pose proof (Hg (pid p)) as Hgp; rewrite Hf in Hgp; cbn in Hgp;
         split; cbn [spin info pos]; [by apply (spin_move f _ _ _ _ Hs); auto|];
         intros q; destruct (decide (q = pid p)) as [->|Hne]; [rewrite upd_eq|rewrite upd_ne, Hg by done];
         unfold acquire_waits in *; naive_solver congruence).
  - split; cbn [spin info pos]; intros q; rewrite same_move by (by rewrite Hf); [apply Hs|apply Hg].
  - by split.
Qed.

Lemma linv_reach x n t : lreach (lock_init x n) t → linv t.
Proof.
  induction 1; [|by eapply linv_step]. split; cbn; [done|]. intros p. split; [done|by intros [? _]].
Qed.

Lemma sched_reach x n t : lreach (lock_init x n) t → sinv (sys t).
Proof.
  induction 1 as [|t t' _ IH Hst]; [apply sinv_init|].
  inversion Hst; subst; cbn [sys] in *; try done;
    match goal with H : sstep ?s ?h ?a = Some (Ok ?s') |- _ => by apply (sstep_sound s h a (Ok s')) end.
Qed.

(** C36: in every interleaving of acquire and of dropping a guard with the scheduler, in
    executions of race-free steps (no fork finds its slot taken meanwhile, no timer
    interrupt inside the __swtch of scheduler) in which a process inside the code of
    the lock takes no other sleep or exit: at most one process has the guard of a
    sleep lock, holding answers true exactly for that process, and at most one hart
    runs a process for which it answers true. *)
Theorem sleep_lock_exclusive x n t :
  lreach (lock_init x n) t →
  (∀ p q, has_guard (pos t p) = true → has_guard (pos t q) = true → p = q) ∧
  (∀ P, holding P (info t) = true ↔ has_guard (pos t (pid P)) = true) ∧
  (∀ h1 h2 P Q, runs (sys t) h1 P → runs (sys t) h2 Q →
     holding P (info t) = true → holding Q (info t) = true → h1 = h2 ∧ P = Q).
Proof.
  intros Hr. pose proof (sched_reach x n t Hr) as Hinv. apply linv_reach in Hr as [Hs Hg].
  assert (Hh : ∀ P, holding P (info t) = true ↔ locked (info t) = true ∧ owner (info t) = pid P).
  { intros P. unfold holding. by rewrite andb_true_iff, Z.eqb_eq. }
  split_and!.
  - intros p q [_ <-]%Hg [_ <-]%Hg. done.
  - intros P. by rewrite Hg, Hh.
  - intros h1 h2 P Q (c1 & H1 & P1) (c2 & H2 & Q2) [_ HP]%Hh [_ HQ]%Hh.
    assert (h1 = h2) as -> by (eapply (si_excl _ Hinv h1 h2 c1 c2 (pid P)); [done..| |]; unfold running;
      [by rewrite P1|rewrite Q2; cbn; congruence]).
    split; [done|congruence].
Qed.

(** ** Waiters *)
(** No hart is in [wakeup(chan)]. *)
Definition quiet (chan : Z) (s : ssys) : Prop :=
  ∀ h c i, cpus s !! h = Some c → waking c ≠ Some (WScan chan i) ∧ waking c ≠ Some (WWait chan i).

Lemma yield_waking rs k c c' : yield_cpu rs k c = Ok c' → waking c' = waking c.
Proof. unfold yield_cpu, sched. intros Hy. by inv_bind. Qed.

Lemma timer_waking rs k c c' : kernel_timer rs k c = Ok c' → waking c' = waking c.
Proof.
  unfold kernel_timer. intros (r & _ & Hk)%bind_Ok. destruct (negb _); [|by injection Hk as <-].
  destruct (process c); [|by injection Hk as <-]. destruct (decide _); [by apply yield_waking in Hk|by injection Hk as <-].
Qed.

(** Only a call of [wakeup] starts one, and its channel stays. *)
Lemma step_waking s h a s' c' :
  sstep s h a = Some (Ok s') → cpus s' !! h = Some c' →
  ∃ c, cpus s !! h = Some c ∧
    (waking c' = waking c ∨ waking c' = None ∨ (∃ chan, a = WakeCall chan ∧ waking c' = Some (WScan chan 0)) ∨
     ∃ chan i j, (waking c = Some (WScan chan i) ∨ waking c = Some (WWait chan i)) ∧
       (waking c' = Some (WScan chan j) ∨ waking c' = Some (WWait chan j))).
Proof.
  intros (c & Hh & Hr)%bind_Some Hc'. exists c. split; [done|]. pose proof (lookup_lt_Some _ _ _ Hh) as Hlt.
  assert (Hret : ∀ v, ret s h v = Some (Ok s') → ∃ pl lk, v = Ok (pl, lk, c')).
  { intros v (pl & lk & c1 & -> & ->)%ret_inv. cbn in Hc'. rewrite list_lookup_insert_eq in Hc' by done.
    injection Hc' as ->. eauto. }
  assert (Hloc : ∀ v, local s h v = Some (Ok s') → v = Ok c').
  { intros v (c1 & -> & ->)%local_inv. cbn in Hc'. rewrite list_lookup_insert_eq in Hc' by done. congruence. }
  unfold hart_step in Hr. destruct (waking c) as [[chan i|chan i]|] eqn:Hw.
  - destruct a; try done. apply Hret in Hr as (pl & lk & Hv). apply bind_Ok in Hv as ([pl1 o] & _ & [= _ _ <-]). cbn.
    destruct o as [e|]; [right; right; right; exists chan, i, e|]; auto.
  - destruct a, (sleep_lock s); try done. apply Hloc in Hr as [= <-]. right; right; right. exists chan, i, i. auto.
  - assert (Hnone : waking c' = None ∨ (∃ chan, a = WakeCall chan ∧ waking c' = Some (WScan chan 0))); [|tauto].
    unfold timer in Hr. destruct (at_ c) as [|ctx|ctx|k| |to]; destruct a; try done; try (destruct k; try done);
      try (destruct (sie c); [|done]);
      try (apply Hloc in Hr; first
        [ by apply timer_waking in Hr; left; congruence
        | by apply yield_waking in Hr; left; cbn in Hr; congruence
        | by injection Hr as <-; right; eauto
        | by unfold exit, sched in Hr; inv_bind; left; cbn
        | by unfold sleep_return in Hr; inv_bind; left; cbn
        | by inv_bind; left; cbn ]);
      try (apply Hret in Hr as (pl & lk & Hr); unfold scheduler_find, sleep_enter, scheduler_back in Hr; inv_bind; by left).
    + apply Hret in Hr as (pl & lk & Hr). unfold scheduler_find in Hr. inv_bind. left. by case_match; simplify_eq.
    + destruct (negb _); [|done]. apply Hloc in Hr as [= <-]. by left.
    + destruct (decide _); [|done]. apply Hloc in Hr as [= <-]. by left.
    + destruct (sleep_lock s); [done|]. apply Hret in Hr as (pl & lk & Hr). unfold sleep_switch, sched in Hr. inv_bind. by left.
Qed.

Lemma quiet_step s h a s' chan :
  sinv s → race_free s h a → sstep s h a = Some (Ok s') → a ≠ WakeCall chan → quiet chan s → quiet chan s'.
Proof.
  intros Hinv Hcl Hs Ha Hq j cj i Hj. destruct (step_pool s h a s' Hinv Hcl Hs) as (c & c' & Hh & Hc & _).
  destruct (decide (j = h)) as [->|Hne]; [|rewrite Hc, list_lookup_insert_ne in Hj by done; by eapply Hq].
  destruct (step_waking s h a s' cj Hs Hj) as (c0 & H0 & [E|[E|[(ch & -> & E)|(ch & i0 & j0 & Hw & E)]]]).
  - rewrite E. by eapply Hq.
  - by rewrite E.
  - rewrite E. split; congruence.
  - destruct (Hq h c0 i0 H0) as [Q1 Q2]. destruct Hw as [Hw|Hw], E as [E|E]; rewrite E; split; congruence.
Qed.

(** Who sleeps on a channel nobody wakes sleeps on. *)
Lemma sleeper_stays pl c a pl' i p :
  pool_effect pl c a pl' → pl !! i = Some (Pooling p) → state p = SLEEPING →
  (∀ lo, waking c ≠ Some (WScan (channel p) lo)) → pl' !! i = Some (Pooling p).
Proof.
  intros He Hi Hst Hq. destruct (pooled_effect _ _ _ _ _ _ He Hi) as [E|[[E _]|(_ & -> & E)]]; [done|congruence|].
  inversion He as [|?|?|?|?|ch lo e pl2 Hw _ [_ Hpl] _]; subst; [congruence|].
  rewrite Hpl, Hi in *. destruct (decide (lo ≤ _ < _)); [|done]. cbn.
  rewrite decide_False; [done|]. intros [_ <-]. by eapply Hq.
Qed.

Lemma asleep_stays s h a s' chan i :
  sinv s → race_free s h a → sstep s h a = Some (Ok s') → quiet chan s → asleep chan i s → asleep chan i s'.
Proof.
  intros Hinv Hcl Hs Hq [(p & Hi & Hst & <-)|(h' & c & Hc & Hf)];
    destruct (step_pool s h a s' Hinv Hcl Hs) as (c0 & c' & Hh & Hcs & He).
  - left. exists p. split; [|done]. apply (sleeper_stays _ _ _ _ _ _ He Hi Hst). intros lo. by eapply Hq.
  - destruct (decide (h' = h)) as [->|Hne]; [exact (falling_step _ _ _ _ _ _ _ Hinv Hcl Hs Hc Hf)|].
    right. exists h', c. split; [|done]. by rewrite Hcs, list_lookup_insert_ne.
Qed.

(** A process that sleeps is on no hart that could go on with it. *)
Lemma asleep_not_in_proc s h c p k :
  sinv s → cpus s !! h = Some c → process c = Some p → at_ c = InProc k →
  ∀ chan, ¬ asleep chan (Z.to_nat (pid p)) s.
Proof.
  intros Hinv Hh Hp Hat chan. pose proof (hart_ok_at s h c Hinv Hh) as [_ _ Hok]. rewrite Hp in Hok.
  destruct Hok as [Hr Hok]. rewrite Hat in Hok. destruct Hok as (Hst & _).
  pose proof (si_slot s Hinv h c (pid p) Hh) as Hsl. unfold running in Hsl. rewrite Hp in Hsl. specialize (Hsl eq_refl).
  intros [(q & Hq & _)|(h' & c1 & H1 & Hf)].
  - destruct (slot_of_cases c) as [E|E]; congruence.
  - unfold falling in Hf. destruct (process c1) as [q|] eqn:Hq; [|done]. destruct Hf as (Hpid & Hsq & _).
    pose proof (hart_ok_at s h' c1 Hinv H1) as [_ _ Hok1]. rewrite Hq in Hok1. destruct Hok1 as [Hr1 _].
    assert (h' = h) as ->.
    { eapply (si_excl s Hinv h' h c1 c (pid p)); [done..| |]; unfold running; [rewrite Hq|by rewrite Hp]. cbn. f_equal. lia. }
    congruence.
Qed.

(** The state of a process whose [sleep] of [acquire] has begun *)
Definition waits (x : slpos) : bool := match x with Falling | Sleeping => true | _ => false end.

Record stuck_inv (t : lsys) : Prop := {
  st_sched : sinv (sys t);
  st_quiet : ∀ p, quiet (self_at p) (sys t);
  st_asleep : ∀ p, waits (pos t p) = true → asleep (self_at p) (Z.to_nat p) (sys t);
}.

Context (Hdiff : ∀ p q, self_at p ≠ guard_at q).

Lemma sched_part s h a s' f f' :
  sinv s → (∀ p, quiet (self_at p) s) → (∀ p, waits (f p) = true → asleep (self_at p) (Z.to_nat p) s) →
  race_free s h a → sstep s h a = Some (Ok s') → (∀ p, a ≠ WakeCall (self_at p)) →
  (∀ p, waits (f' p) = true → waits (f p) = true ∨ asleep (self_at p) (Z.to_nat p) s') →
  sinv s' ∧ (∀ p, quiet (self_at p) s') ∧ (∀ p, waits (f' p) = true → asleep (self_at p) (Z.to_nat p) s').
Proof.
  intros Hinv Hq Has Hcl Hs Ha Hf. split_and!.
  - apply (sstep_sound s h a (Ok s') Hinv Hcl Hs).
  - intros p. by eapply quiet_step.
  - intros p [Hw|?]%Hf; [|done]. eapply asleep_stays; [done..|by apply Has].
Qed.

Lemma sleep_enters s h p s' chan :
  sinv s → runs s h p → sstep s h (Sleep chan) = Some (Ok s') → asleep chan (Z.to_nat (pid p)) s'.
Proof.
  intros Hinv (c & Hh & Hp) (c0 & Hh0 & Hr)%bind_Some. assert (c0 = c) as -> by congruence.
  unfold hart_step in Hr. destruct (waking c) as [[]|]; [done|by destruct (sleep_lock s)|].
  destruct (at_ c) as [| | |k| |]; try done. destruct k; try done.
  apply ret_inv in Hr as (pl & lk & c' & Hv & ->). unfold sleep_enter, my_proc in Hv. rewrite Hp in Hv. inv_bind.
  right. eexists h, _. split; [apply list_lookup_insert_eq; by eapply lookup_lt_Some|]. simplify_eq. done.
Qed.

Lemma stuck_same s sp i f sp' i' f' :
  stuck_inv (LSys s sp i f) → (∀ q, waits (f' q) = waits (f q)) →
  stuck_inv (LSys s sp' i' f') ∧ ∀ q, waits (f q) = true → waits (f' q) = true.
Proof.
  intros [Hi Hq Ha] Hw. split; [split; cbn in *; [done..|]|]; intros q; rewrite Hw; [apply Ha|done].
Qed.

Lemma stuck_sched s h a s' sp i f sp' i' f' :
  stuck_inv (LSys s sp i f) → race_free s h a → sstep s h a = Some (Ok s') → (∀ p, a ≠ WakeCall (self_at p)) →
  (∀ q, waits (f q) = true → waits (f' q) = true) →
  (∀ q, waits (f' q) = true → waits (f q) = true ∨ asleep (self_at q) (Z.to_nat q) s') →
  stuck_inv (LSys s' sp' i' f') ∧ ∀ q, waits (f q) = true → waits (f' q) = true.
Proof.
  intros [Hi Hq Ha] Hcl Hs Hc Hmono Hnew. split; [|done]. cbn in *.
  destruct (sched_part s h a s' f f' Hi Hq Ha Hcl Hs Hc Hnew) as (? & ? & ?). by split.
Qed.

Lemma stuck_step t t' :
  stuck_inv t → lstep t t' → stuck_inv t' ∧ ∀ p, waits (pos t p) = true → waits (pos t' p) = true.
Proof using Hdiff.
  intros Hst Hl.
  inversion Hl as [s i f h p Hr Hf|s i f h p Hr Hf Hw|s i f h p s' Hr Hf Hw Hss|s i f h p rs s' Hr Hf Hss|
    s sp i f h p s' Hr Hf Hss|s i f h p Hr Hf|s i f h p Hr Hf|s i f h p s' Hr Hf Hss|s i f h p Hr Hf|s sp i f h a s' Hfo Hcl Hss];
    subst; cbn [pos];
    try (by eapply stuck_same; [done|]; intros q; apply same_move; rewrite Hf);
    try (assert (Hsame : ∀ x q, waits x = waits (f (pid p)) → waits (upd f (pid p) x q) = waits (f q)) by
         (intros; by apply same_move)).
  - refine (stuck_sched _ _ _ _ _ _ _ _ _ _ Hst _ Hss _ _ _); [done|done| |]; intros q; destruct (decide (q = pid p)) as [->|Hne];
      rewrite ?upd_eq, ?upd_ne by done; auto. intros _. right. by eapply sleep_enters; [apply Hst|..].
  - refine (stuck_sched _ _ _ _ _ _ _ _ _ _ Hst _ Hss _ _ _); [done|done| |]; intros q; rewrite Hsame by (by rewrite Hf); auto.
  - exfalso. destruct Hst as [Hi _ Ha]. cbn in Hi, Ha. apply bind_Some in Hss as (c & Hh & Hr').
    destruct Hr as (c0 & Hh0 & Hp). assert (c0 = c) as -> by congruence.
    unfold hart_step in Hr'. destruct (waking c) as [[]|]; [done|by destruct (sleep_lock s)|].
    destruct (at_ c) as [| | |k| |] eqn:Hat; try done.
    eapply (asleep_not_in_proc s h c p k Hi Hh Hp Hat). apply Ha. by rewrite Hf.
  - refine (stuck_sched _ _ _ _ _ _ _ _ _ _ Hst _ Hss _ _ _); [done|intros q [=]; by eapply Hdiff| |]; intros q; rewrite Hsame by (by rewrite Hf); auto.
  - refine (stuck_sched _ _ _ _ _ _ _ _ _ _ Hst _ Hss _ _ _); [done| |auto|auto]. intros q ->. by eapply Hfo.
Qed.

Lemma stuck_reach x n t : lreach (lock_init x n) t → stuck_inv t.
Proof using Hdiff.
  induction 1; [|by eapply stuck_step]. split; cbn; [apply sinv_init|..]; [|done].
  intros p h c i [-> _]%lookup_replicate. done.
Qed.

(** A process that went to sleep in [acquire] never wakes up: the drop of a guard wakes
    another address. *)
Theorem sleep_lock_waiter_stuck x n t t' p :
  lreach (lock_init x n) t → lreach t t' → waits (pos t p) = true →
  asleep (self_at p) (Z.to_nat p) (sys t') ∧ has_guard (pos t' p) = false.
Proof using Hdiff.
  intros Ht%stuck_reach Hr Hw. assert (stuck_inv t' ∧ waits (pos t' p) = true) as [[_ _ Ha] Hw'].
  { induction Hr as [|t1 t2 _ [Hi Hp] Hst]; [done|]. destruct (stuck_step t1 t2 Hi Hst) as [? Hm]. auto. }
  split; [by apply Ha|]. by destruct (pos t' p).
Qed.
End sleeplock.

(** ** Process 0 has the guard; process 1 wants it. *)
Definition plain (a : action) : bool :=
  match a with
  | Find | SwtchSave _ | Swtch _ | PutBack | Yield _ | Timer _ | ForkFind | ForkPut _ | WakeScan | WakeWait => true
  | _ => false
  end.

Lemma lreach_run self_at guard_at t0 sp i f l : ∀ s s',
  forallb (λ '(_, a), plain a) l = true → run_free s l = Some s' →
  lreach self_at guard_at t0 (LSys s sp i f) → lreach self_at guard_at t0 (LSys s' sp i f).
Proof.
  induction l as [|[h a] l IH]; intros s s' Hp Hs Hr; cbn in Hs; [by injection Hs as <-|].
  apply andb_true_iff in Hp as [Ha Hp]. destruct (race_freeb s h a) eqn:Hc; [|done].
  destruct (sstep s h a) as [[s1|]|] eqn:E; try done. apply (IH s1 s' Hp Hs).
  eapply lreach_step; [exact Hr|]. eapply l_other; [|by apply race_freeb_spec|exact E]. by destruct a.
Qed.

(** A local of [acquire] lies in the last page of the kernel stack of its process, and
    so does the guard, at another offset. *)
Definition self0 (p : Z) : Z := 0x80800000 + 0x400000 * p + 0x3fff00.
Definition guard0 (p : Z) : Z := 0x80800000 + 0x400000 * p + 0x3fff80.
Lemma self_guard p q : self0 p ≠ guard0 q.
Proof. unfold self0, guard0. lia. Qed.

Definition acts_two : list (nat * action) := acts_fork ++ [(1, Find); (1, SwtchSave 1); (1, Swtch [1]%Z)]%nat.
Definition two_running : ssys := default sys0 (run_free sys0 acts_two).
Definition at_hart (s : ssys) (h : nat) : Process :=
  match cpus s !! h with Some (SCpu (Some p) _ _ _ _ _) => p | _ => fork_child 0 fp0 end.
Definition lk_held : lsys :=
  LSys two_running None (mkInfo true 0) (upd (upd (λ _, Outside) 0 Testing) 0 HasGuard).

Lemma works0 h : (h < 2)%nat → works two_running h (at_hart two_running h).
Proof. intros Hh. destruct h as [|[|h]]; [..|lia]; eexists; (split; [vm_compute; reflexivity|]); by vm_compute. Qed.
Lemma works_runs s h p : works s h p → runs s h p.
Proof. intros (c & ? & ? & _). by exists c. Qed.

Lemma held_reached : lreach self0 guard0 (lock_init fp0 2) lk_held.
Proof.
  assert (pid (at_hart two_running 0) = 0) as Hp by (by vm_compute).
  assert (run_free sys0 acts_two = Some two_running) as Hrun by (vm_compute; reflexivity).
  pose proof (lreach_run self0 guard0 (lock_init fp0 2) None SleepLock_new (λ _, Outside) acts_two sys0 two_running
    eq_refl Hrun (lreach_refl _ _ _)) as H0.
  pose proof (l_lock self0 guard0 two_running SleepLock_new (λ _, Outside) 0 _ (works0 0 ltac:(lia)) eq_refl) as H1.
  pose proof (l_take self0 guard0 two_running SleepLock_new (upd (λ _, Outside) 0 Testing) 0 _ (works0 0 ltac:(lia))) as H2.
  unfold acquire_take in H2. rewrite Hp in H1, H2.
  exact (lreach_step _ _ _ _ _ (lreach_step _ _ _ _ _ H0 H1) (H2 eq_refl eq_refl)).
Qed.

Lemma sleep_lock_exclusive_witness :
  holding (at_hart two_running 0) (info lk_held) = true ∧
  ∀ p, has_guard (pos lk_held p) = true → p = 0.
Proof.
  destruct (sleep_lock_exclusive self0 guard0 fp0 2 lk_held held_reached) as (Hx & _ & _).
  split; [by vm_compute|]. intros p Hp. apply Hx; [exact Hp|reflexivity].
Defined.

Lemma sleep_lock_waiter_stuck_witness :
  ∃ t, lreach self0 guard0 lk_held t ∧ waits (pos t 1) = true ∧ asleep (self0 1) 1 (sys t) ∧ has_guard (pos t 1) = false.
Proof.
  assert (pid (at_hart two_running 1) = 1) as Hp by (by vm_compute).
  assert (∃ t, lreach self0 guard0 lk_held t ∧ waits (pos t 1) = true) as (t & Ht & Hw).
  { destruct (sstep two_running 1 (Sleep (self0 1))) as [[s'|]|] eqn:E; [|by vm_compute in E..].
    pose proof (l_lock self0 guard0 two_running (info lk_held) (pos lk_held) 1 _ (works0 1 ltac:(lia))) as H1.
    rewrite Hp in H1. specialize (H1 eq_refl).
    pose proof (l_sleep self0 guard0 two_running (info lk_held) (upd (pos lk_held) 1 Testing) 1 _ s'
      (works_runs _ _ _ (works0 1 ltac:(lia)))) as H2. rewrite Hp in H2. specialize (H2 eq_refl eq_refl E).
    eexists. split; [eapply lreach_step; [eapply lreach_step; [apply lreach_refl|exact H1]|exact H2]|reflexivity]. }
  assert (lreach self0 guard0 (lock_init fp0 2) t) as Hr.
  { clear Hw. induction Ht; [apply held_reached|by eapply lreach_step]. }
  exists t. split; [exact Ht|]. split; [exact Hw|].
  apply (sleep_lock_waiter_stuck self0 guard0 self_guard fp0 2 t t 1 Hr (lreach_refl _ _ t) Hw).
Defined.
