(* ===== verification/Virtio.v ===== *)
(** * The virt-io block driver

    [virtio.rs]: the descriptor table, the submission and completion of a request
    ([rw] up to its wait, and after it) and the interrupt handler, as functions on
    the data under the lock of the driver.  [wakeup] acts on the process pool
    (Proc.v); here the channels it is called with are logged in [wakeups].

    The invariant says which descriptors an operation in flight owns; submission,
    completion and interrupt keep it, so that the panics of the driver are out of
    reach. *)

From S2P Require Import Prelude Symbols.

(** ** Data *)
Definition DESC_NUM : Z := 8.
Definition BSIZE : Z := 1024.
Definition VRING_DESC_F_NEXT : Z := 1.
Definition VRING_DESC_F_WRITE : Z := 2.
Definition VIRTIO_BLK_T_IN : Z := 0.
Definition VIRTIO_BLK_T_OUT : Z := 1.
(** [size_of::<VRingDesc>()] is 16, [size_of::<u16>()] is 2 *)
Definition AVAIL_SZ : Z := (PAGE_SIZE - DESC_NUM * 16) / 2.

Record VRingDesc := mkDesc { addr : Z; len : Z; flags : Z; next : Z }.
Definition VRingDesc_new : VRingDesc := mkDesc 0 0 0 0.
Record VRingUsedElem := mkElem { ue_id : Z; ue_len : Z }.
Record UsedArea := mkUsed { ua_flags : Z; ua_id : Z; elems : list VRingUsedElem }.
Definition UsedArea_new : UsedArea := mkUsed 0 0 (replicate (Z.to_nat DESC_NUM) (mkElem 0 0)).
Record Buf := mkBuf { valid : bool; disk : Z; dev : Z; blockno : Z; data : list Z }.
Definition Buf_new : Buf := mkBuf false 0 0 0 (replicate (Z.to_nat BSIZE) 0).
Record BlkOutHdr := mkHdr { blk_type : Z; reserved : Z; sector : Z }.
(** [buf] is a [Box<Buf>]: its address and what is there *)
Record InflightOp := mkOp { buf_at : Z; buf : Buf; status : Z }.

(** [used] is the first of the [DESC_NUM] used areas, the one the driver reads;
    [free_at] is the address of [free[0]], [data_off] the offset of [data] in [Buf]. *)
Record VirtIOData := mkVio {
  desc : list VRingDesc;
  avail : list Z;
  used : UsedArea;
  free : list bool;
  used_idx : Z;
  info : list (option InflightOp);
  free_at : Z;
  wakeups : list Z;
}.
Definition data_off : Z := 16.

Definition VirtIO_new (at_ : Z) : VirtIOData :=
  mkVio (replicate (Z.to_nat DESC_NUM) VRingDesc_new) (replicate (Z.to_nat AVAIL_SZ) 0) UsedArea_new
    (replicate (Z.to_nat DESC_NUM) false) 0 (replicate (Z.to_nat DESC_NUM) None) at_ [].

Implicit Types (v : VirtIOData).

Definition set_desc v (d : list VRingDesc) : VirtIOData :=
  mkVio d (avail v) (used v) (free v) (used_idx v) (info v) (free_at v) (wakeups v).
Definition set_free v (f : list bool) : VirtIOData :=
  mkVio (desc v) (avail v) (used v) f (used_idx v) (info v) (free_at v) (wakeups v).
Definition set_info v (i : list (option InflightOp)) : VirtIOData :=
  mkVio (desc v) (avail v) (used v) (free v) (used_idx v) i (free_at v) (wakeups v).
Definition set_avail v (a : list Z) : VirtIOData :=
  mkVio (desc v) a (used v) (free v) (used_idx v) (info v) (free_at v) (wakeups v).
Definition set_used_idx v (i : Z) : VirtIOData :=
  mkVio (desc v) (avail v) (used v) (free v) i (info v) (free_at v) (wakeups v).
Definition wakeup v (chan : Z) : VirtIOData :=
  mkVio (desc v) (avail v) (used v) (free v) (used_idx v) (info v) (free_at v) (wakeups v ++ [chan]).

(** ** Descriptors *)
Definition free_desc (i : Z) v : result VirtIOData :=
  _ ← panic_if (DESC_NUM <=? i) (Panic "invalid desc");
  f ← aget (free v) i;
  _ ← panic_if f (Panic "already free");
  d ← aget (desc v) i;
  ds ← aset (desc v) i (mkDesc 0 (len d) (flags d) (next d));
  fs ← aset (free v) i true;
  Ok (wakeup (set_free (set_desc v ds) fs) (free_at v)).

Definition alloc_desc v : result (option Z * VirtIOData) :=
  c ← ctl_range 0 DESC_NUM (λ i (_ : unit),
    f ← aget (free v) i;
    if f : bool then fs ← aset (free v) i false; Ok (Stop (i, set_free v fs)) else Ok (Next tt)) tt;
  Ok (match c with Stop (i, v) => (Some i, v) | Next _ => (None, v) end).

Definition alloc3_desc v : result (option (list Z) * VirtIOData) :=
  c ← ctl_range 0 3 (λ i '(idx, v),
    '(o, v) ← alloc_desc v;
    match o with
    | Some x => idx ← aset idx i x; Ok (Next (idx, v))
    | None =>
        v ← for_range 0 i (λ j v, x ← aget idx j; free_desc x v) v;
        Ok (Stop v)
    end) ([0; 0; 0], v);
  Ok (match c with Next (idx, v) => (Some idx, v) | Stop v => (None, v) end).

Fixpoint free_chain (fuel : nat) (i : Z) v : result VirtIOData :=
  match fuel with
  | O => Err NoFuel
  | S fuel =>
      v ← free_desc i v;
      d ← aget (desc v) i;
      if negb (Z.land (flags d) VRING_DESC_F_NEXT =? 0) then free_chain fuel (next d) v
      else Ok v
  end.

(** ** Requests *)
(** [rw] from the allocated descriptors to [QUEUE_NOTIFY]: the request of [b] (at
    [b_at]) is written to the descriptors [idx] and to the avail ring.  [hdr_at] is the
    address of [buf0], [st_at] that of the status byte. *)
Definition rw_header (b : Buf) (write : bool) : result BlkOutHdr :=
  s ← umul 64 (blockno b) (BSIZE / 512);
  Ok (mkHdr (if write then VIRTIO_BLK_T_OUT else VIRTIO_BLK_T_IN) 0 s).

Definition rw_submit (idx : list Z) (b_at : Z) (b : Buf) (hdr_at st_at : Z) (write : bool) v
    : result VirtIOData :=
  i0 ← aget idx 0; i1 ← aget idx 1; i2 ← aget idx 2;
  ds ← aset (desc v) i0 (mkDesc hdr_at 16 VRING_DESC_F_NEXT (as_u 16 i1));
  ds ← aset ds i1 (mkDesc (b_at + data_off) BSIZE
         (Z.lor (if write then 0 else VRING_DESC_F_WRITE) VRING_DESC_F_NEXT) (as_u 16 i2));
  let b := mkBuf (valid b) 1 (dev b) (blockno b) (data b) in
  inf ← aset (info v) i0 (Some (mkOp b_at b 0));
  ds ← aset ds i2 (mkDesc st_at 1 VRING_DESC_F_WRITE 0);
  a1 ← aget (avail v) 1;
  av ← aset (avail v) (2 + a1 mod DESC_NUM) (as_u 16 i0);
  a1 ← aget av 1;
  a1 ← uadd 16 a1 1;
  av ← aset av 1 a1;
  Ok (set_avail (set_info (set_desc v ds) inf) av).

(** [rw]: the condition of the wait, and what follows it *)
Definition rw_waiting (i0 : Z) v : result bool :=
  o ← aget (info v) i0;
  op ← unwrap o;
  Ok (disk (buf op) =? 1).
Definition rw_finish (i0 : Z) v : result (Buf * VirtIOData) :=
  o ← aget (info v) i0;
  inf ← aset (info v) i0 None;
  v ← free_chain (Z.to_nat DESC_NUM + 1) i0 (set_info v inf);
  op ← unwrap o;
  Ok (buf op, v).

(** [virtiointr]: one iteration, and the loop *)
Definition virtiointr_body v : result VirtIOData :=
  e ← aget (elems (used v)) (used_idx v);
  let id := ue_id e in
  o ← aget (info v) id;
  match o with
  | None => Err (Panic "invalid id")
  | Some op =>
      _ ← panic_if (negb (status op =? 0)) (Panic "virtio_disk_intr status status={} id={}");
      let b := buf op in
      let b := mkBuf (valid b) 0 (dev b) (blockno b) (data b) in
      inf ← aset (info v) id (Some (mkOp (buf_at op) b (status op)));
      let v := wakeup (set_info v inf) (buf_at op) in
      u ← uadd 16 (used_idx v) 1;
      Ok (set_used_idx v (u mod DESC_NUM))
  end.
Definition intr_pending v : bool :=
  negb (used_idx v mod DESC_NUM =? ua_id (used v) mod DESC_NUM).
Fixpoint virtiointr (fuel : nat) v : result VirtIOData :=
  if intr_pending v then
    match fuel with
    | O => Err NoFuel
    | S fuel => v ← virtiointr_body v; virtiointr fuel v
    end
  else Ok v.

(** ** Descriptor allocation *)
Definition nfree (l : list bool) : nat := length (base.filter (λ b : bool, b = true) l).

Lemma nfree_cons b l : nfree (b :: l) = ((if b then 1 else 0) + nfree l)%nat.
Proof. unfold nfree. rewrite filter_cons. by destruct b. Qed.

Lemma nfree_take (l : list bool) (i : nat) : l !! i = Some true → nfree l = S (nfree (<[i := false]> l)).
Proof.
  revert i. induction l as [|b l IH]; intros [|i] Hi; try done; simpl in *; rewrite !nfree_cons.
  - by injection Hi as ->.
  - rewrite (IH i Hi). lia.
Qed.

Lemma nfree_none (l : list bool) : (∀ i : nat, l !! i ≠ Some true) → nfree l = 0%nat.
Proof.
  induction l as [|b l IH]; intros H; [done|]. rewrite nfree_cons. destruct b; [by destruct (H 0%nat)|].
  apply IH. intros i. apply (H (S i)).
Qed.

Lemma alloc_desc_spec v :
  length (free v) = Z.to_nat DESC_NUM →
  (∃ i, 0 ≤ i < DESC_NUM ∧ free v !! Z.to_nat i = Some true ∧
     alloc_desc v = Ok (Some i, set_free v (<[Z.to_nat i := false]> (free v)))) ∨
  (nfree (free v) = 0%nat ∧ alloc_desc v = Ok (None, v)).
Proof.
  intros Hlen. unfold alloc_desc. set (body := λ (i : Z) (_ : unit), _).
  assert (Hbody : ∀ (i : Z) (b : bool), 0 ≤ i < DESC_NUM → free v !! Z.to_nat i = Some b →
    body i tt = Ok (if b then Stop (i, set_free v (<[Z.to_nat i := false]> (free v))) else Next tt)).
  { intros i b Hi Hb. unfold body. rewrite (proj2 (aget_Ok (free v) i b)) by (split; [lia|done]).
    rewrite bind_Ok_l. destruct b; [|done].
    rewrite (proj2 (aset_Ok (free v) i false (<[Z.to_nat i := false]> (free v)))); [done|].
    split; [rewrite Hlen; lia|done]. }
  assert (Hget : ∀ i, 0 ≤ i < DESC_NUM → ∃ b, free v !! Z.to_nat i = Some b).
  { intros i Hi. apply lookup_lt_is_Some_2. rewrite Hlen. lia. }
  destruct (ctl_range_outcome body 0 DESC_NUM) as [[H Hp]|(k & Hk & Hp & H & Hne)]; [done|..].
  - right. rewrite H, bind_Ok_l. split; [|done]. apply nfree_none. intros i Hi.
    pose proof (lookup_lt_Some _ _ _ Hi) as Hlt. rewrite Hlen in Hlt.
    assert (0 ≤ Z.of_nat i < DESC_NUM) as Hi' by lia. specialize (Hp _ Hi').
    by rewrite (Hbody _ true) in Hp by (done || by rewrite Nat2Z.id).
  - left. destruct (Hget k) as [b Hb]; [lia|]. exists k. rewrite (Hbody k b) in H, Hne by (done || lia).
    destruct b; [|done]. by rewrite H.
Qed.

Definition freed (i : Z) (d : VRingDesc) v : VirtIOData :=
  wakeup (set_free (set_desc v (<[Z.to_nat i := mkDesc 0 (len d) (flags d) (next d)]> (desc v)))
    (<[Z.to_nat i := true]> (free v))) (free_at v).

Lemma free_desc_spec i d v :
  0 ≤ i < DESC_NUM → free v !! Z.to_nat i = Some false → desc v !! Z.to_nat i = Some d →
  free_desc i v = Ok (freed i d v).
Proof.
  intros Hi Hf Hd. unfold free_desc. rewrite (proj2 (Z.leb_gt _ _)) by lia. cbn [panic_if].
  pose proof (lookup_lt_Some _ _ _ Hf). pose proof (lookup_lt_Some _ _ _ Hd).
  rewrite (proj2 (aget_Ok (free v) i false)), (proj2 (aget_Ok (desc v) i d)) by (split; [lia|done]).
  rewrite !bind_Ok_l. cbn [panic_if]. rewrite bind_Ok_l.
  unfold aset. rewrite !(proj2 (in_range_true _ _)) by lia. done.
Qed.

(** Equal but for the addresses of free descriptors and the wakeups *)
Record rolled_back v v' : Prop := {
  rb_free : free v' = free v;
  rb_desc : length (desc v') = length (desc v) ∧
    ∀ i, free v !! i = Some false → desc v' !! i = desc v !! i;
  rb_rest : avail v' = avail v ∧ used v' = used v ∧ used_idx v' = used_idx v ∧ info v' = info v ∧
    free_at v' = free_at v;
}.

Lemma rolled_back_refl v : rolled_back v v.
Proof. by split. Qed.

(** Freeing what was just taken *)
Lemma freed_undo i d v v1 :
  rolled_back (set_free v (<[Z.to_nat i := false]> (free v))) v1 → free v !! Z.to_nat i = Some true →
  rolled_back v (freed i d v1).
Proof.
  intros [Hf [Hl Hd] Hr] Hi. cbn in *. split; cbn.
  - rewrite Hf, list_insert_insert_eq. by apply list_insert_id.
  - split; [by rewrite length_insert|]. intros j Hj. assert (Z.to_nat i ≠ j) by congruence.
    rewrite list_lookup_insert_ne by done. apply Hd. by rewrite list_lookup_insert_ne.
  - done.
Qed.

Lemma rolled_back_get v v' i :
  rolled_back v v' → length (desc v) = Z.to_nat DESC_NUM → 0 ≤ i < DESC_NUM →
  ∃ d, desc v' !! Z.to_nat i = Some d.
Proof. intros [_ [Hl _] _] Hlen Hi. apply lookup_lt_is_Some_2. rewrite Hl, Hlen. lia. Qed.

Definition taken (idx : list Z) v : VirtIOData :=
  set_free v (foldl (λ f i, <[Z.to_nat i := false]> f) (free v) idx).

Lemma alloc3_desc_spec v :
  length (free v) = Z.to_nat DESC_NUM → length (desc v) = Z.to_nat DESC_NUM →
  ((3 ≤ nfree (free v))%nat ∧
   ∃ i0 i1 i2, alloc3_desc v = Ok (Some [i0; i1; i2], taken [i0; i1; i2] v) ∧
     (i0 ≠ i1 ∧ i0 ≠ i2 ∧ i1 ≠ i2) ∧
     Forall (λ i, 0 ≤ i < DESC_NUM ∧ free v !! Z.to_nat i = Some true) [i0; i1; i2]) ∨
  ((nfree (free v) < 3)%nat ∧ ∃ v', alloc3_desc v = Ok (None, v') ∧ rolled_back v v').
Proof.
  intros Hlf Hld. unfold alloc3_desc.
  change (ctl_range 0 3 ?b ?x) with (ctl_loop 3 0 b x). cbn [ctl_loop].
  destruct (alloc_desc_spec v Hlf) as [(i0 & H0 & F0 & E0)|[N0 E0]]; rewrite E0, bind_Ok_l; last first.
  { right. split; [lia|]. exists v. split; [done|apply rolled_back_refl]. }
  change (aset [0; 0; 0] 0 i0) with (Ok [i0; 0; 0]). change (0 + 1) with 1. rewrite !bind_Ok_l. cbn beta iota.
  set (v1 := set_free v (<[Z.to_nat i0 := false]> (free v))) in *.
  pose proof (nfree_take _ _ F0) as C0.
  assert (Hl1 : length (free v1) = Z.to_nat DESC_NUM) by (cbn; by rewrite length_insert).
  destruct (alloc_desc_spec v1 Hl1) as [(i1 & H1 & F1 & E1)|[N1 E1]]; rewrite E1, bind_Ok_l; last first.
  { right. cbn [v1 free set_free] in N1. split; [lia|]. exists (freed i0 (default VRingDesc_new (desc v1 !! Z.to_nat i0)) v1).
    split; [|by apply freed_undo; [apply rolled_back_refl|]].
    change (for_range 0 1 (λ j v, x ← aget [i0; 0; 0] j; free_desc x v) v1) with (w ← free_desc i0 v1; Ok w).
    destruct (rolled_back_get v1 v1 i0) as [d Hd]; [done..|]. rewrite Hd.
    rewrite (free_desc_spec i0 d v1); [done..| |done]. cbn. apply list_lookup_insert_eq. rewrite Hlf. lia. }
  change (aset [i0; 0; 0] 1 i1) with (Ok [i0; i1; 0]). change (1 + 1) with 2. rewrite !bind_Ok_l. cbn beta iota.
  set (v2 := set_free v1 (<[Z.to_nat i1 := false]> (free v1))) in *.
  pose proof (nfree_take _ _ F1) as C1.
  assert (Hl2 : length (free v2) = Z.to_nat DESC_NUM) by (cbn; by rewrite !length_insert).
  assert (i0 ≠ i1) as N01.
  { intros ->. cbn in F1. rewrite list_lookup_insert_eq in F1; [done|]. rewrite Hlf. lia. }
  assert (free v !! Z.to_nat i1 = Some true) as F1'.
  { cbn in F1. rewrite list_lookup_insert_ne in F1 by lia. done. }
  destruct (alloc_desc_spec v2 Hl2) as [(i2 & H2 & F2 & E2)|[N2 E2]]; rewrite E2, bind_Ok_l.
  - left. pose proof (nfree_take _ _ F2) as C2. cbn [v1 v2 free set_free] in C1, C2. split; [lia|].
    exists i0, i1, i2. change (aset [i0; i1; 0] 2 i2) with (Ok [i0; i1; i2]). rewrite bind_Ok_l.
    assert (i0 ≠ i2 ∧ i1 ≠ i2) as [N02 N12].
    { cbn in F2. split; intros ->.
      - rewrite list_lookup_insert_ne in F2 by lia. rewrite list_lookup_insert_eq in F2; [done|]. rewrite Hlf. lia.
      - rewrite list_lookup_insert_eq in F2; [done|]. rewrite length_insert, Hlf. lia. }
    split; [done|]. split.
    + done.
    + cbn in F2. rewrite !list_lookup_insert_ne in F2 by lia. by rewrite !list.Forall_cons, list.Forall_nil.
  - right. cbn [v1 v2 free set_free] in N2, C1. split; [lia|].
    destruct (rolled_back_get v2 v2 i0) as [d0 Hd0]; [apply rolled_back_refl|done|done|].
    assert (free v2 !! Z.to_nat i0 = Some false) as F20.
    { cbn. rewrite list_lookup_insert_ne by lia. apply list_lookup_insert_eq. rewrite Hlf. lia. }
    assert (∃ d1, desc (freed i0 d0 v2) !! Z.to_nat i1 = Some d1) as [d1 Hd1].
    { apply lookup_lt_is_Some_2. cbn. rewrite length_insert, Hld. lia. }
    exists (freed i1 d1 (freed i0 d0 v2)). split.
    + change (for_range 0 2 (λ j v, x ← aget [i0; i1; 0] j; free_desc x v) v2)
        with (w ← free_desc i0 v2; w ← free_desc i1 w; Ok w).
      rewrite (free_desc_spec i0 d0 v2) by done. rewrite bind_Ok_l.
      rewrite (free_desc_spec i1 d1 (freed i0 d0 v2)); [done|done| |done].
      cbn. rewrite list_lookup_insert_ne by lia. apply list_lookup_insert_eq. rewrite length_insert, Hlf. lia.
    + apply freed_undo; [|done]. apply freed_undo.
      * cbn. unfold v2, v1. cbn. rewrite list_insert_insert_ne by lia. apply rolled_back_refl.
      * cbn. by rewrite list_lookup_insert_ne by lia.
Qed.

(** ** Which descriptors an operation owns *)
(** [ops]: the operations in flight, head to middle and tail descriptor *)
Notation Ops := (gmap Z (Z * Z)).
Definition chain (h : Z) (mt : Z * Z) (i : Z) : Prop := i = h ∨ i = mt.1 ∨ i = mt.2.
Definition links (d : VRingDesc) : bool := negb (Z.land (flags d) VRING_DESC_F_NEXT =? 0).

Record chain_ok v (h m t : Z) : Prop := {
  ch_ne : h ≠ m ∧ h ≠ t ∧ m ≠ t;
  ch_range : 0 ≤ h < DESC_NUM ∧ 0 ≤ m < DESC_NUM ∧ 0 ≤ t < DESC_NUM;
  ch_head : ∃ d, desc v !! Z.to_nat h = Some d ∧ links d = true ∧ next d = m;
  ch_mid : ∃ d, desc v !! Z.to_nat m = Some d ∧ links d = true ∧ next d = t;
  ch_tail : ∃ d, desc v !! Z.to_nat t = Some d ∧ links d = false;
  ch_op : ∃ op, info v !! Z.to_nat h = Some (Some op);
}.
Definition sized v : Prop :=
  length (desc v) = Z.to_nat DESC_NUM ∧ length (free v) = Z.to_nat DESC_NUM ∧
  length (info v) = Z.to_nat DESC_NUM ∧ length (avail v) = Z.to_nat AVAIL_SZ.
Record vinv v (ops : Ops) : Prop := {
  vi_len : sized v;
  vi_chain : ∀ h mt, ops !! h = Some mt → chain_ok v h mt.1 mt.2;
  vi_disj : ∀ h1 h2 mt1 mt2 i, ops !! h1 = Some mt1 → ops !! h2 = Some mt2 →
            chain h1 mt1 i → chain h2 mt2 i → h1 = h2;
  vi_busy : ∀ i, 0 ≤ i < DESC_NUM →
            free v !! Z.to_nat i = Some false ↔ ∃ h mt, ops !! h = Some mt ∧ chain h mt i;
  vi_info : ∀ i op, info v !! i = Some (Some op) → is_Some (ops !! Z.of_nat i);
}.

Lemma chain_range v ops h mt i :
  vinv v ops → ops !! h = Some mt → chain h mt i → 0 ≤ i < DESC_NUM.
Proof. intros Hv Ho Hc. destruct (ch_range _ _ _ _ (vi_chain v ops Hv h mt Ho)) as (? & ? & ?). by destruct Hc as [->|[->| ->]]. Qed.

(** A state that agrees on the descriptors of the operations keeps their chains. *)
Lemma chain_ok_ext v v' h m t :
  chain_ok v h m t → (∀ i, chain h (m, t) i → desc v' !! Z.to_nat i = desc v !! Z.to_nat i) →
  (∀ op, info v !! Z.to_nat h = Some (Some op) → ∃ op', info v' !! Z.to_nat h = Some (Some op')) →
  chain_ok v' h m t.
Proof.
  intros [Hn Hr Hh Hm Ht [op Hop]] Hd Hi. unfold chain in Hd. cbn in Hd.
  split; [done|done|..]; rewrite ?Hd by auto; try done. by eapply Hi.
Qed.

Lemma rolled_back_inv v v' ops : rolled_back v v' → vinv v ops → vinv v' ops.
Proof.
  intros [Hf [Hl Hd] (Ha & _ & _ & Hi & _)] Hv. pose proof Hv as [(? & ? & ? & ?) Hc Hdj Hb Hin].
  split; unfold sized; rewrite ?Hf, ?Hi, ?Ha, ?Hl; try done. intros h mt Ho.
  eapply chain_ok_ext; [by apply Hc| |].
  - intros i Hci. apply Hd. apply Hb; [by eapply chain_range|]. exists h, mt. split; [done|]. by destruct mt.
  - intros op Hop. rewrite Hi. eauto.
Qed.

(** ** Submission *)
Definition submitted (i0 i1 i2 b_at : Z) (b : Buf) (hdr_at st_at : Z) (write : bool) (a1 : Z) v : VirtIOData :=
  let ds := <[Z.to_nat i0 := mkDesc hdr_at 16 VRING_DESC_F_NEXT i1]> (desc v) in
  let ds := <[Z.to_nat i1 := mkDesc (b_at + data_off) BSIZE
              (Z.lor (if write then 0 else VRING_DESC_F_WRITE) VRING_DESC_F_NEXT) i2]> ds in
  let ds := <[Z.to_nat i2 := mkDesc st_at 1 VRING_DESC_F_WRITE 0]> ds in
  let inf := <[Z.to_nat i0 := Some (mkOp b_at (mkBuf (valid b) 1 (dev b) (blockno b) (data b)) 0)]> (info v) in
  let av := <[Z.to_nat 1 := a1 + 1]> (<[Z.to_nat (2 + a1 mod DESC_NUM) := i0]> (avail v)) in
  set_avail (set_info (set_desc v ds) inf) av.

Lemma aset_in {A} (l : list A) i x n :
  length l = Z.to_nat n → 0 ≤ i < n → aset l i x = Ok (<[Z.to_nat i := x]> l).
Proof. intros Hl Hi. apply aset_Ok. split; [lia|done]. Qed.

Lemma AVAIL_SZ_eq : AVAIL_SZ = 1984.
Proof. done. Qed.

Lemma u16_desc i : 0 ≤ i < DESC_NUM → as_u 16 i = i.
Proof. intros Hi. apply as_u_id; [unfold is_u, DESC_NUM in *; lia|done]. Qed.

Lemma rw_submit_spec v i0 i1 i2 b_at b hdr_at st_at write a1 :
  sized v → 0 ≤ i0 < DESC_NUM → 0 ≤ i1 < DESC_NUM → 0 ≤ i2 < DESC_NUM →
  avail v !! 1%nat = Some a1 → 0 ≤ a1 →
  rw_submit [i0; i1; i2] b_at b hdr_at st_at write v =
    if a1 + 1 <? 2 ^ 16 then Ok (submitted i0 i1 i2 b_at b hdr_at st_at write a1 v) else Err Overflow.
Proof.
  intros (Ld & Lf & Li & La) H0 H1 H2 Ha Ha0.
  assert (0 ≤ a1 mod DESC_NUM < DESC_NUM) as Hm by (apply Z.mod_pos_bound; done).
  unfold rw_submit. change (aget [i0; i1; i2] 0) with (Ok i0). change (aget [i0; i1; i2] 1) with (Ok i1).
  change (aget [i0; i1; i2] 2) with (Ok i2). rewrite !bind_Ok_l, !u16_desc by done.
  rewrite (aset_in (desc v) i0 _ DESC_NUM) by done. rewrite bind_Ok_l.
  rewrite (aset_in _ i1 _ DESC_NUM) by (done || by rewrite length_insert). rewrite bind_Ok_l.
  rewrite (aset_in (info v) i0 _ DESC_NUM) by done. rewrite bind_Ok_l.
  rewrite (aset_in _ i2 _ DESC_NUM) by (done || by rewrite !length_insert). rewrite bind_Ok_l.
  rewrite (proj2 (aget_Ok (avail v) 1 a1)) by done. rewrite bind_Ok_l.
  rewrite (aset_in (avail v) (2 + a1 mod DESC_NUM) _ AVAIL_SZ) by
    (done || (rewrite AVAIL_SZ_eq; unfold DESC_NUM in *; lia)). rewrite bind_Ok_l.
  rewrite (proj2 (aget_Ok _ 1 a1)).
  - rewrite bind_Ok_l. unfold uadd. destruct (a1 + 1 <? 2 ^ 16); [|done]. rewrite bind_Ok_l.
    rewrite (aset_in _ 1 _ AVAIL_SZ); [done|by rewrite length_insert|by rewrite AVAIL_SZ_eq].
  - split; [done|]. rewrite list_lookup_insert_ne; [done|lia].
Qed.

Lemma submitted_desc v i0 i1 i2 b_at b ha sa w a1 (i : nat) :
  sized v → 0 ≤ i0 < DESC_NUM → 0 ≤ i1 < DESC_NUM → 0 ≤ i2 < DESC_NUM →
  i0 ≠ i1 ∧ i0 ≠ i2 ∧ i1 ≠ i2 →
  desc (submitted i0 i1 i2 b_at b ha sa w a1 v) !! i =
    if decide (i = Z.to_nat i0) then Some (mkDesc ha 16 VRING_DESC_F_NEXT i1)
    else if decide (i = Z.to_nat i1) then
      Some (mkDesc (b_at + data_off) BSIZE (Z.lor (if w then 0 else VRING_DESC_F_WRITE) VRING_DESC_F_NEXT) i2)
    else if decide (i = Z.to_nat i2) then Some (mkDesc sa 1 VRING_DESC_F_WRITE 0)
    else desc v !! i.
Proof.
  intros (Ld & _) H0 H1 H2 (N1 & N2 & N3). cbn [submitted desc set_avail set_info set_desc].
  destruct (decide (i = Z.to_nat i0)) as [->|].
  { rewrite !list_lookup_insert_ne by lia. apply list_lookup_insert_eq. lia. }
  destruct (decide (i = Z.to_nat i1)) as [->|].
  { rewrite list_lookup_insert_ne by lia. apply list_lookup_insert_eq. rewrite length_insert. lia. }
  destruct (decide (i = Z.to_nat i2)) as [->|]; [|by rewrite !list_lookup_insert_ne by lia].
  apply list_lookup_insert_eq. rewrite !length_insert. lia.
Qed.

Lemma taken_free v i0 i1 i2 (i : nat) :
  length (free v) = Z.to_nat DESC_NUM →
  0 ≤ i0 < DESC_NUM → 0 ≤ i1 < DESC_NUM → 0 ≤ i2 < DESC_NUM →
  free (taken [i0; i1; i2] v) !! i =
    if decide (i = Z.to_nat i0 ∨ i = Z.to_nat i1 ∨ i = Z.to_nat i2) then Some false else free v !! i.
Proof.
  intros Hl H0 H1 H2. cbn. destruct (decide _) as [Hi|Hi].
  - destruct (decide (i = Z.to_nat i2)) as [->|]; [apply list_lookup_insert_eq; rewrite !length_insert; lia|].
    rewrite list_lookup_insert_ne by done.
    destruct (decide (i = Z.to_nat i1)) as [->|]; [apply list_lookup_insert_eq; rewrite !length_insert; lia|].
    rewrite list_lookup_insert_ne by done. destruct Hi as [->|[?|?]]; [|done..].
    apply list_lookup_insert_eq. lia.
  - rewrite !list_lookup_insert_ne by naive_solver. done.
Qed.

(** The new operation owns its three descriptors; the others keep theirs. *)
Lemma submit_inv v ops i0 i1 i2 b_at b ha sa w a1 :
  vinv v ops → i0 ≠ i1 ∧ i0 ≠ i2 ∧ i1 ≠ i2 →
  Forall (λ i, 0 ≤ i < DESC_NUM ∧ free v !! Z.to_nat i = Some true) [i0; i1; i2] →
  let v' := submitted i0 i1 i2 b_at b ha sa w a1 (taken [i0; i1; i2] v) in
  vinv v' (<[i0 := (i1, i2)]> ops).
Proof.
  intros Hv Hne Hall v'. rewrite !list.Forall_cons in Hall.
  destruct Hall as ([H0 F0] & [H1 F1] & [H2 F2] & _). pose proof Hv as [(Ld & Lf & Li & La) Hc Hdj Hb Hin].
  assert (Hnew : ∀ h mt i, ops !! h = Some mt → chain h mt i → i ≠ i0 ∧ i ≠ i1 ∧ i ≠ i2).
  { intros h mt i Ho Hci. assert (free v !! Z.to_nat i = Some false).
    { apply Hb; [by eapply chain_range|eauto]. }
    split_and!; congruence. }
  assert (ops !! i0 = None) as Hi0.
  { destruct (ops !! i0) as [mt|] eqn:E; [|done]. by destruct (Hnew i0 mt i0 E); [left|]. }
  assert (sized (taken [i0; i1; i2] v)) as Hsz by (unfold sized; cbn; by rewrite !length_insert).
  pose proof (λ i, submitted_desc _ i0 i1 i2 b_at b ha sa w a1 i Hsz H0 H1 H2 Hne) as Hdesc.
  fold v' in Hdesc.
  split.
  - unfold v', sized. cbn. by rewrite !length_insert.
  - intros h mt [[<- <-]|[Hh Ho]]%lookup_insert_Some; cbn [fst snd].
    + split; [done|done|..]; rewrite ?Hdesc.
      * rewrite decide_True by done. eexists. split; [done|]. done.
      * rewrite decide_False, decide_True by (done || lia). eexists. split; [done|]. by destruct w.
      * rewrite decide_False, decide_False, decide_True by (done || lia). eexists. by split.
      * unfold v'. cbn. eexists. apply list_lookup_insert_eq. lia.
    + eapply (chain_ok_ext v); [by apply Hc| |].
      * intros i Hci. assert (chain h mt i) as Hci' by (by destruct mt).
        pose proof (chain_range v ops h mt i Hv Ho Hci').
        destruct (Hnew h mt i Ho Hci') as (? & ? & ?). rewrite Hdesc, !decide_False by lia. done.
      * intros op Hop. exists op. unfold v'. cbn. rewrite list_lookup_insert_ne; [done|].
        pose proof (chain_range v ops h mt h Hv Ho (or_introl eq_refl)). lia.
  - intros h1 h2 mt1 mt2 i [[<- <-]|[N1 O1]]%lookup_insert_Some [[<- <-]|[N2 O2]]%lookup_insert_Some C1 C2;
      [done|exfalso|exfalso|by eapply Hdj].
    + destruct (Hnew h2 mt2 i O2 C2) as (? & ? & ?). by destruct C1 as [?|[?|?]].
    + destruct (Hnew h1 mt1 i O1 C1) as (? & ? & ?). by destruct C2 as [?|[?|?]].
  - intros i Hi. change (free v') with (free (taken [i0; i1; i2] v)). rewrite taken_free by done.
    destruct (decide _) as [Hd|Hd].
    + split; [intros _|done]. exists i0, (i1, i2). split; [by apply lookup_insert_eq|]. unfold chain. cbn. lia.
    + rewrite Hb by done. split.
      * intros (h & mt & Ho & Hci). exists h, mt. split; [|done]. rewrite lookup_insert_ne; [done|]. congruence.
      * intros (h & mt & [[<- <-]|[_ Ho]]%lookup_insert_Some & Hci); [|eauto]. exfalso. apply Hd.
        unfold chain in Hci. cbn in Hci. naive_solver.
  - intros i op. unfold v'. cbn. intros [(<- & _ & _)|[Hne' Hop]]%list_lookup_insert_Some.
    + rewrite Z2Nat.id by lia. rewrite lookup_insert_eq. eauto.
    + destruct (Hin i op Hop) as [mt Hmt]. exists mt. rewrite lookup_insert_ne; [done|]. lia.
Qed.

(** ** Completion *)
Lemma free_chain_step f i d v :
  0 ≤ i < DESC_NUM → free v !! Z.to_nat i = Some false → desc v !! Z.to_nat i = Some d →
  free_chain (S f) i v = if links d then free_chain f (next d) (freed i d v) else Ok (freed i d v).
Proof.
  intros Hi Hf Hd. cbn [free_chain]. rewrite (free_desc_spec i d v) by done. rewrite bind_Ok_l.
  pose proof (lookup_lt_Some _ _ _ Hd).
  rewrite (proj2 (aget_Ok _ i (mkDesc 0 (len d) (flags d) (next d)))); [done|].
  split; [lia|]. cbn. by apply list_lookup_insert_eq.
Qed.

Lemma freed_other i d v (j : nat) :
  j ≠ Z.to_nat i → free (freed i d v) !! j = free v !! j ∧ desc (freed i d v) !! j = desc v !! j.
Proof. intros Hj. cbn. by rewrite !list_lookup_insert_ne. Qed.

Definition finished (h m t : Z) (dh dm dt : VRingDesc) v : VirtIOData :=
  freed t dt (freed m dm (freed h dh (set_info v (<[Z.to_nat h := None]> (info v))))).

Lemma rw_finish_spec v ops h m t :
  vinv v ops → ops !! h = Some (m, t) →
  ∃ op dh dm dt, info v !! Z.to_nat h = Some (Some op) ∧
    rw_finish h v = Ok (buf op, finished h m t dh dm dt v).
Proof.
  intros Hv Ho. pose proof (vi_chain v ops Hv h _ Ho) as [(N1 & N2 & N3) (R1 & R2 & R3)
    (dh & Dh & Lh & Nh) (dm & Dm & Lm & Nm) (dt & Dt & Lt) [op Hop]]. cbn [fst snd] in *.
  destruct (vi_len v ops Hv) as (Ld & Lf & Li & La).
  assert (Hb : ∀ i, chain h (m, t) i → 0 ≤ i < DESC_NUM → free v !! Z.to_nat i = Some false).
  { intros i Hi Hr. apply (vi_busy v ops Hv); eauto. }
  exists op, dh, dm, dt. split; [done|]. unfold rw_finish.
  rewrite (proj2 (aget_Ok (info v) h (Some op))) by (split; [lia|done]). rewrite bind_Ok_l.
  rewrite (aset_in (info v) h _ DESC_NUM) by done. rewrite bind_Ok_l.
  set (v1 := set_info v (<[Z.to_nat h := None]> (info v))).
  change (Z.to_nat DESC_NUM + 1)%nat with 9%nat.
  rewrite (free_chain_step _ h dh v1), Lh, Nh by (done || (apply Hb; [by left|done])).
  destruct (freed_other h dh v1 (Z.to_nat m)) as [E1 E2]; [lia|].
  rewrite (free_chain_step _ m dm), Lm, Nm;
    [|done|by rewrite E1; apply Hb; [right; left|]|by rewrite E2].
  destruct (freed_other h dh v1 (Z.to_nat t)) as [E3 E4]; [lia|].
  destruct (freed_other m dm (freed h dh v1) (Z.to_nat t)) as [E5 E6]; [lia|].
  rewrite (free_chain_step _ t dt), Lt;
    [|done|by rewrite E5, E3; apply Hb; [right; right|]|by rewrite E6, E4].
  done.
Qed.

Lemma finished_inv v ops h m t dh dm dt :
  vinv v ops → ops !! h = Some (m, t) → vinv (finished h m t dh dm dt v) (delete h ops).
Proof.
  intros Hv Ho. pose proof Hv as [(Ld & Lf & Li & La) Hc Hdj Hb Hin].
  destruct (ch_range _ _ _ _ (Hc h _ Ho)) as (R1 & R2 & R3). cbn [fst snd] in *.
  assert (Hsame : ∀ i, 0 ≤ i → ¬ chain h (m, t) i →
    free (finished h m t dh dm dt v) !! Z.to_nat i = free v !! Z.to_nat i ∧
    desc (finished h m t dh dm dt v) !! Z.to_nat i = desc v !! Z.to_nat i).
  { intros i Hi Hn. unfold chain in Hn. cbn in Hn. cbn. rewrite !list_lookup_insert_ne by lia. done. }
  assert (Hoth : ∀ h' mt i, delete h ops !! h' = Some mt → chain h' mt i → ¬ chain h (m, t) i).
  { intros h' mt i [Hne Ho']%lookup_delete_Some Hci Hci'. apply Hne. by eapply Hdj. }
  split.
  - unfold sized. cbn. by rewrite !length_insert.
  - intros h' mt Ho'. pose proof Ho' as [Hne Ho2]%lookup_delete_Some.
    eapply (chain_ok_ext v); [by apply Hc| |].
    + intros i Hci. assert (chain h' mt i) as Hci' by (by destruct mt). apply Hsame; [|by eapply Hoth].
      by apply (chain_range v ops h' mt i).
    + intros op Hop. exists op. cbn. rewrite list_lookup_insert_ne; [done|].
      pose proof (chain_range v ops h' mt h' Hv Ho2 (or_introl eq_refl)). lia.
  - intros h1 h2 mt1 mt2 i [_ O1]%lookup_delete_Some [_ O2]%lookup_delete_Some. by apply Hdj.
  - intros i Hi. destruct (decide (i = h ∨ i = m ∨ i = t)) as [Hci|Hci].
    + split.
      * assert (free (finished h m t dh dm dt v) !! Z.to_nat i = Some true); [|congruence].
        cbn. destruct (decide (i = t)) as [->|]; [apply list_lookup_insert_eq; rewrite !length_insert; lia|].
        rewrite list_lookup_insert_ne by lia.
        destruct (decide (i = m)) as [->|]; [apply list_lookup_insert_eq; rewrite !length_insert; lia|].
        rewrite list_lookup_insert_ne by lia. destruct Hci as [->|[?|?]]; [|done..].
        apply list_lookup_insert_eq. lia.
      * intros (h' & mt & Ho' & Hci'). by destruct (Hoth h' mt i Ho' Hci').
    + destruct (Hsame i) as [-> _]; [lia|done|]. rewrite Hb by done. split.
      * intros (h' & mt & Ho' & Hci'). exists h', mt. split; [|done]. apply lookup_delete_Some.
        split; [|done]. intros <-. rewrite Ho in Ho'. by injection Ho' as <-.
      * intros (h' & mt & [_ Ho']%lookup_delete_Some & Hci'). eauto.
  - intros i op. cbn. intros [(_ & ? & _)|[Hne Hop]]%list_lookup_insert_Some; [done|].
    destruct (Hin i op Hop) as [mt Hmt]. exists mt. apply lookup_delete_Some. split; [lia|done].
Qed.

(** ** Interrupt *)
(** The completed elements the device has published and the handler has not seen *)
Definition npending v : Z := (ua_id (used v) - used_idx v) mod DESC_NUM.
Record pending_ok v (ops : Ops) : Prop := {
  po_idx : 0 ≤ used_idx v < DESC_NUM;
  po_len : length (elems (used v)) = Z.to_nat DESC_NUM;
  po_ids : ∀ k, 0 ≤ k < npending v → ∃ e op,
    elems (used v) !! Z.to_nat ((used_idx v + k) mod DESC_NUM) = Some e ∧
    0 ≤ ue_id e ∧ info v !! Z.to_nat (ue_id e) = Some (Some op) ∧ status op = 0;
}.
Definition completed (op : InflightOp) : InflightOp :=
  let b := buf op in mkOp (buf_at op) (mkBuf (valid b) 0 (dev b) (blockno b) (data b)) (status op).
Definition intr_next (id : Z) (op : InflightOp) v : VirtIOData :=
  set_used_idx (wakeup (set_info v (<[Z.to_nat id := Some (completed op)]> (info v))) (buf_at op))
    ((used_idx v + 1) mod DESC_NUM).

Lemma mod_succ a b : 0 ≤ a < DESC_NUM → (b - a) mod DESC_NUM ≠ 0 →
  (b - (a + 1) mod DESC_NUM) mod DESC_NUM = (b - a) mod DESC_NUM - 1.
Proof.
  intros Ha Hne. unfold DESC_NUM in *.
  assert ((b - (a + 1) mod 8) mod 8 = (b - a - 1) mod 8) as ->.
  { rewrite Zminus_mod_idemp_r. f_equal. lia. }
  pose proof (Z.mod_pos_bound (b - a) 8). rewrite <- (Zminus_mod_idemp_l (b - a) 1).
  apply Z.mod_small. lia.
Qed.

Lemma intr_pending_npending v : 0 ≤ used_idx v < DESC_NUM → intr_pending v = negb (npending v =? 0).
Proof.
  intros Hi. unfold intr_pending, npending. f_equal. rewrite (Z.mod_small (used_idx v)) by done.
  pose proof (Z.mod_pos_bound (ua_id (used v)) DESC_NUM ltac:(done)).
  rewrite <- Zminus_mod_idemp_l.
  destruct (Z.eqb_spec (used_idx v) (ua_id (used v) mod DESC_NUM)) as [<-|Hne].
  - by rewrite Z.sub_diag.
  - symmetry. apply Z.eqb_neq. intros [q Hq]%Z.mod_divide; [|done]. unfold DESC_NUM in *. lia.
Qed.

(** [id] is among the completed elements. *)
Definition pending_id v (id : nat) : Prop :=
  ∃ k e, 0 ≤ k < npending v ∧ elems (used v) !! Z.to_nat ((used_idx v + k) mod DESC_NUM) = Some e ∧
    Z.to_nat (ue_id e) = id.

Lemma pending_id_step v e op i :
  0 ≤ used_idx v < DESC_NUM → 0 < npending v → elems (used v) !! Z.to_nat (used_idx v) = Some e →
  npending (intr_next (ue_id e) op v) = npending v - 1 →
  pending_id v i ↔ i = Z.to_nat (ue_id e) ∨ pending_id (intr_next (ue_id e) op v) i.
Proof.
  intros Hi Hp He Hn. split.
  - intros (k & e' & Hk & He' & <-). destruct (decide (k = 0)) as [->|Hne].
    + rewrite Z.add_0_r, Z.mod_small in He' by done. left. congruence.
    + right. exists (k - 1), e'. rewrite Hn. split; [lia|]. split; [|done]. cbn.
      rewrite Zplus_mod_idemp_l. by replace (used_idx v + 1 + (k - 1)) with (used_idx v + k) by lia.
  - intros [->|(k & e' & Hk & He' & <-)].
    + exists 0, e. split; [lia|]. by rewrite Z.add_0_r, Z.mod_small by done.
    + exists (k + 1), e'. rewrite Hn in Hk. split; [lia|]. split; [|done]. cbn in He'.
      rewrite Zplus_mod_idemp_l in He'. by replace (used_idx v + (k + 1)) with (used_idx v + 1 + k) by lia.
Qed.

(** A state that differs in the contents of the operations only keeps the invariant. *)
Lemma vinv_ext v v' ops :
  vinv v ops → desc v' = desc v → free v' = free v → length (avail v') = length (avail v) →
  length (info v') = length (info v) →
  (∀ i op, info v !! i = Some (Some op) → ∃ op', info v' !! i = Some (Some op')) →
  (∀ i op', info v' !! i = Some (Some op') → ∃ op, info v !! i = Some (Some op)) → vinv v' ops.
Proof.
  intros [(Ld & Lf & Li & La) Hc Hdj Hbu Hin] Ed Ef Ea Ei H1 H2. split; [|..|done| |].
  - unfold sized. by rewrite Ed, Ef, Ea, Ei.
  - intros h mt Ho. eapply (chain_ok_ext v); [by apply Hc|by rewrite Ed|apply H1].
  - by rewrite Ef.
  - intros i op' Hop'. destruct (H2 i op' Hop') as [op Hop]. by eapply Hin.
Qed.

Lemma vinv_set_op v ops i op op' :
  vinv v ops → info v !! i = Some (Some op) → vinv (set_info v (<[i := Some op']> (info v))) ops.
Proof.
  intros Hv Hop. pose proof (lookup_lt_Some _ _ _ Hop). apply (vinv_ext v); cbn; rewrite ?length_insert; try done.
  - intros j opj Hj. destruct (decide (i = j)) as [<-|];
      [eexists; by apply list_lookup_insert_eq|exists opj; by rewrite list_lookup_insert_ne].
  - intros j opj. intros [(<- & _ & _)|[_ ?]]%list_lookup_insert_Some; eauto.
Qed.

Lemma intr_body_ok v e op :
  0 ≤ used_idx v < DESC_NUM → length (info v) = Z.to_nat DESC_NUM →
  elems (used v) !! Z.to_nat (used_idx v) = Some e → 0 ≤ ue_id e →
  info v !! Z.to_nat (ue_id e) = Some (Some op) → status op = 0 →
  virtiointr_body v = Ok (intr_next (ue_id e) op v).
Proof.
  intros Hi Li He Hid Hop Hst. pose proof (lookup_lt_Some _ _ _ Hop) as Hlt.
  unfold virtiointr_body. rewrite (proj2 (aget_Ok _ _ e)) by (split; [lia|done]). rewrite bind_Ok_l.
  rewrite (proj2 (aget_Ok (info v) (ue_id e) (Some op))) by done. rewrite bind_Ok_l, Hst. cbn [Z.eqb negb panic_if].
  rewrite bind_Ok_l, (aset_in (info v) _ _ DESC_NUM) by lia. rewrite bind_Ok_l. cbn [used_idx wakeup set_info].
  unfold uadd. rewrite (proj2 (Z.ltb_lt _ _)) by (unfold DESC_NUM in Hi; lia). rewrite bind_Ok_l.
  unfold intr_next, completed. by rewrite Hst.
Qed.

Lemma intr_body_run v ops e op :
  vinv v ops → 0 ≤ used_idx v < DESC_NUM → elems (used v) !! Z.to_nat (used_idx v) = Some e → 0 ≤ ue_id e →
  info v !! Z.to_nat (ue_id e) = Some (Some op) → status op = 0 →
  virtiointr_body v = Ok (intr_next (ue_id e) op v) ∧ vinv (intr_next (ue_id e) op v) ops.
Proof.
  intros Hv Hi He Hid Hop Hst. split; [apply (intr_body_ok v e op); try done; apply (vi_len v ops Hv)|].
  apply (vinv_ext (set_info v (<[Z.to_nat (ue_id e) := Some (completed op)]> (info v)))); try done; [|eauto|eauto].
  by eapply vinv_set_op.
Qed.

Lemma intr_body_spec v ops :
  vinv v ops → pending_ok v ops → npending v ≠ 0 →
  ∃ id op, 0 ≤ id ∧ info v !! Z.to_nat id = Some (Some op) ∧ status op = 0 ∧
    virtiointr_body v = Ok (intr_next id op v) ∧ vinv (intr_next id op v) ops ∧
    pending_ok (intr_next id op v) ops ∧ npending (intr_next id op v) = npending v - 1 ∧
    ∀ i, pending_id v i ↔ i = Z.to_nat id ∨ pending_id (intr_next id op v) i.
Proof.
  intros Hv [Hi Hl Hp] Hn. pose proof (Z.mod_pos_bound (ua_id (used v) - used_idx v) DESC_NUM ltac:(done)) as Hb.
  fold (npending v) in Hb.
  destruct (Hp 0) as (e & op & He & Hid & Hop & Hst); [lia|]. rewrite Z.add_0_r, Z.mod_small in He by done.
  pose proof (lookup_lt_Some _ _ _ Hop) as Hlt. destruct (vi_len v ops Hv) as (Ld & Lf & Li & La).
  destruct (intr_body_run v ops e op Hv Hi He Hid Hop Hst) as [Hrun Hinv].
  exists (ue_id e), op. split_and!; [done..| | |].
  - split; cbn; [by apply Z.mod_pos_bound|done|]. intros k Hk.
    assert (npending (intr_next (ue_id e) op v) = npending v - 1) as En by (by apply mod_succ).
    rewrite En in Hk. destruct (Hp (k + 1)) as (e' & op' & He' & Hid' & Hop' & Hst'); [lia|].
    rewrite Zplus_mod_idemp_l. replace (used_idx v + 1 + k) with (used_idx v + (k + 1)) by lia.
    destruct (decide (Z.to_nat (ue_id e) = Z.to_nat (ue_id e'))) as [E|E].
    + exists e', (completed op). rewrite <- E. split_and!; [done|done|by apply list_lookup_insert_eq|done].
    + exists e', op'. by rewrite list_lookup_insert_ne.
  - by apply mod_succ.
  - intros i. apply pending_id_step; [done|lia|done|by apply mod_succ].
Qed.

(** The handler completes the published operations and touches no other. *)
Record intr_done v v' : Prop := {
  in_done : ∀ i op, info v !! i = Some (Some op) → pending_id v i → info v' !! i = Some (Some (completed op));
  in_rest : ∀ i, ¬ pending_id v i → info v' !! i = info v !! i;
}.

Lemma intr_done_none v : npending v = 0 → intr_done v v.
Proof. intros Hn. split; [|done]. intros i op _ (k & e & Hk & _). lia. Qed.

Lemma intr_done_step v id op v' :
  0 ≤ id → info v !! Z.to_nat id = Some (Some op) →
  (∀ i, pending_id v i ↔ i = Z.to_nat id ∨ pending_id (intr_next id op v) i) →
  (∀ i, pending_id (intr_next id op v) i ∨ ¬ pending_id (intr_next id op v) i) →
  intr_done (intr_next id op v) v' → intr_done v v'.
Proof.
  intros Hid Hop Hp Hdec [Hd Hr]. pose proof (lookup_lt_Some _ _ _ Hop) as Hlt.
  assert (Hhere : info (intr_next id op v) !! Z.to_nat id = Some (Some (completed op))).
  { cbn. by apply list_lookup_insert_eq. }
  assert (Hthere : ∀ i, i ≠ Z.to_nat id → info (intr_next id op v) !! i = info v !! i).
  { intros i Hi. cbn. by rewrite list_lookup_insert_ne. }
  split.
  - intros i op' Hop' Hpi. destruct (decide (i = Z.to_nat id)) as [->|Hne].
    + assert (op' = op) as -> by congruence. destruct (Hdec (Z.to_nat id)) as [Hy|Hn].
      * by rewrite (Hd _ _ Hhere Hy).
      * by rewrite (Hr _ Hn).
    + apply Hp in Hpi as [?|Hpi]; [done|]. apply Hd; [by rewrite Hthere|done].
  - intros i Hn. rewrite Hp in Hn. rewrite Hr, Hthere; naive_solver.
Qed.

Lemma pending_id_dec v i : pending_id v i ∨ ¬ pending_id v i.
Proof.
  assert (∀ n : nat, Z.of_nat n ≤ npending v →
    (∃ k e, 0 ≤ k < Z.of_nat n ∧ elems (used v) !! Z.to_nat ((used_idx v + k) mod DESC_NUM) = Some e ∧
      Z.to_nat (ue_id e) = i) ∨
    ¬ (∃ k e, 0 ≤ k < Z.of_nat n ∧ elems (used v) !! Z.to_nat ((used_idx v + k) mod DESC_NUM) = Some e ∧
      Z.to_nat (ue_id e) = i)) as H.
  { induction n as [|n IH]; intros Hn; [right; intros (k & e & Hk & _); lia|].
    destruct IH as [(k & e & Hk & He)|IH]; [lia|left; exists k, e; split; [lia|done]|].
    destruct (elems (used v) !! Z.to_nat ((used_idx v + Z.of_nat n) mod DESC_NUM)) as [e|] eqn:E.
    - destruct (decide (Z.to_nat (ue_id e) = i)) as [Hi|Hi].
      + left. exists (Z.of_nat n), e. split; [lia|done].
      + right. intros (k & e' & Hk & He' & Hi'). apply IH. exists k, e'. split; [|done].
        destruct (decide (k = Z.of_nat n)) as [->|]; [|lia]. rewrite E in He'. by injection He' as <-.
    - right. intros (k & e' & Hk & He' & Hi'). apply IH. exists k, e'. split; [|done].
      destruct (decide (k = Z.of_nat n)) as [->|]; [congruence|lia]. }
  pose proof (Z.mod_pos_bound (ua_id (used v) - used_idx v) DESC_NUM ltac:(done)) as Hb.
  fold (npending v) in Hb. specialize (H (Z.to_nat (npending v))). rewrite Z2Nat.id in H by lia.
  apply H. lia.
Qed.

Lemma intr_spec ops fuel : ∀ v,
  vinv v ops → pending_ok v ops → npending v ≤ Z.of_nat fuel →
  ∃ v', virtiointr fuel v = Ok v' ∧ vinv v' ops ∧ npending v' = 0 ∧ intr_done v v'.
Proof.
  induction fuel as [|f IH]; intros v Hv Hp Hn;
    pose proof (Z.mod_pos_bound (ua_id (used v) - used_idx v) DESC_NUM ltac:(done)) as Hb;
    fold (npending v) in Hb; cbn [virtiointr]; rewrite intr_pending_npending by apply Hp;
    destruct (Z.eqb_spec (npending v) 0) as [E|E]; cbn [negb];
    try (exists v; split_and!; [done..|by apply intr_done_none]); [lia|].
  destruct (intr_body_spec v ops Hv Hp E) as (id & op & Hid & Hop & _ & -> & Hv' & Hp' & Hn' & Hpi).
  rewrite bind_Ok_l. destruct (IH _ Hv' Hp') as (v' & -> & ? & ? & ?); [lia|].
  exists v'. split_and!; [done..|]. eapply intr_done_step; [done..|apply pending_id_dec|done].
Qed.

(** ** How many operations fit *)
Lemma chains_size (ops : Ops) :
  (∀ h mt, ops !! h = Some mt → h ≠ mt.1 ∧ h ≠ mt.2 ∧ mt.1 ≠ mt.2) →
  (∀ h1 h2 mt1 mt2 i, ops !! h1 = Some mt1 → ops !! h2 = Some mt2 →
     chain h1 mt1 i → chain h2 mt2 i → h1 = h2) →
  ∃ X : gset Z, (∀ i, i ∈ X ↔ ∃ h mt, ops !! h = Some mt ∧ chain h mt i) ∧ size X = (3 * size ops)%nat.
Proof.
  induction ops as [|h [m t] ops Hh IH] using map_ind; intros Hne Hdj.
  { exists ∅. split; [|by rewrite size_empty, map_size_empty]. set_unfold. intros i. naive_solver. }
  destruct IH as (X & HX & Hs).
  { intros h' mt Ho. apply Hne. by rewrite lookup_insert_ne by congruence. }
  { intros h1 h2 mt1 mt2 i O1 O2. apply Hdj; by rewrite lookup_insert_ne by congruence. }
  destruct (Hne h (m, t)) as (N1 & N2 & N3); [by rewrite lookup_insert_eq|]. cbn in *.
  assert (Hmem : ∀ i, i ∈ ({[h; m; t]} : gset Z) ↔ chain h (m, t) i) by (unfold chain; set_solver).
  exists ({[h; m; t]} ∪ X). split.
  - intros i. rewrite elem_of_union, Hmem, HX. split.
    + intros [Hc|(h' & mt & Ho & Hc)]; [exists h, (m, t); by rewrite lookup_insert_eq|].
      exists h', mt. by rewrite lookup_insert_ne by congruence.
    + intros (h' & mt & [[<- <-]|[_ Ho]]%lookup_insert_Some & Hc); [by left|]. right. eauto.
  - rewrite size_union, map_size_insert_None, Hs by
      (done || (apply elem_of_disjoint; intros i Hi%Hmem (h' & mt & Ho & Hc)%HX;
        assert (h = h') as -> by (eapply (Hdj h h' (m, t) mt i); [by rewrite lookup_insert_eq|
          by rewrite lookup_insert_ne by congruence|done|done]); congruence)).
    assert (size ({[h; m; t]} : gset Z) = 3%nat) as ->; [|lia].
    rewrite !size_union, !size_singleton by set_solver. done.
Qed.

Lemma inflight_bound v ops : vinv v ops → (size ops ≤ 2)%nat.
Proof.
  intros Hv. destruct (chains_size ops) as (X & HX & Hs).
  - intros h mt Ho. apply (vi_chain v ops Hv h mt Ho).
  - apply (vi_disj v ops Hv).
  - assert (X ⊆ list_to_set (seqZ 0 8)) as Hsub.
    { intros i (h & mt & Ho & Hc)%HX. apply elem_of_list_to_set, elem_of_seqZ.
      pose proof (chain_range v ops h mt i Hv Ho Hc). unfold DESC_NUM in *. lia. }
    apply subseteq_size in Hsub. change (size (list_to_set (seqZ 0 8) : gset Z)) with 8%nat in Hsub. lia.
Qed.

(** ** Initialisation

    [init] on a device whose registers read as [rd]; the result is the list of its
    register writes, in order. *)
Module VIRTIO_MMIO.
Definition MAGIC_VALUE := 0x0.
Definition VERSION := 0x4.
Definition DEVICE_ID := 0x8.
Definition VENDOR_ID := 0xc.
Definition DEVICE_FEATURES := 0x10.
Definition DRIVER_FEATURES := 0x20.
Definition GUEST_PAGE_SIZE := 0x28.
Definition QUEUE_SEL := 0x30.
Definition QUEUE_NUM_MAX := 0x34.
Definition QUEUE_NUM := 0x38.
Definition QUEUE_ALIGN := 0x3c.
Definition QUEUE_PFN := 0x40.
Definition QUEUE_READY := 0x44.
Definition QUEUE_NOTIFY := 0x50.
Definition INTERRUPT_STATUS := 0x60.
Definition INTERRUPT_ACK := 0x64.
Definition STATUS := 0x70.
End VIRTIO_MMIO.

Module VIRTIO_CONFIG_S.
Definition ACKNOWLDGE := 1.
Definition DRIVER := 2.
Definition DRIVER_OK := 4.
Definition FEATURES_OK := 8.
End VIRTIO_CONFIG_S.

(** [VIRTIO_FEATURE]: the bits that are cleared *)
Definition BLK_F_RO := 5.
Definition BLK_F_SCSI := 7.
Definition BLK_F_CONFIG_WCE := 11.
Definition BLK_F_MQ := 12.
Definition F_ANY_LAYOUT := 27.
Definition RING_F_INDIRECT_DESC := 28.
Definition RING_F_EVENT_IDX := 29.
Definition feature_bit (k : Z) : Z := as_u 32 (Z.shiftl 1 k).

Definition clear_features (f : Z) : Z :=
  foldl (λ f k, Z.land f (unot 32 (feature_bit k))) f
    [BLK_F_RO; BLK_F_SCSI; BLK_F_CONFIG_WCE; BLK_F_MQ; F_ANY_LAYOUT; RING_F_EVENT_IDX; RING_F_INDIRECT_DESC].

Definition VirtIO_init (rd : Z → Z) (vio_at : Z) v : result (list (Z * Z) * VirtIOData) :=
  _ ← panic_if (negb (rd VIRTIO_MMIO.MAGIC_VALUE =? 0x74726976)) (Panic "cannot find virtio disk: magic value");
  _ ← panic_if (negb (rd VIRTIO_MMIO.VERSION =? 1)) (Panic "cannot find virtio disk: version");
  _ ← panic_if (negb (rd VIRTIO_MMIO.DEVICE_ID =? 2)) (Panic "cannot find virtio disk: device id");
  _ ← panic_if (negb (rd VIRTIO_MMIO.VENDOR_ID =? 0x554d4551)) (Panic "cannot find virtio disk: vendor id");
  let s0 := VIRTIO_CONFIG_S.ACKNOWLDGE in
  let s1 := Z.lor s0 VIRTIO_CONFIG_S.DRIVER in
  let features := clear_features (rd VIRTIO_MMIO.DEVICE_FEATURES) in
  let s2 := Z.lor s1 VIRTIO_CONFIG_S.FEATURES_OK in
  let s3 := Z.lor s2 VIRTIO_CONFIG_S.DRIVER_OK in
  let max := rd VIRTIO_MMIO.QUEUE_NUM_MAX in
  _ ← panic_if (max =? 0) (Panic "virtio disk has no queue");
  _ ← panic_if (max <? DESC_NUM) (Panic "virtio disk max queue too short {} < {}");
  fs ← for_range 0 DESC_NUM (λ i fs, aset fs i true) (free v);
  Ok ([(VIRTIO_MMIO.STATUS, s0); (VIRTIO_MMIO.STATUS, s1); (VIRTIO_MMIO.DEVICE_FEATURES, features);
       (VIRTIO_MMIO.STATUS, s2); (VIRTIO_MMIO.STATUS, s3); (VIRTIO_MMIO.GUEST_PAGE_SIZE, PAGE_SIZE);
       (VIRTIO_MMIO.QUEUE_SEL, 0); (VIRTIO_MMIO.QUEUE_NUM, DESC_NUM);
       (VIRTIO_MMIO.QUEUE_PFN, as_u 32 (Z.shiftr vio_at PAGE_ORDER))], set_free v fs).

Lemma init_inv rd vio_at at_ w v :
  VirtIO_init rd vio_at (VirtIO_new at_) = Ok (w, v) → vinv v ∅ ∧ free v = replicate 8 true.
Proof.
  unfold VirtIO_init. intros H. inv_bind. simplify_eq.
  match goal with H : for_range _ _ _ _ = Ok _ |- _ => vm_compute in H; injection H as <- end.
  split; [|done]. split; try done.
  - intros i Hi. cbn [free set_free]. split.
    + intros Hf. change (replicate 8 true !! Z.to_nat i = Some false) in Hf. by apply lookup_replicate in Hf as [? _].
    + intros (h & mt & Ho & _). done.
  - intros i op Hi. cbn in Hi. change (replicate 8 (@None InflightOp) !! i = Some (Some op)) in Hi.
    by apply lookup_replicate in Hi as [? _].
Qed.

(** The registers of the disk the driver looks for: a legacy virt-io block device of QEMU
    with a queue that is long enough *)
Record disk_present (rd : Z → Z) : Prop := {
  dp_magic : rd VIRTIO_MMIO.MAGIC_VALUE = 0x74726976;
  dp_version : rd VIRTIO_MMIO.VERSION = 1;
  dp_device : rd VIRTIO_MMIO.DEVICE_ID = 2;
  dp_vendor : rd VIRTIO_MMIO.VENDOR_ID = 0x554d4551;
  dp_queue : DESC_NUM ≤ rd VIRTIO_MMIO.QUEUE_NUM_MAX;
}.
Lemma init_total rd vio_at at_ :
  disk_present rd → ∃ r, VirtIO_init rd vio_at (VirtIO_new at_) = Ok r.
Proof.
  intros [H1 H2 H3 H4 H5].
  assert (∃ fs, for_range 0 DESC_NUM (λ i fs, aset fs i true) (free (VirtIO_new at_)) = Ok fs) as [fs Hfs]
    by (exists (replicate 8 true); reflexivity).
  unfold VirtIO_init. rewrite H1, H2, H3, H4, !Z.eqb_refl, Hfs.
  rewrite (proj2 (Z.eqb_neq _ 0)), (proj2 (Z.ltb_ge _ _) H5) by (unfold DESC_NUM in H5; lia).
  eexists. cbn [negb panic_if]. rewrite !bind_Ok_l. reflexivity.
Qed.

(** ** Theorems *)

(** Alloc3_desc takes three distinct free descriptors when there are three, and
    otherwise gives back whatever it took and returns nothing. *)
Theorem alloc3_desc_all_or_nothing v :
  sized v →
  ((3 ≤ nfree (free v))%nat ∧
   ∃ i0 i1 i2, alloc3_desc v = Ok (Some [i0; i1; i2], taken [i0; i1; i2] v) ∧
     (i0 ≠ i1 ∧ i0 ≠ i2 ∧ i1 ≠ i2) ∧
     Forall (λ i, 0 ≤ i < DESC_NUM ∧ free v !! Z.to_nat i = Some true) [i0; i1; i2]) ∨
  ((nfree (free v) < 3)%nat ∧ ∃ v', alloc3_desc v = Ok (None, v') ∧ rolled_back v v').
Proof. intros (? & ? & _). by apply alloc3_desc_spec. Qed.

(** Submitting a request with three free descriptors makes the new operation own
    exactly those, keeps the chains of all operations in flight intact and disjoint,
    publishes the head in the avail ring and leaves the request waiting; once the
    16-bit avail counter is at its maximum the submission stops with an overflow
    instead. *)
Theorem rw_submit_owns v ops b_at b hdr_at st_at write a1 :
  vinv v ops → (3 ≤ nfree (free v))%nat → avail v !! 1%nat = Some a1 → 0 ≤ a1 →
  ∃ i0 i1 i2 v1, alloc3_desc v = Ok (Some [i0; i1; i2], v1) ∧ ops !! i0 = None ∧
    (2 ^ 16 ≤ a1 + 1 → rw_submit [i0; i1; i2] b_at b hdr_at st_at write v1 = Err Overflow) ∧
    (a1 + 1 < 2 ^ 16 → ∃ v2, rw_submit [i0; i1; i2] b_at b hdr_at st_at write v1 = Ok v2 ∧
       vinv v2 (<[i0 := (i1, i2)]> ops) ∧ rw_waiting i0 v2 = Ok true ∧
       avail v2 !! Z.to_nat (2 + a1 mod DESC_NUM) = Some i0 ∧ avail v2 !! 1%nat = Some (a1 + 1)).
Proof.
  intros Hv Hn Ha Ha0. pose proof (vi_len v ops Hv) as Hsz. pose proof Hsz as (Ld & Lf & Li & La).
  destruct (alloc3_desc_spec v) as [(_ & i0 & i1 & i2 & Hal & Hne & Hall)|[? _]]; [done|done| |lia].
  exists i0, i1, i2, (taken [i0; i1; i2] v). split; [done|].
  pose proof (submit_inv v ops i0 i1 i2 b_at b hdr_at st_at write a1 Hv Hne Hall) as Hinv.
  rewrite !list.Forall_cons in Hall. destruct Hall as ([H0 F0] & [H1 F1] & [H2 F2] & _).
  assert (0 ≤ a1 mod DESC_NUM < DESC_NUM) as Hm by (by apply Z.mod_pos_bound).
  assert (sized (taken [i0; i1; i2] v)) as Hsz' by (unfold sized; cbn; by rewrite !length_insert).
  rewrite (rw_submit_spec _ i0 i1 i2 b_at b hdr_at st_at write a1) by done. split.
  { destruct (ops !! i0) as [mt|] eqn:E; [|done].
    assert (free v !! Z.to_nat i0 = Some false); [|congruence].
    apply (vi_busy v ops Hv); [done|]. exists i0, mt. split; [done|by left]. }
  destruct (Z.ltb_spec (a1 + 1) (2 ^ 16)); (split; [intros ?|intros ?]); try done || lia.
  eexists. split; [done|]. split; [exact Hinv|]. split_and!.
  - unfold rw_waiting. rewrite (proj2 (aget_Ok _ i0 (Some (mkOp b_at (mkBuf (valid b) 1 (dev b) (blockno b) (data b)) 0))));
      [reflexivity|].
    split; [lia|]. cbn. apply list_lookup_insert_eq. lia.
  - cbn. rewrite list_lookup_insert_ne by lia. apply list_lookup_insert_eq. rewrite La, AVAIL_SZ_eq.
    unfold DESC_NUM in *. lia.
  - cbn. apply list_lookup_insert_eq. rewrite length_insert, La, AVAIL_SZ_eq. lia.
Qed.

(** Finishing an operation in flight returns its buffer and frees exactly the three
    descriptors of its chain: free_chain terminates and cannot reach its panics. *)
Theorem rw_finish_releases v ops h m t :
  vinv v ops → ops !! h = Some (m, t) →
  ∃ op v', info v !! Z.to_nat h = Some (Some op) ∧ rw_finish h v = Ok (buf op, v') ∧
    vinv v' (delete h ops).
Proof.
  intros Hv Ho. destruct (rw_finish_spec v ops h m t Hv Ho) as (op & dh & dm & dt & Hop & Hr).
  exists op, (finished h m t dh dm dt v). split_and!; [done..|]. by apply finished_inv.
Qed.

(** When the elements the device published name operations in flight with status 0,
    the interrupt loop terminates within seven rounds without a panic, consumes all of
    them, marks exactly those buffers as done, wakes them and touches nothing else. *)
Theorem virtiointr_completes v ops :
  vinv v ops → pending_ok v ops →
  ∃ v', virtiointr 7 v = Ok v' ∧ vinv v' ops ∧ intr_pending v' = false ∧ intr_done v v'.
Proof.
  intros Hv Hp. pose proof (Z.mod_pos_bound (ua_id (used v) - used_idx v) DESC_NUM ltac:(done)) as Hb.
  fold (npending v) in Hb.
  destruct (intr_spec ops 7 v Hv Hp) as (v' & Hr & Hv' & Hn & Hd); [unfold DESC_NUM in Hb; lia|].
  exists v'. split_and!; try done. unfold intr_pending, npending in *.
  apply negb_false_iff, Z.eqb_eq. apply Z.mod_divide in Hn as [q Hq]; [|done].
  replace (ua_id (used v')) with (used_idx v' + q * DESC_NUM) by lia. by rewrite Z_mod_plus_full.
Qed.

(** A request that the device completed with an error stops the kernel: no caller of the
    driver sees the status. *)
Lemma virtiointr_failed_request v e op n :
  intr_pending v = true → 0 ≤ used_idx v → elems (used v) !! Z.to_nat (used_idx v) = Some e → 0 ≤ ue_id e →
  info v !! Z.to_nat (ue_id e) = Some (Some op) → status op ≠ 0 →
  virtiointr (S n) v = Err (Panic "virtio_disk_intr status status={} id={}").
Proof.
  intros Hp Hu He Hi Hop Hst. cbn [virtiointr]. rewrite Hp. unfold virtiointr_body.
  rewrite (aget_eq _ _ e), bind_Ok_l by done. rewrite (aget_eq _ _ (Some op)), bind_Ok_l by done.
  by rewrite (proj2 (Z.eqb_neq _ _) Hst).
Qed.

(** The eight descriptors carry at most two operations at a time. *)
Theorem inflight_at_most_two v ops : vinv v ops → (size ops ≤ 2)%nat.
Proof. apply inflight_bound. Qed.

(** Init leaves eight free descriptors and no operation in flight, but writes the
    accepted features to DEVICE_FEATURES and never writes DRIVER_FEATURES. *)
Theorem init_features_not_negotiated rd vio_at at_ w v :
  VirtIO_init rd vio_at (VirtIO_new at_) = Ok (w, v) →
  vinv v ∅ ∧ nfree (free v) = 8%nat ∧
  Forall (λ x, x.1 ≠ VIRTIO_MMIO.DRIVER_FEATURES) w ∧
  (VIRTIO_MMIO.DEVICE_FEATURES, clear_features (rd VIRTIO_MMIO.DEVICE_FEATURES)) ∈ w.
Proof.
  intros H. destruct (init_inv rd vio_at at_ w v H) as [Hv Hf]. rewrite Hf. split_and!; [done|done|..];
    unfold VirtIO_init in H; inv_bind; simplify_eq.
  - by rewrite !list.Forall_cons, list.Forall_nil.
  - set_solver.
Qed.

(** ** A device, one read request on it, and its completion *)
Definition rd0 (r : Z) : Z :=
  match r with
  | 0x0 => 0x74726976 | 0x4 => 1 | 0x8 => 2 | 0xc => 0x554d4551 | 0x10 => 0x30006ed4 | 0x34 => 1024 | _ => 0
  end.
Definition set_used v (u : UsedArea) : VirtIOData :=
  mkVio (desc v) (avail v) u (free v) (used_idx v) (info v) (free_at v) (wakeups v).
Definition init0 : result (list (Z * Z) * VirtIOData) := VirtIO_init rd0 0x80300000 (VirtIO_new 0x80309000).
Definition vio0 : VirtIOData := match init0 with Ok (_, v) => v | Err _ => VirtIO_new 0 end.
Definition vio1 : VirtIOData :=
  submitted 0 1 2 0x80400000 Buf_new 0x80500000 0x80309100 false 0 (taken [0; 1; 2] vio0).
Definition vio2 : VirtIOData := set_used vio1 (mkUsed 0 1 (replicate 8 (mkElem 0 1024))).

Lemma init0_run : ∃ w, init0 = Ok (w, vio0).
Proof. unfold vio0. destruct init0 as [[w v]|] eqn:E; [by exists w|]. by vm_compute in E. Qed.

Lemma vio0_inv : vinv vio0 ∅.
Proof. destruct init0_run as [w Hw]. by destruct (init_inv _ _ _ _ _ Hw). Qed.

Lemma vio1_inv : vinv vio1 (<[0 := (1, 2)]> ∅).
Proof. apply submit_inv; [apply vio0_inv|done|]. repeat constructor; vm_compute; done. Qed.

Lemma vio2_inv : vinv vio2 (<[0 := (1, 2)]> ∅).
Proof. destruct vio1_inv as [H1 H2 H3 H4 H5]. split; [exact H1| |exact H3|exact H4|exact H5].
  intros h mt Ho. by destruct (H2 h mt Ho). Qed.

Lemma vio2_pending : pending_ok vio2 (<[0 := (1, 2)]> ∅).
Proof.
  split; [vm_compute; done|vm_compute; done|]. intros k Hk. change (npending vio2) with 1 in Hk.
  assert (k = 0) as -> by lia. eexists _, _. split; [vm_compute; reflexivity|].
  split; [done|]. split; [vm_compute; reflexivity|reflexivity].
Qed.

Lemma alloc3_desc_all_or_nothing_witness :
  ∃ i0 i1 i2, alloc3_desc vio0 = Ok (Some [i0; i1; i2], taken [i0; i1; i2] vio0).
Proof.
  destruct (alloc3_desc_all_or_nothing vio0) as [(_ & i0 & i1 & i2 & H & _)|[H _]];
    [apply (vi_len _ _ vio0_inv)|by exists i0, i1, i2|]. vm_compute in H. lia.
Defined.

Lemma rw_submit_owns_witness :
  ∃ i0 i1 i2 v1 v2, alloc3_desc vio0 = Ok (Some [i0; i1; i2], v1) ∧
    rw_submit [i0; i1; i2] 0x80400000 Buf_new 0x80500000 0x80309100 false v1 = Ok v2 ∧
    vinv v2 (<[i0 := (i1, i2)]> ∅) ∧ rw_waiting i0 v2 = Ok true.
Proof.
  destruct (rw_submit_owns vio0 ∅ 0x80400000 Buf_new 0x80500000 0x80309100 false 0)
    as (i0 & i1 & i2 & v1 & Ha & _ & _ & Hs); [apply vio0_inv|vm_compute; lia|vm_compute; reflexivity|lia|].
  destruct Hs as (v2 & Hr & Hv & Hw & _); [lia|]. by exists i0, i1, i2, v1, v2.
Defined.

Lemma rw_finish_releases_witness :
  ∃ op v', info vio1 !! 0%nat = Some (Some op) ∧ rw_finish 0 vio1 = Ok (buf op, v') ∧
    vinv v' (delete 0 (<[0 := (1, 2)]> ∅)).
Proof. apply (rw_finish_releases vio1 (<[0 := (1, 2)]> ∅) 0 1 2); [apply vio1_inv|by rewrite lookup_insert_eq]. Defined.

Lemma virtiointr_completes_witness :
  intr_pending vio2 = true ∧
  ∃ v', virtiointr 7 vio2 = Ok v' ∧ vinv v' (<[0 := (1, 2)]> ∅) ∧ intr_pending v' = false ∧ intr_done vio2 v'.
Proof.
  split; [vm_compute; reflexivity|].
  apply (virtiointr_completes vio2 (<[0 := (1, 2)]> ∅)); [apply vio2_inv|apply vio2_pending].
Defined.

Lemma inflight_at_most_two_witness : (size (<[0%Z := (1%Z, 2%Z)]> ∅ : gmap Z (Z * Z)) ≤ 2)%nat.
Proof. apply (inflight_at_most_two vio1). apply vio1_inv. Defined.

Lemma init_features_not_negotiated_witness :
  ∃ w, init0 = Ok (w, vio0) ∧ Forall (λ x, x.1 ≠ VIRTIO_MMIO.DRIVER_FEATURES) w.
Proof.
  destruct init0_run as [w Hw]. exists w. split; [exact Hw|].
  apply (init_features_not_negotiated rd0 0x80300000 0x80309000 w vio0 Hw).
Defined.
