(* ===== verification/Disk.v ===== *)
(** * The disk driver with its device

    Concurrent calls of [VirtIO::read] and [VirtIO::write], the device and the
    interrupt handler, as interleaved steps.  Each step of a caller is one section of
    [rw] under the lock of the driver, from the lock or a wakeup to the next sleep or
    to the return; a caller may wake at any time, so that spurious wakeups are
    included.  The handler steps once per round of its loop, so that the device can
    publish between two rounds.

    The device is not part of the repository: [virtio_step] states what the
    documentation of virt-io block devices promises.  It takes heads from the avail
    ring up to [avail[1]], the last word a submission writes, follows descriptors by
    their addresses, serves requests in any order, and publishes each in the used
    ring.  Its requests succeed: it completes each with status 0.  A request that it
    completes with another status ([dev_fail]) stops the kernel in the handler, as
    [disk_no_panic] shows, so that nothing follows it.

    The specification is an atomic disk: a call takes effect on the blocks at one
    moment between call and return. *)

From S2P Require Import Prelude Symbols Virtio.

(** ** Requests: [VirtIO::read] and [VirtIO::write] *)
Inductive request := Read (dev blockno : Z) | Write (b : Buf).
(** what [read] and [write] pass to [rw], and what they return of its result *)
Definition rw_args (r : request) : Buf * bool :=
  match r with
  | Read dv n => (mkBuf (valid Buf_new) (disk Buf_new) dv n (data Buf_new), false)
  | Write b => (b, true)
  end.
Definition rw_result (r : request) (b : Buf) : option Buf :=
  match r with Read _ _ => Some b | Write _ => None end.
(** the types of the arguments *)
Definition request_ok (r : request) : Prop :=
  is_u 32 (blockno (rw_args r).1) ∧ length (data (rw_args r).1) = Z.to_nat BSIZE.

(** [rw] from the top of the allocation loop to the next sleep: no descriptors, or the
    request is submitted and its head is returned.  [st_at i] is the address of the
    status byte of [info[i]]. *)
Definition rw_try (st_at : Z → Z) (b_at : Z) (b : Buf) (hdr_at : Z) (write : bool) (v : VirtIOData)
    : result (option Z * VirtIOData) :=
  '(o, v) ← alloc3_desc v;
  match o with
  | None => Ok (None, v)
  | Some idx =>
      i0 ← aget idx 0;
      v ← rw_submit idx b_at b hdr_at (st_at i0) write v;
      Ok (Some i0, v)
  end.
(** [rw] from the test of the wait to the next sleep or to its end *)
Definition rw_check (i0 : Z) (v : VirtIOData) : result (option Buf * VirtIOData) :=
  w ← rw_waiting i0 v;
  if w : bool then Ok (None, v)
  else '(b, v) ← rw_finish i0 v; Ok (Some b, v).

(** ** State *)
(** A call of [rw]: its request, the address of its buffer and of [buf0] on its stack,
    and [idx[0]] once it has descriptors *)
Record frame := mkFrame { rq : request; box_at : Z; buf0_at : Z; idx0 : option Z }.
Record Sys := mkSys {
  vio : VirtIOData;
  hdrs : gmap Z BlkOutHdr;        (** the initialised [buf0] by address *)
  sectors : Z → list Z;           (** the medium *)
  seen : Z;                       (** device: how far it has read the avail ring *)
  indev : list Z;                 (** device: heads it has taken and not served *)
  frames : gmap Z frame;          (** the callers *)
}.
Implicit Types (s : Sys) (v : VirtIOData) (f : frame).
Definition set_vio s v : Sys := mkSys v (hdrs s) (sectors s) (seen s) (indev s) (frames s).
Definition set_dev s (n : Z) (l : list Z) : Sys := mkSys (vio s) (hdrs s) (sectors s) n l (frames s).
Definition set_frames s fs : Sys := mkSys (vio s) (hdrs s) (sectors s) (seen s) (indev s) fs.

(** ** The device *)
Fixpoint read_sectors (dk : Z → list Z) (s : Z) (n : nat) : list Z :=
  match n with O => [] | S n => dk s ++ read_sectors dk (s + 1) n end.
Fixpoint write_sectors (dk : Z → list Z) (s : Z) (n : nat) (l : list Z) : Z → list Z :=
  match n with O => dk | S n => write_sectors (upd dk s (take 512 l)) (s + 1) n (drop 512 l) end.

(** The buffer whose data is at address [a] *)
Definition data_at (a : Z) (o : option InflightOp) : bool :=
  match o with Some op => buf_at op + data_off =? a | None => false end.
Definition find_data (a : Z) (inf : list (option InflightOp)) : result (nat * InflightOp) :=
  match list_find (λ o, data_at a o = true) inf with
  | Some (i, Some op) => Ok (i, op)
  | _ => Err BadAccess
  end.
Definition with_data (op : InflightOp) (l : list Z) : InflightOp :=
  let b := buf op in mkOp (buf_at op) (mkBuf (valid b) (disk b) (dev b) (blockno b) l) (status op).
Definition with_status (op : InflightOp) (x : Z) : InflightOp := mkOp (buf_at op) (buf op) x.

Section device.
Context (st_at : Z → Z).

Definition find_status (a : Z) (inf : list (option InflightOp)) : result (nat * InflightOp) :=
  match list_find (λ i, st_at i = a) (seqZ 0 DESC_NUM) with
  | Some (i, _) => match inf !! i with Some (Some op) => Ok (i, op) | _ => Err BadAccess end
  | None => Err BadAccess
  end.

(** The transfer of one request: the medium and the operations after it *)
Definition dev_transfer (hd : BlkOutHdr) (d1 : VRingDesc) (dk : Z → list Z) (inf : list (option InflightOp))
    : result ((Z → list Z) * list (option InflightOp)) :=
  '(i, op) ← find_data (addr d1) inf;
  let n := Z.to_nat (len d1 / 512) in
  if blk_type hd =? VIRTIO_BLK_T_IN then
    _ ← panic_if (Z.land (flags d1) VRING_DESC_F_WRITE =? 0) BadAccess;
    Ok (dk, <[i := Some (with_data op (read_sectors dk (sector hd) n))]> inf)
  else Ok (write_sectors dk (sector hd) n (data (buf op)), inf).

(** The device serves the chain of head [h] and publishes it. *)
Definition dev_serve (h : Z) s : result Sys :=
  let v := vio s in
  d0 ← aget (desc v) h;
  d1 ← aget (desc v) (next d0);
  d2 ← aget (desc v) (next d1);
  _ ← panic_if (negb (links d0 && links d1 && negb (links d2))) BadAccess;
  hd ← unwrap (hdrs s !! addr d0);
  '(dk, inf) ← dev_transfer hd d1 (sectors s) (info v);
  '(i, op) ← find_status (addr d2) inf;
  let inf := <[i := Some (with_status op 0)]> inf in
  es ← aset (elems (used v)) (ua_id (used v) mod DESC_NUM) (mkElem h (len d1 + 1));
  let u := mkUsed (ua_flags (used v)) ((ua_id (used v) + 1) mod 2 ^ 16) es in
  Ok (mkSys (set_used (set_info v inf) u) (hdrs s) dk (seen s) (indev s) (frames s)).

(** The device completes the chain of head [h] with the error status [x] instead. *)
Definition dev_fail (x h : Z) s : result Sys :=
  let v := vio s in
  d0 ← aget (desc v) h;
  d1 ← aget (desc v) (next d0);
  d2 ← aget (desc v) (next d1);
  _ ← panic_if (negb (links d0 && links d1 && negb (links d2))) BadAccess;
  '(i, op) ← find_status (addr d2) (info v);
  let inf := <[i := Some (with_status op x)]> (info v) in
  es ← aset (elems (used v)) (ua_id (used v) mod DESC_NUM) (mkElem h 1);
  let u := mkUsed (ua_flags (used v)) ((ua_id (used v) + 1) mod 2 ^ 16) es in
  Ok (mkSys (set_used (set_info v inf) u) (hdrs s) (sectors s) (seen s) (indev s) (frames s)).

Inductive virtio_step : Sys → Sys → Prop :=
  | dev_fetches s a1 h :
      avail (vio s) !! 1%nat = Some a1 → seen s ≠ a1 →
      avail (vio s) !! Z.to_nat (2 + seen s mod DESC_NUM) = Some h →
      virtio_step s (set_dev s ((seen s + 1) mod 2 ^ 16) (indev s ++ [h]))
  | dev_serves s s' l1 h l2 :
      indev s = l1 ++ h :: l2 → dev_serve h s = Ok s' →
      virtio_step s (set_dev s' (seen s') (l1 ++ l2)).
End device.

(** ** Steps of the system *)
Inductive event := Call (p : Z) (r : request) | Return (p : Z) (o : option Buf).

(** the addresses of a new call: its buffer is a live box, its [buf0] a live stack slot *)
Definition fresh_at s (b_at hdr_at : Z) : Prop :=
  ∀ q f, frames s !! q = Some f → box_at f ≠ b_at ∧ buf0_at f ≠ hdr_at.

Section steps.
Context (st_at : Z → Z) (dev_step : Sys → Sys → Prop).

Inductive step : Sys → list event → Sys → Prop :=
  | s_call p r b_at hdr_at s :
      frames s !! p = None → request_ok r → fresh_at s b_at hdr_at →
      step s [Call p r] (set_frames s (<[p := mkFrame r b_at hdr_at None]> (frames s)))
  | s_full p f v' s :
      frames s !! p = Some f → idx0 f = None →
      rw_try st_at (box_at f) (rw_args (rq f)).1 (buf0_at f) (rw_args (rq f)).2 (vio s) = Ok (None, v') →
      step s [] (set_vio s v')
  | s_submit p f hd i0 v' s :
      frames s !! p = Some f → idx0 f = None →
      rw_header (rw_args (rq f)).1 (rw_args (rq f)).2 = Ok hd →
      rw_try st_at (box_at f) (rw_args (rq f)).1 (buf0_at f) (rw_args (rq f)).2 (vio s) = Ok (Some i0, v') →
      step s [] (mkSys v' (<[buf0_at f := hd]> (hdrs s)) (sectors s) (seen s) (indev s)
                   (<[p := mkFrame (rq f) (box_at f) (buf0_at f) (Some i0)]> (frames s)))
  | s_wait p f i0 v' s :
      frames s !! p = Some f → idx0 f = Some i0 → rw_check i0 (vio s) = Ok (None, v') →
      step s [] (set_vio s v')
  | s_return p f i0 b v' s :
      frames s !! p = Some f → idx0 f = Some i0 → rw_check i0 (vio s) = Ok (Some b, v') →
      step s [Return p (rw_result (rq f) b)]
        (mkSys v' (delete (buf0_at f) (hdrs s)) (sectors s) (seen s) (indev s) (delete p (frames s)))
  | s_intr v' s :
      intr_pending (vio s) = true → virtiointr_body (vio s) = Ok v' → step s [] (set_vio s v')
  | s_dev s s' : dev_step s s' → step s [] s'.

Inductive exec : Sys → list event → Sys → Prop :=
  | exec_nil s : exec s [] s
  | exec_step s1 t1 s2 t2 s3 : exec s1 t1 s2 → step s2 t2 s3 → exec s1 (t1 ++ t2) s3.
End steps.

(** After [VirtIO::init], before any call *)
Definition sys_init (v : VirtIOData) (dk : Z → list Z) : Sys := mkSys v ∅ dk 0 [] ∅.

(** ** Specification: an atomic disk *)
Inductive caller := Pending (r : request) | Served (o : option Buf).
Record ADisk := mkADisk { blocks : Z → list Z; callers : gmap Z caller }.
Definition serve (r : request) (bl : Z → list Z) : (Z → list Z) * option Buf :=
  match r with
  | Read dv n => (bl, Some (mkBuf false 0 dv n (bl n)))
  | Write b => (upd bl (blockno b) (data b), None)
  end.
Inductive astep : ADisk → list event → ADisk → Prop :=
  | a_call a p r : callers a !! p = None →
      astep a [Call p r] (mkADisk (blocks a) (<[p := Pending r]> (callers a)))
  | a_serve a p r : callers a !! p = Some (Pending r) →
      astep a [] (mkADisk (serve r (blocks a)).1 (<[p := Served (serve r (blocks a)).2]> (callers a)))
  | a_return a p o : callers a !! p = Some (Served o) →
      astep a [Return p o] (mkADisk (blocks a) (delete p (callers a))).
Inductive aexec : ADisk → list event → ADisk → Prop :=
  | aexec_nil a : aexec a [] a
  | aexec_step a1 t1 a2 t2 a3 : aexec a1 t1 a2 → astep a2 t2 a3 → aexec a1 (t1 ++ t2) a3.

(** ** The rings as queues of heads *)
#[global] Instance elem_inhabited : Inhabited VRingUsedElem := populate (mkElem 0 0).
(** submitted and not yet taken by the device; published and not yet handled *)
Definition avail_q v (n : Z) : list Z :=
  (λ k, avail v !!! Z.to_nat (2 + k mod DESC_NUM)) <$> seqZ n (avail v !!! 1%nat - n).
Definition used_q v : list Z :=
  (λ k, ue_id (elems (used v) !!! Z.to_nat ((used_idx v + k) mod DESC_NUM))) <$> seqZ 0 (npending v).
(** the operations that are not served, and those not completed *)
Definition unserved s : list Z := avail_q (vio s) (seen s) ++ indev s.
Definition busy s : list Z := unserved s ++ used_q (vio s).

Lemma avail_q_ext v v' n : avail v' = avail v → avail_q v' n = avail_q v n.
Proof. unfold avail_q. by intros ->. Qed.
Lemma used_q_ext v v' : used v' = used v → used_idx v' = used_idx v → used_q v' = used_q v.
Proof. unfold used_q, npending. by intros -> ->. Qed.

Lemma mod_ne a b : a ≠ b → -8 < a - b < 8 → a mod DESC_NUM ≠ b mod DESC_NUM.
Proof.
  intros Hne Hr E. assert ((a - b) mod DESC_NUM = 0) as Hz by by rewrite Zminus_mod, E, Z.sub_diag.
  apply Z.mod_divide in Hz as [q Hq]; [|done]. unfold DESC_NUM in *. lia.
Qed.

Lemma avail_q_submit v n a1 av h :
  length (avail v) = Z.to_nat AVAIL_SZ → avail v !! 1%nat = Some a1 → 0 ≤ n ≤ a1 → a1 - n < 8 →
  av = <[1%nat := a1 + 1]> (<[Z.to_nat (2 + a1 mod DESC_NUM) := h]> (avail v)) →
  avail_q (set_avail v av) n = avail_q v n ++ [h].
Proof.
  intros Hl Ha Hn Hd ->. unfold avail_q. cbn [avail set_avail]. rewrite AVAIL_SZ_eq in Hl.
  assert (0 ≤ a1 mod DESC_NUM < 8) as Hm by (by apply Z.mod_pos_bound).
  rewrite list_lookup_total_insert_eq by (rewrite length_insert; lia).
  rewrite (list_lookup_total_correct _ _ _ Ha).
  replace (a1 + 1 - n) with ((a1 - n) + 1) by lia. rewrite seqZ_app, fmap_app by lia. f_equal.
  - apply list_fmap_ext. intros i k [Hk ?]%lookup_seqZ. cbv beta. pose proof (Z.mod_pos_bound k DESC_NUM ltac:(done)).
    assert (k mod DESC_NUM ≠ a1 mod DESC_NUM) by (apply mod_ne; lia).
    rewrite !list_lookup_total_insert_ne by lia. done.
  - replace (n + (a1 - n)) with a1 by lia. change (seqZ a1 1) with [0 + a1]. cbn [fmap list_fmap].
    rewrite Z.add_0_l. f_equal. rewrite list_lookup_total_insert_ne by lia. apply list_lookup_total_insert_eq. lia.
Qed.

Lemma avail_q_fetch v n a1 h :
  avail v !! 1%nat = Some a1 → n < a1 → avail v !! Z.to_nat (2 + n mod DESC_NUM) = Some h →
  avail_q v n = h :: avail_q v (n + 1).
Proof.
  intros Ha Hn Hh. unfold avail_q. rewrite (list_lookup_total_correct _ _ _ Ha).
  rewrite seqZ_cons by lia. cbn [fmap list_fmap]. rewrite (list_lookup_total_correct _ _ _ Hh).
  f_equal. f_equal. f_equal; lia.
Qed.

Lemma npending_range v : 0 ≤ npending v < DESC_NUM.
Proof. by apply Z.mod_pos_bound. Qed.

Lemma used_q_length v : Z.of_nat (length (used_q v)) = npending v.
Proof. unfold used_q. rewrite length_fmap, length_seqZ. pose proof (npending_range v). lia. Qed.

Lemma npending_publish v es fl :
  npending v < 7 → npending (set_used v (mkUsed fl ((ua_id (used v) + 1) mod 2 ^ 16) es)) = npending v + 1.
Proof.
  intros Hn. pose proof (npending_range v) as Hr. unfold npending, DESC_NUM in *. cbn [used set_used ua_id used_idx].
  set (x := ua_id (used v)) in *. set (y := used_idx v) in *.
  change (2 ^ 16) with 65536. Z.to_euclidean_division_equations. lia.
Qed.

Lemma used_q_publish v es h n :
  length (elems (used v)) = Z.to_nat DESC_NUM → npending v < 7 →
  es = <[Z.to_nat (ua_id (used v) mod DESC_NUM) := mkElem h n]> (elems (used v)) →
  used_q (set_used v (mkUsed (ua_flags (used v)) ((ua_id (used v) + 1) mod 2 ^ 16) es)) = used_q v ++ [h].
Proof.
  intros Hl Hn ->. pose proof (npending_range v) as Hr.
  pose proof (Z.mod_pos_bound (ua_id (used v)) DESC_NUM ltac:(done)) as Hm.
  assert ((used_idx v + npending v) mod DESC_NUM = ua_id (used v) mod DESC_NUM) as Hp.
  { unfold npending. rewrite Zplus_mod_idemp_r. f_equal. lia. }
  unfold used_q. rewrite npending_publish by done. rewrite seqZ_app, fmap_app by lia.
  cbn [used set_used elems used_idx]. f_equal.
  - apply list_fmap_ext. intros i k [Hk ?]%lookup_seqZ. cbv beta.
    pose proof (Z.mod_pos_bound (used_idx v + k) DESC_NUM ltac:(done)).
    assert ((used_idx v + k) mod DESC_NUM ≠ ua_id (used v) mod DESC_NUM).
    { rewrite <- Hp. apply mod_ne; lia. }
    rewrite list_lookup_total_insert_ne by lia. done.
  - rewrite Z.add_0_l. change (seqZ (npending v) 1) with [0 + npending v]. cbn [fmap list_fmap].
    rewrite Z.add_0_l, Hp. by rewrite list_lookup_total_insert_eq by lia.
Qed.

Lemma used_q_handle v id op :
  0 ≤ used_idx v < DESC_NUM → npending v ≠ 0 →
  used_q v = ue_id (elems (used v) !!! Z.to_nat (used_idx v)) :: used_q (intr_next id op v).
Proof.
  intros Hi Hn. pose proof (npending_range v) as Hr. unfold used_q at 1. rewrite seqZ_cons by lia.
  cbn [fmap list_fmap]. rewrite Z.add_0_r, Z.mod_small by done. f_equal.
  assert (npending (intr_next id op v) = npending v - 1) as Hn' by (by apply mod_succ).
  unfold used_q. rewrite Hn'. replace (Z.succ 0) with (1 + 0) by lia. rewrite <- fmap_add_seqZ, <- list_fmap_compose.
  replace (Z.pred (npending v)) with (npending v - 1) by lia. apply list_fmap_ext. intros i k _. cbn.
  rewrite Zplus_mod_idemp_l. do 4 f_equal. lia.
Qed.

(** The handler completes what was published before, and stops at the failed request. *)
Lemma failed_stops l : ∀ v h op n,
  0 ≤ used_idx v < DESC_NUM → length (elems (used v)) = Z.to_nat DESC_NUM → length (info v) = Z.to_nat DESC_NUM →
  used_q v = l ++ [h] → NoDup (l ++ [h]) → (∀ k, k ∈ l ++ [h] → 0 ≤ k) →
  (∀ k, k ∈ l → ∃ op, info v !! Z.to_nat k = Some (Some op) ∧ status op = 0) →
  info v !! Z.to_nat h = Some (Some op) → status op ≠ 0 → (length l < n)%nat →
  virtiointr n v = Err (Panic "virtio_disk_intr status status={} id={}").
Proof.
  induction l as [|k l IH]; intros v h op n Hui Hel Hil Hq Hnd Hpos Hl Hop Hst Hn;
    (destruct n as [|n]; [lia|]);
    pose proof (used_q_length v) as Hlen; rewrite Hq, length_app in Hlen; cbn [length] in Hlen;
    pose proof (npending_range v) as Hr;
    (assert (npending v ≠ 0) as Hnp by lia);
    (assert (intr_pending v = true) as Hpe by (rewrite intr_pending_npending by done; by apply negb_true_iff, Z.eqb_neq));
    (destruct (lookup_lt_is_Some_2 (elems (used v)) (Z.to_nat (used_idx v))) as [e He]; [lia|]);
    pose proof (used_q_handle v (ue_id e) (mkOp 0 Buf_new 0) Hui Hnp) as Hh; rewrite (list_lookup_total_correct _ _ _ He), Hq in Hh.
  - cbn in Hh. injection Hh as Hh _. subst h. apply (virtiointr_failed_request v e op n); [done|lia|done|apply Hpos; set_solver|done|done].
  - rewrite <- app_comm_cons in *. injection Hh as Hk Hq'. subst k. apply list.NoDup_cons in Hnd as [Hni Hnd].
    destruct (Hl (ue_id e)) as (ope & Hope & Hse); [set_solver|].
    assert (virtiointr_body v = Ok (intr_next (ue_id e) ope v)) as Hb.
    { apply (intr_body_ok v e ope); [done|done|done|apply Hpos; set_solver|done|done]. }
    cbn [virtiointr]. rewrite Hpe, Hb, bind_Ok_l.
    assert (∀ j, j ∈ l ++ [h] → info (intr_next (ue_id e) ope v) !! Z.to_nat j = info v !! Z.to_nat j) as Hother.
    { intros j Hj. cbn. apply list_lookup_insert_ne. assert (j ≠ ue_id e) by (by intros ->).
      pose proof (Hpos j ltac:(set_solver)). pose proof (Hpos (ue_id e) ltac:(set_solver)). lia. }
    apply (IH _ h op n); [cbn; by apply Z.mod_pos_bound|done|cbn; by rewrite length_insert| |done| | | |done|cbn in Hn; lia].
    + by rewrite Hq'.
    + intros j Hj. apply Hpos. set_solver.
    + intros j Hj. rewrite Hother by set_solver. apply Hl. set_solver.
    + rewrite Hother by set_solver. done.
Qed.

(** ** Invariant *)
Lemma unserved_busy s h : h ∈ unserved s → h ∈ busy s.
Proof. unfold busy. set_solver. Qed.

Section proofs.
Context (st_at : Z → Z).
Notation rqbuf f := (rw_args (rq f)).1.
Notation rqwrite f := (rw_args (rq f)).2.

Definition hdr_of (r : request) : BlkOutHdr :=
  mkHdr (if (rw_args r).2 then VIRTIO_BLK_T_OUT else VIRTIO_BLK_T_IN) 0 (blockno (rw_args r).1 * 2).

(** What the descriptors, the header and the operation of a submitted request hold;
    [disk] is 1 until the handler has seen it, the data is untouched until it is served. *)
Record op_ok s f (h : Z) (op : InflightOp) : Prop := {
  oo_at : buf_at op = box_at f;
  oo_st : status op = 0;
  oo_buf : buf op = mkBuf (valid (rqbuf f)) (if decide (h ∈ busy s) then 1 else 0) (dev (rqbuf f))
             (blockno (rqbuf f)) (data (buf op));
  oo_data : h ∈ unserved s → data (buf op) = data (rqbuf f);
}.
Record desc_ok v f (h m t : Z) : Prop := {
  do_head : desc v !! Z.to_nat h = Some (mkDesc (buf0_at f) 16 VRING_DESC_F_NEXT m);
  do_data : desc v !! Z.to_nat m = Some (mkDesc (box_at f + data_off) BSIZE
              (Z.lor (if rqwrite f then 0 else VRING_DESC_F_WRITE) VRING_DESC_F_NEXT) t);
  do_stat : desc v !! Z.to_nat t = Some (mkDesc (st_at h) 1 VRING_DESC_F_WRITE 0);
}.
Record req_ok s (ops : Ops) f (h : Z) : Prop := {
  rk_desc : ∃ m t, ops !! h = Some (m, t) ∧ desc_ok (vio s) f h m t;
  rk_hdr : hdrs s !! buf0_at f = Some (hdr_of (rq f));
  rk_op : ∃ op, info (vio s) !! Z.to_nat h = Some (Some op) ∧ op_ok s f h op;
}.
Record Inv s (ops : Ops) : Prop := {
  iv_v : vinv (vio s) ops;
  iv_a : ∃ a1, avail (vio s) !! 1%nat = Some a1 ∧ 0 ≤ seen s ≤ a1 ∧ a1 < 2 ^ 16;
  iv_u : 0 ≤ used_idx (vio s) < DESC_NUM ∧ length (elems (used (vio s))) = Z.to_nat DESC_NUM;
  iv_nd : NoDup (busy s);
  iv_busy : ∀ h, h ∈ busy s → is_Some (ops !! h);
  iv_own : ∀ h, is_Some (ops !! h) → ∃ p f, frames s !! p = Some f ∧ idx0 f = Some h;
  iv_inj : ∀ p q f g, frames s !! p = Some f → frames s !! q = Some g → p ≠ q →
           box_at f ≠ box_at g ∧ buf0_at f ≠ buf0_at g ∧ ∀ h, idx0 f = Some h → idx0 g ≠ Some h;
  iv_req : ∀ p f h, frames s !! p = Some f → idx0 f = Some h → req_ok s ops f h;
  iv_rq : ∀ p f, frames s !! p = Some f → request_ok (rq f);
}.

(** How a caller looks to the atomic disk *)
Definition abs s f : caller :=
  match idx0 f with
  | None => Pending (rq f)
  | Some h =>
      if decide (h ∈ unserved s) then Pending (rq f)
      else match info (vio s) !! Z.to_nat h with
           | Some (Some op) => Served (rw_result (rq f) (buf (completed op)))
           | _ => Pending (rq f)
           end
  end.
Record Rel s (a : ADisk) : Prop := {
  re_inv : ∃ ops, Inv s ops;
  re_blocks : ∀ n, is_u 32 n → blocks a n = read_sectors (sectors s) (n * 2) 2;
  re_callers : callers a = abs s <$> frames s;
}.

Lemma busy_len s ops : Inv s ops → (length (busy s) ≤ 2)%nat.
Proof.
  intros HI. pose proof (inflight_bound _ _ (iv_v s ops HI)) as Hb.
  rewrite <- (size_list_to_set (C := gset Z) (busy s)) by apply (iv_nd s ops HI).
  rewrite <- size_dom in Hb. etransitivity; [|exact Hb]. apply subseteq_size.
  intros h Hh%elem_of_list_to_set. apply elem_of_dom. by apply (iv_busy s ops HI).
Qed.

(** A request keeps its data when nothing of its own changes. *)
Lemma req_ok_ext s s' ops ops' f h :
  req_ok s ops f h → ops' !! h = ops !! h →
  (∀ mt i, ops !! h = Some mt → chain h mt i → desc (vio s') !! Z.to_nat i = desc (vio s) !! Z.to_nat i) →
  hdrs s' !! buf0_at f = hdrs s !! buf0_at f → info (vio s') !! Z.to_nat h = info (vio s) !! Z.to_nat h →
  (h ∈ busy s' ↔ h ∈ busy s) → (h ∈ unserved s' → h ∈ unserved s) → req_ok s' ops' f h.
Proof.
  intros [(m & t & Ho & [D1 D2 D3]) Hh (op & Hop & [O1 O2 O3 O4])] Eo Hd Eh Ei Hb Hu. split.
  - exists m, t. split; [by rewrite Eo|]. split; rewrite (Hd (m, t)) by (done || (unfold chain; cbn; auto)); done.
  - by rewrite Eh.
  - exists op. rewrite Ei. split; [done|]. split; [done|done| |auto]. rewrite O3. cbn. f_equal.
    by rewrite (decide_ext _ _ _ _ Hb).
Qed.

Lemma abs_ext s s' f :
  (∀ h, idx0 f = Some h → (h ∈ unserved s' ↔ h ∈ unserved s) ∧
    info (vio s') !! Z.to_nat h = info (vio s) !! Z.to_nat h) → abs s' f = abs s f.
Proof.
  unfold abs. destruct (idx0 f) as [h|]; [|done]. intros H. destruct (H h eq_refl) as [Hu ->].
  by rewrite (decide_ext _ _ _ _ Hu).
Qed.

Lemma callers_ext s s' (fs : gmap Z frame) :
  (∀ p f, fs !! p = Some f → abs s' f = abs s f) → abs s' <$> fs = abs s <$> fs.
Proof. intros H. apply map_fmap_ext. done. Qed.

(** ** The sections of a caller *)
Lemma rw_try_spec b_at b hdr_at write v ops a1 :
  vinv v ops → avail v !! 1%nat = Some a1 → 0 ≤ a1 →
  (∃ v', (nfree (free v) < 3)%nat ∧ rw_try st_at b_at b hdr_at write v = Ok (None, v') ∧ rolled_back v v') ∨
  (∃ i0 i1 i2, (i0 ≠ i1 ∧ i0 ≠ i2 ∧ i1 ≠ i2) ∧
     Forall (λ i, 0 ≤ i < DESC_NUM ∧ free v !! Z.to_nat i = Some true) [i0; i1; i2] ∧
     rw_try st_at b_at b hdr_at write v =
       if a1 + 1 <? 2 ^ 16
       then Ok (Some i0, submitted i0 i1 i2 b_at b hdr_at (st_at i0) write a1 (taken [i0; i1; i2] v))
       else Err Overflow).
Proof.
  intros Hv Ha Ha0. pose proof (vi_len v ops Hv) as Hsz. pose proof Hsz as (Ld & Lf & Li & La). unfold rw_try.
  destruct (alloc3_desc_spec v) as [(_ & i0 & i1 & i2 & -> & Hne & Hall)|(Hnf & v' & -> & Hr)]; [done|done|..];
    rewrite bind_Ok_l.
  - right. exists i0, i1, i2. split; [done|]. split; [done|]. change (aget [i0; i1; i2] 0) with (Ok i0).
    rewrite bind_Ok_l. rewrite !list.Forall_cons in Hall. destruct Hall as ([H0 _] & [H1 _] & [H2 _] & _).
    rewrite (rw_submit_spec _ i0 i1 i2 b_at b hdr_at (st_at i0) write a1); try done;
      [by destruct (a1 + 1 <? 2 ^ 16)|].
    unfold sized. cbn. by rewrite !length_insert.
  - left. by exists v'.
Qed.

Lemma rw_header_spec r : request_ok r → rw_header (rw_args r).1 (rw_args r).2 = Ok (hdr_of r).
Proof.
  intros [Hn _]. unfold rw_header. change (BSIZE / 512) with 2. rewrite umul_eq; [done|].
  unfold is_u in Hn. lia.
Qed.

Lemma inv_call s ops p r b_at hdr_at :
  Inv s ops → frames s !! p = None → request_ok r → fresh_at s b_at hdr_at →
  Inv (set_frames s (<[p := mkFrame r b_at hdr_at None]> (frames s))) ops.
Proof.
  intros [Hv Ha Hu Hnd Hb Ho Hi Hr Hq] Hp Hok Hf. split; try done; cbn [frames set_frames].
  - intros h Hh. destruct (Ho h Hh) as (q & f & Hq' & Hid). exists q, f. split; [|done].
    rewrite lookup_insert_ne by congruence. done.
  - intros q1 q2 f g [[<- <-]|[N1 H1]]%lookup_insert_Some [[<- <-]|[N2 H2]]%lookup_insert_Some Hne; cbn;
      [done| | |by eapply Hi].
    + destruct (Hf _ _ H2) as [? ?]. split_and!; [congruence..|done].
    + destruct (Hf _ _ H1) as [? ?]. split_and!; [congruence..|done].
  - intros q f h [[<- <-]|[_ Hq']]%lookup_insert_Some Hid; [done|].
    eapply (req_ok_ext s); [by eapply Hr|done..].
  - intros q f [[<- <-]|[_ Hq']]%lookup_insert_Some; [done|]. by eapply Hq.
Qed.

Lemma inv_full s ops v' : Inv s ops → rolled_back (vio s) v' → Inv (set_vio s v') ops ∧ ∀ f, abs (set_vio s v') f = abs s f.
Proof.
  intros [Hv Ha Hu Hnd Hb Ho Hi Hr Hq] Hrb. pose proof Hrb as [Hf [Hl Hd] (Ea & Eu & Ei & En & _)].
  assert (unserved (set_vio s v') = unserved s) as Eun by (unfold unserved; by rewrite (avail_q_ext (vio s))).
  assert (busy (set_vio s v') = busy s) as Eb by (unfold busy; by rewrite Eun, (used_q_ext (vio s))).
  split; [|intros f; apply abs_ext; intros h _; cbn [vio set_vio]; by rewrite Eun, En].
  split; cbn [vio frames set_vio seen]; rewrite ?Eb, ?Ea, ?Eu, ?Ei; try done.
  - by eapply rolled_back_inv.
  - intros p f h Hp Hid. eapply (req_ok_ext s); [by eapply Hr|done| |done|cbn; by rewrite En|by rewrite Eb|by rewrite Eun].
    intros mt i Ho' Hc. apply Hd. apply (vi_busy _ _ Hv); [by eapply chain_range|eauto].
Qed.

Lemma elem_of_cons_other {A} (x y : A) l : x ≠ y → x ∈ y :: l ↔ x ∈ l.
Proof. rewrite elem_of_cons. tauto. Qed.

(** Submission *)
Definition submit_sys s p f (i0 i1 i2 a1 : Z) : Sys :=
  mkSys (submitted i0 i1 i2 (box_at f) (rqbuf f) (buf0_at f) (st_at i0) (rqwrite f) a1 (taken [i0; i1; i2] (vio s)))
    (<[buf0_at f := hdr_of (rq f)]> (hdrs s)) (sectors s) (seen s) (indev s)
    (<[p := mkFrame (rq f) (box_at f) (buf0_at f) (Some i0)]> (frames s)).

Lemma submit_queues s ops p f i0 i1 i2 a1 :
  Inv s ops → avail (vio s) !! 1%nat = Some a1 →
  unserved (submit_sys s p f i0 i1 i2 a1) ≡ₚ i0 :: unserved s ∧
  busy (submit_sys s p f i0 i1 i2 a1) ≡ₚ i0 :: busy s.
Proof.
  intros HI Ha. destruct (iv_a s ops HI) as (a1' & Ha' & Hs & Hlt). assert (a1' = a1) as -> by congruence.
  destruct (vi_len _ _ (iv_v s ops HI)) as (_ & _ & _ & La).
  assert (Z.of_nat (length (avail_q (vio s) (seen s))) = a1 - seen s) as Hlen.
  { unfold avail_q. rewrite length_fmap, length_seqZ, (list_lookup_total_correct _ _ _ Ha). lia. }
  pose proof (busy_len s ops HI) as Hb. unfold busy, unserved in Hb. rewrite !length_app in Hb.
  assert (avail_q (vio (submit_sys s p f i0 i1 i2 a1)) (seen s) = avail_q (vio s) (seen s) ++ [i0]) as Eq.
  { unfold submit_sys, submitted. cbv zeta. cbn [vio].
    rewrite (avail_q_submit _ _ a1 _ i0); [|done|done|lia|lia|done]. by rewrite (avail_q_ext (vio s)). }
  assert (unserved (submit_sys s p f i0 i1 i2 a1) ≡ₚ i0 :: unserved s) as Hu.
  { unfold unserved. cbn [seen submit_sys] in *. rewrite Eq. cbn [indev submit_sys].
    rewrite <- app_assoc. cbn [app]. by rewrite <- Permutation_middle. }
  split; [done|]. unfold busy. rewrite Hu. cbn [app]. by rewrite (used_q_ext (vio s)).
Qed.

Lemma free_unowned v ops i : vinv v ops → 0 ≤ i < DESC_NUM → free v !! Z.to_nat i = Some true →
  ∀ h mt, ops !! h = Some mt → ¬ chain h mt i.
Proof.
  intros Hv Hi Hf h mt Ho Hc. assert (free v !! Z.to_nat i = Some false); [|congruence].
  apply (vi_busy v ops Hv); eauto.
Qed.

Section submit.
Context s (ops : Ops) (p : Z) f (i0 i1 i2 a1 : Z) (HI : Inv s ops) (Hp : frames s !! p = Some f) (Hid : idx0 f = None)
  (Hne : i0 ≠ i1 ∧ i0 ≠ i2 ∧ i1 ≠ i2)
  (Hall : Forall (λ i, 0 ≤ i < DESC_NUM ∧ free (vio s) !! Z.to_nat i = Some true) [i0; i1; i2])
  (Ha : avail (vio s) !! 1%nat = Some a1) (Hlt : a1 + 1 < 2 ^ 16).
Notation s' := (submit_sys s p f i0 i1 i2 a1).

Lemma submit_range : 0 ≤ i0 < DESC_NUM ∧ 0 ≤ i1 < DESC_NUM ∧ 0 ≤ i2 < DESC_NUM.
Proof. rewrite !list.Forall_cons in Hall. tauto. Qed.

Lemma submit_unowned h mt i : ops !! h = Some mt → chain h mt i → i ≠ i0 ∧ i ≠ i1 ∧ i ≠ i2.
Proof.
  intros Ho Hc. assert (∀ j, j ∈ [i0; i1; i2] → i ≠ j) as Hj.
  { intros j Hj ->. rewrite list.Forall_forall in Hall. destruct (Hall j Hj) as [Hr Hf].
    by apply (free_unowned _ _ j (iv_v s ops HI) Hr Hf h mt). }
  split_and!; apply Hj; set_solver.
Qed.

Lemma submit_fresh : ops !! i0 = None.
Proof. destruct (ops !! i0) as [mt|] eqn:E; [|done]. by destruct (submit_unowned i0 mt i0 E); [left|]. Qed.

Lemma submit_desc (i : nat) :
  desc (vio s') !! i =
    if decide (i = Z.to_nat i0) then Some (mkDesc (buf0_at f) 16 VRING_DESC_F_NEXT i1)
    else if decide (i = Z.to_nat i1) then
      Some (mkDesc (box_at f + data_off) BSIZE
              (Z.lor (if rqwrite f then 0 else VRING_DESC_F_WRITE) VRING_DESC_F_NEXT) i2)
    else if decide (i = Z.to_nat i2) then Some (mkDesc (st_at i0) 1 VRING_DESC_F_WRITE 0)
    else desc (vio s) !! i.
Proof.
  destruct submit_range as (R0 & R1 & R2). cbn [vio submit_sys]. rewrite submitted_desc; [done| |done..].
  destruct (vi_len _ _ (iv_v s ops HI)) as (Ld & Lf & Li & La). unfold sized. cbn. by rewrite !length_insert.
Qed.

(** The other callers *)
Lemma submit_other q g h :
  frames s !! q = Some g → idx0 g = Some h →
  h ≠ i0 ∧ info (vio s') !! Z.to_nat h = info (vio s) !! Z.to_nat h.
Proof.
  intros Hg Hh. destruct (rk_desc _ _ _ _ (iv_req s ops HI q g h Hg Hh)) as (m & t & Hmt & _).
  pose proof (chain_range _ _ _ _ h (iv_v s ops HI) Hmt (or_introl eq_refl)). destruct submit_range as (? & _).
  assert (h ≠ i0) by (pose proof submit_fresh; congruence). split; [done|]. cbn.
  by rewrite list_lookup_insert_ne by lia.
Qed.

Lemma submit_req_new : req_ok s' (<[i0 := (i1, i2)]> ops) (mkFrame (rq f) (box_at f) (buf0_at f) (Some i0)) i0.
Proof.
  destruct (submit_queues s ops p f i0 i1 i2 a1 HI Ha) as [_ Qb]. destruct submit_range as (R0 & R1 & R2).
  destruct (vi_len _ _ (iv_v s ops HI)) as (_ & _ & Li & _). split; cbn [buf0_at rq hdrs submit_sys].
  - exists i1, i2. split; [by rewrite lookup_insert_eq|].
    split; rewrite submit_desc; repeat first [rewrite decide_True by done|rewrite decide_False by lia]; done.
  - by rewrite lookup_insert_eq.
  - eexists. split; [cbn; apply list_lookup_insert_eq; lia|]. split; [done|done| |done].
    cbn [buf]. rewrite decide_True; [done|]. rewrite Qb. by left.
Qed.

Lemma submit_req_old q g h :
  q ≠ p → frames s !! q = Some g → idx0 g = Some h → req_ok s' (<[i0 := (i1, i2)]> ops) g h.
Proof.
  intros Hqp Hg Hh. destruct (submit_queues s ops p f i0 i1 i2 a1 HI Ha) as [Qu Qb].
  destruct (submit_other q g h Hg Hh) as [Hhi Hinf]. destruct submit_range as (R0 & R1 & R2).
  destruct (iv_inj s ops HI q p g f Hg Hp Hqp) as (_ & N2 & _).
  apply (req_ok_ext s _ ops); [by eapply (iv_req s ops HI)|by rewrite lookup_insert_ne| | |done| |].
  - intros mt i Hmt Hc. pose proof (chain_range _ _ _ _ i (iv_v s ops HI) Hmt Hc).
    destruct (submit_unowned h mt i Hmt Hc) as (? & ? & ?). by rewrite submit_desc, !decide_False by lia.
  - cbn [hdrs submit_sys]. by rewrite lookup_insert_ne.
  - rewrite Qb. by apply elem_of_cons_other.
  - rewrite Qu. by apply elem_of_cons_other.
Qed.

Lemma inv_submit : Inv s' (<[i0 := (i1, i2)]> ops).
Proof.
  destruct (submit_queues s ops p f i0 i1 i2 a1 HI Ha) as [Qu Qb].
  pose proof HI as [Hv (a1' & Ha' & Hs & _) Hu Hnd Hb Ho Hi Hr Hq]. assert (a1' = a1) as -> by congruence.
  destruct (vi_len _ _ Hv) as (_ & _ & _ & La). pose proof submit_fresh as Hi0.
  assert (i0 ∉ busy s) as Hnb by (intros [mt Hmt]%Hb; congruence).
  split; cbn [seen frames submit_sys]; try done.
  - by apply submit_inv.
  - exists (a1 + 1). split; [|lia]. cbn. apply list_lookup_insert_eq. rewrite length_insert, La, AVAIL_SZ_eq. lia.
  - rewrite Qb. by constructor.
  - intros h. rewrite Qb. intros [->|Hh]%elem_of_cons; [rewrite lookup_insert_eq; eauto|].
    rewrite lookup_insert_ne by congruence. by apply Hb.
  - intros h. destruct (decide (h = i0)) as [->|Hh].
    + intros _. eexists p, _. by rewrite lookup_insert_eq.
    + rewrite lookup_insert_ne by done. intros (q & g & Hg & Hgi)%Ho. exists q, g.
      rewrite lookup_insert_ne by congruence. done.
  - intros q1 q2 f1 f2 [[<- <-]|[N1 H1]]%lookup_insert_Some [[<- <-]|[N2 H2]]%lookup_insert_Some Hn; cbn;
      [done| | |by eapply Hi].
    + destruct (Hi p q2 f f2 Hp H2 Hn) as (? & ? & _). split_and!; [done..|]. intros h [= <-] E.
      by destruct (submit_other _ _ _ H2 E).
    + destruct (Hi q1 p f1 f H1 Hp Hn) as (? & ? & _). split_and!; [done..|]. intros h E [= <-].
      by destruct (submit_other _ _ _ H1 E).
  - intros q g h [[<- <-]|[N1 H1]]%lookup_insert_Some Hh; [|by apply submit_req_old with q].
    injection Hh as <-. apply submit_req_new.
  - intros q g [[<- <-]|[_ Hg]]%lookup_insert_Some; [exact (Hq p f Hp)|by eapply Hq].
Qed.

Lemma abs_submit : abs s' <$> frames s' = abs s <$> frames s.
Proof.
  destruct (submit_queues s ops p f i0 i1 i2 a1 HI Ha) as [Qu _]. apply map_eq. intros q. rewrite !lookup_fmap.
  cbn [frames submit_sys]. destruct (decide (p = q)) as [<-|Hpq].
  - rewrite lookup_insert_eq, Hp. cbn [fmap option_fmap option_map]. f_equal. unfold abs. cbn [idx0 rq]. rewrite Hid.
    rewrite decide_True; [done|]. rewrite Qu. by left.
  - rewrite lookup_insert_ne by done. destruct (frames s !! q) as [g|] eqn:Hg; [|done]. cbn. f_equal.
    apply abs_ext. intros h Hh. destruct (submit_other q g h Hg Hh). split; [|done]. rewrite Qu.
    by apply elem_of_cons_other.
Qed.
End submit.

(** Return *)
Lemma rw_check_spec s ops p f h :
  Inv s ops → frames s !! p = Some f → idx0 f = Some h →
  ∃ op m t dh dm dt, ops !! h = Some (m, t) ∧ info (vio s) !! Z.to_nat h = Some (Some op) ∧ op_ok s f h op ∧
    rw_check h (vio s) = Ok (if decide (h ∈ busy s) then (None, vio s)
                             else (Some (buf op), finished h m t dh dm dt (vio s))).
Proof.
  intros HI Hp Hid. destruct (iv_req s ops HI p f h Hp Hid) as [(m & t & Ho & _) _ (op & Hop & Hok)].
  destruct (rw_finish_spec _ ops h m t (iv_v s ops HI) Ho) as (op' & dh & dm & dt & Hop' & Hf).
  assert (op' = op) as -> by congruence. exists op, m, t, dh, dm, dt. split_and!; [done..|].
  assert (0 ≤ h) by (by apply (chain_range _ _ _ _ h (iv_v s ops HI) Ho); left).
  unfold rw_check, rw_waiting. rewrite (aget_eq _ _ (Some op)) by done.
  rewrite bind_Ok_l. cbn [unwrap]. rewrite !bind_Ok_l, (f_equal disk (oo_buf _ _ _ _ Hok)). cbn [disk].
  destruct (decide (h ∈ busy s)); cbn [Z.eqb Pos.eqb]; [done|]. by rewrite Hf, bind_Ok_l.
Qed.

Definition return_sys s p f h m t dh dm dt : Sys :=
  mkSys (finished h m t dh dm dt (vio s)) (delete (buf0_at f) (hdrs s)) (sectors s) (seen s) (indev s)
    (delete p (frames s)).

Lemma inv_return s ops p f h m t dh dm dt :
  Inv s ops → frames s !! p = Some f → idx0 f = Some h → ops !! h = Some (m, t) → h ∉ busy s →
  Inv (return_sys s p f h m t dh dm dt) (delete h ops) ∧
  abs (return_sys s p f h m t dh dm dt) <$> frames (return_sys s p f h m t dh dm dt) = delete p (abs s <$> frames s).
Proof.
  intros HI Hp Hid Hmt Hnb. pose proof HI as [Hv Ha Hu Hnd Hb Ho Hi Hr Hq].
  set (s' := return_sys _ _ _ _ _ _ _ _ _).
  assert (unserved s' = unserved s) as Eu by done. assert (busy s' = busy s) as Eb by done.
  assert (frames s' = delete p (frames s)) as Ef by done.
  assert (Hoth : ∀ q g h', frames s !! q = Some g → p ≠ q → idx0 g = Some h' → h' ≠ h ∧ 0 ≤ h').
  { intros q g h' Hg Hpq Hh'. destruct (Hi p q f g Hp Hg Hpq) as (_ & _ & N).
    split; [intros ->; by eapply N|]. destruct (rk_desc _ _ _ _ (Hr q g h' Hg Hh')) as (m' & t' & Hmt' & _).
    by apply (chain_range _ _ _ _ h' Hv Hmt'); left. }
  assert (Hinfo : ∀ h', h' ≠ h → 0 ≤ h' → info (vio s') !! Z.to_nat h' = info (vio s) !! Z.to_nat h').
  { intros h' Hne H0. cbn. rewrite list_lookup_insert_ne; [done|].
    pose proof (chain_range _ _ _ _ h Hv Hmt (or_introl eq_refl)). lia. }
  split; [split; rewrite ?Eb, ?Ef; try done|].
  - by apply finished_inv.
  - intros h' Hh'. rewrite lookup_delete_ne; [by apply Hb|]. by intros <-.
  - intros h' [mt [Hne Hmt']%lookup_delete_Some]. destruct (Ho h') as (q & g & Hg & Hgi); [eauto|].
    exists q, g. split; [|done]. rewrite lookup_delete_ne; [done|]. intros <-. congruence.
  - intros q1 q2 f1 f2 [_ H1]%lookup_delete_Some [_ H2]%lookup_delete_Some. by apply Hi.
  - intros q g h' [Hpq Hg]%lookup_delete_Some Hh'. destruct (Hoth q g h' Hg Hpq Hh') as [Hne H0].
    destruct (Hi p q f g Hp Hg Hpq) as (_ & N & _).
    eapply (req_ok_ext s); [by eapply Hr|by rewrite lookup_delete_ne| | |by apply Hinfo|by rewrite Eb|by rewrite Eu].
    + intros mt' i Hmt' Hc. assert (¬ chain h (m, t) i) as Hnc by
        (intros Hc'; apply Hne; by eapply (vi_disj _ _ Hv)).
      pose proof (chain_range _ _ _ _ i Hv Hmt' Hc). pose proof (ch_range _ _ _ _ (vi_chain _ _ Hv h _ Hmt)) as Hrg.
      unfold chain in Hnc. cbn in Hnc, Hrg. cbn. by rewrite !list_lookup_insert_ne by lia.
    + cbn. by rewrite lookup_delete_ne.
  - intros q g [_ Hg]%lookup_delete_Some. by eapply Hq.
  - rewrite <- fmap_delete. rewrite Ef. apply callers_ext. intros q g [Hpq Hg]%lookup_delete_Some.
    apply abs_ext. intros h' Hh'. destruct (Hoth q g h' Hg Hpq Hh'). rewrite Eu. split; [done|by apply Hinfo].
Qed.

(** ** The handler and the device *)
Lemma head_range s ops p f h :
  Inv s ops → frames s !! p = Some f → idx0 f = Some h → 0 ≤ h < DESC_NUM.
Proof.
  intros HI Hp Hid. destruct (rk_desc _ _ _ _ (iv_req s ops HI p f h Hp Hid)) as (m & t & Hmt & _).
  by apply (chain_range _ _ _ _ h (iv_v s ops HI) Hmt); left.
Qed.

(** A step that changes the operation [h] of one caller, and may take it off the queues *)
Lemma inv_one s s' ops p f h op' :
  Inv s ops → frames s !! p = Some f → idx0 f = Some h →
  frames s' = frames s → hdrs s' = hdrs s → desc (vio s') = desc (vio s) →
  info (vio s') = <[Z.to_nat h := Some op']> (info (vio s)) → vinv (vio s') ops →
  (∃ a1, avail (vio s') !! 1%nat = Some a1 ∧ 0 ≤ seen s' ≤ a1 ∧ a1 < 2 ^ 16) →
  0 ≤ used_idx (vio s') < DESC_NUM ∧ length (elems (used (vio s'))) = Z.to_nat DESC_NUM →
  NoDup (busy s') → (∀ k, k ∈ busy s' → k ∈ busy s) → (∀ k, k ≠ h → k ∈ busy s → k ∈ busy s') →
  (∀ k, k ≠ h → k ∈ unserved s' ↔ k ∈ unserved s) → op_ok s' f h op' →
  Inv s' ops ∧ ∀ q g, q ≠ p → frames s !! q = Some g → abs s' g = abs s g.
Proof.
  intros HI Hp Hid Ef Eh Ed Ei Hv' Ha' Hu' Hnd' Hb1 Hb2 Hun Hok.
  pose proof (head_range s ops p f h HI Hp Hid) as Hrh. pose proof HI as [Hv Ha Hu Hnd Hb Ho Hi Hr Hq].
  assert (Hoth : ∀ q g k, q ≠ p → frames s !! q = Some g → idx0 g = Some k →
    k ≠ h ∧ info (vio s') !! Z.to_nat k = info (vio s) !! Z.to_nat k).
  { intros q g k Hqp Hg Hk. assert (k ≠ h) as Hkh.
    { intros ->. destruct (Hi q p g f Hg Hp Hqp) as (_ & _ & N). by eapply N. }
    pose proof (head_range s ops q g k HI Hg Hk). split; [done|]. by rewrite Ei, list_lookup_insert_ne by lia. }
  split.
  - split; rewrite ?Ef; try done; [by auto|]. intros q g k Hg Hk. destruct (decide (q = p)) as [->|Hqp].
    + assert (g = f) as -> by congruence. assert (k = h) as -> by congruence.
      destruct (Hr p f h Hp Hid) as [(m & t & Hmt & [D1 D2 D3]) Hh (op & Hop & _)]. split.
      * exists m, t. split; [done|]. by split; rewrite Ed.
      * by rewrite Eh.
      * exists op'. split; [|done]. rewrite Ei. apply list_lookup_insert_eq. by eapply lookup_lt_Some.
    + destruct (Hoth q g k Hqp Hg Hk) as [Hkh Hinf].
      apply (req_ok_ext s _ ops); [by eapply Hr|done|by rewrite Ed|by rewrite Eh|done| |by apply Hun].
      split; auto.
  - intros q g Hqp Hg. apply abs_ext. intros k Hk. destruct (Hoth q g k Hqp Hg Hk). auto.
Qed.

Lemma busy_owner s ops h :
  Inv s ops → h ∈ busy s →
  ∃ p f op, frames s !! p = Some f ∧ idx0 f = Some h ∧ info (vio s) !! Z.to_nat h = Some (Some op) ∧ op_ok s f h op.
Proof.
  intros HI Hh. destruct (iv_own s ops HI h) as (p & f & Hp & Hid); [by apply (iv_busy s ops HI)|].
  destruct (rk_op _ _ _ _ (iv_req s ops HI p f h Hp Hid)) as (op & Hop & Hok). by exists p, f, op.
Qed.

Lemma inv_intr s ops :
  Inv s ops → intr_pending (vio s) = true →
  ∃ v', virtiointr_body (vio s) = Ok v' ∧ Inv (set_vio s v') ops ∧
    (∀ p f, frames s !! p = Some f → abs (set_vio s v') f = abs s f) ∧
    ∃ h, busy s ≡ₚ h :: busy (set_vio s v') ∧ unserved (set_vio s v') = unserved s ∧ avail v' = avail (vio s) ∧
      free v' = free (vio s) ∧
      ∃ p f, frames s !! p = Some f ∧ idx0 f = Some h ∧ wakeups v' = wakeups (vio s) ++ [box_at f].
Proof.
  intros HI Hpend. destruct (iv_u s ops HI) as [Hui Hel].
  rewrite intr_pending_npending in Hpend by done. apply negb_true_iff, Z.eqb_neq in Hpend.
  destruct (lookup_lt_is_Some_2 (elems (used (vio s))) (Z.to_nat (used_idx (vio s)))) as [e He]; [lia|].
  set (h := ue_id e).
  assert (∀ op, used_q (vio s) = h :: used_q (intr_next h op (vio s))) as Huq.
  { intros op. rewrite (used_q_handle _ h op) by done. by rewrite (list_lookup_total_correct _ _ _ He). }
  assert (h ∈ busy s) as Hbusy by (unfold busy; rewrite (Huq (mkOp 0 Buf_new 0)); set_solver).
  destruct (busy_owner s ops h HI Hbusy) as (p & f & op & Hp & Hid & Hop & Hok).
  pose proof (head_range s ops p f h HI Hp Hid) as Hrh.
  destruct (intr_body_run _ ops e op (iv_v s ops HI) Hui He (proj1 Hrh) Hop (oo_st _ _ _ _ Hok)) as [Hrun Hv'].
  fold h in Hrun, Hv'. set (s' := set_vio s (intr_next h op (vio s))).
  assert (unserved s' = unserved s) as Eu by done.
  assert (busy s ≡ₚ h :: busy s') as Eb.
  { unfold busy. rewrite (Huq op), Eu. by rewrite <- Permutation_middle. }
  assert (NoDup (h :: busy s')) as [Hni Hnd]%list.NoDup_cons by (rewrite <- Eb; apply (iv_nd s ops HI)).
  assert (h ∉ unserved s) as Hnu by (rewrite <- Eu; intros ?%unserved_busy; done).
  exists (intr_next h op (vio s)). split; [done|].
  destruct (inv_one s s' ops p f h (completed op) HI Hp Hid) as [HI' Habs]; try done.
  - apply (iv_a s ops HI).
  - split; [by apply Z.mod_pos_bound|done].
  - intros k Hk. rewrite Eb. by right.
  - intros k Hkh. rewrite Eb. by rewrite elem_of_cons_other.
  - destruct Hok as [O1 O2 O3 O4]. split; [done|done| |by rewrite Eu].
    rewrite decide_False by done. by destruct op as [? [] ?]; cbn in *; injection O3 as -> _ -> ->.
  - split; [done|]. split; [|exists h; split_and!; [done..|exists p, f]; split_and!; [done..|]; cbn;
      by rewrite (oo_at _ _ _ _ Hok)]. intros q g Hg. destruct (decide (q = p)) as [->|Hqp]; [|by eapply Habs].
    assert (g = f) as -> by congruence. change (abs s' f = abs s f). unfold abs.
    rewrite Hid, Eu, !decide_False by done. rewrite Hop. unfold s'. cbn [vio set_vio intr_next set_used_idx info wakeup set_info].
    by rewrite list_lookup_insert_eq by (by eapply lookup_lt_Some).
Qed.

Lemma inv_fetch s ops a1 h :
  Inv s ops → avail (vio s) !! 1%nat = Some a1 → seen s ≠ a1 →
  avail (vio s) !! Z.to_nat (2 + seen s mod DESC_NUM) = Some h →
  let s' := set_dev s ((seen s + 1) mod 2 ^ 16) (indev s ++ [h]) in
  Inv s' ops ∧ (∀ f, abs s' f = abs s f) ∧ avail_q (vio s) (seen s) = h :: avail_q (vio s') (seen s').
Proof.
  intros HI Ha Hne Hh s'. pose proof HI as [Hv (a1' & Ha' & Hs & Hlt) Hu Hnd Hb Ho Hi Hr Hq].
  assert (a1' = a1) as -> by congruence.
  assert (seen s' = seen s + 1) as Es by (apply Z.mod_small; lia).
  assert (avail_q (vio s) (seen s) = h :: avail_q (vio s') (seen s')) as Eq.
  { rewrite Es. apply (avail_q_fetch _ _ a1); [done|lia|done]. }
  assert (unserved s ≡ₚ unserved s') as Eu.
  { unfold unserved. rewrite Eq. change (indev s') with (indev s ++ [h]).
    rewrite (Permutation_app_comm (indev s) [h]). apply Permutation_middle. }
  assert (busy s ≡ₚ busy s') as Eb by (unfold busy; by rewrite Eu).
  split_and!; [|intros f; apply abs_ext; intros k _; by rewrite Eu|done].
  split; rewrite <- ?Eb; try done.
  - exists a1. rewrite Es. split; [done|lia].
  - intros k. rewrite <- Eb. apply Hb.
  - intros p f k Hp Hk. apply (req_ok_ext s _ ops); [by eapply Hr|done..|by rewrite Eb|by rewrite Eu].
Qed.

(** What the device finds at the addresses of a request *)
Lemma find_data_spec s ops p f h op :
  Inv s ops → frames s !! p = Some f → idx0 f = Some h →
  info (vio s) !! Z.to_nat h = Some (Some op) → buf_at op = box_at f →
  find_data (box_at f + data_off) (info (vio s)) = Ok (Z.to_nat h, op).
Proof.
  intros HI Hp Hid Hop Hat. unfold find_data.
  rewrite (proj2 (list_find_Some _ _ (Z.to_nat h) (Some op))); [done|]. split_and!; [done| |].
  - cbn. rewrite Hat. apply Z.eqb_refl.
  - intros j [op'|] Hj Hlt; [|done]. cbn. intros Heq%Z.eqb_eq.
    destruct (iv_own s ops HI (Z.of_nat j)) as (q & g & Hg & Hgi); [by eapply (vi_info _ _ (iv_v s ops HI))|].
    destruct (rk_op _ _ _ _ (iv_req s ops HI q g _ Hg Hgi)) as (op2 & Hop2 & Hok2). rewrite Nat2Z.id in Hop2.
    assert (op2 = op') as -> by congruence. pose proof (oo_at _ _ _ _ Hok2).
    destruct (decide (q = p)) as [->|Hqp]; [|destruct (iv_inj s ops HI q p g f Hg Hp Hqp); lia].
    assert (Z.of_nat j = h) as <- by congruence. lia.
Qed.

(** The status bytes of two operations are at different addresses. *)
Context (st_inj : ∀ i j, 0 ≤ i < DESC_NUM → 0 ≤ j < DESC_NUM → st_at i = st_at j → i = j).

Lemma find_status_spec inf h op :
  0 ≤ h < DESC_NUM → inf !! Z.to_nat h = Some (Some op) →
  find_status st_at (st_at h) inf = Ok (Z.to_nat h, op).
Proof.
  intros Hh Hop. unfold find_status. rewrite (proj2 (list_find_Some _ _ (Z.to_nat h) h)); [by rewrite Hop|].
  split_and!; [apply lookup_seqZ; lia|done|]. intros j k [-> Hj]%lookup_seqZ Hlt E.
  assert (0 + Z.of_nat j = h) as Ejh by (apply st_inj; [lia|done|done]). lia.
Qed.

Definition served_op (r : request) (dk : Z → list Z) (op : InflightOp) : InflightOp :=
  if (rw_args r).2 then op else with_data op (read_sectors dk (blockno (rw_args r).1 * 2) 2).
Definition served_dk (r : request) (dk : Z → list Z) : Z → list Z :=
  if (rw_args r).2 then write_sectors dk (blockno (rw_args r).1 * 2) 2 (data (rw_args r).1) else dk.
Definition publish v (h n : Z) : UsedArea :=
  mkUsed (ua_flags (used v)) ((ua_id (used v) + 1) mod 2 ^ 16)
    (<[Z.to_nat (ua_id (used v) mod DESC_NUM) := mkElem h n]> (elems (used v))).
Definition serve_sys s f h op : Sys :=
  mkSys (set_used (set_info (vio s) (<[Z.to_nat h := Some (served_op (rq f) (sectors s) op)]> (info (vio s))))
           (publish (vio s) h (BSIZE + 1)))
    (hdrs s) (served_dk (rq f) (sectors s)) (seen s) (indev s) (frames s).

Lemma dev_transfer_spec s ops p f h op t :
  Inv s ops → frames s !! p = Some f → idx0 f = Some h →
  info (vio s) !! Z.to_nat h = Some (Some op) → op_ok s f h op → h ∈ unserved s →
  dev_transfer (hdr_of (rq f)) (mkDesc (box_at f + data_off) BSIZE
      (Z.lor (if rqwrite f then 0 else VRING_DESC_F_WRITE) VRING_DESC_F_NEXT) t) (sectors s) (info (vio s)) =
  Ok (served_dk (rq f) (sectors s), <[Z.to_nat h := Some (served_op (rq f) (sectors s) op)]> (info (vio s))).
Proof.
  intros HI Hp Hid Hop Hok Hu. unfold dev_transfer. cbn [addr len flags].
  rewrite (find_data_spec s ops p f h op HI Hp Hid Hop (oo_at _ _ _ _ Hok)), bind_Ok_l.
  change (Z.to_nat (BSIZE / 512)) with 2%nat. unfold served_dk, served_op, hdr_of. cbn [blk_type sector].
  destruct (rqwrite f); [|done]. cbn [Z.eqb VIRTIO_BLK_T_OUT VIRTIO_BLK_T_IN].
  rewrite (oo_data _ _ _ _ Hok Hu), list_insert_id by done. done.
Qed.

Lemma dev_serve_spec s ops p f h op :
  Inv s ops → frames s !! p = Some f → idx0 f = Some h →
  info (vio s) !! Z.to_nat h = Some (Some op) → op_ok s f h op → h ∈ unserved s →
  dev_serve st_at h s = Ok (serve_sys s f h op).
Proof.
  intros HI Hp Hid Hop Hok Hu. pose proof (head_range s ops p f h HI Hp Hid) as Hrh.
  destruct (iv_req s ops HI p f h Hp Hid) as [(m & t & Hmt & [D1 D2 D3]) Hh _].
  destruct (ch_range _ _ _ _ (vi_chain _ _ (iv_v s ops HI) h _ Hmt)) as (R1 & R2 & R3). cbn [fst snd] in *.
  pose proof (lookup_lt_Some _ _ _ Hop) as Hlt. destruct (iv_u s ops HI) as [_ Hel].
  pose proof (Z.mod_pos_bound (ua_id (used (vio s))) DESC_NUM ltac:(done)).
  unfold dev_serve. rewrite (aget_eq _ _ _ (proj1 R1) D1), bind_Ok_l. cbn [next].
  rewrite (aget_eq _ _ _ (proj1 R2) D2), bind_Ok_l. cbn [next].
  rewrite (aget_eq _ _ _ (proj1 R3) D3), bind_Ok_l.
  match goal with |- context [panic_if ?c _] => assert (c = false) as -> by by destruct (rqwrite f) end.
  cbn [panic_if addr].
  rewrite bind_Ok_l, Hh. cbn [unwrap]. rewrite bind_Ok_l, (dev_transfer_spec s ops p f h op t), bind_Ok_l by done.
  rewrite (find_status_spec _ h (served_op (rq f) (sectors s) op)), bind_Ok_l
    by (done || by apply list_lookup_insert_eq).
  rewrite (aset_in _ _ _ DESC_NUM), bind_Ok_l by done. rewrite list_insert_insert_eq.
  unfold serve_sys, publish. cbn [len]. do 6 f_equal.
  unfold with_status, served_op. destruct op as [? ? st]. destruct Hok as [_ Hst _ _]. cbn in Hst. subst st.
  by destruct (rqwrite f).
Qed.

(** ** A failed request *)
Definition fail_sys s h x op : Sys :=
  mkSys (set_used (set_info (vio s) (<[Z.to_nat h := Some (with_status op x)]> (info (vio s)))) (publish (vio s) h 1))
    (hdrs s) (sectors s) (seen s) (indev s) (frames s).

Lemma dev_fail_spec s ops p f h op x :
  Inv s ops → frames s !! p = Some f → idx0 f = Some h → info (vio s) !! Z.to_nat h = Some (Some op) →
  dev_fail st_at x h s = Ok (fail_sys s h x op).
Proof.
  intros HI Hp Hid Hop. pose proof (head_range s ops p f h HI Hp Hid) as Hrh.
  destruct (iv_req s ops HI p f h Hp Hid) as [(m & t & Hmt & [D1 D2 D3]) Hh _].
  destruct (ch_range _ _ _ _ (vi_chain _ _ (iv_v s ops HI) h _ Hmt)) as (R1 & R2 & R3). cbn [fst snd] in *.
  destruct (iv_u s ops HI) as [_ Hel].
  pose proof (Z.mod_pos_bound (ua_id (used (vio s))) DESC_NUM ltac:(done)).
  unfold dev_fail. rewrite (aget_eq _ _ _ (proj1 R1) D1), bind_Ok_l. cbn [next].
  rewrite (aget_eq _ _ _ (proj1 R2) D2), bind_Ok_l. cbn [next].
  rewrite (aget_eq _ _ _ (proj1 R3) D3), bind_Ok_l.
  match goal with |- context [panic_if ?c _] => assert (c = false) as -> by by destruct (rqwrite f) end.
  cbn [panic_if addr]. rewrite bind_Ok_l, (find_status_spec _ h op), bind_Ok_l by done.
  by rewrite (aset_in _ _ _ DESC_NUM), bind_Ok_l by done.
Qed.

Lemma serve_queues s ops f h op l1 l2 :
  Inv s ops → indev s = l1 ++ h :: l2 →
  let s' := set_dev (serve_sys s f h op) (seen s) (l1 ++ l2) in
  unserved s ≡ₚ h :: unserved s' ∧ busy s ≡ₚ busy s' ∧ used_q (vio s') = used_q (vio s) ++ [h].
Proof.
  intros HI Hin s'. destruct (iv_u s ops HI) as [_ Hel].
  assert (unserved s ≡ₚ h :: unserved s') as Eu.
  { unfold unserved. rewrite Hin. change (indev s') with (l1 ++ l2).
    change (avail_q (vio s') (seen s')) with (avail_q (vio s) (seen s)). by rewrite <- !Permutation_middle. }
  pose proof (busy_len s ops HI) as Hb. unfold busy in Hb. rewrite length_app in Hb.
  pose proof (used_q_length (vio s)) as Hl.
  assert (used_q (vio s') = used_q (vio s) ++ [h]) as Eq.
  { unfold s'. cbn [vio set_dev serve_sys]. unfold publish.
    rewrite (used_q_ext (set_used (vio s) (publish (vio s) h (BSIZE + 1)))) by done.
    by apply (used_q_publish _ _ _ (BSIZE + 1)); [|lia|]. }
  split_and!; [done| |done]. unfold busy. rewrite Eq, Eu. cbn [app].
  rewrite app_assoc, (Permutation_app_comm _ [h]). done.
Qed.

Lemma inv_serve s ops p f h op l1 l2 :
  Inv s ops → frames s !! p = Some f → idx0 f = Some h →
  info (vio s) !! Z.to_nat h = Some (Some op) → op_ok s f h op → indev s = l1 ++ h :: l2 →
  let s' := set_dev (serve_sys s f h op) (seen s) (l1 ++ l2) in
  Inv s' ops ∧ (∀ q g, q ≠ p → frames s !! q = Some g → abs s' g = abs s g) ∧
  abs s' f = Served (rw_result (rq f) (buf (completed (served_op (rq f) (sectors s) op)))).
Proof.
  intros HI Hp Hid Hop Hok Hin s'.
  destruct (serve_queues s ops f h op l1 l2 HI Hin) as (Eu & Eb & Eq). fold s' in Eu, Eb, Eq.
  pose proof (lookup_lt_Some _ _ _ Hop) as Hlt. pose proof (iv_nd s ops HI) as Hnd.
  assert (NoDup (unserved s)) as Hndu by (unfold busy in Hnd; by apply list.NoDup_app in Hnd as [? _]).
  rewrite Eu in Hndu. apply list.NoDup_cons in Hndu as [Hni _].
  assert (h ∈ busy s') as Hbusy by (rewrite <- Eb; apply unserved_busy; rewrite Eu; by left).
  assert (info (vio s') = <[Z.to_nat h := Some (served_op (rq f) (sectors s) op)]> (info (vio s))) as Ei by done.
  destruct (inv_one s s' ops p f h (served_op (rq f) (sectors s) op) HI Hp Hid) as [HI' Habs]; try done.
  - apply (vinv_ext (set_info (vio s) (<[Z.to_nat h := Some (served_op (rq f) (sectors s) op)]> (info (vio s)))));
      try done; [|eauto|eauto]. by eapply vinv_set_op; [apply (iv_v s ops HI)|].
  - apply (iv_a s ops HI).
  - destruct (iv_u s ops HI) as [Hui Hel]. split; [done|]. cbn. by rewrite length_insert.
  - by rewrite <- Eb.
  - intros k. by rewrite Eb.
  - intros k _. by rewrite Eb.
  - intros k Hk. rewrite Eu. by rewrite elem_of_cons_other.
  - destruct Hok as [O1 O2 O3 O4]. split; [by unfold served_op; destruct (rqwrite f)..| |done].
    rewrite decide_True by done. rewrite decide_True in O3 by by rewrite Eb.
    destruct op as [? [] ?]. unfold served_op. by destruct (rqwrite f); cbn in *; injection O3 as -> -> -> ->.
  - split_and!; [done|done|]. unfold abs. rewrite Hid, decide_False by done.
    rewrite Ei, list_lookup_insert_eq by done. done.
Qed.

(** ** Blocks and sectors *)
Lemma read_write_sectors dk n k l :
  length l = Z.to_nat BSIZE →
  read_sectors (write_sectors dk (n * 2) 2 l) (k * 2) 2 = if decide (k = n) then l else read_sectors dk (k * 2) 2.
Proof.
  intros Hl. cbn [read_sectors write_sectors]. destruct (decide (k = n)) as [->|Hne].
  - rewrite upd_ne, upd_eq, upd_eq by lia. rewrite app_nil_r, (take_ge (drop 512 l)), take_drop; [done|].
    rewrite length_drop, Hl. done.
  - by rewrite !upd_ne by lia.
Qed.

Lemma serve_blocks r dk bl :
  request_ok r → (∀ n, is_u 32 n → bl n = read_sectors dk (n * 2) 2) →
  ∀ n, is_u 32 n → (serve r bl).1 n = read_sectors (served_dk r dk) (n * 2) 2.
Proof.
  intros [Hn Hl] Hbl n Hnu. destruct r as [dv k|b]; [by apply Hbl|]. cbn in Hn, Hl. unfold served_dk.
  cbn [serve fst snd rw_args]. rewrite read_write_sectors by done. unfold upd.
  destruct (decide (n = blockno b)); [done|by apply Hbl].
Qed.

Lemma served_result s f h op bl :
  op_ok s f h op → request_ok (rq f) → (∀ n, is_u 32 n → bl n = read_sectors (sectors s) (n * 2) 2) →
  rw_result (rq f) (buf (completed (served_op (rq f) (sectors s) op))) = (serve (rq f) bl).2.
Proof.
  intros [O1 O2 O3 _] [Hn _] Hbl. destruct (rq f) as [dv n|b] eqn:E; [|done].
  destruct op as [? [] ?]. cbn in *. rewrite (Hbl n Hn). by injection O3 as -> _ -> ->.
Qed.

(** ** Simulation *)
Section simulation.
Context (dev_step : Sys → Sys → Prop)
  (dev_conforms : ∀ s s', dev_step s s' → virtio_step st_at s s').

Lemma rel_quiet s s' a ops :
  Rel s a → Inv s' ops → sectors s' = sectors s → abs s' <$> frames s' = abs s <$> frames s → Rel s' a.
Proof. intros [_ Hb Hc] HI Es Ef. split; [by exists ops|by rewrite Es|by rewrite Ef]. Qed.

Lemma sim_caller s a t s' :
  Rel s a → step st_at (λ _ _, False) s t s' → (t = [] ∧ Rel s' a) ∨ ∃ a', astep a t a' ∧ Rel s' a'.
Proof.
  intros HR Hstep. pose proof HR as [(ops & HI) Hb Hc]. destruct Hstep as
    [p r b_at hdr_at s Hp Hok Hfr|p f v' s Hp Hid Htry|p f hd i0 v' s Hp Hid Hhd Htry|p f i0 v' s Hp Hid Hck
    |p f i0 b v' s Hp Hid Hck|v' s Hpe Hi|s s' Hd]; [..|done].
  - right. eexists. split; [apply a_call; by rewrite Hc, lookup_fmap, Hp|]. split; cbn.
    + exists ops. by apply inv_call.
    + done.
    + rewrite fmap_insert, Hc. f_equal.
  - left. split; [done|]. destruct (iv_a s ops HI) as (a1 & Ha & Hs & _).
    destruct (rw_try_spec (box_at f) (rqbuf f) (buf0_at f) (rqwrite f) (vio s) ops a1 (iv_v s ops HI) Ha)
      as [(w & _ & Hw & Hrb)|(i0 & i1 & i2 & _ & _ & Hw)]; [lia|..]; rewrite Hw in Htry;
      [|by destruct (a1 + 1 <? 2 ^ 16)].
    injection Htry as <-. destruct (inv_full s ops w HI Hrb) as [HI' Ha'].
    apply (rel_quiet s _ a ops); [done..|]. apply callers_ext. auto.
  - left. split; [done|]. destruct (iv_a s ops HI) as (a1 & Ha & Hs & _).
    destruct (rw_try_spec (box_at f) (rqbuf f) (buf0_at f) (rqwrite f) (vio s) ops a1 (iv_v s ops HI) Ha)
      as [(w & _ & Hw & _)|(j0 & i1 & i2 & Hne & Hall & Hw)]; [lia|..]; rewrite Hw in Htry; [done|].
    destruct (Z.ltb_spec (a1 + 1) (2 ^ 16)) as [Hlt|]; [|done]. injection Htry as <- <-.
    rewrite rw_header_spec in Hhd by by eapply (iv_rq s ops HI). injection Hhd as <-.
    eapply (rel_quiet s); [done|by apply inv_submit|done|by apply (abs_submit s ops)].
  - left. split; [done|]. destruct (rw_check_spec s ops p f i0 HI Hp Hid) as (op & m & t & dh & dm & dt & _ & _ & _ & E).
    rewrite E in Hck. destruct (decide _); [|done]. injection Hck as <-. by destruct s.
  - right. destruct (rw_check_spec s ops p f i0 HI Hp Hid) as (op & m & t & dh & dm & dt & Hmt & Hop & Hok & E).
    rewrite E in Hck. destruct (decide (i0 ∈ busy s)) as [|Hnb]; [done|]. injection Hck as <- <-.
    destruct (inv_return s ops p f i0 m t dh dm dt HI Hp Hid Hmt Hnb) as [HI' Hab].
    eexists. split; [apply a_return|].
    + rewrite Hc, lookup_fmap, Hp. cbn. f_equal. unfold abs. rewrite Hid, decide_False, Hop
        by (intros ?%unserved_busy; done). do 2 f_equal.
      pose proof (oo_buf _ _ _ _ Hok) as Ob. rewrite decide_False in Ob by done.
      destruct op as [? [] ?]. cbn in *. by injection Ob as -> -> -> ->.
    + split; [eexists; exact HI'|done|]. cbn [callers]. by rewrite Hc.
  - left. split; [done|]. destruct (inv_intr s ops HI Hpe) as (w & Hw & HI' & Hab & _).
    assert (w = v') as <- by congruence. apply (rel_quiet s _ a ops); [done..|]. by apply callers_ext.
Qed.

Lemma sim_device s a s' :
  Rel s a → virtio_step st_at s s' → Rel s' a ∨ ∃ a', astep a [] a' ∧ Rel s' a'.
Proof.
  intros HR Hd. pose proof HR as [(ops & HI) Hb Hc].
  destruct Hd as [s a1 h Ha Hne Hh|s s1 l1 h l2 Hin Hs].
  - left. destruct (inv_fetch s ops a1 h HI Ha Hne Hh) as (HI' & Hab & _).
    apply (rel_quiet s _ a ops); [done..|]. by apply callers_ext.
  - right. assert (h ∈ unserved s) as Hu by (unfold unserved; rewrite Hin; set_solver).
    destruct (busy_owner s ops h HI (unserved_busy _ _ Hu)) as (p & f & op & Hp & Hid & Hop & Hok).
    rewrite (dev_serve_spec s ops p f h op) in Hs by done. injection Hs as <-.
    destruct (inv_serve s ops p f h op l1 l2 HI Hp Hid Hop Hok Hin) as (HI' & Hoth & Hself).
    pose proof (iv_rq s ops HI p f Hp) as Hrq.
    eexists. split; [apply (a_serve _ p (rq f)); rewrite Hc, lookup_fmap, Hp; cbn; f_equal; unfold abs;
      by rewrite Hid, decide_True|].
    split; [by exists ops|by apply serve_blocks|]. cbn [callers]. apply map_eq. intros q. rewrite lookup_fmap, Hc.
    change (frames (set_dev _ _ _)) with (frames s). destruct (decide (p = q)) as [<-|Hpq].
    + rewrite lookup_insert_eq, Hp. cbn [fmap option_fmap option_map]. f_equal. etransitivity; [|symmetry; exact Hself].
      by rewrite (served_result s f h op (blocks a)).
    + rewrite lookup_insert_ne, lookup_fmap by done. destruct (frames s !! q) as [g|] eqn:Hg; [|done].
      cbn [fmap option_fmap option_map]. f_equal. symmetry. by apply (Hoth q).
Qed.

Lemma sim_step s a t s' :
  Rel s a → step st_at dev_step s t s' → (t = [] ∧ Rel s' a) ∨ ∃ a', astep a t a' ∧ Rel s' a'.
Proof.
  intros HR Hstep. destruct Hstep as [| | | | | |s s' Hd]; try (eapply sim_caller; [exact HR|by econstructor]).
  apply dev_conforms in Hd. destruct (sim_device s a s' HR Hd) as [?|?]; [by left|by right].
Qed.

Lemma sim_exec s0 t s a0 : exec st_at dev_step s0 t s → Rel s0 a0 → ∃ a, aexec a0 t a ∧ Rel s a.
Proof.
  induction 1 as [|s1 t1 s2 t2 s3 _ IH Hstep]; intros HR; [exists a0; split; [constructor|done]|].
  destruct (IH HR) as (a2 & Ha & HR2). destruct (sim_step s2 a2 t2 s3 HR2 Hstep) as [[-> HR3]|(a3 & Has & HR3)].
  - exists a2. by rewrite app_nil_r.
  - exists a3. split; [|done]. by eapply aexec_step.
Qed.
End simulation.

Definition ainit (dk : Z → list Z) : ADisk := mkADisk (λ n, read_sectors dk (n * 2) 2) ∅.

Lemma rel_init rd vio_at at_ w v dk :
  VirtIO_init rd vio_at (VirtIO_new at_) = Ok (w, v) → Rel (sys_init v dk) (ainit dk).
Proof.
  intros H. pose proof (init_inv _ _ _ _ _ H) as [Hv Hf]. unfold VirtIO_init in H. inv_bind. simplify_eq.
  split; [|done|done]. exists ∅. split; try done.
  - exists 0. split; [vm_compute; reflexivity|]. cbn. lia.
  - change (busy _) with (@nil Z). constructor.
  - change (busy _) with (@nil Z). intros h Hh. by apply not_elem_of_nil in Hh.
  - by intros h [mt Hmt].
Qed.
End proofs.

(** ** Progress *)
(** Steps of the device and of the handler *)
Definition quiet_step (st_at : Z → Z) s s' : Prop :=
  virtio_step st_at s s' ∨
  ∃ v', intr_pending (vio s) = true ∧ virtiointr_body (vio s) = Ok v' ∧ s' = set_vio s v'.
(** How many of them are left *)
Definition todo s : nat :=
  (3 * length (avail_q (vio s) (seen s)) + 2 * length (indev s) + length (used_q (vio s)))%nat.

Section progress.
Context (st_at : Z → Z)
  (st_inj : ∀ i j, 0 ≤ i < DESC_NUM → 0 ≤ j < DESC_NUM → st_at i = st_at j → i = j).
Notation Inv := (Inv st_at).

Lemma todo_busy s : (length (busy s) ≤ todo s ≤ 3 * length (busy s))%nat.
Proof. unfold todo, busy, unserved. rewrite !length_app. lia. Qed.

Lemma dev_serve_ok s ops h :
  Inv s ops → h ∈ indev s →
  ∃ p f op, frames s !! p = Some f ∧ idx0 f = Some h ∧ info (vio s) !! Z.to_nat h = Some (Some op) ∧
    op_ok s f h op ∧ dev_serve st_at h s = Ok (serve_sys s f h op).
Proof.
  intros HI Hh. assert (h ∈ unserved s) as Hu by (unfold unserved; set_solver).
  destruct (busy_owner st_at s ops h HI (unserved_busy _ _ Hu)) as (p & f & op & Hp & Hid & Hop & Hok).
  exists p, f, op. split_and!; [done..|]. by eapply dev_serve_spec.
Qed.

(** Whatever is in flight, a failed request stops the handler. *)
Lemma fail_stops_kernel s ops h x :
  Inv s ops → h ∈ indev s → x ≠ 0 →
  ∃ s', dev_fail st_at x h s = Ok s' ∧
    ∀ n, (2 < n)%nat → virtiointr n (vio s') = Err (Panic "virtio_disk_intr status status={} id={}").
Proof.
  intros HI Hh Hx. assert (h ∈ unserved s) as Hu by (unfold unserved; set_solver).
  destruct (busy_owner st_at s ops h HI (unserved_busy _ _ Hu)) as (p & f & op & Hp & Hid & Hop & Hok).
  exists (fail_sys s h x op). split; [by eapply dev_fail_spec|]. intros n Hn.
  destruct (iv_u st_at s ops HI) as [Hui Hel]. destruct (vi_len _ _ (iv_v st_at s ops HI)) as (_ & _ & Li & _).
  pose proof (busy_len st_at s ops HI) as Hb. unfold busy in Hb. rewrite length_app in Hb.
  pose proof (used_q_length (vio s)) as Hl. pose proof (npending_range (vio s)) as Hr.
  pose proof (iv_nd st_at s ops HI) as Hnd. unfold busy in Hnd. apply list.NoDup_app in Hnd as (_ & Hdis & Hndq).
  assert (Hrng : ∀ k, k ∈ busy s → 0 ≤ k ∧ ∃ op, info (vio s) !! Z.to_nat k = Some (Some op) ∧ status op = 0).
  { intros k Hk. destruct (busy_owner st_at s ops k HI Hk) as (p' & f' & op' & Hp' & Hid' & Hop' & Hok').
    split; [apply (head_range st_at s ops p' f' k HI Hp' Hid')|]. exists op'. split; [done|apply Hok']. }
  pose proof (lookup_lt_Some _ _ _ Hop) as Hlt.
  assert (Hhq : h ∉ used_q (vio s)) by (by apply Hdis).
  assert (0 ≤ h) as Hh0 by (apply Hrng; unfold busy; set_solver).
  apply (failed_stops (used_q (vio s)) _ h (with_status op x)).
  - done.
  - cbn. by rewrite length_insert.
  - cbn. by rewrite length_insert.
  - unfold fail_sys. cbn [vio]. unfold publish. rewrite (used_q_ext (set_used (vio s) (publish (vio s) h 1))) by done.
    by apply (used_q_publish _ _ _ 1); [|lia|].
  - apply list.NoDup_app. split_and!; [done| |apply list.NoDup_singleton]. set_solver.
  - intros k Hk. apply elem_of_app in Hk as [Hk|Hk]; [apply Hrng; unfold busy; set_solver|].
    apply list_elem_of_singleton in Hk as ->. done.
  - intros k Hk. destruct (Hrng k) as (Hk0 & opk & Hopk & Hsk); [unfold busy; set_solver|]. exists opk. split; [|done].
    cbn. rewrite list_lookup_insert_ne; [done|]. assert (k ≠ h) by (by intros ->). lia.
  - cbn. by apply list_lookup_insert_eq.
  - done.
  - lia.
Qed.

Lemma quiet_keeps s ops s' :
  Inv s ops → quiet_step st_at s s' → Inv s' ops ∧ frames s' = frames s ∧ (todo s' < todo s)%nat.
Proof.
  intros HI [Hd|(v' & Hpe & Hb & ->)]; [destruct Hd as [s0 a1 h Ha Hne Hh|s0 s1 l1 h l2 Hin Hs]|].
  - destruct (inv_fetch st_at s0 ops a1 h HI Ha Hne Hh) as (HI' & _ & Eq). split_and!; [done..|].
    unfold todo. rewrite Eq. cbn [vio seen set_dev indev]. rewrite length_app. cbn. lia.
  - destruct (dev_serve_ok s0 ops h HI) as (p & f & op & Hp & Hid & Hop & Hok & E); [rewrite Hin; set_solver|].
    rewrite E in Hs. injection Hs as <-.
    destruct (inv_serve st_at s0 ops p f h op l1 l2 HI Hp Hid Hop Hok Hin) as (HI' & _ & _).
    destruct (serve_queues st_at s0 ops f h op l1 l2 HI Hin) as (_ & _ & Eq). split_and!; [done..|].
    change (seen (serve_sys s0 f h op)) with (seen s0). unfold todo. rewrite Eq, Hin. cbn [vio seen set_dev indev serve_sys].
    rewrite (avail_q_ext (vio s0)) by done. rewrite !length_app. cbn. lia.
  - destruct (inv_intr st_at s ops HI Hpe) as (w & Hw & HI' & _ & h & Eb & Eu & _).
    assert (w = v') as -> by congruence. split_and!; [done..|].
    apply Permutation_length in Eb. unfold busy in Eb. rewrite Eu in Eb. cbn in Eb. rewrite !length_app in Eb.
    unfold unserved in Eu. apply (f_equal length) in Eu. rewrite !length_app in Eu. unfold todo.
    cbn [vio set_vio seen indev] in *. lia.
Qed.

Lemma dev_enabled s ops : Inv s ops → unserved s ≠ [] → ∃ s', virtio_step st_at s s'.
Proof.
  intros HI Hn. destruct (iv_a _ s ops HI) as (a1 & Ha & Hs & Hlt).
  destruct (decide (seen s = a1)) as [Hsa|Hsa].
  - destruct (indev s) as [|h l] eqn:Hin.
    + destruct Hn. unfold unserved, avail_q. by rewrite (list_lookup_total_correct _ _ _ Ha), Hsa, Z.sub_diag, Hin.
    + destruct (dev_serve_ok s ops h HI) as (p & f & op & _ & _ & _ & _ & E); [rewrite Hin; by left|].
      eexists. by apply (dev_serves _ s (serve_sys s f h op) [] h l).
  - destruct (vi_len _ _ (iv_v _ s ops HI)) as (_ & _ & _ & La).
    assert (0 ≤ seen s mod DESC_NUM < 8) by (by apply Z.mod_pos_bound).
    destruct (lookup_lt_is_Some_2 (avail (vio s)) (Z.to_nat (2 + seen s mod DESC_NUM))) as [h Hh];
      [rewrite La, AVAIL_SZ_eq; lia|]. eexists. by eapply dev_fetches.
Qed.

Lemma quiet_enabled s ops : Inv s ops → todo s ≠ 0%nat → ∃ s', quiet_step st_at s s'.
Proof.
  intros HI Hn. destruct (decide (unserved s = [])) as [Hu|Hu].
  - apply app_eq_nil in Hu as [Hq Hi]. unfold todo in Hn. rewrite Hq, Hi in Hn. pose proof (used_q_length (vio s)).
    assert (intr_pending (vio s) = true) as Hpe.
    { rewrite intr_pending_npending by apply (iv_u _ s ops HI). apply negb_true_iff, Z.eqb_neq. cbn in Hn. lia. }
    destruct (inv_intr st_at s ops HI Hpe) as (w & Hw & _). exists (set_vio s w). right. by exists w.
  - destruct (dev_enabled s ops HI Hu) as [s' Hs']. exists s'. by left.
Qed.

Lemma quiet_run ops n s s' :
  Inv s ops → nsteps (quiet_step st_at) n s s' → Inv s' ops ∧ (n + todo s' ≤ todo s)%nat.
Proof.
  intros HI Hn. revert HI. induction Hn as [s|n s1 s2 s3 Hq _ IH]; intros HI; [split; [done|lia]|].
  destruct (quiet_keeps s1 ops s2 HI Hq) as (HI2 & _ & Hlt). destruct (IH HI2). split; [done|lia].
Qed.
End progress.

(** ** Who sleeps, and who is woken *)
(** [rw]: the channel a caller sleeps on, and whether its loop goes back to sleep *)
Definition sleep_channel v f : Z := match idx0 f with None => free_at v | Some _ => box_at f end.
Definition blocked v f : Prop :=
  match idx0 f with None => (nfree (free v) < 3)%nat | Some i0 => rw_waiting i0 v = Ok true end.

Lemma nfree_clear (l : list bool) i : (nfree (<[i := false]> l) ≤ nfree l)%nat.
Proof.
  revert i. induction l as [|b l IH]; intros [|i]; [done|done|..].
  - change (<[0%nat := false]> (b :: l)) with (false :: l). rewrite !nfree_cons. destruct b; lia.
  - change (<[S i := false]> (b :: l)) with (b :: <[i := false]> l). rewrite !nfree_cons. specialize (IH i). lia.
Qed.

Section wakeups.
Context (st_at : Z → Z)
  (st_inj : ∀ i j, 0 ≤ i < DESC_NUM → 0 ≤ j < DESC_NUM → st_at i = st_at j → i = j).
Notation Inv := (Inv st_at).

Lemma rw_waiting_busy s ops p f h :
  Inv s ops → frames s !! p = Some f → idx0 f = Some h → rw_waiting h (vio s) = Ok (bool_decide (h ∈ busy s)).
Proof.
  intros HI Hp Hid. destruct (rk_op _ _ _ _ _ (iv_req _ s ops HI p f h Hp Hid)) as (op & Hop & Hok).
  pose proof (head_range st_at s ops p f h HI Hp Hid). unfold rw_waiting. rewrite (aget_eq _ _ (Some op)), bind_Ok_l by (done || lia).
  cbn [unwrap]. rewrite bind_Ok_l, (f_equal disk (oo_buf _ _ _ _ Hok)). cbn [disk].
  by destruct (decide (h ∈ busy s)) as [Hb|Hb]; [rewrite bool_decide_eq_true_2|rewrite bool_decide_eq_false_2].
Qed.

(** A step that frees no descriptor and completes nothing unblocks nobody. *)
Lemma still_blocked s s' ops ops' p f :
  Inv s ops → Inv s' ops' → frames s !! p = Some f → frames s' !! p = Some f →
  (nfree (free (vio s')) ≤ nfree (free (vio s)))%nat → (∀ h, idx0 f = Some h → h ∈ busy s → h ∈ busy s') →
  blocked (vio s) f → blocked (vio s') f.
Proof.
  intros HI HI' Hp Hp' Hn Hb. unfold blocked. destruct (idx0 f) as [h|] eqn:Hid; [|lia].
  rewrite (rw_waiting_busy s ops p f h), (rw_waiting_busy s' ops' p f h) by done.
  intros [= Hh%bool_decide_eq_true]. by rewrite bool_decide_eq_true_2 by auto.
Qed.

Lemma return_wakes s ops p f h q g m t dh dm dt :
  Inv s ops → frames s !! p = Some f → idx0 f = Some h → q ≠ p → frames s !! q = Some g → ops !! h = Some (m, t) →
  h ∉ busy s → let s' := return_sys s p f h m t dh dm dt in
  blocked (vio s) g → blocked (vio s') g ∨ sleep_channel (vio s) g ∈ replicate 3 (free_at (vio s)).
Proof.
  intros HI Hp Hid Hqp Hg Hmt Hnb s' Hbl. unfold blocked, sleep_channel in *.
  destruct (idx0 g) as [j|] eqn:Hj; [left|right; by left]. destruct (inv_return st_at s ops p f h m t dh dm dt HI Hp Hid Hmt Hnb) as [HI' _].
  rewrite (rw_waiting_busy s ops q g j) in Hbl by done.
  rewrite (rw_waiting_busy s' _ q g j HI'); [exact Hbl| |done]. cbn. by rewrite lookup_delete_ne.
Qed.

Lemma intr_wakes s ops v' q g :
  Inv s ops → intr_pending (vio s) = true → virtiointr_body (vio s) = Ok v' → frames s !! q = Some g →
  blocked (vio s) g → ∃ l, wakeups v' = wakeups (vio s) ++ l ∧ (blocked v' g ∨ sleep_channel (vio s) g ∈ l).
Proof.
  intros HI Hpe Hrun Hg Hbl.
  destruct (inv_intr st_at s ops HI Hpe) as (w & Hw & HI' & _ & h & Eb & _ & _ & Hfr & p & f & Hp & Hid & Hwk).
  assert (w = v') as -> by congruence. exists [box_at f]. split; [done|].
  destruct (decide (q = p)) as [->|Hqp].
  { right. assert (g = f) as -> by congruence. unfold sleep_channel. rewrite Hid. by left. }
  left. apply (still_blocked s (set_vio s v') ops ops q g); [done..|cbn [vio set_vio]; by rewrite Hfr| |done].
  intros k Hk. rewrite Eb. apply elem_of_cons_other. intros ->.
  destruct (iv_inj _ s ops HI q p g f Hg Hp Hqp) as (_ & _ & N). by eapply N.
Qed.

Context (dev_step : Sys → Sys → Prop)
  (dev_conforms : ∀ s s', dev_step s s' → virtio_step st_at s s').

Lemma step_wakes s ops t s' ops' q g :
  Inv s ops → Inv s' ops' → step st_at dev_step s t s' → frames s !! q = Some g → frames s' !! q = Some g →
  blocked (vio s) g →
  blocked (vio s') g ∨ ∃ l, wakeups (vio s') = wakeups (vio s) ++ l ∧ sleep_channel (vio s) g ∈ l.
Proof using All.
  intros HI HI' Hs Hg Hg' Hbl. destruct (iv_a _ s ops HI) as (a1 & Ha & Hsn & _).
  destruct Hs as [p r b_at hdr_at s Hp Hok Hfr|p f v' s Hp Hid Htry|p f hd i0 v' s Hp Hid Hhd Htry|p f i0 v' s Hp Hid Hck
    |p f i0 b v' s Hp Hid Hck|v' s Hpe Hi|s s' Hd].
  - by left.
  - left. destruct (rw_try_spec st_at (box_at f) (rw_args (rq f)).1 (buf0_at f) (rw_args (rq f)).2 (vio s) ops a1 (iv_v _ s ops HI) Ha)
      as [(w & _ & Hw & [Ef _ (Ea & Eu & Ei & _)])|(i0 & i1 & i2 & _ & _ & Hw)]; [lia|..]; rewrite Hw in Htry;
      [|by destruct (a1 + 1 <? 2 ^ 16)].
    injection Htry as <-. apply (still_blocked s (set_vio s w) ops ops' q g); [done..|cbn [vio set_vio]; by rewrite Ef| |done].
    intros h _. unfold busy, unserved. cbn [vio set_vio seen indev].
    by rewrite (avail_q_ext (vio s) w), (used_q_ext (vio s) w).
  - left. destruct (rw_try_spec st_at (box_at f) (rw_args (rq f)).1 (buf0_at f) (rw_args (rq f)).2 (vio s) ops a1 (iv_v _ s ops HI) Ha)
      as [(w & _ & Hw & _)|(j0 & i1 & i2 & Hne & Hall & Hw)]; [lia|..]; rewrite Hw in Htry; [done|].
    destruct (Z.ltb_spec (a1 + 1) (2 ^ 16)) as [Hlt|]; [|done]. injection Htry as <- <-.
    rewrite rw_header_spec in Hhd by by eapply (iv_rq _ s ops HI). injection Hhd as <-.
    eapply (still_blocked s (submit_sys st_at s p f j0 i1 i2 a1)); [done..| | |done].
    + do 3 (etransitivity; [apply nfree_clear|]). done.
    + intros h _ Hh. destruct (submit_queues st_at s ops p f j0 i1 i2 a1 HI Ha) as [_ ->]. by right.
  - left. destruct (rw_check_spec st_at s ops p f i0 HI Hp Hid) as (op & m & t & dh & dm & dt & _ & _ & _ & E).
    rewrite E in Hck. destruct (decide _); [|done]. by injection Hck as <-.
  - destruct (rw_check_spec st_at s ops p f i0 HI Hp Hid) as (op & m & t & dh & dm & dt & Hmt & Hop & Hok & E).
    rewrite E in Hck. destruct (decide (i0 ∈ busy s)) as [|Hnb]; [done|]. injection Hck as <- <-.
    assert (q ≠ p) as Hqp by (intros ->; cbn in Hg'; by rewrite lookup_delete_eq in Hg').
    destruct (return_wakes s ops p f i0 q g m t dh dm dt HI Hp Hid Hqp Hg Hmt Hnb Hbl) as [?|Hc]; [by left|].
    right. exists (replicate 3 (free_at (vio s))). split; [cbn; by rewrite <- !app_assoc|done].
  - destruct (intr_wakes s ops v' q g HI Hpe Hi Hg Hbl) as (l & Hw & [?|Hc]); [by left|right; by exists l].
  - left. apply dev_conforms in Hd. destruct Hd as [s b1 h _ _ _|s s1 l1 h l2 Hin Hs]; [done|].
    destruct (dev_serve_ok st_at st_inj s ops h HI) as (p & f & op & Hp & Hid & Hop & Hok & E); [rewrite Hin; set_solver|].
    rewrite E in Hs. injection Hs as <-. destruct (serve_queues st_at s ops f h op l1 l2 HI Hin) as (_ & Eb & _).
    eapply (still_blocked s); [done..| |done]. intros k _. by rewrite Eb.
Qed.
End wakeups.

(** ** Theorems *)
Section theorems.
Context (st_at : Z → Z)
  (st_inj : ∀ i j, 0 ≤ i < DESC_NUM → 0 ≤ j < DESC_NUM → st_at i = st_at j → i = j)
  (dev_step : Sys → Sys → Prop)
  (dev_conforms : ∀ s s', dev_step s s' → virtio_step st_at s s').

(** C5: the disk driver with its device is an atomic disk: whatever concurrent calls of
    read and write do, in whatever order the device serves them and however interrupts
    and wakeups interleave, the calls and returns are those of a disk on which each
    call takes effect at one moment between its call and its return, and a read
    returns the whole block as it is at that moment. *)
Theorem disk_linearizable rd vio_at at_ w v dk tr s :
  VirtIO_init rd vio_at (VirtIO_new at_) = Ok (w, v) →
  exec st_at dev_step (sys_init v dk) tr s →
  ∃ a, aexec (ainit dk) tr a ∧ (∀ n, is_u 32 n → blocks a n = read_sectors (sectors s) (n * 2) 2) ∧
    dom (callers a) = dom (frames s).
Proof using All.
  intros Hi He. destruct (sim_exec st_at st_inj dev_step dev_conforms _ tr s _ He (rel_init st_at _ _ _ _ _ dk Hi))
    as (a & Ha & [_ Hb Hc]).
  exists a. split_and!; [done..|]. by rewrite Hc, dom_fmap_L.
Qed.

(** C17: with a device that completes every request with status 0, in every state that
    concurrent reads and writes reach, the driver cannot reach any of its panics:
    allocation, submission, the wait, the interrupt handler and free_chain succeed,
    and the device finds the header, buffer and status byte of each request it has
    taken; the one exception is the 65536th request, which overflows the 16-bit
    counter of the avail ring. If the device instead completes a request with any
    other status, the handler stops the kernel with its status panic. *)
Theorem disk_no_panic rd vio_at at_ w v dk tr s :
  VirtIO_init rd vio_at (VirtIO_new at_) = Ok (w, v) →
  exec st_at dev_step (sys_init v dk) tr s →
  (∀ p f, frames s !! p = Some f → idx0 f = None →
     let r := rw_try st_at (box_at f) (rw_args (rq f)).1 (buf0_at f) (rw_args (rq f)).2 (vio s) in
     (∃ x, r = Ok x) ∨ (r = Err Overflow ∧ avail (vio s) !! 1%nat = Some (2 ^ 16 - 1))) ∧
  (∀ p f i0, frames s !! p = Some f → idx0 f = Some i0 → ∃ x, rw_check i0 (vio s) = Ok x) ∧
  (intr_pending (vio s) = true → ∃ v', virtiointr_body (vio s) = Ok v') ∧
  (∀ h, h ∈ indev s → ∃ s', dev_serve st_at h s = Ok s') ∧
  (∀ h x, h ∈ indev s → x ≠ 0 → ∃ s', dev_fail st_at x h s = Ok s' ∧
     ∀ n, (2 < n)%nat → virtiointr n (vio s') = Err (Panic "virtio_disk_intr status status={} id={}")).
Proof using All.
  intros Hi He. destruct (sim_exec st_at st_inj dev_step dev_conforms _ tr s _ He (rel_init st_at _ _ _ _ _ dk Hi))
    as (a & _ & [(ops & HI) _ _]). split_and!.
  - intros p f Hp Hid r. destruct (iv_a _ s ops HI) as (a1 & Ha & Hs & Hlt).
    destruct (rw_try_spec st_at (box_at f) (rw_args (rq f)).1 (buf0_at f) (rw_args (rq f)).2 (vio s) ops a1
      (iv_v _ s ops HI) Ha) as [(v' & _ & Hr & _)|(i0 & i1 & i2 & _ & _ & Hr)]; [lia|left; eauto|].
    unfold r. rewrite Hr. destruct (Z.ltb_spec (a1 + 1) (2 ^ 16)); [left; eauto|right]. split; [done|].
    rewrite Ha. f_equal. lia.
  - intros p f i0 Hp Hid. destruct (rw_check_spec st_at s ops p f i0 HI Hp Hid) as (? & ? & ? & ? & ? & ? & _ & _ & _ & E).
    eauto.
  - intros Hpe. destruct (inv_intr st_at s ops HI Hpe) as (v' & Hv' & _). eauto.
  - intros h Hh. destruct (dev_serve_ok st_at st_inj s ops h HI Hh) as (? & ? & ? & _ & _ & _ & _ & E). eauto.
  - intros h x Hh Hx. by eapply fail_stops_kernel.
Qed.

(** C18: from every reachable state the device and the interrupt handler have at most six
    steps to take before all requests are complete: then the next test of every
    waiting call finds its buffer done and the call returns. *)
Theorem disk_requests_complete rd vio_at at_ w v dk tr s n s' :
  VirtIO_init rd vio_at (VirtIO_new at_) = Ok (w, v) →
  exec st_at dev_step (sys_init v dk) tr s → nsteps (quiet_step st_at) n s s' →
  (n ≤ 6)%nat ∧
  ((∃ s'', quiet_step st_at s' s'') ∨
   ∀ p f i0, frames s' !! p = Some f → idx0 f = Some i0 → ∃ b v', rw_check i0 (vio s') = Ok (Some b, v')).
Proof using All.
  intros Hi He Hn. destruct (sim_exec st_at st_inj dev_step dev_conforms _ tr s _ He (rel_init st_at _ _ _ _ _ dk Hi))
    as (a & _ & [(ops & HI) _ _]).
  destruct (quiet_run st_at st_inj ops n s s' HI Hn) as [HI' Hle].
  pose proof (busy_len st_at s ops HI). pose proof (todo_busy s). split; [lia|].
  destruct (decide (todo s' = 0%nat)) as [Hz|Hz]; [right|left; by eapply quiet_enabled].
  intros p f i0 Hp Hid. destruct (rw_check_spec st_at s' ops p f i0 HI' Hp Hid) as (? & ? & ? & ? & ? & ? & _ & _ & _ & E).
  rewrite decide_False in E; [eauto|]. pose proof (todo_busy s'). assert (busy s' = []) as -> by (apply nil_length_inv; lia).
  apply not_elem_of_nil.
Qed.
(** C19: no caller of the driver sleeps on when it could go on: every step of a caller, of
    the handler or of the device after which a sleeping call would leave its wait, for
    descriptors or for its buffer, calls wakeup on the channel that call sleeps on. *)
Theorem disk_wakes_waiters rd vio_at at_ w v dk tr s t s' q f :
  VirtIO_init rd vio_at (VirtIO_new at_) = Ok (w, v) →
  exec st_at dev_step (sys_init v dk) tr s → step st_at dev_step s t s' →
  frames s !! q = Some f → frames s' !! q = Some f → blocked (vio s) f →
  blocked (vio s') f ∨ ∃ l, wakeups (vio s') = wakeups (vio s) ++ l ∧ sleep_channel (vio s) f ∈ l.
Proof using All.
  intros Hi He Hst Hf Hf' Hbl.
  destruct (sim_exec st_at st_inj dev_step dev_conforms _ tr s _ He (rel_init st_at _ _ _ _ _ dk Hi)) as (a & _ & HR).
  destruct (sim_step st_at st_inj dev_step dev_conforms s a t s' HR Hst) as [[_ HR']|(a' & _ & HR')];
    destruct HR as [(ops & HI) _ _], HR' as [(ops' & HI') _ _]; by eapply step_wakes.
Qed.
End theorems.

(** ** A device that serves in order, and one read on it *)
Definition fifo_dev (st_at : Z → Z) s : option Sys :=
  match indev s with
  | h :: l => match dev_serve st_at h s with Ok s1 => Some (set_dev s1 (seen s1) l) | Err _ => None end
  | [] =>
      a1 ← avail (vio s) !! 1%nat;
      h ← avail (vio s) !! Z.to_nat (2 + seen s mod DESC_NUM);
      if decide (seen s = a1) then None
      else Some (set_dev s ((seen s + 1) mod 2 ^ 16) [h])
  end.
Lemma fifo_conforms st_at s s' : fifo_dev st_at s = Some s' → virtio_step st_at s s'.
Proof.
  unfold fifo_dev. destruct (indev s) as [|h l] eqn:Hin.
  - destruct (avail (vio s) !! 1%nat) as [a1|] eqn:Ha; [|done]. cbn [mbind option_bind].
    destruct (avail (vio s) !! Z.to_nat _) as [h|] eqn:Hh; [|done]. cbn [mbind option_bind].
    destruct (decide _); [done|]. intros [= <-].
    pose proof (dev_fetches st_at s a1 h Ha ltac:(done) Hh) as Hd. by rewrite Hin in Hd.
  - destruct (dev_serve st_at h s) as [s1|] eqn:Hs; [|done]. intros [= <-]. by apply (dev_serves _ s s1 [] h l).
Qed.

Definition st0 (i : Z) : Z := 0x80309108 + 16 * i.
Lemma st0_inj i j : 0 ≤ i < DESC_NUM → 0 ≤ j < DESC_NUM → st0 i = st0 j → i = j.
Proof. unfold st0. lia. Qed.
Definition medium0 (s : Z) : list Z := replicate 512 (s mod 256).
Definition frame0 : frame := mkFrame (Read 1 7) 0x80400000 0x80500000 None.
Definition ok_or {A} (d : A) (r : result A) : A := match r with Ok a => a | Err _ => d end.
Definition d1 : Sys := set_frames (sys_init vio0 medium0) (<[1 := frame0]> ∅).
Definition try1 : option Z * VirtIOData :=
  ok_or (None, vio0) (rw_try st0 (box_at frame0) (rw_args (rq frame0)).1 (buf0_at frame0) false vio0).
Definition d2 : Sys :=
  mkSys try1.2 (<[0x80500000 := hdr_of (Read 1 7)]> ∅) medium0 0 []
    (<[1 := mkFrame (Read 1 7) 0x80400000 0x80500000 (Some 0)]> (frames d1)).
Definition d3 : Sys := default d2 (fifo_dev st0 d2).
Definition d4 : Sys := default d3 (fifo_dev st0 d3).
Definition d5 : Sys := set_vio d4 (ok_or vio0 (virtiointr_body (vio d4))).
Definition check5 : option Buf * VirtIOData := ok_or (None, vio0) (rw_check 0 (vio d5)).
Definition d6 : Sys :=
  mkSys check5.2 (delete 0x80500000 (hdrs d5)) (sectors d5) (seen d5) (indev d5) (delete 1 (frames d5)).
Definition block7 : list Z := replicate 512 14 ++ replicate 512 15.
Definition dev0 s s' : Prop := fifo_dev st0 s = Some s'.

Lemma is_ok {A} (d : A) (r : result A) :
  match r with Ok _ => true | Err _ => false end = true → r = Ok (ok_or d r).
Proof. by destruct r. Qed.
Lemma is_some {A} (d : A) (o : option A) :
  match o with Some _ => true | None => false end = true → o = Some (default d o).
Proof. by destruct o. Qed.

Lemma is_ok_pair {A B} (a : A) (d : A * B) (r : result (A * B)) :
  match r with Ok (x, _) => Some x | Err _ => None end = Some a → r = Ok (a, (ok_or d r).2).
Proof. destruct r as [[x y]|]; [|done]. by intros [= ->]. Qed.

Lemma try1_ok : rw_try st0 0x80400000 (rw_args (Read 1 7)).1 0x80500000 false vio0 = Ok (Some 0, try1.2).
Proof. apply is_ok_pair. vm_compute. reflexivity. Qed.
Lemma check5_ok : rw_check 0 (vio d5) = Ok (Some (mkBuf false 0 1 7 block7), check5.2).
Proof. apply is_ok_pair. vm_compute. reflexivity. Qed.

Lemma exec_d3 : exec st0 dev0 (sys_init vio0 medium0) [Call 1 (Read 1 7)] d3.
Proof.
  apply (exec_step st0 dev0 (sys_init vio0 medium0) [Call 1 (Read 1 7)] d2 []); [|apply s_dev; apply is_some; vm_compute; reflexivity].
  apply (exec_step st0 dev0 (sys_init vio0 medium0) [Call 1 (Read 1 7)] d1 []).
  - apply (exec_step st0 dev0 (sys_init vio0 medium0) [] (sys_init vio0 medium0) [Call 1 (Read 1 7)]);
      [constructor|]. apply s_call; [done| |by intros q f Hq]. split; [by vm_compute|done].
  - apply (s_submit _ _ 1 frame0 _ 0 try1.2 d1); [reflexivity|reflexivity|reflexivity|apply try1_ok].
Qed.

Lemma exec_d4 : exec st0 dev0 (sys_init vio0 medium0) [Call 1 (Read 1 7)] d4.
Proof.
  apply (exec_step st0 dev0 (sys_init vio0 medium0) [Call 1 (Read 1 7)] d3 []); [apply exec_d3|].
  apply s_dev; apply is_some; vm_compute; reflexivity.
Qed.

Lemma exec_d6 : exec st0 dev0 (sys_init vio0 medium0) [Call 1 (Read 1 7); Return 1 (Some (mkBuf false 0 1 7 block7))] d6.
Proof.
  apply (exec_step st0 dev0 (sys_init vio0 medium0) [Call 1 (Read 1 7)] d5 [Return 1 (Some (mkBuf false 0 1 7 block7))]).
  - apply (exec_step st0 dev0 (sys_init vio0 medium0) [Call 1 (Read 1 7)] d4 []); [apply exec_d4|].
    apply s_intr; [vm_compute; reflexivity|apply is_ok; vm_compute; reflexivity].
  - apply (s_return _ _ 1 (mkFrame (Read 1 7) 0x80400000 0x80500000 (Some 0)) 0 _ _ d5); [vm_compute; reflexivity|done|apply check5_ok].
Qed.

Lemma disk_linearizable_witness :
  ∃ a, aexec (ainit medium0) [Call 1 (Read 1 7); Return 1 (Some (mkBuf false 0 1 7 block7))] a ∧
    dom (callers a) = ∅.
Proof.
  destruct init0_run as [w Hw].
  destruct (disk_linearizable st0 st0_inj dev0 (fifo_conforms st0) _ _ _ w vio0 medium0 _ d6 Hw exec_d6) as (a & Ha & _ & Hd).
  exists a. split; [exact Ha|]. rewrite Hd. vm_compute. reflexivity.
Defined.

Lemma disk_no_panic_witness :
  (intr_pending (vio d4) = true ∧ ∃ v', virtiointr_body (vio d4) = Ok v') ∧
  (0 ∈ indev d3 ∧ ∃ s', dev_fail st0 1 0 d3 = Ok s' ∧
     virtiointr 3 (vio s') = Err (Panic "virtio_disk_intr status status={} id={}")).
Proof.
  destruct init0_run as [w Hw]. split.
  - split; [vm_compute; reflexivity|].
    apply (disk_no_panic st0 st0_inj dev0 (fifo_conforms st0) _ _ _ w vio0 medium0 _ d4 Hw exec_d4). vm_compute. reflexivity.
  - assert (0 ∈ indev d3) as Hin by (vm_compute; left). split; [exact Hin|].
    destruct (disk_no_panic st0 st0_inj dev0 (fifo_conforms st0) _ _ _ w vio0 medium0 _ d3 Hw exec_d3) as (_ & _ & _ & _ & Hf).
    destruct (Hf 0 1 Hin ltac:(lia)) as (s' & H1 & H2). exists s'. split; [exact H1|apply H2; lia].
Defined.

Lemma disk_requests_complete_witness :
  quiet_step st0 d4 d5 ∧ (1 ≤ 6)%nat.
Proof.
  assert (quiet_step st0 d4 d5) as Hq.
  { right. eexists. split; [vm_compute; reflexivity|]. split; [apply (is_ok vio0); vm_compute; reflexivity|reflexivity]. }
  split; [exact Hq|]. destruct init0_run as [w Hw].
  apply (disk_requests_complete st0 st0_inj dev0 (fifo_conforms st0) _ _ _ w vio0 medium0 _ d4 1 d5 Hw exec_d4).
  by apply nsteps_once.
Defined.

Lemma disk_wakes_waiters_witness :
  blocked (vio d4) (mkFrame (Read 1 7) 0x80400000 0x80500000 (Some 0)) ∧
  ∃ l, wakeups (vio d5) = wakeups (vio d4) ++ l ∧ 0x80400000 ∈ l.
Proof.
  assert (blocked (vio d4) (mkFrame (Read 1 7) 0x80400000 0x80500000 (Some 0))) as Hb by (vm_compute; reflexivity).
  split; [exact Hb|]. destruct init0_run as [w Hw].
  destruct (disk_wakes_waiters st0 st0_inj dev0 (fifo_conforms st0) _ _ _ w vio0 medium0 _ d4 [] d5 1
    (mkFrame (Read 1 7) 0x80400000 0x80500000 (Some 0)) Hw exec_d4) as [Hn|Hl];
    [|vm_compute; reflexivity|vm_compute; reflexivity|exact Hb| |exact Hl].
  - apply s_intr; [vm_compute; reflexivity|apply is_ok; vm_compute; reflexivity].
  - vm_compute in Hn. discriminate.
Defined.
