(* ===== verification/Uart.v ===== *)
(** * The UART and the console

    [uart.rs], [print.rs] and the [Console] of [file/device.rs].  The driver is written
    against volatile accesses ([Mmio]); what it relies on is the class [Ns16550]: a
    line status register that tells whether a byte was received and whether the
    transmitter is free, and a data register.  Bytes may arrive between any two
    accesses.  [Chip] is a device with these laws and the divisor latch. *)

From S2P Require Import Prelude Symbols Devices.
From Stdlib Require Import Ascii.
From Stdlib Require String.
#[local] Open Scope Z_scope.

(** The bytes of a string literal *)
Definition bytes (s : string) : list Z := (λ a, Z.of_N (N_of_ascii a)) <$> String.list_ascii_of_string s.

(** ** [uart.rs] *)
Record Uart := mkUart { base_address : Z }.
Definition Uart_new (base_address : Z) : Uart := mkUart base_address.
(** [UART()]: the driver object under its lock *)
Definition UART : Uart := Uart_new UART_BASE_ADDR.

(** [x.try_into().unwrap()] to a [u8] *)
Definition try_u8 (x : Z) : result Z := if x <? 256 then Ok x else Err UnwrapNone.

Section uart.
Context {D : Type} `{Mmio D}.
Implicit Types (u : Uart) (d : D).

Definition Uart_init u d : result D :=
  let ptr := base_address u in
  let d := mmio_write (ptr + 3) (Z.lor (Z.shiftl 1 0) (Z.shiftl 1 1)) d in
  let d := mmio_write (ptr + 2) (Z.shiftl 1 0) d in
  let d := mmio_write (ptr + 1) (Z.shiftl 1 0) d in
  let divisor := 592 in
  divisor_least ← try_u8 (Z.land divisor 0xff);
  divisor_most ← try_u8 (Z.shiftr divisor 8);
  let '(lcr, d) := mmio_read (ptr + 3) d in
  let d := mmio_write (ptr + 3) (Z.lor lcr (Z.shiftl 1 7)) d in
  let d := mmio_write (ptr + 0) divisor_least d in
  let d := mmio_write (ptr + 1) divisor_most d in
  Ok (mmio_write (ptr + 3) lcr d).

(** The loop of [put]; [fuel] bounds the polls. *)
Fixpoint put_wait (fuel : nat) u d : result D :=
  match fuel with
  | O => Err NoFuel
  | S fuel =>
      let '(x, d) := mmio_read (base_address u + 5) d in
      if negb (Z.land x (Z.shiftl 1 5) =? 0) then Ok d else put_wait fuel u d
  end.
Definition put (fuel : nat) u (c : Z) d : result D :=
  d ← put_wait fuel u d;
  Ok (mmio_write (base_address u + 0) c d).

Definition get u d : option Z * D :=
  let '(x, d) := mmio_read (base_address u + 5) d in
  if Z.land x 1 =? 0 then (None, d)
  else let '(c, d) := mmio_read (base_address u + 0) d in (Some c, d).

(** [impl Write for Uart] *)
Fixpoint write_str (fuel : nat) u (out : list Z) d : result D :=
  match out with
  | [] => Ok d
  | c :: out => d ← put fuel u c d; write_str fuel u out d
  end.

(** [print.rs]: [_print] of the formatted bytes *)
Definition print (fuel : nat) (out : list Z) d : result D := write_str fuel UART out d.
Definition println (fuel : nat) (out : list Z) d : result D := print fuel (out ++ [10]) d.

(** [c as char] of a [u8], encoded *)
Definition encode_utf8 (c : Z) : list Z :=
  if c <? 0x80 then [c] else [Z.lor 0xc0 (Z.shiftr c 6); Z.lor 0x80 (Z.land c 0x3f)].

(** [debug] is [process::debug]. *)
Definition uartintr (fuel : nat) (debug : D → result D) d : result D :=
  let '(o, d) := get UART d in
  match o with
  | None => Ok d
  | Some c =>
      if c =? 8 then print fuel (encode_utf8 8 ++ bytes " " ++ encode_utf8 8) d
      else if (c =? 10) || (c =? 13) then println fuel [] d
      else
        d ← print fuel (encode_utf8 c) d;
        if c =? 97 then debug d else Ok d
  end.

(** ** [file/device.rs]: [impl Device for Console] *)
Definition Console_read (content : list Z) d : result (Z * list Z * D) :=
  c ← ctl_range 0 (Z.of_nat (length content)) (λ i '(content, d),
    let '(o, d) := get UART d in
    match o with
    | Some ch => content ← aset content i ch; Ok (Next (content, d))
    | None => Ok (Stop (as_i 32 i, content, d))
    end) (content, d);
  Ok (match c with Stop r => r | Next (content, d) => (as_i 32 (Z.of_nat (length content)), content, d) end).

Definition Console_write (fuel : nat) (content : list Z) d : result (Z * D) :=
  d ← for_range 0 (Z.of_nat (length content)) (λ i d, c ← aget content i; put fuel UART c d) d;
  Ok (as_i 32 (Z.of_nat (length content)), d).
End uart.

(** ** What the driver relies on *)
Class Ns16550 (D : Type) `{Mmio D} (base : Z) := {
  rx : D → list Z;
  tx : D → list Z;
  dlab : D → bool;
  thr_wait : D → nat;
  thr_bound : nat;
  thr_wait_le : ∀ d, (thr_wait d ≤ thr_bound)%nat;
  lsr_read : ∀ d x d', mmio_read (base + 5) d = (x, d') →
    (Z.testbit x 0 = true ↔ rx d ≠ []) ∧ (Z.testbit x 5 = true ↔ thr_wait d = 0%nat) ∧
    thr_wait d' = pred (thr_wait d) ∧ rx d `prefix_of` rx d' ∧ tx d' = tx d ∧ dlab d' = dlab d;
  rbr_read : ∀ d c r x d', dlab d = false → rx d = c :: r → mmio_read (base + 0) d = (x, d') →
    x = c ∧ r `prefix_of` rx d' ∧ tx d' = tx d ∧ dlab d' = false;
  thr_write : ∀ d c, dlab d = false → thr_wait d = 0%nat →
    tx (mmio_write (base + 0) c d) = tx d ++ [c] ∧ dlab (mmio_write (base + 0) c d) = false ∧
    rx d `prefix_of` rx (mmio_write (base + 0) c d);
}.
#[global] Hint Mode Ns16550 ! - - : typeclass_instances.

(** A bit test of the code *)
Lemma bit_set x k : 0 ≤ k → negb (Z.land x (Z.shiftl 1 k) =? 0) = Z.testbit x k.
Proof.
  intros Hk. rewrite Z.shiftl_1_l. destruct (Z.testbit x k) eqn:E.
  - apply negb_true_iff, Z.eqb_neq. intros H.
    assert (Z.testbit (Z.land x (2 ^ k)) k = true) as Hb.
    { rewrite Z.land_spec, E, Z.pow2_bits_true by done. done. }
    rewrite H, Z.bits_0 in Hb. done.
  - apply negb_false_iff, Z.eqb_eq. apply Z.bits_inj'. intros i Hi.
    rewrite Z.land_spec, Z.bits_0, Z.pow2_bits_eqb by done.
    destruct (Z.eqb_spec k i) as [->|]; [by rewrite E|by rewrite andb_false_r].
Qed.

Section specs.
Context {D : Type} `{Mmio D} `{!Ns16550 D UART_BASE_ADDR}.
Implicit Types (d : D).
Local Notation rx := (rx (base := UART_BASE_ADDR)).
Local Notation tx := (tx (base := UART_BASE_ADDR)).
Local Notation dlab := (dlab (base := UART_BASE_ADDR)).
Local Notation thr_wait := (thr_wait (base := UART_BASE_ADDR)).
Local Notation thr_bound := (thr_bound (D := D) (base := UART_BASE_ADDR)).

Lemma put_wait_ready : ∀ fuel d, dlab d = false → (thr_wait d < fuel)%nat →
  ∃ d', put_wait fuel UART d = Ok d' ∧ thr_wait d' = 0%nat ∧ dlab d' = false ∧ tx d' = tx d ∧
    rx d `prefix_of` rx d'.
Proof.
  induction fuel as [|fuel IH]; intros d Hd Hf; [lia|]. cbn [put_wait].
  change (base_address UART) with UART_BASE_ADDR.
  destruct (mmio_read (UART_BASE_ADDR + 5) d) as [x d1] eqn:E.
  destruct (lsr_read d x d1 E) as (_ & H5 & Hw & Hrx & Htx & Hdl).
  rewrite bit_set by lia. destruct (Z.testbit x 5) eqn:E5.
  - assert (thr_wait d = 0%nat) as H0 by (by apply H5). exists d1. split_and!; [done|lia|congruence|done|done].
  - assert (thr_wait d ≠ 0%nat) as H0 by (intros H0; by apply H5 in H0).
    destruct (IH d1) as (d' & Hr & Hw' & Hd' & Ht & Hp); [congruence|lia|].
    exists d'. split_and!; [done..|congruence|by transitivity (rx d1)].
Qed.

(** Transmission of one byte, and of many, with fuel for the slowest transmitter *)
Definition sent (out : list Z) d d' : Prop :=
  tx d' = tx d ++ out ∧ rx d `prefix_of` rx d' ∧ dlab d' = false.

Lemma sent_nil d : dlab d = false → sent [] d d.
Proof. intros Hd. split_and!; [by rewrite app_nil_r|done|done]. Qed.

Lemma sent_app o1 o2 d d1 d2 : sent o1 d d1 → sent o2 d1 d2 → sent (o1 ++ o2) d d2.
Proof.
  intros (H1 & R1 & _) (H2 & R2 & D2). split_and!; [|by transitivity (rx d1)|done].
  by rewrite H2, H1, app_assoc.
Qed.

Lemma put_sends fuel c d : (thr_bound < fuel)%nat → dlab d = false →
  ∃ d', put fuel UART c d = Ok d' ∧ sent [c] d d'.
Proof.
  intros Hf Hd. pose proof (thr_wait_le d) as Hle.
  destruct (put_wait_ready fuel d Hd) as (d1 & Hr & Hw & Hd1 & Ht & Hp); [lia|].
  unfold put. rewrite Hr, bind_Ok_l. eexists. split; [done|].
  destruct (thr_write d1 c Hd1 Hw) as (Htx & Hdl & Hrx).
  split_and!; [change (base_address UART) with UART_BASE_ADDR; by rewrite Htx, Ht|by transitivity (rx d1)|done].
Qed.

Lemma write_str_sends fuel out : (thr_bound < fuel)%nat → ∀ d, dlab d = false →
  ∃ d', write_str fuel UART out d = Ok d' ∧ sent out d d'.
Proof.
  intros Hf. induction out as [|c out IH]; intros d Hd; cbn [write_str].
  { exists d. split; [done|by apply sent_nil]. }
  destruct (put_sends fuel c d Hf Hd) as (d1 & -> & Hs). rewrite bind_Ok_l.
  destruct (IH d1) as (d' & -> & Hs'); [apply Hs|]. exists d'. split; [done|].
  by apply (sent_app [c] out d d1).
Qed.

(** [write] sends all of its bytes. *)
Lemma console_write_transmits fuel content d :
  (thr_bound < fuel)%nat → dlab d = false → Z.of_nat (length content) < 2 ^ 31 →
  ∃ d', Console_write fuel content d = Ok (Z.of_nat (length content), d') ∧
    tx d' = tx d ++ content ∧ rx d `prefix_of` rx d' ∧ dlab d' = false.
Proof.
  intros Hf Hd Hlen. unfold Console_write.
  destruct (for_range_total (λ k t, sent (take (Z.to_nat k) content) d t) 0 (Z.of_nat (length content))
    (λ i d, c ← aget content i; put fuel UART c d) d) as (d' & Hrun & Hs); [lia|by apply sent_nil| |].
  - intros k t Hk Ht. destruct (aget_range content k) as (c & Hg & Hc); [lia|]. rewrite Hg, bind_Ok_l.
    destruct (put_sends fuel c t Hf) as (t' & Hp & Hs); [apply Ht|]. exists t'. split; [exact Hp|].
    replace (Z.to_nat (k + 1)) with (S (Z.to_nat k)) by lia. rewrite (take_S_r _ _ _ Hc).
    by eapply sent_app.
  - rewrite Hrun, bind_Ok_l. exists d'. rewrite Nat2Z.id, firstn_all in Hs.
    rewrite as_i_id by lia. split_and!; [done|apply Hs..].
Qed.

(** ** Reading *)
Lemma get_byte d : dlab d = false →
  (∃ d', get UART d = (None, d') ∧ rx d = [] ∧ tx d' = tx d ∧ dlab d' = false) ∨
  (∃ c d' r, get UART d = (Some c, d') ∧ tx d' = tx d ∧ dlab d' = false ∧
    rx d `prefix_of` c :: r ∧ rx d ≠ [] ∧ rx d' = r).
Proof.
  intros Hd. unfold get. change (base_address UART) with UART_BASE_ADDR.
  destruct (mmio_read (UART_BASE_ADDR + 5) d) as [x d1] eqn:E.
  destruct (lsr_read d x d1 E) as (H0 & _ & _ & Hrx & Htx & Hdl).
  pose proof (bit_set x 0 ltac:(lia)) as Hb. change (Z.shiftl 1 0) with 1 in Hb.
  destruct (Z.land x 1 =? 0); cbn [negb] in Hb.
  - left. exists d1. split_and!; [done| |done|congruence].
    destruct (rx d) eqn:Er; [done|]. assert (Z.testbit x 0 = true) by (by apply H0). congruence.
  - right. assert (rx d ≠ []) as Hne by (by apply H0).
    destruct Hrx as [new Hnew]. destruct (rx d) as [|c r] eqn:Er; [done|].
    destruct (mmio_read (UART_BASE_ADDR + 0) d1) as [c' d2] eqn:E2.
    destruct (rbr_read d1 c (r ++ new) c' d2) as (-> & Hp & Ht2 & Hd2); [congruence|done|done|].
    exists c, d2, (rx d2). split_and!; [done|congruence|done| |done|done].
    destruct Hp as [more ->]. exists (new ++ more). by rewrite <- app_assoc.
Qed.

(** [got] read from [d] on, leaving [d']: what was received comes in order. *)
Record received (got : list Z) d d' : Prop := {
  rc_order : rx d `prefix_of` got ++ rx d';
  rc_tx : tx d' = tx d;
  rc_dlab : dlab d' = false;
}.

Lemma received_snoc got c r d t t' :
  received got d t → rx t `prefix_of` c :: r → tx t' = tx t → dlab t' = false → rx t' = r →
  received (got ++ [c]) d t'.
Proof.
  intros [Ho Ht _] Hp Htx Hd Hr. split; [|congruence|done]. rewrite Hr, <- app_assoc. cbn.
  transitivity (got ++ rx t); [done|]. by apply prefix_app.
Qed.

Lemma read_loop content0 d0 : ∀ n i d got,
  Z.of_nat (length content0) < 2 ^ 31 →
  (i + n = length content0)%nat → length got = i → received got d0 d →
  ∃ got' d', ctl_loop n (Z.of_nat i) (λ i '(content, d),
    let '(o, d) := get UART d in
    match o with
    | Some ch => content ← aset content i ch; Ok (Next (content, d))
    | None => Ok (Stop (as_i 32 i, content, d))
    end) (got ++ drop i content0, d) =
    Ok (if (length got' =? length content0)%nat then Next (got', d')
        else Stop (Z.of_nat (length got'), got' ++ drop (length got') content0, d')) ∧
    (length got' ≤ length content0)%nat ∧ received got' d0 d' ∧
    (length got' = length content0 ∨ rx d0 `prefix_of` got').
Proof.
  induction n as [|n IH]; intros i d got Hlen Hi Hg Hr; cbn [ctl_loop].
  - assert (i = length content0) as -> by lia. exists got, d. rewrite Hg, Nat.eqb_refl, drop_all, app_nil_r.
    split_and!; [done|lia|done|by left].
  - destruct (get_byte d (rc_dlab _ _ _ Hr)) as [(d1 & -> & He & Ht & Hd)|(c & d1 & r & -> & Ht & Hd & Hp & _ & Hrx)]; cbn beta iota.
    + exists got, d1. rewrite (proj2 (Nat.eqb_neq _ _)) by lia. rewrite bind_Ok_l, as_i_id by lia. rewrite Hg.
      destruct Hr as [Ho Htx _]. rewrite He, app_nil_r in Ho.
      split_and!; [done|lia| |by right]. split; [|congruence|done]. by apply prefix_app_r.
    + rewrite aset_eq by (rewrite length_app, length_drop; lia). rewrite !bind_Ok_l. cbn beta iota.
      replace (Z.of_nat i + 1) with (Z.of_nat (S i)) by lia.
      destruct (lookup_lt_is_Some_2 content0 i) as [y Hy]; [lia|]. rewrite (drop_S _ _ _ Hy).
  rewrite Nat2Z.id, insert_app_r_alt by lia.
      replace (i - length got)%nat with 0%nat by lia. cbn [insert list_insert].
      rewrite cons_middle, app_assoc. apply IH; [done|lia|rewrite length_app; cbn; lia|].
      by eapply received_snoc.
Qed.

(** [read] takes what was received in order, and stops early only when nothing is left. *)
Lemma console_read_in_order content d :
  dlab d = false → Z.of_nat (length content) < 2 ^ 31 →
  ∃ got d', Console_read content d =
      Ok (Z.of_nat (length got), got ++ drop (length got) content, d') ∧
    (length got ≤ length content)%nat ∧ rx d `prefix_of` got ++ rx d' ∧ tx d' = tx d ∧
    (length got = length content ∨ rx d `prefix_of` got).
Proof.
  intros Hd Hlen.
  destruct (read_loop content d (length content) 0 d []) as (got & d' & Hrun & Hle & [Ho Ht Hdl] & Hall);
    [done|lia|done|by split|].
  exists got, d'. split_and!; [|done..]. unfold Console_read, ctl_range.
  replace (Z.to_nat (Z.of_nat (length content) - 0)) with (length content) by lia.
  rewrite drop_0 in Hrun. cbn [app] in Hrun. change (Z.of_nat 0) with 0 in Hrun. rewrite Hrun, bind_Ok_l.
  destruct (Nat.eqb_spec (length got) (length content)) as [He|He]; [|done].
  rewrite He, drop_all, app_nil_r, as_i_id by lia. done.
Qed.

(** What the terminal sees of a typed byte *)
Definition echo (c : Z) : list Z :=
  if c =? 8 then [8; 32; 8] else if (c =? 10) || (c =? 13) then [10] else encode_utf8 c.

(** The handler echoes the byte it takes, and lists the processes on [a]. *)
Theorem uartintr_echoes fuel debug d :
  (thr_bound < fuel)%nat → dlab d = false →
  match rx d with
  | [] => ∃ d', uartintr fuel debug d = Ok d' ∧ tx d' = tx d
  | c :: r => ∃ d', tx d' = tx d ++ echo c ∧ r `prefix_of` rx d' ∧ dlab d' = false ∧
      uartintr fuel debug d = if c =? 97 then debug d' else Ok d'
  end.
Proof.
  intros Hf Hd. unfold uartintr.
  destruct (get_byte d Hd) as [(d1 & -> & He & Ht & Hd1)|(c & d1 & r & -> & Ht & Hd1 & Hp & Hne & Hr)].
  { rewrite He. by exists d1. }
  destruct (rx d) as [|c0 r0] eqn:Er; [done|]. destruct Hp as [new [= Hc Hr0]]; subst c.
  assert (Hout : ∀ out, ∃ d', print fuel out d1 = Ok d' ∧ tx d' = tx d ++ out ∧ r0 `prefix_of` rx d' ∧ dlab d' = false).
  { intros out. destruct (write_str_sends fuel out Hf d1 Hd1) as (d' & Hrun & Htx & Hrx & Hdl).
    exists d'. split_and!; [exact Hrun|congruence| |done].
    transitivity (rx d1); [rewrite Hr, Hr0; by exists new|done]. }
  unfold println, echo. destruct (Z.eqb_spec c0 8) as [->|].
  { change (encode_utf8 8 ++ bytes " " ++ encode_utf8 8) with [8; 32; 8].
    destruct (Hout [8; 32; 8]) as (d' & -> & ?). exists d'. split_and!; naive_solver. }
  destruct ((c0 =? 10) || (c0 =? 13)) eqn:Enl.
  { change ([] ++ [10]) with [10]. destruct (Hout [10]) as (d' & -> & ?). exists d'. rewrite (proj2 (Z.eqb_neq c0 97)) by lia. split_and!; naive_solver. }
  destruct (Hout (encode_utf8 c0)) as (d' & -> & ? & ? & ?). exists d'. by rewrite bind_Ok_l.
Qed.
End specs.

(** ** A device *)
Record Chip := mkChip {
  c_rx : list Z; c_tx : list Z; c_wait : nat;
  lcr : Z; ier : Z; fcr : Z; dll : Z; dlm : Z;
}.
Definition c_dlab (d : Chip) : bool := Z.testbit (lcr d) 7.
(** The transmitter is busy for two polls after a byte. *)
Definition c_latency : nat := 2.
Definition c_lsr (d : Chip) : Z :=
  Z.lor (match c_rx d with [] => 0 | _ => 1 end) (match c_wait d with O => 32 | _ => 0 end).

#[global] Instance Chip_mmio : Mmio Chip := {
  mmio_read a d :=
    let off := a - UART_BASE_ADDR in
    if off =? 0 then
      if c_dlab d then (dll d, d)
      else match c_rx d with
           | [] => (0, d)
           | c :: r => (c, mkChip r (c_tx d) (c_wait d) (lcr d) (ier d) (fcr d) (dll d) (dlm d))
           end
    else if off =? 1 then (if c_dlab d then dlm d else ier d, d)
    else if off =? 3 then (lcr d, d)
    else if off =? 5 then
      (c_lsr d, mkChip (c_rx d) (c_tx d) (pred (Nat.min (c_wait d) c_latency)) (lcr d) (ier d) (fcr d) (dll d) (dlm d))
    else (0, d);
  mmio_write a x d :=
    let off := a - UART_BASE_ADDR in
    if off =? 0 then
      if c_dlab d then mkChip (c_rx d) (c_tx d) (c_wait d) (lcr d) (ier d) (fcr d) x (dlm d)
      else mkChip (c_rx d) (c_tx d ++ [x]) c_latency (lcr d) (ier d) (fcr d) (dll d) (dlm d)
    else if off =? 1 then
      if c_dlab d then mkChip (c_rx d) (c_tx d) (c_wait d) (lcr d) (ier d) (fcr d) (dll d) x
      else mkChip (c_rx d) (c_tx d) (c_wait d) (lcr d) x (fcr d) (dll d) (dlm d)
    else if off =? 2 then mkChip (c_rx d) (c_tx d) (c_wait d) (lcr d) (ier d) x (dll d) (dlm d)
    else if off =? 3 then mkChip (c_rx d) (c_tx d) (c_wait d) x (ier d) (fcr d) (dll d) (dlm d)
    else d;
}.

#[global] Program Instance Chip_laws : Ns16550 Chip UART_BASE_ADDR := {
  rx := c_rx; tx := c_tx; dlab := c_dlab; thr_wait d := Nat.min (c_wait d) c_latency; thr_bound := c_latency;
}.
Next Obligation. intros d. cbn. lia. Qed.
Next Obligation.
  intros d x d' [= <- <-]. unfold c_lsr. rewrite !Z.lor_spec. cbn [c_rx c_tx c_wait].
  split_and!; [| |lia|done|done|done].
  - destruct (c_rx d), (c_wait d); cbn; naive_solver.
  - destruct (c_rx d), (c_wait d); cbn; naive_solver lia.
Qed.
Next Obligation.
  intros d c r x d' Hd Hr Hread. cbn [mmio_read Chip_mmio] in Hread.
  change (UART_BASE_ADDR + 0 - UART_BASE_ADDR) with 0 in Hread. cbn [Z.eqb] in Hread. rewrite Hd, Hr in Hread. injection Hread as <- <-. by cbn.
Qed.
Next Obligation.
  intros d c Hd _. cbn [mmio_write Chip_mmio].
  change (UART_BASE_ADDR + 0 - UART_BASE_ADDR) with 0. cbn [Z.eqb]. rewrite Hd. by cbn.
Qed.

(** [init] leaves eight-bit words, the FIFO and the receive interrupt on, the divisor set
    and the latch closed. *)
Lemma uart_init_configures (d : Chip) :
  Uart_init UART d = Ok (mkChip (c_rx d) (c_tx d) (c_wait d) 3 1 1 0x50 2).
Proof. reflexivity. Qed.

Definition chip0 : Chip := mkChip [97; 98; 13] [] 1 0x80 0 0 0 0.
Definition chip1 : Chip := mkChip [97; 98; 13] [] 1 3 1 1 0x50 2.

Lemma chip0_boot : Uart_init UART chip0 = Ok chip1.
Proof. apply uart_init_configures. Qed.

Lemma uartintr_echoes_witness : ∃ d', c_tx d' = [97] ∧ uartintr 3 Ok chip1 = Ok d'.
Proof.
  destruct (uartintr_echoes 3 Ok chip1) as (d' & H1 & _ & _ & H2); [exact (le_n 3)|reflexivity|].
  exists d'. split; [exact H1|exact H2].
Defined.
