(* ===== verification/Print.v ===== *)
(** * Text output

    What the kernel uses of [core::fmt] on numbers, the lines of [info!] and [warn!]
    ([print.rs]) with the time of [arch::time], and the panic handler of [lib.rs].
    The text goes to the UART of Uart.v; a line of [info!] is sent under [INFO_LOCK]
    and the lock of the UART, the text of a panic with a UART object of its own. *)

From S2P Require Import Prelude Symbols Devices Uart.

(** ** Numbers: [{}], [{:X}], [{:x}] and padding *)
Definition digit (upper : bool) (d : Z) : Z :=
  if d <? 10 then 48 + d else if upper then 55 + d else 87 + d.
Fixpoint digits (fuel : nat) (upper : bool) (base n : Z) (acc : list Z) : list Z :=
  match fuel with
  | O => acc
  | S fuel =>
      let acc := digit upper (n mod base) :: acc in
      if n / base =? 0 then acc else digits fuel upper base (n / base) acc
  end.
(** a [u64] has at most 64 digits *)
Definition fmt_num (upper : bool) (base n : Z) : list Z := digits 64 upper base n [].
Definition fmt_dec (n : Z) : list Z := fmt_num false 10 n.
Definition fmt_hex (n : Z) : list Z := fmt_num true 16 n.
(** [{:>w}] and [{:0w}] *)
Definition pad (c : Z) (w : nat) (l : list Z) : list Z := replicate (w - length l) c ++ l.

(** ** [arch::time] *)
Definition NANOS : Z := 1000000000.
Record Duration := mkDur { as_nanos : Z }.
Definition as_secs (t : Duration) : Z := as_nanos t / NANOS.
Definition subsec_micros (t : Duration) : Z := as_nanos t mod NANOS / 1000.

Section print.
Context {D : Type} `{Mmio D}.
Implicit Types d : D.

Definition time d : result (Duration * D) :=
  let '(mtime, d) := mmio_read CLINT_MTIME_BASE d in
  n ← umul 64 mtime 100;
  Ok (mkDur n, d).

(** ** [info!] and [warn!] *)
Definition stamp (t : Duration) : list Z :=
  let us := subsec_micros t in
  pad 32 3 (fmt_dec (as_secs t)) ++ bytes "." ++ pad 48 3 (fmt_dec (us / 1000)) ++ pad 48 3 (fmt_dec (us mod 1000)).
Definition info_line (t : Duration) (text : list Z) : list Z :=
  [27] ++ bytes "[0;36m[  " ++ stamp t ++ bytes "]" ++ [27] ++ bytes "[0m " ++ text ++ [10].
Definition warn_line (t : Duration) (text : list Z) : list Z :=
  bytes "[W " ++ stamp t ++ bytes "] " ++ text ++ [10].
Definition info (fuel : nat) (text : list Z) d : result D :=
  '(t, d) ← time d;
  print fuel (info_line t text) d.
Definition warn (fuel : nat) (text : list Z) d : result D :=
  '(t, d) ← time d;
  print fuel (warn_line t text) d.

(** ** [_panic_print] and the panic handler, up to [abort] *)
Definition panic_print (fuel : nat) (out : list Z) d : result D :=
  write_str fuel (Uart_new UART_BASE_ADDR) out d.
Definition panic_println (fuel : nat) (out : list Z) d : result D := panic_print fuel (out ++ [10]) d.
(** [location]: line and file; the message is formatted text *)
Definition panic_handler (fuel : nat) (hart_id : Z) (location : option (Z * list Z)) (message : list Z) d
    : result D :=
  d ← panic_println fuel (bytes "hart " ++ fmt_dec hart_id ++ bytes " aborting: ") d;
  match location with
  | Some (line, file) =>
      panic_println fuel (bytes "line " ++ fmt_dec line ++ bytes ", file " ++ file ++ bytes ": " ++ message) d
  | None => panic_println fuel (bytes "no information available.") d
  end.
End print.

(** ** Reading numbers back *)
Definition digit_val (c : Z) : Z := if c <? 58 then c - 48 else if c <? 91 then c - 55 else c - 87.
Definition parse (base : Z) (l : list Z) : Z := foldl (λ a c, a * base + digit_val c) 0 l.

Lemma digit_val_digit upper d : 0 ≤ d < 16 → digit_val (digit upper d) = d.
Proof.
  intros Hd. unfold digit, digit_val. destruct (Z.ltb_spec d 10) as [Hlt|Hge].
  - rewrite (proj2 (Z.ltb_lt _ _)) by lia. lia.
  - destruct upper; rewrite (proj2 (Z.ltb_ge _ 58)) by lia.
    + rewrite (proj2 (Z.ltb_lt _ _)) by lia. lia.
    + rewrite (proj2 (Z.ltb_ge _ _)) by lia. lia.
Qed.

(** [digits] puts the digits of [n] before [acc]. *)
Lemma digits_spec upper base : 2 ≤ base ≤ 16 → ∀ fuel n acc, 0 ≤ n < base ^ Z.of_nat fuel → (0 < fuel)%nat →
  ∃ ds, digits fuel upper base n acc = ds ++ acc ∧ ds ≠ [] ∧ parse base ds = n ∧
    Forall (λ c, ∃ k, 0 ≤ k < base ∧ c = digit upper k) ds ∧
    (∀ w : nat, (0 < w)%nat → n < base ^ Z.of_nat w → (length ds ≤ w)%nat).
Proof.
  intros Hb. induction fuel as [|fuel IH]; intros n acc Hn Hf; [lia|]. cbn [digits].
  pose proof (Z.mod_pos_bound n base ltac:(lia)) as Hm. pose proof (Z.div_mod n base ltac:(lia)) as Hdm.
  destruct (Z.eqb_spec (n / base) 0) as [E|E].
  - exists [digit upper (n mod base)]. split_and!; [done|done| |repeat constructor; eauto|cbn; lia].
    unfold parse. cbn. rewrite digit_val_digit by lia. lia.
  - assert (0 < n / base) as Hq by (pose proof (Z.div_pos n base); lia).
    destruct fuel as [|fuel]; [change (base ^ Z.of_nat 1) with (base ^ 1) in Hn; rewrite Z.pow_1_r in Hn;
      rewrite Z.div_small in E by done; done|].
    destruct (IH (n / base) (digit upper (n mod base) :: acc)) as (ds & -> & Hne & Hp & Hall & Hlen); [|lia|].
    { split; [lia|]. apply Z.div_lt_upper_bound; [lia|]. rewrite Nat2Z.inj_succ, Z.pow_succ_r in Hn by lia. lia. }
    exists (ds ++ [digit upper (n mod base)]). split_and!.
    + by rewrite <- app_assoc.
    + by destruct ds.
    + unfold parse in *. rewrite foldl_app, Hp. cbn. rewrite digit_val_digit by lia. lia.
    + apply list.Forall_app. split; [done|]. repeat constructor; eauto.
    + intros w Hw Hlt. rewrite length_app. cbn. destruct w as [|w]; [lia|].
      rewrite Nat2Z.inj_succ, Z.pow_succ_r in Hlt by lia. destruct w as [|w].
      { cbn in Hlt. rewrite Z.div_small in E by lia. done. }
      assert (length ds ≤ S w)%nat; [|lia]. apply Hlen; [lia|]. apply Z.div_lt_upper_bound; lia.
Qed.

Lemma fmt_num_spec upper base n :
  2 ≤ base ≤ 16 → is_u 64 n →
  fmt_num upper base n ≠ [] ∧ parse base (fmt_num upper base n) = n ∧
  Forall (λ c, ∃ k, 0 ≤ k < base ∧ c = digit upper k) (fmt_num upper base n) ∧
  (∀ w : nat, (0 < w)%nat → n < base ^ Z.of_nat w → (length (fmt_num upper base n) ≤ w)%nat).
Proof.
  intros Hb [Hn0 Hn]. unfold fmt_num. destruct (digits_spec upper base Hb 64 n []) as (ds & -> & H); [|lia|].
  - split; [done|]. eapply Z.lt_le_trans; [exact Hn|]. apply Z.pow_le_mono_l. lia.
  - by rewrite app_nil_r.
Qed.

Lemma parse_app base l1 l2 : parse base (l1 ++ l2) = parse base l1 * base ^ Z.of_nat (length l2) + parse base l2.
Proof.
  unfold parse. rewrite foldl_app. generalize (foldl (λ a c, a * base + digit_val c) 0 l1) as x.
  induction l2 as [|c l2 IH]; intros x; cbn [foldl length]; [rewrite Z.pow_0_r; lia|].
  rewrite (IH (x * base + _)), (IH (0 * base + _)), Nat2Z.inj_succ, Z.pow_succ_r by lia. lia.
Qed.
Lemma parse_zeros base k l : parse base (replicate k 48 ++ l) = parse base l.
Proof.
  rewrite parse_app. assert (parse base (replicate k 48) = 0) as ->; [|lia].
  induction k as [|k IH]; [done|]. exact IH.
Qed.

(** A number below [10 ^ w] padded with zeros has [w] digits. *)
Lemma pad_zeros w n :
  (0 < w)%nat → 0 ≤ n < 10 ^ Z.of_nat w → is_u 64 n →
  length (pad 48 w (fmt_dec n)) = w ∧ parse 10 (pad 48 w (fmt_dec n)) = n.
Proof.
  intros Hw Hn Hu. destruct (fmt_num_spec false 10 n) as (_ & Hp & _ & Hl); [lia|done|].
  unfold pad. rewrite parse_zeros. split; [|done]. rewrite length_app, length_replicate.
  specialize (Hl w Hw ltac:(lia)). unfold fmt_dec. lia.
Qed.

Lemma stamp_fields ns :
  is_u 64 ns →
  ∃ k s f, stamp (mkDur ns) = replicate k 32 ++ s ++ bytes "." ++ f ∧ (3 ≤ k + length s)%nat ∧
    parse 10 s = ns / NANOS ∧ length f = 6%nat ∧ parse 10 f = ns / 1000 mod 1000000.
Proof.
  intros Hu. unfold is_u in Hu. set (us := subsec_micros (mkDur ns)).
  assert (us = ns / 1000 mod 1000000) as Eus.
  { unfold us, subsec_micros, NANOS. cbn [as_nanos]. Z.to_euclidean_division_equations. lia. }
  assert (0 ≤ us < 1000000) as Hus by (rewrite Eus; by apply Z.mod_pos_bound).
  assert (0 ≤ us / 1000 < 1000) as H1 by (Z.to_euclidean_division_equations; lia).
  assert (0 ≤ us mod 1000 < 1000) as H2 by (by apply Z.mod_pos_bound).
  destruct (pad_zeros 3 (us / 1000)) as [L1 P1]; [lia|done|unfold is_u; lia|].
  destruct (pad_zeros 3 (us mod 1000)) as [L2 P2]; [lia|done|unfold is_u; lia|].
  exists (3 - length (fmt_dec (ns / NANOS)))%nat, (fmt_dec (ns / NANOS)),
    (pad 48 3 (fmt_dec (us / 1000)) ++ pad 48 3 (fmt_dec (us mod 1000))). split_and!.
  - unfold stamp, pad at 1. fold us. unfold as_secs. cbn [as_nanos]. by rewrite <- app_assoc.
  - lia.
  - apply fmt_num_spec; [lia|]. unfold is_u, NANOS. Z.to_euclidean_division_equations. lia.
  - by rewrite length_app, L1, L2.
  - rewrite parse_app, L2, P1, P2, <- Eus. change (10 ^ Z.of_nat 3) with 1000.
    pose proof (Z.div_mod us 1000). lia.
Qed.

Section theorems.
Context {D : Type} `{Mmio D} `{!Ns16550 D UART_BASE_ADDR}.

(** The panic handler says which hart stops and, when the location is known, where and
    why, without the lock of the UART. *)
Lemma panic_handler_sends fuel hart_id line file message (d : D) :
  (thr_bound < fuel)%nat → dlab d = false →
  ∃ d', panic_handler fuel hart_id (Some (line, file)) message d = Ok d' ∧
    tx d' = tx d ++ (bytes "hart " ++ fmt_dec hart_id ++ bytes " aborting: ") ++ [10] ++
                    (bytes "line " ++ fmt_dec line ++ bytes ", file " ++ file ++ bytes ": " ++ message) ++ [10].
Proof.
  intros Hf Hd. unfold panic_handler, panic_println, panic_print. change (Uart_new UART_BASE_ADDR) with UART.
  edestruct (write_str_sends fuel) as (d1 & -> & Hs1); [exact Hf|exact Hd|]. rewrite bind_Ok_l.
  edestruct (write_str_sends fuel) as (d2 & -> & Hs2); [exact Hf|apply Hs1|]. exists d2. split; [done|].
  destruct (sent_app _ _ _ _ _ Hs1 Hs2) as [-> _]. by rewrite <- !app_assoc.
Qed.

(** C38: a line of info! reaches the UART whole, between the colour codes and the newline,
    with a time stamp whose digits read back as the seconds and, in exactly six
    digits, the microseconds of the timer; when the timer times 100 no longer fits 64
    bits it stops with an overflow. *)
Theorem info_line_time fuel text (d : D) mtime :
  (thr_bound < fuel)%nat → dlab d = false → is_u 64 mtime → mmio_read CLINT_MTIME_BASE d = (mtime, d) →
  (2 ^ 64 ≤ mtime * 100 → info fuel text d = Err Overflow) ∧
  (mtime * 100 < 2 ^ 64 → ∃ d' k s f, info fuel text d = Ok d' ∧
     tx d' = tx d ++ [27] ++ bytes "[0;36m[  " ++ (replicate k 32 ++ s ++ bytes "." ++ f) ++ bytes "]" ++ [27] ++
                     bytes "[0m " ++ text ++ [10] ∧
     (3 ≤ k + length s)%nat ∧ parse 10 s = mtime / 10000000 ∧
     length f = 6%nat ∧ parse 10 f = mtime / 10 mod 1000000).
Proof.
  intros Hf Hd [Hm0 _] Hm. unfold info, time. rewrite Hm. unfold umul. split.
  { intros Ho. by rewrite (proj2 (Z.ltb_ge _ _)). }
  intros Hlt. rewrite (proj2 (Z.ltb_lt _ _)), !bind_Ok_l by done.
  destruct (stamp_fields (mtime * 100)) as (k & s & f & Es & Hk & Ps & Lf & Pf); [unfold is_u; lia|].
  destruct (write_str_sends fuel (info_line (mkDur (mtime * 100)) text) Hf d Hd) as (d' & Hr & Htx & _ & _).
  exists d', k, s, f. split_and!; [exact Hr| |done|rewrite Ps|done|rewrite Pf].
  - rewrite Htx. unfold info_line. by rewrite Es.
  - unfold NANOS. Z.to_euclidean_division_equations. lia.
  - f_equal. Z.to_euclidean_division_equations. lia.
Qed.
End theorems.

(** ** One second and a bit after boot *)
Example info_line_example :
  info_line (mkDur 1234567890) (bytes "done") = [27] ++ bytes "[0;36m[    1.234567]" ++ [27] ++ bytes "[0m done" ++ [10].
Proof. vm_compute. reflexivity. Qed.

Lemma info_line_time_witness :
  ∃ d' k s f, info 3 (bytes "done") chip1 = Ok d' ∧
    c_tx d' = [27] ++ bytes "[0;36m[  " ++ (replicate k 32 ++ s ++ bytes "." ++ f) ++ bytes "]" ++ [27] ++
              bytes "[0m " ++ bytes "done" ++ [10] ∧ parse 10 s = 0 ∧ length f = 6%nat.
Proof.
  destruct (info_line_time 3 (bytes "done") chip1 0) as [_ Hok];
    [cbn; unfold c_latency; lia|reflexivity|by vm_compute|reflexivity|].
  destruct Hok as (d' & k & s & f & Hr & Ht & _ & Hs & Hl & _); [lia|].
  exists d', k, s, f. split; [exact Hr|]. split; [exact Ht|]. split; [exact Hs|exact Hl].
Defined.
