(* ===== verification/Walk.v ===== *)
(** * Printing a page table

    [Table::walk] of [page.rs] prints a line for every valid entry of a tree.  On a
    well-formed tree its text is that of [tree_items], and the leaves among those are
    exactly the pages the tree maps, at the virtual addresses it maps them to. *)

From S2P Require Import Prelude Symbols Mem Page PageTree PageOps PageUser Devices Uart Print.
From stdpp Require Import sorting.
#[local] Open Scope Z_scope.

(** ** Lines *)
Definition dots (n : Z) : list Z := replicate (Z.to_nat n) 46.
Definition entry_line (depth i vaddr paddr : Z) : list Z :=
  dots depth ++ fmt_dec i ++ bytes ": 0x" ++ fmt_hex vaddr ++ bytes " -> 0x" ++ fmt_hex paddr.
Definition flag (b : bool) (s : string) : list Z := if b then bytes s else [].
Definition leaf_line (depth i vaddr v : Z) : list Z :=
  entry_line depth i vaddr (Entry_paddr v) ++ bytes "  " ++
  flag (is_user v) "U" ++ flag (is_r v) "R" ++ flag (is_w v) "W" ++ flag (is_x v) "X" ++ [10].

Section walk.
Context {A : Type}.
Implicit Types m : kmem A.

(** [_walk]: one round of its loop, with the text so far; and the loop.  [fuel] bounds
    the depth. *)
Definition walk_body (below : Z → Z → Z → result (list Z)) (self level vpn : Z) m (i : Z) (out : list Z)
    : result (list Z) :=
  v ← read_entry m self i;
  if is_v v then
    let n := Z.lor (ushl 64 vpn 9) i in
    depth ← usub 2 level;
    if negb (is_leaf v) then
      k ← umul 64 9 level;
      k ← uadd 64 k 12;
      _ ← panic_if (64 <=? k) Overflow;
      let line := entry_line depth i (ushl 64 n k) (Entry_paddr v) ++ [10] in
      _ ← ptr_unwrap (Entry_paddr v);
      level ← usub level 1;
      text ← below (Entry_paddr v) level n;
      Ok (out ++ line ++ text)
    else Ok (out ++ leaf_line depth i (ushl 64 n 12) v)
  else Ok out.
Fixpoint walk_from (fuel : nat) (self level vpn : Z) m : result (list Z) :=
  match fuel with
  | O => Err NoFuel
  | S fuel => for_range 0 Table_len (walk_body (λ t l n, walk_from fuel t l n m) self level vpn m) []
  end.
Definition Table_walk (self : Z) m : result (list Z) := walk_from 3 self 2 0 m.
End walk.

(** ** Reference: the valid entries of a tree in order *)
Inductive item := Inner (lvl : nat) (i va v : Z) | Leaf (i va v : Z).
Definition show_item (x : item) : list Z :=
  match x with
  | Inner lvl i va v => entry_line (2 - Z.of_nat lvl) i va (Entry_paddr v) ++ [10]
  | Leaf i va v => leaf_line 2 i va v
  end.
(** Page [n] is at [n * 4096]; an entry of level [lvl] spans [512 ^ lvl] pages. *)
Fixpoint tree_items (lvl : nat) (fr : gmap Z frame) (t vpn : Z) : list item :=
  match entries fr t with
  | Some es =>
      concat (imap (λ i v,
        if is_v v then
          let n := vpn * 512 + Z.of_nat i in
          match lvl with
          | O => [Leaf (Z.of_nat i) (n * 2 ^ 12) v]
          | S l => Inner lvl (Z.of_nat i) (n * 2 ^ (12 + 9 * Z.of_nat lvl)) v :: tree_items l fr (Entry_paddr v) n
          end
        else []) es)
  | None => []
  end.

(** ** The text of a walk *)
Lemma ushl_small x k : 0 ≤ x → 0 ≤ k → x * 2 ^ k < 2 ^ 64 → ushl 64 x k = x * 2 ^ k.
Proof.
  intros Hx Hk Hlt. unfold ushl. rewrite Z.shiftl_mul_pow2, Z.land_ones by lia. apply Z.mod_small. nia.
Qed.

Lemma page_number vpn i : 0 ≤ vpn < 2 ^ 18 → 0 ≤ i < 512 → Z.lor (ushl 64 vpn 9) i = vpn * 512 + i.
Proof. intros Hv Hi. rewrite ushl_small by lia. by apply (lor_high_low vpn 9). Qed.

(** How many page numbers the tables of level [lvl] can have *)
Definition vpns (lvl : nat) : Z := 2 ^ (9 * (2 - Z.of_nat lvl)).
Lemma vpns_S l : (l < 2)%nat → vpns l = vpns (S l) * 512.
Proof. intros Hl. unfold vpns. rewrite <- (Z.pow_add_r 2 _ 9) by lia. f_equal. lia. Qed.
Lemma vpns_le lvl : vpns lvl ≤ 2 ^ 18.
Proof. unfold vpns. apply Z.pow_le_mono_r; lia. Qed.
Lemma vpns_span lvl n : (lvl ≤ 2)%nat → 0 ≤ n < vpns lvl * 512 → n * 2 ^ (12 + 9 * Z.of_nat lvl) < 2 ^ 64.
Proof.
  intros Hl Hn. unfold vpns in Hn. assert (lvl = 0 ∨ lvl = 1 ∨ lvl = 2)%nat as [->|[->| ->]] by lia; cbn in *; lia.
Qed.

Definition entry_items (lvl : nat) (fr : gmap Z frame) (vpn : Z) (i : nat) (v : Z) : list item :=
  if is_v v then
    let n := vpn * 512 + Z.of_nat i in
    match lvl with
    | O => [Leaf (Z.of_nat i) (n * 2 ^ 12) v]
    | S l => Inner lvl (Z.of_nat i) (n * 2 ^ (12 + 9 * Z.of_nat lvl)) v :: tree_items l fr (Entry_paddr v) n
    end
  else [].
Lemma tree_items_unfold lvl fr t vpn es :
  entries fr t = Some es → tree_items lvl fr t vpn = concat (imap (entry_items lvl fr vpn) es).
Proof. intros He. destruct lvl; cbn [tree_items]; by rewrite He. Qed.

Section text.
Context {A : Type}.
Implicit Types m : kmem A.

Definition text_of (l : list item) : list Z := concat (show_item <$> l).
Lemma text_of_app l1 l2 : text_of (l1 ++ l2) = text_of l1 ++ text_of l2.
Proof. unfold text_of. by rewrite fmap_app, concat_app. Qed.

(** One round prints the items of its entry. *)
Lemma walk_round lvl t vpn m es (k : nat) v out :
  (lvl ≤ 2)%nat → entries (frames m) t = Some es → es !! k = Some v → (k < 512)%nat →
  entry_wf lvl (frames m) v → 0 ≤ vpn < vpns lvl →
  (∀ l t' n, lvl = S l → tree_wf l (frames m) t' → 0 ≤ n < vpns l →
     walk_from lvl t' (Z.of_nat l) n m = Ok (text_of (tree_items l (frames m) t' n))) →
  walk_body (λ t l n, walk_from lvl t l n m) t (Z.of_nat lvl) vpn m (Z.of_nat k) out =
    Ok (out ++ text_of (entry_items lvl (frames m) vpn k v)).
Proof.
  intros Hl He Hk Hk2 [Hu Hwf] Hvpn IH. unfold walk_body, read_entry, table_at, entry_items.
  unfold entries in He. destruct (frames m !! t) as [[es'|]|]; simplify_eq. rewrite bind_Ok_l.
  rewrite (aget_eq _ _ v), bind_Ok_l by (lia || by rewrite Nat2Z.id).
  destruct (is_v v); [|by rewrite app_nil_r]. specialize (Hwf eq_refl). pose proof (vpns_le lvl).
  rewrite page_number by lia. rewrite (usub_eq 2) by lia. rewrite bind_Ok_l. set (n := vpn * 512 + Z.of_nat k).
  assert (0 ≤ n < vpns lvl * 512) as Hn by lia. pose proof (vpns_span lvl n Hl Hn) as Hs.
  destruct lvl as [|l]; [rewrite Hwf|destruct Hwf as [-> Hwf]]; cbn [negb].
  - rewrite ushl_small by (cbn in *; lia). unfold text_of. cbn. by rewrite app_nil_r.
  - rewrite umul_eq, bind_Ok_l, uadd_eq, bind_Ok_l by lia. rewrite (proj2 (Z.leb_gt 64 _)) by lia.
    cbn [panic_if]. rewrite bind_Ok_l. replace (9 * Z.of_nat (S l) + 12) with (12 + 9 * Z.of_nat (S l)) by lia.
    rewrite ushl_small by (lia || done). unfold ptr_unwrap.
    destruct (tree_wf_frame_addr _ _ _ Hwf) as [[Hp0 _] _]. rewrite (proj2 (Z.eqb_neq _ 0)) by lia.
    cbn [panic_if]. rewrite bind_Ok_l, usub_eq, bind_Ok_l by lia.
    replace (Z.of_nat (S l) - 1) with (Z.of_nat l) by lia.
    rewrite (IH l) by (done || (rewrite vpns_S by lia; lia)). rewrite bind_Ok_l. done.
Qed.

Lemma walk_text lvl : ∀ t vpn m,
  (lvl ≤ 2)%nat → tree_wf lvl (frames m) t → 0 ≤ vpn < vpns lvl →
  walk_from (S lvl) t (Z.of_nat lvl) vpn m = Ok (text_of (tree_items lvl (frames m) t vpn)).
Proof.
  induction lvl as [lvl IH] using lt_wf_ind; intros t vpn m Hl (es & He & Hlen & Ht & Hes & _)%tree_wf_unfold Hvpn.
  rewrite (tree_items_unfold _ _ _ _ es) by done. cbn [walk_from].
  destruct (for_range_total
    (λ k out, out = text_of (concat (imap (entry_items lvl (frames m) vpn) (take (Z.to_nat k) es)))) 0 Table_len
    (walk_body (λ t l n, walk_from lvl t l n m) t (Z.of_nat lvl) vpn m) []) as (out & -> & ->).
  - done.
  - done.
  - intros k out Hk ->. change Table_len with 512 in Hk.
    destruct (lookup_lt_is_Some_2 es (Z.to_nat k)) as [v Hv]; [lia|].
    eexists. split; [rewrite <- (Z2Nat.id k) at 1 by lia; eapply (walk_round lvl t vpn m es); try done|].
    + lia.
    + by eapply Hes.
    + intros l t' n -> Hwf Hn. apply IH; [lia|lia|done|done].
    + replace (Z.to_nat (k + 1)) with (S (Z.to_nat k)) by lia. rewrite (take_S_r _ _ v) by done.
      rewrite imap_app, concat_app, text_of_app. cbn. rewrite length_take, Nat.min_l, Nat.add_0_r by lia.
      by rewrite app_nil_r.
  - f_equal. f_equal. rewrite take_ge; [done|]. rewrite Hlen. done.
Qed.
End text.

(** ** The leaves of a walk *)
Lemma elem_of_concat_imap {B C} (F : nat → B → list C) (l : list B) x :
  x ∈ concat (imap F l) ↔ ∃ i v, l !! i = Some v ∧ x ∈ F i v.
Proof.
  rewrite list_elem_of_In, in_concat. split.
  - intros (y & Hy & Hx). apply list_elem_of_In in Hy, Hx. apply elem_of_lookup_imap in Hy as (i & v & -> & Hv). eauto.
  - intros (i & v & Hv & Hx). exists (F i v). split; apply list_elem_of_In; [|done].
    apply elem_of_lookup_imap. eauto.
Qed.

(** The page numbers above level [lvl] of an address *)
Definition prefix_at (va : Z) (lvl : nat) : Z := va / 2 ^ (12 + 9 * Z.of_nat lvl).
Lemma prefix_at_S va lvl : prefix_at va lvl = prefix_at va (S lvl) * 512 + vidx va lvl.
Proof.
  unfold prefix_at. rewrite vidx_div. replace (12 + 9 * Z.of_nat (S lvl)) with (12 + 9 * Z.of_nat lvl + 9) by lia.
  rewrite (Z.pow_add_r 2 (12 + 9 * Z.of_nat lvl) 9), <- Z.div_div by lia. change (2 ^ 9) with 512.
  pose proof (Z.div_mod (va / 2 ^ (12 + 9 * Z.of_nat lvl)) 512). lia.
Qed.
Lemma prefix_at_split va lvl n i :
  0 ≤ i < 512 → prefix_at va lvl = n * 512 + i ↔ prefix_at va (S lvl) = n ∧ vidx va lvl = i.
Proof. intros Hi. rewrite prefix_at_S. pose proof (vidx_bounds va lvl). lia. Qed.

Lemma items_leaf lvl fr : ∀ t vpn i va v,
  tree_wf lvl fr t →
  Leaf i va v ∈ tree_items lvl fr t vpn ↔
    va mod 2 ^ 12 = 0 ∧ prefix_at va (S lvl) = vpn ∧ i = vidx va 0 ∧ leaf_at lvl fr t va = Some v.
Proof.
  induction lvl as [|l IH]; intros t vpn i va v (es & He & Hlen & _ & Hes & _)%tree_wf_unfold;
    rewrite (tree_items_unfold _ _ _ _ es), elem_of_concat_imap by done; cbn [leaf_at]; rewrite He; split.
  - intros (k & w & Hk & Hin). unfold entry_items in Hin. destruct (is_v w) eqn:Hv; [|by apply not_elem_of_nil in Hin].
    apply list_elem_of_singleton in Hin as [= -> -> ->]. pose proof (lookup_lt_Some _ _ _ Hk).
    assert (prefix_at ((vpn * 512 + Z.of_nat k) * 2 ^ 12) 0 = vpn * 512 + Z.of_nat k) as Hp by (by apply Z.div_mul).
    apply prefix_at_split in Hp as [Hp Hi]; [|lia]. rewrite Hi, Nat2Z.id, Hk, Hv.
    split_and!; [by apply Z.mod_mul|done..].
  - intros (Ha & Hp & -> & Hleaf). destruct (es !! Z.to_nat (vidx va 0)) as [w|] eqn:Hk; [|done].
    destruct (is_v w) eqn:Hv; [|done]. injection Hleaf as ->. pose proof (vidx_bounds va 0).
    eexists _, v. split; [done|]. unfold entry_items. rewrite Hv. apply list_elem_of_singleton.
    rewrite Z2Nat.id by lia. f_equal. rewrite <- Hp, <- prefix_at_S. unfold prefix_at.
    change (12 + 9 * Z.of_nat 0) with 12. pose proof (Z.div_mod va (2 ^ 12)). lia.
  - intros (k & w & Hk & Hin). unfold entry_items in Hin. destruct (is_v w) eqn:Hv; [|by apply not_elem_of_nil in Hin].
    apply elem_of_cons in Hin as [?|Hin]; [done|]. pose proof (lookup_lt_Some _ _ _ Hk).
    destruct (Hes k w Hk) as [_ Hwf]. destruct (Hwf Hv) as [_ Hsub].
    apply IH in Hin as (Ha & Hp & Hi & Hleaf); [|done]. apply prefix_at_split in Hp as [Hp Hx]; [|lia].
    rewrite Hx, Nat2Z.id, Hk, Hv. done.
  - intros (Ha & Hp & Hi & Hleaf). destruct (es !! Z.to_nat (vidx va (S l))) as [w|] eqn:Hk; [|done].
    destruct (is_v w) eqn:Hv; [|done]. pose proof (vidx_bounds va (S l)).
    destruct (Hes _ w Hk) as [_ Hwf]. destruct (Hwf Hv) as [_ Hsub].
    eexists _, w. split; [done|]. unfold entry_items. rewrite Hv. right. rewrite Z2Nat.id by lia.
    apply IH; [done|]. split_and!; [done| |done|done]. rewrite <- Hp. apply prefix_at_S.
Qed.

(** ** Their order *)
Definition leaf_va (x : item) : option Z := match x with Leaf _ va _ => Some va | Inner _ _ _ _ => None end.

Lemma sorted_concat {B} (F : nat → B → list Z) (lo : nat → Z) (l : list B) :
  (∀ i, lo i ≤ lo (S i)) →
  (∀ i v, l !! i = Some v → StronglySorted Z.lt (F i v) ∧ Forall (λ x, lo i ≤ x < lo (S i)) (F i v)) →
  StronglySorted Z.lt (concat (imap F l)) ∧ Forall (λ x, lo 0%nat ≤ x < lo (length l)) (concat (imap F l)).
Proof.
  revert F lo. induction l as [|v l IH]; intros F lo Hlo HF; cbn; [split; constructor|].
  destruct (HF 0%nat v eq_refl) as [Hs Hr]. destruct (IH (F ∘ S) (lo ∘ S)) as [Hs' Hr'].
  { intros i. apply Hlo. }
  { intros i w Hw. by apply (HF (S i)). }
  assert (lo 1%nat ≤ lo (S (length l))) as Hmono.
  { clear -Hlo. induction (length l) as [|n IH]; [done|]. etransitivity; [exact IH|apply Hlo]. }
  specialize (Hlo 0%nat). rewrite list.Forall_forall in Hr, Hr'. cbn in Hr'. split.
  - apply StronglySorted_app_2; [|done|done]. intros x y Hx%Hr Hy%Hr'. lia.
  - apply list.Forall_forall. intros x [Hx%Hr|Hx%Hr']%elem_of_app; lia.
Qed.

Lemma leaf_vas_concat (F : nat → Z → list item) l :
  omap leaf_va (concat (imap F l)) = concat (imap (λ i v, omap leaf_va (F i v)) l).
Proof.
  revert F. induction l as [|v l IH]; intros F; [done|]. cbn. rewrite omap_app. f_equal. apply IH.
Qed.

Lemma items_sorted lvl fr : ∀ t vpn,
  tree_wf lvl fr t →
  StronglySorted Z.lt (omap leaf_va (tree_items lvl fr t vpn)) ∧
  Forall (λ x, vpn * 2 ^ (21 + 9 * Z.of_nat lvl) ≤ x < (vpn + 1) * 2 ^ (21 + 9 * Z.of_nat lvl))
    (omap leaf_va (tree_items lvl fr t vpn)).
Proof.
  induction lvl as [|l IH]; intros t vpn (es & He & Hlen & _ & Hes & _)%tree_wf_unfold;
    rewrite (tree_items_unfold _ _ _ _ es), leaf_vas_concat by done.
  - destruct (sorted_concat (λ i v, omap leaf_va (entry_items 0 fr vpn i v)) (λ i, (vpn * 512 + Z.of_nat i) * 2 ^ 12) es)
      as [Hs Hr]; [lia| |].
    + intros i v Hv. unfold entry_items. destruct (is_v v); cbn; [|split; constructor].
      split; repeat constructor; lia.
    + split; [done|]. rewrite Hlen in Hr. eapply list.Forall_impl; [exact Hr|]. cbn. lia.
  - destruct (sorted_concat (λ i v, omap leaf_va (entry_items (S l) fr vpn i v))
      (λ i, (vpn * 512 + Z.of_nat i) * 2 ^ (21 + 9 * Z.of_nat l)) es) as [Hs Hr].
    + intros i. apply Z.mul_le_mono_nonneg_r; lia.
    + intros i v Hv. unfold entry_items. destruct (is_v v) eqn:E; cbn; [|split; constructor].
      destruct (Hes i v Hv) as [_ Hwf]. destruct (Hwf E) as [_ Hsub]. destruct (IH _ (vpn * 512 + Z.of_nat i) Hsub) as [Hs Hr].
      split; [done|]. by replace (vpn * 512 + Z.of_nat (S i)) with (vpn * 512 + Z.of_nat i + 1) by lia.
    + split; [done|]. rewrite Hlen in Hr. eapply list.Forall_impl; [exact Hr|]. cbn beta.
      replace (21 + 9 * Z.of_nat (S l)) with (9 + (21 + 9 * Z.of_nat l)) by lia. rewrite (Z.pow_add_r 2 9) by lia.
      change (2 ^ 9) with 512. intros x. lia.
Qed.

(** ** Theorem *)
(** C37: the walk that prints a page table terminates on a well-formed tree, and the leaf
    lines it prints are exactly the pages the tree maps, each at its virtual address
    with its frame and flags, in increasing order of address. *)
Theorem walk_lists_mapping {A} (m : kmem A) root :
  tree_wf 2 (frames m) root →
  ∃ items, Table_walk root m = Ok (text_of items) ∧
    (∀ va v, 0 ≤ va < 2 ^ 39 → va mod PAGE_SIZE = 0 →
       page_map m root va = Some v ↔ Leaf (vidx va 0) va v ∈ items) ∧
    (∀ i va v, Leaf i va v ∈ items → 0 ≤ va < 2 ^ 39 ∧ va mod PAGE_SIZE = 0) ∧
    StronglySorted Z.lt (omap leaf_va items).
Proof.
  intros Hwf. exists (tree_items 2 (frames m) root 0). layout. split_and!.
  - unfold Table_walk. apply (walk_text 2 root 0 m (le_n 2) Hwf). by vm_compute.
  - intros va v Hva Ha. rewrite items_leaf by done. unfold page_map, prefix_at.
    change (12 + 9 * Z.of_nat 3) with 39. rewrite Z.div_small by exact Hva.
    split; [intros Hl; split_and!; [exact Ha|reflexivity|reflexivity|exact Hl]|intros (_ & _ & _ & Hl); exact Hl].
  - intros i va v (Ha & Hp & _)%items_leaf; [|exact Hwf]. split; [|exact Ha]. unfold prefix_at in Hp.
    change (12 + 9 * Z.of_nat 3) with 39 in Hp. pose proof (Z.div_mod va (2 ^ 39)). pose proof (Z.mod_pos_bound va (2 ^ 39)). lia.
  - apply items_sorted. exact Hwf.
Qed.

(** The page of PageUser.v *)
Example walk_ptu : Table_walk root0 ptu = Ok (
  bytes "0: 0x0 -> 0x80201000" ++ [10] ++ bytes ".0: 0x0 -> 0x80202000" ++ [10] ++
  bytes "..1: 0x1000 -> 0x80200000  URW" ++ [10]).
Proof. vm_compute. reflexivity. Qed.

Lemma walk_lists_mapping_witness :
  ∃ items, Table_walk root0 ptu = Ok (text_of items) ∧ StronglySorted Z.lt (omap leaf_va items) ∧
    ∃ v, Leaf 1 0x1000 v ∈ items.
Proof.
  destruct ptu_inv as (B & Hinv & _).
  destruct (walk_lists_mapping ptu root0) as (items & Ht & Hmap & _ & Hs); [apply Hinv|].
  exists items. split; [exact Ht|]. split; [exact Hs|].
  assert (∃ v, page_map ptu root0 0x1000 = Some v) as [v Hv].
  { destruct (page_map ptu root0 0x1000) as [v|] eqn:E; [by exists v|]. vm_compute in E. discriminate. }
  exists v. apply (proj1 (Hmap 0x1000 v ltac:(lia) eq_refl) Hv).
Defined.
