(* ===== verification/Intr.v ===== *)
(** * Device interrupts

    [intr.rs] with [process::debug] of [process.rs]: an interrupt is claimed from the
    controller, handled by the driver of its source and completed.  The controller
    promises [PlicLaws]: a claim puts the interrupt in service until its completion,
    and the registers of the UART are none of its own. *)

From S2P Require Import Prelude Symbols Proc Devices Uart Virtio.
From stdpp Require Import pretty.
#[local] Open Scope Z_scope.

(** ** [process::debug] *)
Definition state_name (st : ProcessState) : string :=
  match st with
  | UNUSED => "UNUSED" | SLEEPING => "SLEEPING" | RUNNABLE => "RUNNABLE"
  | RUNNING => "RUNNING" | ZOMBIE => "ZOMBIE"
  end.

Section debug.
Context {D : Type} `{Mmio D}.

(** [procs]: the process of each of [CPUS] *)
Definition process_debug (fuel : nat) (procs : list (option Process)) (pool : list ProcInPool) (d : D) : result D :=
  d ← for_range 0 NCPUS (λ i d,
    o ← aget procs i;
    match o with
    | Some x => println fuel (bytes (pretty (pid x) +:+ " running on hart " +:+ pretty i)) d
    | None => Ok d
    end) d;
  for_range 0 NMAXPROCS (λ i d,
    p ← aget pool i;
    match p with
    | Pooling x => println fuel (bytes (pretty (pid x) +:+ " pooling with state " +:+ state_name (state x))) d
    | BeingSlept => println fuel (bytes (pretty i +:+ " being slept")) d
    | _ => Ok d
    end) d.
End debug.

(** ** [intr.rs] *)
Inductive Intr := IntrTimer | IntrDevice.
#[global] Instance Intr_eq_dec : EqDecision Intr.
Proof. solve_decision. Defined.

(** [scause]: the top bit marks an interrupt. *)
Definition is_interrupt (cause : Z) : bool := Z.testbit cause 63.
Definition cause_code (cause : Z) : Z := Z.land cause (Z.ones 63).

(** What interrupt handling reaches: the devices, the data of the disk driver, [sip] *)
Record devs (D : Type) := mkDevs { mmio : D; vio : VirtIOData; d_sip : Z }.
Arguments mkDevs {D} mmio vio d_sip.
Arguments mmio {D} d.
Arguments vio {D} d.
Arguments d_sip {D} d.

(** [arch::r_sip] and [arch::w_sip] *)
Definition r_sip {D} (s : devs D) : Z := d_sip s.
Definition w_sip {D} (x : Z) (s : devs D) : devs D := mkDevs (mmio s) (vio s) x.

Section devintr.
Context {D : Type} `{Mmio D}.

(** [h] is [hart_id()], [cause] is [scause]; [fuel] bounds the polls of the UART. *)
Definition devintr (fuel : nat) (h cause : Z) (procs : list (option Process)) (pool : list ProcInPool)
    (s : devs D) : result (option Intr * devs D) :=
  if is_interrupt cause && (cause_code cause =? 9) then
    '(o, d) ← Plic.next h (mmio s);
    match o with
    | Some interrupt =>
        '(d, v) ←
          (if interrupt =? UART0_IRQ then
             d ← uartintr fuel (process_debug fuel procs pool) d; Ok (d, vio s)
           else if interrupt =? VIRTIO0_IRQ then
             v ← virtiointr (Z.to_nat DESC_NUM - 1) (vio s); Ok (d, v)
           else
             d ← println fuel (bytes ("Unrecognized external interrupt: " +:+ pretty interrupt)) d;
             Ok (d, vio s));
        d ← Plic.complete h interrupt d;
        Ok (Some IntrDevice, mkDevs d v (r_sip s))
    | None => Ok (Some IntrDevice, mkDevs d (vio s) (r_sip s))
    end
  else if is_interrupt cause && (cause_code cause =? 1) then
    Ok (Some IntrTimer, w_sip (Z.land (r_sip s) (unot 64 2)) s)
  else Ok (None, s).
End devintr.

(** ** What the controller promises *)
Class PlicLaws (D : Type) `{Mmio D} := {
  in_service : D → Z → gset Z;
  plic_claim : ∀ d h x d', 0 ≤ h < NCPUS → mmio_read (sclaim h) d = (x, d') →
    in_service d' h = if x =? 0 then in_service d h else {[x]} ∪ in_service d h;
  plic_claim_new : ∀ d h, 0 ≤ h < NCPUS → (mmio_read (sclaim h) d).1 ∉ in_service d h;
  plic_complete : ∀ d h id, 0 ≤ h < NCPUS →
    in_service (mmio_write (sclaim h) id d) h = in_service d h ∖ {[id]};
}.

(** Controller and UART have registers of their own. *)
Class Board (D : Type) `{Mmio D} `{!PlicLaws D} `{!Ns16550 D UART_BASE_ADDR} := {
  plic_uart_read : ∀ d h i, 0 ≤ i < 8 → in_service (mmio_read (UART_BASE_ADDR + i) d).2 h = in_service d h;
  plic_uart_write : ∀ d h i x, 0 ≤ i < 8 → in_service (mmio_write (UART_BASE_ADDR + i) x d) h = in_service d h;
  claim_dlab : ∀ d h, 0 ≤ h < NCPUS →
    dlab (base := UART_BASE_ADDR) (mmio_read (sclaim h) d).2 = dlab (base := UART_BASE_ADDR) d;
}.

Section specs.
Context {D : Type} `{Mmio D} `{!PlicLaws D} `{!Ns16550 D UART_BASE_ADDR} {Hb : Board D}.
Implicit Types (d : D) (s : devs D).
Local Notation tx := (tx (base := UART_BASE_ADDR)).
Local Notation dlab := (dlab (base := UART_BASE_ADDR)).
Local Notation thr_bound := (thr_bound (D := D) (base := UART_BASE_ADDR)).

(** The UART driver does not touch the controller. *)
Definition same_service d d' : Prop := ∀ h, in_service d' h = in_service d h.

Lemma put_service fuel c d d' : put fuel UART c d = Ok d' → same_service d d'.
Proof.
  unfold put. intros Hrun h. apply bind_Ok in Hrun as (d1 & Hw & [= <-]). rewrite plic_uart_write by lia.
  revert d Hw. induction fuel as [|fuel IH]; intros d Hw; [done|]. cbn [put_wait] in Hw.
  change (base_address UART) with UART_BASE_ADDR in Hw.
  pose proof (plic_uart_read d h 5 ltac:(lia)) as Hr.
  destruct (mmio_read (UART_BASE_ADDR + 5) d) as [x d2]. cbn in Hr.
  destruct (negb _); [injection Hw as <-; done|]. rewrite <- Hr. by apply IH.
Qed.

Lemma write_str_service fuel out : ∀ d d', write_str fuel UART out d = Ok d' → same_service d d'.
Proof.
  induction out as [|c out IH]; intros d d' Hrun h; cbn [write_str] in Hrun; [by injection Hrun as <-|].
  apply bind_Ok in Hrun as (d1 & Hp & Hrun). rewrite (IH d1 d' Hrun). by eapply put_service.
Qed.

Lemma get_service d o d' : get UART d = (o, d') → same_service d d'.
Proof.
  unfold get. change (base_address UART) with UART_BASE_ADDR. intros Hg h.
  pose proof (plic_uart_read d h 5 ltac:(lia)) as Hr.
  destruct (mmio_read (UART_BASE_ADDR + 5) d) as [x d1]. cbn in Hr.
  destruct (Z.land x 1 =? 0); [by injection Hg as <- <-|].
  pose proof (plic_uart_read d1 h 0 ltac:(lia)) as Hr0.
  destruct (mmio_read (UART_BASE_ADDR + 0) d1) as [c d2]. injection Hg as <- <-. cbn in Hr0. congruence.
Qed.

(** A handler that ran: the UART stays usable, output was only added, and the
    interrupts in service are the same. *)
Record handled d d' : Prop := {
  hd_dlab : dlab d' = false;
  hd_tx : tx d `prefix_of` tx d';
  hd_service : same_service d d';
}.

Lemma handled_refl d : dlab d = false → handled d d.
Proof. by split. Qed.

Lemma handled_trans d d1 d2 : handled d d1 → handled d1 d2 → handled d d2.
Proof.
  intros [_ T1 S1] [D2 T2 S2]. split; [done|by transitivity (tx d1)|]. intros h. by rewrite S2.
Qed.

Context (fuel : nat) (Hfuel : (thr_bound < fuel)%nat).

Lemma println_handled out d : dlab d = false → ∃ d', println fuel out d = Ok d' ∧ handled d d'.
Proof using Hb Hfuel.
  intros Hd. destruct (write_str_sends fuel (out ++ [10]) Hfuel d Hd) as (d' & Hrun & Htx & _ & Hdl).
  exists d'. split; [exact Hrun|]. split; [done|rewrite Htx; by eexists|by eapply write_str_service].
Qed.

(** A loop that prints at most a line per iteration *)
Lemma print_loop (lo hi : Z) body d :
  lo ≤ hi → dlab d = false →
  (∀ i t, lo ≤ i < hi → dlab t = false → ∃ t', body i t = Ok t' ∧ handled t t') →
  ∃ d', for_range lo hi body d = Ok d' ∧ handled d d'.
Proof using Hb.
  intros Hle Hd Hbody. apply (for_range_total (λ _ t, handled d t)); [done|by apply handled_refl|].
  intros i t Hi Ht. destruct (Hbody i t Hi (hd_dlab _ _ Ht)) as (t' & Hr & Hh).
  exists t'. split; [done|]. by eapply handled_trans.
Qed.

Context (procs : list (option Process)) (pool : list ProcInPool).
Context (Hprocs : length procs = Z.to_nat NCPUS) (Hpool : length pool = Z.to_nat NMAXPROCS).

Lemma process_debug_handled d : dlab d = false → ∃ d', process_debug fuel procs pool d = Ok d' ∧ handled d d'.
Proof using Hb Hfuel Hprocs Hpool.
  intros Hd. unfold process_debug. destruct (print_loop 0 NCPUS (λ i d,
    o ← aget procs i;
    match o with
    | Some x => println fuel (bytes (pretty (pid x) +:+ " running on hart " +:+ pretty i)) d
    | None => Ok d
    end) d) as (d1 & -> & H1); [done|done| |].
  - intros i t Hi Ht. destruct (aget_range procs i) as (o & -> & _); [rewrite Hprocs; unfold NCPUS in *; lia|].
    rewrite bind_Ok_l. destruct o; [by apply println_handled|]. exists t. split; [done|by apply handled_refl].
  - rewrite bind_Ok_l. match goal with |- context [for_range 0 NMAXPROCS ?b _] =>
      destruct (print_loop 0 NMAXPROCS b d1) as (d2 & Hrun & H2); [done|by apply H1| |] end.
    + intros i t Hi Ht. destruct (aget_range pool i) as (o & -> & _); [rewrite Hpool; unfold NMAXPROCS in *; lia|].
      rewrite bind_Ok_l.
      destruct o; try (by apply println_handled); exists t; (split; [done|by apply handled_refl]).
    + exists d2. split; [exact Hrun|by eapply handled_trans].
Qed.

Lemma uartintr_handled d : dlab d = false →
  ∃ d', uartintr fuel (process_debug fuel procs pool) d = Ok d' ∧ handled d d'.
Proof using Hb Hfuel Hprocs Hpool.
  intros Hd. unfold uartintr. destruct (get UART d) as [o d1] eqn:Eg.
  assert (handled d d1) as Hg.
  { destruct (get_byte d Hd) as [(d2 & E & _ & Ht & Hd2)|(c & d2 & r & E & Ht & Hd2 & _)];
      rewrite E in Eg; injection Eg as <- <-; (split; [done|by rewrite Ht|by eapply get_service]). }
  assert (Hout : ∀ out, ∃ d', print fuel out d1 = Ok d' ∧ handled d d').
  { intros out. destruct (write_str_sends fuel out Hfuel d1 (hd_dlab _ _ Hg)) as (d' & Hrun & Htx & _ & Hdl).
    exists d'. split; [exact Hrun|]. eapply handled_trans; [exact Hg|].
    split; [done|rewrite Htx; by eexists|by eapply write_str_service]. }
  destruct o as [c|]; [|by exists d1]. destruct (c =? 8); [apply Hout|].
  destruct (_ || _); [apply Hout|]. destruct (Hout (encode_utf8 c)) as (d2 & -> & H2). rewrite bind_Ok_l.
  destruct (c =? 97); [|by exists d2].
  destruct (process_debug_handled d2 (hd_dlab _ _ H2)) as (d3 & Hrun & H3). exists d3. split; [done|].
  by eapply handled_trans.
Qed.

(** C29: devintr classifies external, timer and other causes, completes every interrupt it
    claims on the hart that claimed it, runs the disk handler exactly when the disk
    was claimed, and clears the software interrupt bit only for the timer. *)
Theorem devintr_services h cause s v' :
  0 ≤ h < NCPUS → dlab (mmio s) = false → is_usize (r_sip s) →
  virtiointr (Z.to_nat DESC_NUM - 1) (vio s) = Ok v' →
  let claimed := (mmio_read (sclaim h) (mmio s)).1 in
  let external := is_interrupt cause && (cause_code cause =? 9) in
  let timer := is_interrupt cause && (cause_code cause =? 1) in
  ∃ s', devintr fuel h cause procs pool s =
      Ok (if external then Some IntrDevice else if timer then Some IntrTimer else None, s') ∧
    in_service (mmio s') h = in_service (mmio s) h ∧
    vio s' = (if external && (claimed =? VIRTIO0_IRQ) then v' else vio s) ∧
    r_sip s' = (if external then r_sip s else if timer then Z.ldiff (r_sip s) 2 else r_sip s).
Proof using Hb Hfuel Hprocs Hpool.
  intros Hh Hd Hsip Hv claimed external timer. unfold devintr. fold external timer.
  destruct external; cbn [andb].
  - destruct (plic_regs h Hh) as (_ & _ & Hreg). unfold Plic.next, Plic.complete. rewrite Hreg, !bind_Ok_l.
    pose proof (plic_claim_new (mmio s) h Hh) as Hnew. fold claimed in Hnew. subst claimed.
    pose proof (claim_dlab (mmio s) h Hh) as Hd1. rewrite Hd in Hd1.
    destruct (mmio_read (sclaim h) (mmio s)) as [x d1] eqn:E. cbn [fst snd] in *.
    pose proof (plic_claim (mmio s) h x d1 Hh E) as Hserv.
    destruct (Z.eqb_spec x 0) as [->|Hx].
    { rewrite bind_Ok_l. cbn. by eexists. }
    rewrite bind_Ok_l. cbn beta iota.
    assert (Hdone : ∀ d2, handled d1 d2 → in_service (mmio_write (sclaim h) x d2) h = in_service (mmio s) h).
    { intros d2 [_ _ Hs]. rewrite plic_complete, Hs, Hserv by done. set_solver. }
    destruct (Z.eqb_spec x UART0_IRQ) as [->|].
    { destruct (uartintr_handled d1 Hd1) as (d2 & -> & H2). rewrite !bind_Ok_l. cbn beta iota.
      eexists. split; [reflexivity|]. split_and!; [by apply Hdone|done|done]. }
    destruct (Z.eqb_spec x VIRTIO0_IRQ) as [->|].
    { rewrite Hv, !bind_Ok_l. cbn beta iota. eexists. split; [reflexivity|].
      split_and!; [by apply Hdone, handled_refl|done|done]. }
    destruct (println_handled (bytes ("Unrecognized external interrupt: " +:+ pretty x)) d1 Hd1) as (d2 & -> & H2).
    rewrite !bind_Ok_l. cbn beta iota. eexists. split; [reflexivity|]. split_and!; [by apply Hdone|done|done].
  - destruct timer; (eexists; split; [reflexivity|]); [|done].
    split_and!; [done|done|]. cbn. by apply land_unot.
Qed.
End specs.

(** ** A board with one UART *)
Record QBoard := mkQ { chip : Chip; pend : list Z; serv : gmap Z (gset Z) }.
Definition served (q : QBoard) (h : Z) : gset Z := default ∅ (serv q !! h).
Definition uart_reg (a : Z) : bool := (UART_BASE_ADDR <=? a) && (a <? UART_BASE_ADDR + 8).
Definition claim_hart (a : Z) : Z := (a - PLIC_SCLAIM_BASE) / 0x2000.
Definition is_claim (a : Z) : bool := ((a - PLIC_SCLAIM_BASE) mod 0x2000 =? 0) && (0 <=? claim_hart a) && (claim_hart a <? NCPUS).

#[global] Instance QBoard_mmio : Mmio QBoard := {
  mmio_read a q :=
    if uart_reg a then let '(x, c) := mmio_read a (chip q) in (x, mkQ c (pend q) (serv q))
    else if is_claim a then
      match pend q with
      | x :: r =>
          if decide (x = 0 ∨ x ∈ served q (claim_hart a)) then (0, q)
          else (x, mkQ (chip q) r (<[claim_hart a := {[x]} ∪ served q (claim_hart a)]> (serv q)))
      | [] => (0, q)
      end
    else (0, q);
  mmio_write a x q :=
    if uart_reg a then mkQ (mmio_write a x (chip q)) (pend q) (serv q)
    else if is_claim a then mkQ (chip q) (pend q) (<[claim_hart a := served q (claim_hart a) ∖ {[x]}]> (serv q))
    else q;
}.

Lemma sclaim_is_claim h : 0 ≤ h < NCPUS →
  uart_reg (sclaim h) = false ∧ is_claim (sclaim h) = true ∧ claim_hart (sclaim h) = h.
Proof.
  intros Hh. unfold uart_reg, is_claim, claim_hart, sclaim.
  replace (PLIC_SCLAIM_BASE + h * 0x2000 - PLIC_SCLAIM_BASE) with (h * 0x2000) by lia.
  rewrite Z.mod_mul, Z.div_mul by done.
  unfold UART_BASE_ADDR, PLIC_SCLAIM_BASE, PLIC_BASE, NCPUS in *. split_and!; lia.
Qed.

Lemma uart_is_reg i : 0 ≤ i < 8 → uart_reg (UART_BASE_ADDR + i) = true.
Proof. intros Hi. unfold uart_reg. lia. Qed.

Lemma served_insert c p (m : gmap Z (gset Z)) h S : served (mkQ c p (<[h := S]> m)) h = S.
Proof. unfold served. cbn. by rewrite lookup_insert_eq. Qed.

#[global] Program Instance QBoard_plic : PlicLaws QBoard := {
  in_service q h := served q h ∖ {[0]};
}.
Next Obligation.
  intros q h x q' Hh. destruct (sclaim_is_claim h Hh) as (Hu & Hc & Hi).
  cbn [mmio_read QBoard_mmio]. rewrite Hu, Hc, Hi. destruct (pend q) as [|y r]; [by intros [= <- <-]|].
  destruct (decide _) as [Hd|Hd]; intros [= <- <-]; [done|].
  rewrite (proj2 (Z.eqb_neq y 0)), served_insert by tauto. set_solver.
Qed.
Next Obligation.
  intros q h Hh. destruct (sclaim_is_claim h Hh) as (Hu & Hc & Hi).
  cbn [mmio_read QBoard_mmio]. rewrite Hu, Hc, Hi. destruct (pend q) as [|y r]; [set_solver|].
  destruct (decide _); cbn; set_solver.
Qed.
Next Obligation.
  intros q h x Hh. destruct (sclaim_is_claim h Hh) as (Hu & Hc & Hi).
  cbn [mmio_write QBoard_mmio]. rewrite Hu, Hc, Hi, served_insert. set_solver.
Qed.

#[global] Program Instance QBoard_uart : Ns16550 QBoard UART_BASE_ADDR := {
  rx q := rx (chip q); tx q := tx (chip q); dlab q := dlab (chip q); thr_wait q := thr_wait (chip q);
  thr_bound := thr_bound (D := Chip);
}.
Next Obligation. intros q. apply thr_wait_le. Qed.
Next Obligation.
  intros q x q'. cbn [mmio_read QBoard_mmio]. rewrite uart_is_reg by lia.
  destruct (mmio_read (UART_BASE_ADDR + 5) (chip q)) as [y c] eqn:E. intros [= <- <-]. by apply lsr_read.
Qed.
Next Obligation.
  intros q c r x q' Hd Hr. cbn [mmio_read QBoard_mmio]. rewrite uart_is_reg by lia.
  destruct (mmio_read (UART_BASE_ADDR + 0) (chip q)) as [y k] eqn:E. intros [= <- <-]. by eapply rbr_read.
Qed.
Next Obligation.
  intros q c Hd Hw. cbn [mmio_write QBoard_mmio]. rewrite uart_is_reg by lia. by apply thr_write.
Qed.

#[global] Instance QBoard_board : Board QBoard.
Proof.
  split.
  - intros q h i Hi. cbn [mmio_read QBoard_mmio]. rewrite uart_is_reg by done.
    by destruct (mmio_read (UART_BASE_ADDR + i) (chip q)).
  - intros q h i x Hi. cbn [mmio_write QBoard_mmio]. by rewrite uart_is_reg by done.
  - intros q h Hh. destruct (sclaim_is_claim h Hh) as (Hu & Hc & Hi).
    cbn [mmio_read QBoard_mmio]. rewrite Hu, Hc. destruct (pend q); [done|]. by destruct (decide _).
Qed.

(** A key is typed while nothing waits for the disk. *)
Definition board0 : devs QBoard := mkDevs (mkQ chip1 [UART0_IRQ] ∅) (VirtIO_new 0x80009000) 2.

Lemma devintr_services_witness :
  ∃ s', devintr 3 1 (2 ^ 63 + 9) (replicate 8 None) PROCS_POOL_new board0 = Ok (Some IntrDevice, s') ∧
    in_service (mmio s') 1 = in_service (mmio board0) 1 ∧ vio s' = VirtIO_new 0x80009000.
Proof.
  destruct (devintr_services (Hb := QBoard_board) 3 (le_n 3) (replicate 8 None) PROCS_POOL_new eq_refl eq_refl
    1 (2 ^ 63 + 9) board0 (VirtIO_new 0x80009000)) as (s' & H1 & H2 & H3 & _);
    [split; done|reflexivity|split; done|reflexivity|].
  exists s'. split_and!; [exact H1|exact H2|exact H3].
Defined.
