(* ===== verification/FsFile.v ===== *)
(** * Files on the disk

    [file/fsfile.rs]: a read-only flat file system of header blocks (size, offset,
    name) followed by contents; and the loop of [exec] that reads a program.  The
    block device is an interface: [bread] is [VirtIO::read]; its laws say that a read
    returns the block and changes no block, as long as the device is ready for it. *)

From S2P Require Import Prelude Symbols Virtio.

(** ** The block device *)
Class BlockDevice (D : Type) := bread : D → Z → Z → result (list Z * D).
(** [ready k d]: the device can serve [k] more reads. *)
Class BlockDeviceLaws (D : Type) `{BlockDevice D} := {
  ready : nat → D → Prop;
  ready_S : ∀ k d, ready (S k) d → ready k d;
  disk_block : D → Z → list Z;
  disk_block_len : ∀ k d n, ready k d → length (disk_block d n) = Z.to_nat BSIZE;
  bread_ok : ∀ k d n, ready (S k) d → is_u 32 n →
    ∃ d', bread d 1 n = Ok (disk_block d n, d') ∧ ready k d' ∧ ∀ j, disk_block d' j = disk_block d j;
}.

(** ** Standard library: [from_utf8] and reading a [usize] *)
Definition between (lo hi x : Z) : bool := (lo <=? x) && (x <=? hi).
Fixpoint from_utf8 (l : list Z) : bool :=
  match l with
  | [] => true
  | b0 :: l1 =>
      if between 0 0x7f b0 then from_utf8 l1
      else if between 0xc2 0xdf b0 then
        match l1 with b1 :: l2 => between 0x80 0xbf b1 && from_utf8 l2 | _ => false end
      else if between 0xe0 0xef b0 then
        match l1 with
        | b1 :: b2 :: l3 =>
            between (if b0 =? 0xe0 then 0xa0 else 0x80) (if b0 =? 0xed then 0x9f else 0xbf) b1 &&
            between 0x80 0xbf b2 && from_utf8 l3
        | _ => false
        end
      else if between 0xf0 0xf4 b0 then
        match l1 with
        | b1 :: b2 :: b3 :: l4 =>
            between (if b0 =? 0xf0 then 0x90 else 0x80) (if b0 =? 0xf4 then 0x8f else 0xbf) b1 &&
            between 0x80 0xbf b2 && between 0x80 0xbf b3 && from_utf8 l4
        | _ => false
        end
      else false
  end.
Definition utf8_error : fault := Panic "called `Result::unwrap()` on an `Err` value: Utf8Error".

Fixpoint le_bytes (l : list Z) : Z := match l with [] => 0 | b :: l => b + 256 * le_bytes l end.
Definition read_usize (b : list Z) (i : nat) : Z := le_bytes (take 8 (drop (8 * i) b)).

(** ** [FsFile] *)
Record FsFile := mkFsFile {
  offset : Z;
  sz : Z;
  rw_offset : Z * Z;
  readable : bool;
  writable : bool;
}.
Definition FILE_MAX : Z := 1024.

(** The loop that finds the end of the name; it visits an index at most once. *)
Fixpoint name_end (fuel : nat) (b : list Z) (i : Z) : result Z :=
  match fuel with
  | O => Err NoFuel
  | S fuel =>
      d ← aget b i;
      if d =? 0 then Ok i
      else
        i ← uadd 64 i 1;
        if i =? Z.of_nat (length b) then Ok i else name_end fuel b i
  end.

Section fs.
Context {D : Type} `{BlockDevice D}.

(** One iteration of the loop of [get_file_info] *)
Definition file_info_body (path : list Z) (id : Z) (d : D) : result (ctl D (option (Z * Z) * D)) :=
  '(b, d) ← bread d 1 (as_u 32 id);
  let sz := read_usize b 0 in
  let offset := read_usize b 1 in
  if sz =? 0 then Ok (Stop (None, d))
  else
    e ← name_end (length b) b 16;
    name_sz ← usub e 16;
    let name := take (Z.to_nat name_sz) (drop 16 b) in
    if negb (from_utf8 name) then Err utf8_error
    else if bool_decide (name = path) then Ok (Stop (Some (offset, sz), d))
    else Ok (Next d).
Definition get_file_info (path : list Z) (d : D) : result (option (Z * Z) * D) :=
  c ← ctl_range 0 FILE_MAX (file_info_body path) d;
  Ok (match c with Stop r => r | Next d => (None, d) end).

Definition FsFile_open (path : list Z) (mode : Z) (d : D) : result (FsFile * D) :=
  '(o, d) ← get_file_info path d;
  match o with
  | Some (offset, sz) => Ok (mkFsFile offset sz (0, 0) true true, d)
  | None => Err (Panic "{} not found")
  end.

(** [read]: the returned count, the buffer after the call, the file and the disk *)
Definition FsFile_read (f : FsFile) (content : list Z) (d : D) : result (Z * list Z * FsFile * D) :=
  if negb (readable f) then Ok (-1, content, f, d)
  else
    let read_offset := (rw_offset f).1 in
    rest ← usub (sz f) read_offset;
    let read_sz := Z.min rest (Z.of_nat (length content)) in
    a ← uadd 64 (offset f) read_offset;
    '(result, d) ← bread d 1 (as_u 32 (a / BSIZE));
    content ← for_range 0 read_sz (λ i content, x ← aget result i; aset content i x) content;
    o ← uadd 64 read_offset read_sz;
    Ok (as_i 32 read_sz, content,
        mkFsFile (offset f) (sz f) (o, (rw_offset f).2) (readable f) (writable f), d).

Definition FsFile_write (f : FsFile) (content : list Z) : result Z :=
  if negb (writable f) then Ok (-1) else Err Unimplemented.

(** [exec]: the loop that reads the file into [content]; [blk] is reused. *)
Fixpoint exec_load (fuel : nat) (f : FsFile) (blk content : list Z) (i : Z) (d : D) : result (list Z * D) :=
  match fuel with
  | O => Err NoFuel
  | S fuel =>
      '(n, blk, f, d) ← FsFile_read f blk d;
      if n =? 1024 then
        content ← for_range 0 1024 (λ j content,
          x ← aget blk j; k ← uadd 64 i j; aset content k x) content;
        i ← uadd 64 i 1024;
        e ← uadd 64 i 1024;
        _ ← panic_if (Z.of_nat (length content) <=? e) (Panic "elf file too large!");
        exec_load fuel f blk content i d
      else Ok (content, d)
  end.
Definition exec_read (path : list Z) (d : D) : result (list Z * D) :=
  '(f, d) ← FsFile_open path 0 d;
  exec_load 128 f (replicate 1024 0) (replicate (Z.to_nat 131072) 0) 0 d.
End fs.

(** ** Names and header blocks *)
Fixpoint cstr (l : list Z) : list Z :=
  match l with [] => [] | x :: l => if x =? 0 then [] else x :: cstr l end.
Definition hdr_name (b : list Z) : list Z := cstr (drop 16 b).
Definition hdr_size (b : list Z) : Z := read_usize b 0.
Definition hdr_offset (b : list Z) : Z := read_usize b 1.

Lemma cstr_take l : take (length (cstr l)) l = cstr l.
Proof. induction l as [|x l IH]; [done|]. simpl. destruct (x =? 0); [done|]. simpl. by rewrite IH. Qed.

Lemma cstr_length l : (length (cstr l) ≤ length l)%nat.
Proof. induction l as [|x l IH]; [done|]. simpl. destruct (x =? 0); simpl; lia. Qed.

Lemma name_end_spec b : ∀ fuel i,
  0 ≤ i < Z.of_nat (length b) → Z.of_nat (length b) < 2 ^ 64 → (length b ≤ fuel + Z.to_nat i)%nat →
  name_end fuel b i = Ok (i + Z.of_nat (length (cstr (drop (Z.to_nat i) b)))).
Proof.
  induction fuel as [|fuel IH]; intros i Hi Hb Hf; [lia|].
  destruct (lookup_lt_is_Some_2 b (Z.to_nat i)) as [x Hx]; [lia|].
  cbn [name_end]. rewrite (proj2 (aget_Ok b i x)) by (split; [lia|done]). rewrite bind_Ok_l.
  rewrite (drop_S b x (Z.to_nat i) Hx). cbn [cstr]. destruct (Z.eqb_spec x 0).
  { cbn [length]. f_equal. lia. }
  rewrite uadd_eq, bind_Ok_l by lia.
  replace (S (Z.to_nat i)) with (Z.to_nat (i + 1)) by lia. cbn [length].
  destruct (Z.eqb_spec (i + 1) (Z.of_nat (length b))).
  - rewrite (drop_ge b (Z.to_nat (i + 1))) by lia. f_equal.
  - rewrite IH by lia. f_equal. lia.
Qed.

Section specs.
Context {D : Type} `{BlockDeviceLaws D}.
Implicit Types (d : D) (f : FsFile).

Definition same_disk d d' : Prop := ∀ k, disk_block d' k = disk_block d k.

(** What one header block makes of the search *)
Lemma header_step path id k d :
  0 ≤ id < FILE_MAX → ready (S k) d →
  ∃ d', same_disk d d' ∧ ready k d' ∧
    file_info_body path id d =
    let b := disk_block d id in
    if hdr_size b =? 0 then Ok (Stop (None, d'))
    else if negb (from_utf8 (hdr_name b)) then Err utf8_error
    else if bool_decide (hdr_name b = path) then Ok (Stop (Some (hdr_offset b, hdr_size b), d'))
    else Ok (Next d').
Proof.
  intros Hid Hk. assert (is_u 32 id) as Hu by (unfold is_u, FILE_MAX in *; lia).
  pose proof (as_u_id 32 id Hu ltac:(lia)) as Hid'.
  unfold file_info_body. rewrite Hid'. destruct (bread_ok k d id Hk Hu) as (d' & -> & Hk' & Hd').
  exists d'. split; [done|]. split; [done|]. rewrite bind_Ok_l.
  cbn zeta. fold (hdr_size (disk_block d id)) (hdr_offset (disk_block d id)).
  destruct (hdr_size (disk_block d id) =? 0); [done|].
  pose proof (disk_block_len _ d id Hk) as Hlen. unfold BSIZE in Hlen.
  rewrite name_end_spec by (rewrite Hlen; lia). rewrite bind_Ok_l.
  rewrite usub_eq, bind_Ok_l by lia.
  replace (Z.to_nat (16 + _ - 16)) with (length (cstr (drop 16 (disk_block d id))))
    by (change (Z.to_nat 16) with 16%nat; lia).
  by rewrite cstr_take.
Qed.

(** ** Looking a file up *)
(** The headers before [n] are entries of other names. *)
Definition others (d : D) (path : list Z) (n : Z) : Prop :=
  ∀ j, 0 ≤ j < n → hdr_size (disk_block d j) ≠ 0 ∧ from_utf8 (hdr_name (disk_block d j)) = true ∧
    hdr_name (disk_block d j) ≠ path.

Lemma others_same d d' path n : same_disk d d' → others d path n → others d' path n.
Proof. intros Hs Ho j Hj. rewrite Hs. by apply Ho. Qed.

Lemma search_to path n k d :
  0 ≤ n ≤ FILE_MAX → others d path n → ready (Z.to_nat n + k) d →
  ∃ d', same_disk d d' ∧ ready k d' ∧
    ctl_range 0 FILE_MAX (file_info_body path) d =
    ctl_loop (Z.to_nat (FILE_MAX - n)) n (file_info_body path) d'.
Proof.
  intros Hn Ho Hk. unfold ctl_range.
  replace (Z.to_nat (FILE_MAX - 0)) with (Z.to_nat n + Z.to_nat (FILE_MAX - n))%nat by lia.
  destruct (ctl_loop_skip (λ j t, same_disk d t ∧ ready (Z.to_nat (n - j) + k) t) (file_info_body path) (Z.to_nat n)
    (Z.to_nat (FILE_MAX - n)) 0 d) as (d' & [Hd' Hk'] & ->).
  - split; [done|]. by rewrite Z.sub_0_r.
  - intros j t Hj [Ht Htk]. replace (Z.to_nat (n - j) + k)%nat with (S (Z.to_nat (n - (j + 1)) + k)) in Htk by lia.
    destruct (header_step path j _ t ltac:(lia) Htk) as (t' & Ht' & Htk' & ->).
    destruct (Ho j) as (H1 & H2 & H3); [lia|]. cbn zeta. rewrite Ht, H2.
    rewrite (proj2 (Z.eqb_neq _ _) H1), bool_decide_eq_false_2 by done. exists t'. split; [done|].
    split; [|done]. intros i. rewrite Ht'. apply Ht.
  - exists d'. rewrite Z.add_0_l, Z2Nat.id by lia. split; [done|]. split; [|done].
    by replace (Z.to_nat (n - (0 + Z.of_nat (Z.to_nat n))) + k)%nat with k in Hk' by lia.
Qed.

(** Get_file_info returns offset and size of the first header block whose name is the
    path, or nothing when an empty header or the end of the table comes first; the
    disk is unchanged. *)
Theorem get_file_info_first_match path n k d :
  0 ≤ n ≤ FILE_MAX → others d path n → ready (Z.to_nat n + S k) d →
  (n = FILE_MAX ∨ hdr_size (disk_block d n) = 0 →
     ∃ d', get_file_info path d = Ok (None, d') ∧ same_disk d d' ∧ ready k d') ∧
  (n < FILE_MAX → hdr_size (disk_block d n) ≠ 0 → from_utf8 (hdr_name (disk_block d n)) = true →
     hdr_name (disk_block d n) = path →
     ∃ d', get_file_info path d =
       Ok (Some (hdr_offset (disk_block d n), hdr_size (disk_block d n)), d') ∧ same_disk d d' ∧ ready k d').
Proof.
  intros Hn Ho Hk. destruct (search_to path n (S k) d Hn Ho Hk) as (d1 & Hd1 & Hk1 & Hrun).
  unfold get_file_info. rewrite Hrun.
  assert (Hstep : n < FILE_MAX → ∃ d2, same_disk d d2 ∧ ready k d2 ∧
    ctl_loop (Z.to_nat (FILE_MAX - n)) n (file_info_body path) d1 =
    (c ← (let b := disk_block d n in
          if hdr_size b =? 0 then Ok (Stop (None, d2))
          else if negb (from_utf8 (hdr_name b)) then Err utf8_error
          else if bool_decide (hdr_name b = path) then Ok (Stop (Some (hdr_offset b, hdr_size b), d2))
          else Ok (Next d2));
     match c with
     | Next t => ctl_loop (Z.to_nat (FILE_MAX - n) - 1) (n + 1) (file_info_body path) t
     | Stop r => Ok (Stop r) end)).
  { intros Hlt. destruct (header_step path n k d1 ltac:(lia) Hk1) as (d2 & Hd2 & Hk2 & Hb). exists d2.
    split; [intros j; by rewrite Hd2|]. split; [done|]. destruct (Z.to_nat (FILE_MAX - n)) as [|i] eqn:E; [lia|].
    cbn [ctl_loop]. rewrite Hb, Hd1. by replace (S i - 1)%nat with i by lia. }
  split.
  - intros Hend. destruct (decide (n = FILE_MAX)) as [->|Hne].
    + rewrite Z.sub_diag. exists d1. split; [done|]. split; [done|by apply ready_S].
    + destruct Hend as [?|Hz]; [done|]. destruct Hstep as (d2 & Hd2 & Hk2 & ->); [lia|]. cbn zeta. rewrite Hz.
      by exists d2.
  - intros Hlt Hz Hu Hp. destruct (Hstep Hlt) as (d2 & Hd2 & Hk2 & ->). cbn zeta. rewrite Hu.
    rewrite (proj2 (Z.eqb_neq _ _) Hz), bool_decide_eq_true_2 by done. by exists d2.
Qed.

(** ** Reading *)
(** Byte [k] of a file *)
Definition fbyte (d : D) (f : FsFile) (k : Z) : option Z :=
  disk_block d ((offset f + k) / BSIZE) !! Z.to_nat ((offset f + k) mod BSIZE).

Lemma copy_loop (src content : list Z) n :
  0 ≤ n ≤ Z.of_nat (length src) → n ≤ Z.of_nat (length content) →
  ∃ content', for_range 0 n (λ i content, x ← aget src i; aset content i x) content = Ok content' ∧
    length content' = length content ∧
    ∀ i : nat, content' !! i = if decide (Z.of_nat i < n) then src !! i else content !! i.
Proof.
  intros Hn Hc.
  pose (I := λ (j : Z) (t : list Z), length t = length content ∧
    ∀ i : nat, t !! i = if decide (Z.of_nat i < j) then src !! i else content !! i).
  apply (for_range_total I); [lia|..].
  - split; [done|]. intros i. by rewrite decide_False by lia.
  - intros j t Hj [Hlen Ht]. destruct (aget_range src j) as (x & -> & Hx); [lia|]. rewrite bind_Ok_l.
    eexists. split; [apply aset_Ok; split; [lia|done]|]. split; [by rewrite length_insert|].
    intros i. destruct (decide (i = Z.to_nat j)) as [->|Hne].
    + rewrite list_lookup_insert_eq by lia. by rewrite decide_True by lia.
    + rewrite list_lookup_insert_ne by done. rewrite Ht.
      destruct (decide (Z.of_nat i < j)), (decide (Z.of_nat i < j + 1)); done || lia.
Qed.

Definition advanced f (n : Z) : FsFile :=
  mkFsFile (offset f) (sz f) ((rw_offset f).1 + n, (rw_offset f).2) (readable f) (writable f).

(** One read copies the start of the block the position lies in. *)
Lemma read_spec f content k d :
  ready (S k) d → readable f = true → 0 ≤ (rw_offset f).1 ≤ sz f → 0 ≤ offset f → offset f + sz f < 2 ^ 42 →
  (length content ≤ 1024)%nat →
  let n := Z.min (sz f - (rw_offset f).1) (Z.of_nat (length content)) in
  ∃ content' d', FsFile_read f content d = Ok (n, content', advanced f n, d') ∧ same_disk d d' ∧ ready k d' ∧
    length content' = length content ∧
    ∀ i : nat, content' !! i =
      if decide (Z.of_nat i < n) then disk_block d ((offset f + (rw_offset f).1) / BSIZE) !! i
      else content !! i.
Proof.
  intros Hk Hr Hoff Ho Hsz Hlen n. unfold FsFile_read. rewrite Hr. cbn [negb]. cbn zeta.
  rewrite usub_eq, bind_Ok_l, (uadd_eq 64 (offset f)), bind_Ok_l by lia.
  set (blk := (offset f + (rw_offset f).1) / BSIZE).
  assert (is_u 32 blk) as Hblk.
  { unfold is_u, blk, BSIZE. split; [apply Z.div_pos; lia|]. apply Z.div_lt_upper_bound; lia. }
  rewrite (as_u_id 32 blk) by done. destruct (bread_ok k d blk Hk Hblk) as (d' & -> & Hk' & Hd').
  rewrite bind_Ok_l. cbn beta iota. fold n. pose proof (disk_block_len _ d blk Hk) as Hb. unfold BSIZE in Hb.
  destruct (copy_loop (disk_block d blk) content n) as (content' & -> & Hl & Hc); [lia|lia|].
  rewrite bind_Ok_l, uadd_eq, bind_Ok_l, as_i_id by lia.
  exists content', d'. split; [|done]. unfold advanced. by rewrite Hr.
Qed.

(** Read at a position on a block boundary copies the next min(size left, buffer,
    ...) bytes of the file into the buffer, keeps the rest of it and advances the
    position by that count. *)
Theorem fsfile_read_block f content k d :
  ready (S k) d → readable f = true → 0 ≤ (rw_offset f).1 ≤ sz f → 0 ≤ offset f → offset f + sz f < 2 ^ 42 →
  (length content ≤ 1024)%nat → (offset f + (rw_offset f).1) mod BSIZE = 0 →
  let n := Z.min (sz f - (rw_offset f).1) (Z.of_nat (length content)) in
  ∃ content' d', FsFile_read f content d = Ok (n, content', advanced f n, d') ∧ same_disk d d' ∧ ready k d' ∧
    ∀ i : nat, content' !! i =
      if decide (Z.of_nat i < n) then fbyte d f ((rw_offset f).1 + Z.of_nat i) else content !! i.
Proof.
  intros Hk Hr Hoff Ho Hsz Hlen Hal n.
  destruct (read_spec f content k d) as (content' & d' & Hrun & Hd & Hk' & _ & Hc); [done..|].
  exists content', d'. split_and!; [done..|]. intros i. rewrite Hc.
  destruct (decide (Z.of_nat i < _)) as [Hi|]; [|done]. unfold fbyte.
  replace (offset f + ((rw_offset f).1 + Z.of_nat i)) with (offset f + (rw_offset f).1 + Z.of_nat i) by lia.
  apply Z.mod_divide in Hal as [q Hq]; [|done]. rewrite Hq. unfold BSIZE in *.
  rewrite Z.div_mul, (Z.add_comm (q * 1024)), Z_div_plus_full, Z_mod_plus_full by lia.
  rewrite Z.div_small, Z.mod_small, Nat2Z.id by lia. done.
Qed.

(** ** The program image [exec] reads *)
(** [content] holds the first [n] bytes of the file and zeros. *)
Definition image (d : D) (f : FsFile) (n : Z) (content : list Z) : Prop :=
  length content = Z.to_nat 131072 ∧
  ∀ j, 0 ≤ j < 131072 →
    content !! Z.to_nat j = if decide (j < n) then fbyte d f j else Some 0.

Lemma image_block d f n content blk :
  0 ≤ n → n + 1024 ≤ 131072 → image d f n content → length blk = 1024%nat →
  (∀ i : nat, (i < 1024)%nat → blk !! i = fbyte d f (n + Z.of_nat i)) →
  ∃ content', for_range 0 1024 (λ j content, x ← aget blk j; k ← uadd 64 n j; aset content k x) content
    = Ok content' ∧ image d f (n + 1024) content'.
Proof.
  intros Hn Hfit Him Hlen Hblk.
  apply (for_range_total (λ j t, image d f (n + j) t)); [lia|by rewrite Z.add_0_r|].
  intros j t Hj [Hl Ht]. destruct (aget_range blk j) as (x & -> & Hx); [lia|]. rewrite bind_Ok_l.
  rewrite uadd_eq, bind_Ok_l by lia. eexists. split; [apply aset_Ok; split; [lia|done]|].
  split; [by rewrite length_insert|]. intros k Hk. destruct (decide (k = n + j)) as [->|Hne].
  - rewrite list_lookup_insert_eq by lia. rewrite decide_True by lia. rewrite <- Hx, Hblk by lia.
    by rewrite Z2Nat.id by lia.
  - rewrite list_lookup_insert_ne by lia. rewrite Ht by done.
    destruct (decide (k < n + j)), (decide (k < n + (j + 1))); done || lia.
Qed.

Lemma fbyte_same d d' f f' k : same_disk d d' → offset f' = offset f → fbyte d' f' k = fbyte d f k.
Proof. intros Hs Ho. unfold fbyte. by rewrite Hs, Ho. Qed.

Lemma image_same d d' f f' n content :
  same_disk d d' → offset f' = offset f → image d f n content → image d' f' n content.
Proof.
  intros Hs Ho [Hl Hc]. split; [done|]. intros j Hj. rewrite Hc by done.
  destruct (decide (j < n)); [|done]. symmetry. by apply fbyte_same.
Qed.

(** A file of which [exec] has read the first [i] bytes *)
Record at_block f (i : Z) : Prop := {
  ab_read : readable f = true;
  ab_pos : (rw_offset f).1 = i;
  ab_le : 0 ≤ i ≤ sz f;
  ab_mul : i mod 1024 = 0;
  ab_off : 0 ≤ offset f ∧ offset f + sz f < 2 ^ 42 ∧ offset f mod BSIZE = 0;
}.

Lemma block_read f i blk k d :
  ready (S k) d → at_block f i → length blk = 1024%nat →
  let n := Z.min (sz f - i) 1024 in
  ∃ blk' d', FsFile_read f blk d = Ok (n, blk', advanced f n, d') ∧ same_disk d d' ∧ ready k d' ∧
    length blk' = 1024%nat ∧
    ∀ j : nat, Z.of_nat j < n → blk' !! j = fbyte d f (i + Z.of_nat j).
Proof.
  intros Hkd [Hr Hp Hle Hm (Ho & Hs & Hal)] Hlen n.
  destruct (read_spec f blk k d) as (blk' & d' & Hrun & Hd & Hk' & Hl & Hc); [done|done|lia..|].
  rewrite Hlen, Hp in Hrun, Hc. exists blk', d'. split_and!; [done|done|done|lia|]. intros j Hj.
  change (Z.of_nat 1024) with 1024 in *. fold n in Hc. rewrite Hc, decide_True by done. unfold fbyte.
  apply Z.mod_divide in Hm as [q Hq]; [|done]. apply Z.mod_divide in Hal as [r Hr']; [|done].
  unfold BSIZE in *. replace (offset f + (i + Z.of_nat j)) with (Z.of_nat j + (r + q) * 1024) by lia.
  replace (offset f + i) with ((r + q) * 1024) by lia.
  by rewrite Z.div_mul, Z_div_plus_full, Z_mod_plus_full, Z.div_small, Z.mod_small, Nat2Z.id by lia.
Qed.

Lemma exec_load_spec fuel : ∀ f blk content i d,
  ready fuel d → at_block f i → length blk = 1024%nat → image d f i content → i ≤ 130048 - 1024 →
  Z.min (sz f) 130048 < i + 1024 * Z.of_nat fuel →
  (sz f < 130048 → ∃ content' d', exec_load fuel f blk content i d = Ok (content', d') ∧
     image d f (1024 * (sz f / 1024)) content') ∧
  (130048 ≤ sz f → exec_load fuel f blk content i d = Err (Panic "elf file too large!")).
Proof.
  induction fuel as [|fuel IH]; intros f blk content i d Hkd Hab Hblk Him Hi Hf.
  { destruct Hab. lia. }
  destruct (block_read f i blk fuel d Hkd Hab Hblk) as (blk' & d' & Hrun & Hd & Hk' & Hl & Hc).
  pose proof Hab as [Hr Hp Hle Hm (Ho & Hs & Hal)]. pose proof Hm as [q Hq]%Z.mod_divide; [|done].
  cbn [exec_load]. rewrite Hrun, bind_Ok_l. cbn beta iota.
  destruct (Z.eqb_spec (Z.min (sz f - i) 1024) 1024) as [E|E].
  - rewrite E in Hc. destruct (image_block d f i content blk') as (content' & -> & Him'); [lia|lia|done|done| |].
    { intros k Hk. apply Hc. lia. }
    rewrite bind_Ok_l, (uadd_eq 64 i 1024), bind_Ok_l, uadd_eq, bind_Ok_l by lia. destruct Him' as [Hlen Hb].
    rewrite E. destruct (Z.leb_spec (Z.of_nat (length content')) (i + 1024 + 1024)) as [Hbig|Hsmall].
    + split; [lia|]. intros _. reflexivity.
    + cbn [panic_if]. rewrite bind_Ok_l.
      destruct (IH (advanced f 1024) blk' content' (i + 1024) d') as [H1 H2]; [done| |done| |lia|cbn; lia|].
      * split; cbn; [done|lia|lia| |done]. rewrite Hq. by replace (q * 1024 + 1024) with ((q + 1) * 1024) by lia; apply Z.mod_mul.
      * eapply image_same; [done|done|by split].
      * cbn in H1, H2. split; [|done]. intros Hsz. destruct (H1 Hsz) as (c'' & d'' & Hx & Hy).
        exists c'', d''. split; [done|]. eapply image_same; [|done|exact Hy]. intros k. by rewrite Hd.
  - split; [|lia]. intros Hsz. exists content, d'. split; [done|].
    assert (sz f / 1024 = q) as ->; [|by replace (1024 * q) with i by lia].
    symmetry. apply (Z.div_unique_pos _ _ _ (sz f - i)); lia.
Qed.

(** C35: the loop with which exec reads a program terminates: a file below 130048 bytes is
    copied up to its last whole 1024-byte block, the rest of the buffer staying zero,
    and a larger file is refused. *)
Theorem exec_image f d :
  ready 128 d → readable f = true → rw_offset f = (0, 0) → 0 ≤ sz f → 0 ≤ offset f → offset f + sz f < 2 ^ 42 →
  offset f mod BSIZE = 0 →
  let run := exec_load 128 f (replicate 1024 0) (replicate (Z.to_nat 131072) 0) 0 d in
  (sz f < 130048 → ∃ content d', run = Ok (content, d') ∧ image d f (1024 * (sz f / 1024)) content) ∧
  (130048 ≤ sz f → run = Err (Panic "elf file too large!")).
Proof.
  intros Hk Hr Hp Hs Ho Hsz Hal run.
  assert (at_block f 0) as Hab by (split; rewrite ?Hp; done || lia).
  assert (image d f 0 (replicate (Z.to_nat 131072) 0)) as Him.
  { split; [by rewrite length_replicate|]. intros j Hj. rewrite decide_False by lia.
    apply lookup_replicate. split; [done|lia]. }
  apply exec_load_spec; [done|done|by rewrite length_replicate|done|lia|lia].
Qed.

(** Read at a position inside the first block of a file returns the bytes from the
    start of the block, not from the position. *)
Theorem fsfile_read_ignores_position f content k d :
  ready (S k) d → readable f = true → 0 ≤ (rw_offset f).1 < BSIZE → (rw_offset f).1 ≤ sz f → 0 ≤ offset f →
  offset f + sz f < 2 ^ 42 → (length content ≤ 1024)%nat → offset f mod BSIZE = 0 →
  let n := Z.min (sz f - (rw_offset f).1) (Z.of_nat (length content)) in
  ∃ content' d', FsFile_read f content d = Ok (n, content', advanced f n, d') ∧
    ∀ i : nat, Z.of_nat i < n → content' !! i = fbyte d f (Z.of_nat i).
Proof.
  intros Hk Hr Hoff Hle Ho Hsz Hlen Hal n.
  destruct (read_spec f content k d) as (content' & d' & Hrun & _ & _ & _ & Hc); [done|done|lia..|].
  exists content', d'. split; [done|]. intros i Hi. rewrite Hc, decide_True by done. unfold fbyte.
  apply Z.mod_divide in Hal as [q Hq]; [|done]. rewrite Hq. unfold BSIZE in *.
  rewrite !(Z.add_comm (q * 1024)), !Z_div_plus_full, Z_mod_plus_full by lia.
  by rewrite !Z.div_small, Z.mod_small, Nat2Z.id by lia.
Qed.
End specs.

(** ** A disk in memory satisfies the laws. *)
Definition byte_of (x : Z) : Z := Z.land x 0xff.
Definition ram_block (d : gmap Z (list Z)) (n : Z) : list Z :=
  resize (Z.to_nat BSIZE) 0 (map byte_of (default [] (d !! n))).
#[global] Instance RamDisk : BlockDevice (gmap Z (list Z)) := λ d dev n, Ok (ram_block d n, d).
#[global] Instance RamDiskLaws : BlockDeviceLaws (gmap Z (list Z)).
Proof.
  refine {| ready := λ _ _, True; disk_block := ram_block |}.
  - done.
  - intros k d n _. unfold ram_block. by rewrite length_resize.
  - intros k d n _ Hn. exists d. done.
Defined.

(** ** A disk with one file

    The file [/a] is an ELF image of two blocks: the header, one program header for
    a segment of 100 bytes at 0x1000, and the segment. *)
Fixpoint le_of (n : nat) (x : Z) : list Z :=
  match n with O => [] | S n => x mod 256 :: le_of n (x / 256) end.
Definition elf_block : list Z :=
  le_of 4 0x464C457F ++ replicate 20 0 ++ le_of 8 0x1000 ++ le_of 8 64 ++ replicate 16 0 ++
  le_of 2 1 ++ replicate 6 0 ++
  le_of 4 1 ++ le_of 4 5 ++ le_of 8 1024 ++ le_of 8 0x1000 ++ le_of 8 0x1000 ++ le_of 8 100 ++ le_of 8 200.
Definition file_a : list Z := [47; 97].
Definition disk0 : gmap Z (list Z) :=
  list_to_map [(0, le_of 8 2048 ++ le_of 8 2048 ++ file_a); (2, elf_block); (3, replicate 100 7)].
Definition fsfile0 : FsFile := mkFsFile 2048 2048 (0, 0) true true.

Lemma get_file_info_first_match_witness :
  (∃ d', get_file_info file_a disk0 = Ok (Some (2048, 2048), d') ∧ same_disk disk0 d') ∧
  (∃ d', get_file_info [98] disk0 = Ok (None, d') ∧ same_disk disk0 d').
Proof.
  split.
  - destruct (get_file_info_first_match file_a 0 0 disk0) as [_ Hf]; [unfold FILE_MAX; lia|intros j Hj; lia|exact I|].
    destruct Hf as (d' & Hr & Hs & _); [vm_compute; done..|]. exists d'. split; [|exact Hs]. rewrite Hr.
    assert (hdr_offset (disk_block disk0 0) = 2048 ∧ hdr_size (disk_block disk0 0) = 2048) as [-> ->]
      by (vm_compute; done). reflexivity.
  - destruct (get_file_info_first_match [98] 1 0 disk0) as [Hf _]; [unfold FILE_MAX; lia| |exact I|].
    + intros j Hj. assert (j = 0) as -> by lia. vm_compute. done.
    + destruct Hf as (d' & Hr & Hs & _); [right; vm_compute; done|]. by exists d'.
Defined.

Lemma fsfile_read_block_witness :
  ∃ content' d', FsFile_read fsfile0 [9; 9; 9] disk0 = Ok (3, content', advanced fsfile0 3, d') ∧
    same_disk disk0 d' ∧
    ∀ i : nat, content' !! i =
      if decide (Z.of_nat i < 3) then fbyte disk0 fsfile0 (0 + Z.of_nat i) else [9; 9; 9] !! i.
Proof.
  destruct (fsfile_read_block fsfile0 [9; 9; 9] 0 disk0) as (c & d' & Hr & Hs & _ & Hc);
    [exact I|reflexivity|cbn; lia|cbn; lia|cbn; lia|cbn; lia|reflexivity|]. by exists c, d'.
Defined.

Lemma exec_image_witness :
  (∃ content d', exec_load 128 fsfile0 (replicate 1024 0) (replicate (Z.to_nat 131072) 0) 0 disk0 =
     Ok (content, d') ∧ image disk0 fsfile0 2048 content) ∧
  exec_load 128 (mkFsFile 2048 130048 (0, 0) true true) (replicate 1024 0)
    (replicate (Z.to_nat 131072) 0) 0 disk0 = Err (Panic "elf file too large!").
Proof.
  split.
  - apply (exec_image fsfile0 disk0); [exact I|reflexivity|reflexivity|cbn; lia|cbn; lia|cbn; lia|reflexivity|cbn; lia].
  - apply (exec_image (mkFsFile 2048 130048 (0, 0) true true) disk0);
      [exact I|reflexivity|reflexivity|cbn; lia|cbn; lia|cbn; lia|reflexivity|cbn; lia].
Defined.

(** Reading on after three bytes gives the first bytes again. *)
Lemma fsfile_read_ignores_position_witness :
  ∃ content' d', FsFile_read (advanced fsfile0 3) [9] disk0 =
      Ok (1, content', advanced (advanced fsfile0 3) 1, d') ∧
    ∀ i : nat, Z.of_nat i < 1 → content' !! i = fbyte disk0 (advanced fsfile0 3) (Z.of_nat i).
Proof.
  apply (fsfile_read_ignores_position (advanced fsfile0 3) [9] 0 disk0);
    [exact I|reflexivity|cbn; unfold BSIZE; lia|cbn; lia|cbn; lia|cbn; lia|cbn; lia|reflexivity].
Defined.
