(* ===== verification/DiskFile.v ===== *)
(** * Files on the driver

    One process at a time reads through the driver of Disk.v: it submits its request and
    sleeps, the device serves it, the interrupt handler marks it done and wakes the
    process, which takes its block.  This driver has the laws of [BlockDevice], so the
    theorems of FsFile.v hold of files on the virt-io disk, for as many reads as the
    16-bit counter of the avail ring allows. *)

From S2P Require Import Prelude Symbols Virtio Disk FsFile.

(** What the device does while the process sleeps; [b_at] and [hdr_at] are the addresses
    of the buffer and of [buf0]. *)
Record host := mkHost { st_at : Z → Z; run_dev : Sys → Sys; b_at : Z; hdr_at : Z }.

Section read.
Context (H : host).

(** [VirtIO::read] with nobody else in the driver; [sleep] is the device and the
    interrupt. *)
Definition disk_read (s : Sys) (dv n : Z) : result (list Z * Sys) :=
  let '(b, w) := rw_args (Read dv n) in
  hd ← rw_header b w;
  '(o, v) ← rw_try (st_at H) (b_at H) b (hdr_at H) w (vio s);
  match o with
  | None => Err NoFuel
  | Some i0 =>
      let s := run_dev H (mkSys v (<[hdr_at H := hd]> (hdrs s)) (sectors s) (seen s) (indev s)
                            (<[0 := mkFrame (Read dv n) (b_at H) (hdr_at H) (Some i0)]> (frames s))) in
      v ← virtiointr (Z.to_nat DESC_NUM - 1) (vio s);
      '(o, v) ← rw_check i0 v;
      match o with
      | None => Err NoFuel
      | Some b => Ok (data b, mkSys v (delete (hdr_at H) (hdrs s)) (sectors s) (seen s) (indev s) (delete 0 (frames s)))
      end
  end.
End read.

(** The device serves everything it finds. *)
Record host_ok (H : host) : Prop := {
  ho_st : ∀ i j, 0 ≤ i < DESC_NUM → 0 ≤ j < DESC_NUM → st_at H i = st_at H j → i = j;
  ho_run : ∀ s ops, Inv (st_at H) s ops → rtc (virtio_step (st_at H)) s (run_dev H s);
  ho_idle : ∀ s ops s', Inv (st_at H) s ops → ¬ virtio_step (st_at H) (run_dev H s) s';
}.
Definition medium_ok (s : Sys) : Prop := ∀ i, length (sectors s i) = 512%nat.

(** [k] more requests fit. *)
Record idle (H : host) (k : nat) (s : Sys) : Prop := {
  id_inv : Inv (st_at H) s ∅;
  id_fr : frames s = ∅;
  id_cnt : ∃ a1, avail (vio s) !! 1%nat = Some a1 ∧ a1 + Z.of_nat k < 2 ^ 16;
  id_med : medium_ok s;
}.

Section proofs.
Context (H : host) (Hok : host_ok H).
Notation Inv := (Inv (st_at H)).
Notation st_at := (st_at H).

(** ** The device serves reads only *)
Definition reads_only s : Prop := ∀ p f, frames s !! p = Some f → (rw_args (rq f)).2 = false.
Record kept s s' : Prop := {
  ke_fr : frames s' = frames s;
  ke_sec : sectors s' = sectors s;
  ke_av : avail (vio s') = avail (vio s);
  ke_hdr : hdrs s' = hdrs s;
}.

Lemma dev_step_kept s ops s' :
  Inv s ops → reads_only s → virtio_step st_at s s' → Inv s' ops ∧ kept s s'.
Proof.
  intros HI Hro Hd. destruct (quiet_keeps st_at (ho_st H Hok) s ops s' HI (or_introl Hd)) as (HI' & _ & _).
  split; [done|]. destruct Hd as [s a1 h Ha Hne Hh|s s1 l1 h l2 Hin Hs]; [done|].
  destruct (dev_serve_ok st_at (ho_st H Hok) s ops h HI) as (p & f & op & Hp & _ & _ & _ & E); [rewrite Hin; set_solver|].
  rewrite E in Hs. injection Hs as <-. split; try done. cbn. unfold served_dk. by rewrite (Hro p f Hp).
Qed.

Lemma dev_run_kept s ops s' :
  Inv s ops → reads_only s → rtc (virtio_step st_at) s s' → Inv s' ops ∧ kept s s'.
Proof.
  intros HI Hro Hr. revert HI Hro. induction Hr as [s|s1 s2 s3 Hd _ IH]; intros HI Hro; [by split|].
  destruct (dev_step_kept s1 ops s2 HI Hro Hd) as [HI2 [K1 K2 K3 K4]].
  destruct IH as [HI3 [L1 L2 L3 L4]]; [done|by unfold reads_only; rewrite K1|].
  split; [done|]. split; congruence.
Qed.

Lemma dev_run_exec s s' t : exec st_at (virtio_step st_at) s t s' → ∀ s'', rtc (virtio_step st_at) s' s'' →
  exec st_at (virtio_step st_at) s t s''.
Proof.
  intros He s'' Hr. revert He. induction Hr as [s'|s1 s2 s3 Hd _ IH]; intros He; [done|].
  apply IH. rewrite <- (app_nil_r t). eapply exec_step; [exact He|by apply s_dev].
Qed.

(** ** The handler *)
Lemma intr_loop fuel : ∀ s ops,
  Inv s ops → npending (vio s) ≤ Z.of_nat fuel →
  ∃ v', virtiointr fuel (vio s) = Ok v' ∧ Inv (set_vio s v') ops ∧ npending v' = 0 ∧
    unserved (set_vio s v') = unserved s ∧ avail v' = avail (vio s) ∧
    ∀ s0 t, exec st_at (virtio_step st_at) s0 t s → exec st_at (virtio_step st_at) s0 t (set_vio s v').
Proof.
  induction fuel as [|fuel IH]; intros s ops HI Hn; pose proof (npending_range (vio s));
    cbn [virtiointr]; destruct (intr_pending (vio s)) eqn:Hp;
    pose proof Hp as Hp'; rewrite intr_pending_npending in Hp' by apply (iv_u _ _ _ HI).
  - apply negb_true_iff, Z.eqb_neq in Hp'. lia.
  - apply negb_false_iff, Z.eqb_eq in Hp'. exists (vio s). by destruct s.
  - destruct (inv_intr st_at s ops HI Hp) as (w & Hw & HI' & _ & h & Eb & Eu & Ea & _). rewrite Hw, bind_Ok_l.
    assert (npending w = npending (vio s) - 1) as Hnw.
    { apply Permutation_length in Eb. unfold busy in Eb. rewrite Eu in Eb. cbn in Eb. rewrite !length_app in Eb.
      pose proof (used_q_length (vio s)). pose proof (used_q_length w). lia. }
    destruct (IH (set_vio s w) ops HI') as (v' & Hv & HI2 & Hn2 & Hu2 & Ha2 & He2); [cbn [vio set_vio]; lia|].
    exists v'. split_and!; [done..|by rewrite <- Eu|by rewrite <- Ea|]. intros s0 t Het. apply He2.
    rewrite <- (app_nil_r t). eapply exec_step; [exact Het|by apply s_intr].
  - apply negb_false_iff, Z.eqb_eq in Hp'. exists (vio s). by destruct s.
Qed.

(** ** What the trace of one read says *)
Lemma aexec_snoc_inv a1 t x a3 : aexec a1 (t ++ [x]) a3 → ∃ a2 a4, aexec a1 t a2 ∧ astep a2 [x] a4 ∧ aexec a4 [] a3.
Proof.
  intros He. remember (t ++ [x]) as tr eqn:E. revert t x E.
  induction He as [a|a1 t1 a2 t2 a3 He IH Hs]; intros t x E; [by destruct t|].
  assert (t2 = [] ∨ ∃ y, t2 = [y]) as [->|[y ->]] by (destruct Hs; eauto).
  - rewrite app_nil_r in E. destruct (IH t x E) as (b2 & b4 & H1 & H2 & H3). exists b2, b4.
    split; [done|]. split; [done|]. change (@nil event) with (@nil event ++ []). by eapply aexec_step.
  - apply app_inj_tail in E as [-> ->]. exists a2, a3. split; [done|]. split; [done|constructor].
Qed.

(** Silent steps serve pending calls. *)
Definition read_state (bl : Z → list Z) (p dv n : Z) (a : ADisk) : Prop :=
  blocks a = bl ∧ (callers a = <[p := Pending (Read dv n)]> ∅ ∨
                   callers a = <[p := Served (Some (mkBuf false 0 dv n (bl n)))]> ∅).
Lemma read_state_quiet bl p dv n a a' : read_state bl p dv n a → aexec a [] a' → read_state bl p dv n a'.
Proof.
  intros Hr He. remember (@nil event) as tr eqn:E. revert Hr E. induction He as [|a1 t1 a2 t2 a3 _ IH Hs]; intros Hr E; [done|].
  apply app_eq_nil in E as [-> ->]. destruct (IH Hr eq_refl) as [Hb Hc]. inversion Hs as [|a q r Hq E1 E2|]; subst.
  destruct Hc as [Hc|Hc]; rewrite Hc in Hq; apply lookup_insert_Some in Hq as [[<- Hq]|[_ Hq]]; try done.
  injection Hq as <-. split; [done|]. right. cbn. by rewrite Hc, insert_insert_eq.
Qed.
Lemma quiet_empty a a' : callers a = ∅ → aexec a [] a' → a' = a.
Proof.
  intros Hr He. remember (@nil event) as tr eqn:E. revert Hr E. induction He as [|a1 t1 a2 t2 a3 _ IH Hs]; intros Hr E; [done|].
  apply app_eq_nil in E as [-> ->]. specialize (IH Hr eq_refl) as ->. inversion Hs as [|a q r Hq E1 E2|]; subst.
  by rewrite Hr in Hq.
Qed.

Lemma atomic_read bl p dv n o a :
  aexec (mkADisk bl ∅) [Call p (Read dv n); Return p o] a → o = Some (mkBuf false 0 dv n (bl n)).
Proof.
  change [Call p (Read dv n); Return p o] with ([Call p (Read dv n)] ++ [Return p o]).
  intros (a2 & a4 & H1 & H2 & _)%aexec_snoc_inv. change [Call p (Read dv n)] with ([] ++ [Call p (Read dv n)]) in H1.
  apply aexec_snoc_inv in H1 as (a0 & a1 & H0 & H1 & Hq). apply quiet_empty in H0 as ->; [|done].
  inversion H1; subst. apply (read_state_quiet bl p dv n) in Hq as [Hb Hc]; [|split; [done|by left]].
  inversion H2 as [| |a' q o' Hq E1 E2]; subst. destruct Hc as [Hc|Hc]; rewrite Hc, lookup_insert_eq in Hq; [done|].
  by injection Hq as <-.
Qed.

(** ** One read *)
Lemma idle_free v : vinv v ∅ → (3 ≤ nfree (free v))%nat.
Proof.
  intros Hv. destruct (vi_len v ∅ Hv) as (_ & Lf & _).
  assert (free v = replicate 8 true) as ->; [|by vm_compute; lia].
  apply list_eq_same_length with (n := 8%nat); [by rewrite length_replicate|done|].
  intros i x y Hi Hx Hy. apply lookup_replicate in Hy as [-> _]. destruct x; [done|].
  destruct (proj1 (vi_busy v ∅ Hv (Z.of_nat i) ltac:(unfold DESC_NUM; lia))) as (h & mt & Ho & _);
    [by rewrite Nat2Z.id|done].
Qed.

Lemma rel_idle k s : idle H k s → Rel st_at s (mkADisk (λ n, read_sectors (sectors s) (n * 2) 2) ∅).
Proof. intros [HI Hf _ _]. split; [by exists ∅|done|]. by rewrite Hf. Qed.

(** The state in which the reader sleeps *)
Lemma disk_submit k s dv n :
  idle H (S k) s → is_u 32 n →
  ∃ i0 mt a1 v, rw_header (rw_args (Read dv n)).1 false = Ok (hdr_of (Read dv n)) ∧
    rw_try st_at (b_at H) (rw_args (Read dv n)).1 (hdr_at H) false (vio s) = Ok (Some i0, v) ∧
    avail (vio s) !! 1%nat = Some a1 ∧ avail v !! 1%nat = Some (a1 + 1) ∧ a1 + 1 + Z.of_nat k < 2 ^ 16 ∧
    let s2 := mkSys v (<[hdr_at H := hdr_of (Read dv n)]> (hdrs s)) (sectors s) (seen s) (indev s)
                (<[0 := mkFrame (Read dv n) (b_at H) (hdr_at H) (Some i0)]> (frames s)) in
    Inv s2 (<[i0 := mt]> ∅) ∧ exec st_at (virtio_step st_at) s [Call 0 (Read dv n)] s2.
Proof.
  intros [HI Hf (a1 & Ha & Hlt) _] Hn.
  assert (request_ok (Read dv n)) as Hrq by (by split).
  set (f0 := mkFrame (Read dv n) (b_at H) (hdr_at H) None).
  set (s1 := set_frames s (<[0 := f0]> (frames s))).
  assert (fresh_at s (b_at H) (hdr_at H)) as Hfr by (intros q f Hq; by rewrite Hf in Hq).
  assert (Inv s1 ∅) as HI1 by (apply inv_call; [done|by rewrite Hf|done|done]).
  destruct (iv_a _ _ _ HI) as (a1' & Ha' & Hs & _). assert (a1' = a1) as -> by congruence.
  destruct (rw_try_spec st_at (b_at H) (rw_args (Read dv n)).1 (hdr_at H) false (vio s) ∅ a1 (iv_v _ _ _ HI) Ha)
    as [(w & Hnf & _)|(i0 & i1 & i2 & Hne & Hall & Htry)]; [lia|pose proof (idle_free _ (iv_v _ _ _ HI)); lia|].
  rewrite (proj2 (Z.ltb_lt _ _)) in Htry by lia.
  assert (frames s1 !! 0 = Some f0) as Hp by apply lookup_insert_eq.
  pose proof (inv_submit st_at s1 ∅ 0 f0 i0 i1 i2 a1 HI1 Hp eq_refl Hne Hall Ha ltac:(lia)) as HI2.
  assert (submit_sys st_at s1 0 f0 i0 i1 i2 a1 =
    mkSys (vio (submit_sys st_at s1 0 f0 i0 i1 i2 a1)) (<[hdr_at H := hdr_of (Read dv n)]> (hdrs s)) (sectors s)
      (seen s) (indev s) (<[0 := mkFrame (Read dv n) (b_at H) (hdr_at H) (Some i0)]> (frames s))) as Es.
  { unfold submit_sys. cbn [frames s1 set_frames vio]. by rewrite insert_insert_eq. }
  exists i0, (i1, i2), a1, (vio (submit_sys st_at s1 0 f0 i0 i1 i2 a1)).
  split; [by apply rw_header_spec|]. split; [exact Htry|]. split; [done|]. split; [|split; [lia|cbv zeta; rewrite <- Es; split]].
  - destruct (vi_len _ _ (iv_v _ _ _ HI)) as (_ & _ & _ & La). cbn. apply list_lookup_insert_eq.
    rewrite length_insert, La, AVAIL_SZ_eq. lia.
  - exact HI2.
  - apply (exec_step _ _ s [Call 0 (Read dv n)] s1 []).
    + apply (exec_step _ _ s [] s [Call 0 (Read dv n)]); [constructor|]. apply s_call; [by rewrite Hf|done|done].
    + by apply (s_submit st_at (virtio_step st_at) 0 f0 _ i0); [| |apply rw_header_spec|].
Qed.

Lemma disk_read_spec k s dv n :
  idle H (S k) s → is_u 32 n →
  ∃ s', disk_read H s dv n = Ok (read_sectors (sectors s) (n * 2) 2, s') ∧ idle H k s' ∧ sectors s' = sectors s.
Proof.
  intros Hid Hn. pose proof (rel_idle _ _ Hid) as HR. pose proof Hid as [HI0 Hf _ Hmed].
  destruct (disk_submit k s dv n Hid Hn) as (i0 & mt & a1 & v & Hhd & Htry & Ha & Ha1 & Hlt & HI2 & He2).
  set (f := mkFrame (Read dv n) (b_at H) (hdr_at H) (Some i0)) in *.
  set (s2 := mkSys v _ _ _ _ _) in HI2, He2.
  assert (frames s2 = <[0 := f]> ∅) as Hf2 by (unfold s2; cbn; by rewrite Hf).
  assert (reads_only s2) as Hro by (intros p g; rewrite Hf2; by intros [[<- <-]|[_ ?]]%lookup_insert_Some).
  destruct (dev_run_kept s2 _ (run_dev H s2) HI2 Hro (ho_run H Hok s2 _ HI2)) as [HI3 [K1 K2 K3 K4]].
  pose proof (dev_run_exec _ _ _ He2 _ (ho_run H Hok s2 _ HI2)) as He3. set (s3 := run_dev H s2) in *.
  assert (unserved s3 = []) as Hu3.
  { destruct (decide (unserved s3 = [])) as [|Hne]; [done|].
    destruct (dev_enabled st_at (ho_st H Hok) s3 _ HI3 Hne) as [s' Hs']. by destruct (ho_idle H Hok s2 _ s' HI2). }
  destruct (intr_loop (Z.to_nat DESC_NUM - 1) s3 _ HI3) as (v4 & Hv4 & HI4 & Hn4 & Hu4 & Ha4 & He4);
    [pose proof (npending_range (vio s3)); unfold DESC_NUM in *; lia|]. specialize (He4 _ _ He3).
  set (s4 := set_vio s3 v4) in *.
  assert (frames s4 !! 0 = Some f) as Hp4 by (cbn; by rewrite K1, Hf2, lookup_insert_eq).
  assert (i0 ∉ busy s4) as Hnb.
  { unfold busy. rewrite Hu4, Hu3. pose proof (used_q_length v4). cbn [vio s4 set_vio].
    rewrite (nil_length_inv (used_q v4)) by lia. apply not_elem_of_nil. }
  destruct (rw_check_spec st_at s4 _ 0 f i0 HI4 Hp4 eq_refl) as (op & m & t & dh & dm & dt & Hmt & _ & _ & Hck).
  rewrite decide_False in Hck by done. destruct (inv_return st_at s4 _ 0 f i0 m t dh dm dt HI4 Hp4 eq_refl Hmt Hnb) as [HI5 _].
  pose proof (exec_step _ _ _ _ _ _ _ He4 (s_return st_at _ 0 f i0 _ _ s4 Hp4 eq_refl Hck)) as He5.
  destruct (sim_exec st_at (ho_st H Hok) _ (λ _ _ X, X) _ _ _ _ He5 HR) as (a & Hae & _).
  apply atomic_read in Hae. cbn [rq rw_result f] in Hae. injection Hae as Hbuf.
  eexists. split; [|split].
  - unfold disk_read. rewrite (surjective_pairing (rw_args (Read dv n))).
    change (rw_args (Read dv n)).2 with false. cbv beta iota zeta. rewrite Hhd, bind_Ok_l, Htry, bind_Ok_l. fold f. fold s2. fold s3.
    rewrite Hv4, bind_Ok_l. change v4 with (vio s4). rewrite Hck, bind_Ok_l, Hbuf. reflexivity.
  - unfold return_sys in HI5. cbn [s4 set_vio sectors seen indev frames hdrs buf0_at f] in HI5.
    rewrite delete_insert_id in HI5 by done. split; [exact HI5| | |].
    + cbn. rewrite K1, Hf2. by rewrite delete_insert_id.
    + exists (a1 + 1). split; [|lia]. cbn. by rewrite Ha4, K3.
    + intros i. cbn. rewrite K2. apply Hmed.
  - cbn. by rewrite K2.
Qed.
End proofs.

(** ** The driver as a block device *)
Definition vdisk (H : host) : Type := Sys.
#[global] Instance vdisk_dev H : BlockDevice (vdisk H) := disk_read H.

Lemma vdisk_block_len s n : medium_ok s → length (read_sectors (sectors s) (n * 2) 2) = Z.to_nat BSIZE.
Proof. intros Hm. cbn [read_sectors]. by rewrite !length_app, !Hm. Qed.

Lemma idle_S H k s : idle H (S k) s → idle H k s.
Proof. intros [HI Hf (a1 & Ha & Hlt) Hm]. split; [done|done| |done]. exists a1. split; [done|lia]. Qed.

#[global] Program Instance vdisk_laws H (Hok : host_ok H) : BlockDeviceLaws (vdisk H) := {
  ready := idle H;
  ready_S := idle_S H;
  disk_block s n := read_sectors (sectors s) (n * 2) 2;
}.
Next Obligation. intros H Hok k s n Hid. by apply vdisk_block_len, (id_med H k s). Qed.
Next Obligation.
  intros H Hok k s n Hid Hn. destruct (disk_read_spec H Hok k s 1 n Hid Hn) as (s' & Hr & Hid' & Hs).
  exists s'. split; [exact Hr|]. split; [done|]. intros j. cbn. by rewrite Hs.
Qed.

(** Reading a file on the disk: the bytes come from the sectors of the block. *)
Corollary file_read_on_driver H (Hok : host_ok H) f content k (s : vdisk H) :
  idle H (S k) s → readable f = true → 0 ≤ (rw_offset f).1 ≤ sz f → 0 ≤ offset f → offset f + sz f < 2 ^ 42 →
  (length content ≤ 1024)%nat →
  let n := Z.min (sz f - (rw_offset f).1) (Z.of_nat (length content)) in
  ∃ content' s', FsFile_read f content s = Ok (n, content', advanced f n, s') ∧ idle H k s' ∧
    ∀ i : nat, Z.of_nat i < n →
      content' !! i = read_sectors (sectors s) ((offset f + (rw_offset f).1) / BSIZE * 2) 2 !! i.
Proof.
  intros Hid Hr Hp Ho Hs Hl n.
  destruct (read_spec (H0 := vdisk_laws H Hok) f content k s Hid Hr Hp Ho Hs Hl)
    as (content' & s' & Hrun & _ & Hid' & _ & Hc).
  exists content', s'. split_and!; [done..|]. intros i Hi. by rewrite Hc, decide_True.
Qed.

(** ** Theorem *)
(** C20: the driver implements the block device of the file system: read of a block by a
    process alone in the driver, submitted, served by any device that serves what it
    finds, completed by virtiointr and finished, returns the two sectors of the block,
    changes no sector, and leaves the driver ready for the next read as long as the
    avail counter allows one. *)
Theorem driver_reads_blocks H k s dv n :
  host_ok H → idle H (S k) s → is_u 32 n →
  ∃ s', disk_read H s dv n = Ok (read_sectors (sectors s) (n * 2) 2, s') ∧ idle H k s' ∧ sectors s' = sectors s.
Proof. intros Hok. by apply disk_read_spec. Qed.

(** ** The device of Disk.v that serves in order *)
Fixpoint fifo_run (fuel : nat) (s : Sys) : Sys :=
  match fuel with
  | O => s
  | S fuel => match fifo_dev st0 s with Some s' => fifo_run fuel s' | None => s end
  end.
Definition host0 : host := mkHost st0 (fifo_run 6) 0x80400000 0x80500000.

Lemma fifo_none s ops s' : Inv st0 s ops → fifo_dev st0 s = None → ¬ virtio_step st0 s s'.
Proof.
  intros HI Hf Hd. destruct Hd as [s a1 h Ha Hne Hh|s s1 l1 h l2 Hin Hs]; unfold fifo_dev in Hf.
  - destruct (indev s) as [|h' l] eqn:Hin.
    + rewrite Ha, Hh in Hf. cbn in Hf. by rewrite decide_False in Hf.
    + destruct (dev_serve_ok st0 st0_inj s ops h' HI) as (p & f & op & _ & _ & _ & _ & E); [rewrite Hin; by left|].
      by rewrite E in Hf.
  - destruct (indev s) as [|h' l] eqn:Hin'; [by destruct l1|].
    destruct (dev_serve_ok st0 st0_inj s ops h' HI) as (p & f & op & _ & _ & _ & _ & E); [rewrite Hin'; by left|].
    by rewrite E in Hf.
Qed.

Lemma fifo_run_idle ops fuel : ∀ s s', Inv st0 s ops → (todo s ≤ fuel)%nat → ¬ virtio_step st0 (fifo_run fuel s) s'.
Proof.
  induction fuel as [|fuel IH]; intros s s' HI Ht; cbn [fifo_run].
  - intros Hd. destruct (quiet_keeps st0 st0_inj s ops s' HI (or_introl Hd)) as (_ & _ & Hlt). lia.
  - destruct (fifo_dev st0 s) as [s1|] eqn:Hf; [|by eapply fifo_none].
    destruct (quiet_keeps st0 st0_inj s ops s1 HI (or_introl (fifo_conforms st0 s s1 Hf))) as (HI1 & _ & Hlt).
    apply IH; [done|lia].
Qed.

Lemma host0_ok : host_ok host0.
Proof.
  split; [apply st0_inj| |].
  - intros s ops _. change (rtc (virtio_step st0) s (fifo_run 6 s)). generalize 6%nat as n. intros n. revert s.
    induction n as [|n IH]; intros s; cbn [fifo_run]; [apply rtc_refl|].
    destruct (fifo_dev st0 s) as [s1|] eqn:Hf; [|apply rtc_refl]. eapply rtc_l; [by apply fifo_conforms|apply IH].
  - intros s ops s' HI. apply (fifo_run_idle ops); [done|].
    pose proof (busy_len st0 s ops HI). pose proof (todo_busy s). lia.
Qed.

Lemma idle0 k : Z.of_nat k < 2 ^ 16 → idle host0 k (sys_init vio0 medium0).
Proof.
  intros Hk. destruct init0_run as [w Hw]. destruct (rel_init st0 _ _ _ _ _ medium0 Hw) as [(ops & HI) _ _].
  assert (ops = ∅) as ->.
  { apply map_empty. intros h. destruct (ops !! h) as [mt|] eqn:E; [|done].
    destruct (iv_own _ _ _ HI h (mk_is_Some _ _ E)) as (p & f & Hp & _). cbn in Hp. by rewrite lookup_empty in Hp. }
  split; [done|done| |].
  - exists 0. split; [vm_compute; reflexivity|lia].
  - intros i. apply (length_replicate 512).
Qed.

Lemma driver_reads_blocks_witness :
  ∃ s', disk_read host0 (sys_init vio0 medium0) 1 7 = Ok (block7, s') ∧ idle host0 100 s'.
Proof.
  destruct (driver_reads_blocks host0 100 (sys_init vio0 medium0) 1 7) as (s' & Hr & Hi & _);
    [apply host0_ok|apply idle0; lia|by vm_compute|].
  exists s'. split; [|exact Hi]. rewrite Hr. reflexivity.
Defined.
