(* ===== verification/Exec.v ===== *)
(** * Building address spaces: [Process::from_exist], ELF loading, [exec], [fork]

    [elf.rs] and the parts of [process/process.rs] that work on page tables.  Bytes
    of the image are read at their little-endian layout; an access outside the image
    is [BadAccess]. *)

From S2P Require Import Prelude Symbols Mem Page PageTree PageOps PageUser Proc Virtio FsFile.

(** ** [elf.rs] *)
Definition ELF_PROG_LOAD : Z := 1.
Definition ELF_MAGIC : Z := 0x464C457F.

(** [*(a + off)] of [n] bytes, and the bytes themselves *)
Definition slice_at (a : list Z) (off n : Z) : result (list Z) :=
  if (0 <=? off) && (off + n <=? Z.of_nat (length a))
  then Ok (take (Z.to_nat n) (drop (Z.to_nat off) a)) else Err BadAccess.
Definition le_at (a : list Z) (off n : Z) : result Z := le_bytes <$> slice_at a off n.

Record ELFHeader := mkELFHeader { magic : Z; entry : Z; phoff : Z; phnum : Z }.
Record ProgramHeader := mkProgramHeader {
  ptype : Z; ph_off : Z; ph_vaddr : Z; ph_filesz : Z; ph_memsz : Z }.

(** The fields of [ELFHeader] and [ProgramHeader] the loader uses, at their [repr(C)]
    offsets *)
Definition elf_header (a : list Z) : result ELFHeader :=
  m ← le_at a 0 4; e ← le_at a 24 8; po ← le_at a 32 8; pn ← le_at a 56 2;
  Ok (mkELFHeader m e po pn).
Definition size_of_ProgramHeader : Z := 56.
Definition program_header (a : list Z) (at_ : Z) : result ProgramHeader :=
  t ← le_at a at_ 4; o ← le_at a (at_ + 8) 8; v ← le_at a (at_ + 16) 8;
  f ← le_at a (at_ + 32) 8; m ← le_at a (at_ + 40) 8;
  Ok (mkProgramHeader t o v f m).

Section exec.
Context {A : Type} `{GlobalAlloc A}.
Implicit Types m : kmem A.

(** A boxed page is filled through [data.as_mut_ptr()]. *)
Definition fill_page (pg : Z) (d : list Z) m : kmem A := KMem (ga m) (<[pg := FPage d]> (frames m)).

Definition load_segment (pgtable vaddr : Z) (elf : list Z) (offset sz : Z) m : result (kmem A) :=
  v ← align_val sz PAGE_ORDER;
  for_range 0 (v / PAGE_SIZE) (λ i m,
    '(seg, m) ← Page_new m;
    k ← umul 64 i PAGE_SIZE;
    o ← uadd 64 offset k;
    src ← slice_at elf o PAGE_SIZE;
    let m := fill_page seg src m in
    va ← uadd 64 vaddr k;
    Table_map pgtable va seg EntryAttributes.URX m) m.

(** One iteration of the loop of [parse_elf] *)
Definition load_program_header (a : list Z) (pgtable : Z) (hdr : ProgramHeader) m : result (kmem A) :=
  if negb (ptype hdr =? ELF_PROG_LOAD) then Ok m
  else
    _ ← panic_if (ph_memsz hdr <? ph_filesz hdr) (Panic "bad elf: memsz");
    e ← uadd 64 (ph_vaddr hdr) (ph_memsz hdr);
    _ ← panic_if (e <? ph_vaddr hdr) (Panic "bad elf: vaddr");
    _ ← panic_if (negb (ph_vaddr hdr mod PAGE_SIZE =? 0)) (Panic "bad elf: vaddr align");
    load_segment pgtable (ph_vaddr hdr) a (ph_off hdr) (ph_filesz hdr) m.

Definition parse_elf (a : list Z) (pgtable : Z) m : result (Z * kmem A) :=
  elfhdr ← elf_header a;
  _ ← panic_if (negb (magic elfhdr =? ELF_MAGIC)) (Panic "wrong magic number");
  m ← for_range 0 (phnum elfhdr) (λ i m,
    hdr ← program_header a (as_i 64 (phoff elfhdr) + i * size_of_ProgramHeader);
    load_program_header a pgtable hdr m) m;
  Ok (entry elfhdr, m).

(** ** [process/process.rs] *)
Definition USER_STACK_PAGE : Z := 4.

Definition map_stack (pgtable stack_begin : Z) m : result (Z * kmem A) :=
  m ← for_range 0 USER_STACK_PAGE (λ i m,
    '(stack, m) ← Page_new m;
    k ← umul 64 i PAGE_SIZE;
    va ← uadd 64 stack_begin k;
    Table_map pgtable va stack EntryAttributes.URW m) m;
  sp ← uadd 64 stack_begin (PAGE_SIZE * USER_STACK_PAGE);
  Ok (sp, m).

(** An allocation that is not a page-table frame: [Box]es of other types, stacks *)
Definition alloc_bytes (size : Z) m : result (Z * kmem A) :=
  '(p, a) ← galloc size (ga m); Ok (p, KMem a (frames m)).
Definition free_bytes (p : Z) m : result (kmem A) :=
  a ← gdealloc p (ga m); Ok (KMem a (frames m)).

(** [tf_at] is the address of the boxed trapframe, [forkret] that of the function;
    112 is [size_of::<Context>()]. *)
Definition Process_from_exist (s : linker_symbols) (forkret pid pgt tf_at : Z) (tf : TrapFrame) m
    : result (Process * kmem A) :=
  _ ← panic_if (pid <? 0) (Panic "invalid pid");
  ksz ← umul 64 PAGE_SIZE 1024;
  '(kstack, m) ← alloc_bytes ksz m;
  '(_, m) ← alloc_bytes 112 m;
  ksp ← uadd 64 kstack ksz;
  m ← kernel_map pgt TRAMPOLINE_START (TRAMPOLINE_TEXT_START s) EntryAttributes.RX m;
  m ← kernel_map pgt TRAPFRAME_START tf_at EntryAttributes.RW m;
  sp ← uadd 64 kstack PAGE_SIZE;
  let ctx := mkContext (forkret :: sp :: replicate 12 0) Forkret in
  Ok (mkProcess pgt tf_at tf ctx UNUSED kstack ksp pid 0 false (replicate 256 None), m).

(** [Process::new]: a new table and a zeroed trapframe *)
Definition Process_new (s : linker_symbols) (forkret pid : Z) m : result (Process * kmem A) :=
  '(pgt, m) ← box_frame (FTable Table_new) m;
  '(tf_at, m) ← alloc_bytes PAGE_SIZE m;
  Process_from_exist s forkret pid pgt tf_at TrapFrame_zero m.

(** [impl Drop for Process]: the kernel stack *)
Definition Process_drop (p : Process) m : result (kmem A) := free_bytes (kstack p) m.

Definition set_reg (tf : TrapFrame) (r v : Z) : result TrapFrame :=
  rs ← aset (regs tf) r v;
  Ok (mkTrapFrame rs (fregs tf) (tf_satp tf) (tf_sp tf) (tf_hartid tf) (tf_trap tf) (epc tf)).
Definition set_epc (tf : TrapFrame) (v : Z) : TrapFrame :=
  mkTrapFrame (regs tf) (fregs tf) (tf_satp tf) (tf_sp tf) (tf_hartid tf) (tf_trap tf) v.

(** [init_proc] up to [put_back_proc]; [code] is the included binary. *)
Definition init_proc (s : linker_symbols) (forkret : Z) (code : list Z) m : result (Process * kmem A) :=
  '(p, m) ← Process_new s forkret 0 m;
  '(page, m) ← Page_new m;
  _ ← panic_if (PAGE_SIZE <? Z.of_nat (length code)) IndexOOB;
  let m := fill_page page (code ++ replicate (4096 - length code) 0) m in
  m ← Table_map (pgtable p) 0 page EntryAttributes.URX m;
  '(sp, m) ← map_stack (pgtable p) 0x80001000 m;
  tf ← set_reg (set_epc (trapframe p) 0) Register.sp sp;
  Ok (set_state RUNNABLE (set_trapframe tf p), m).

(** [fork], between the search for the pid and [put_back_proc]: [box *tf.clone()]
    makes two boxes and drops the first. *)
Definition fork_build (s : linker_symbols) (forkret f_pid : Z) (p : Process) m : result (Process * kmem A) :=
  '(pgt, m) ← Table_clone (pgtable p) m;
  '(t1, m) ← alloc_bytes PAGE_SIZE m;
  '(tf_at, m) ← alloc_bytes PAGE_SIZE m;
  m ← free_bytes t1 m;
  '(c, m) ← Process_from_exist s forkret f_pid pgt tf_at (trapframe p) m;
  fs ← for_range 0 256 (λ i fs, x ← aget (files p) i; aset fs i x) (files c);
  tf ← set_reg (trapframe c) Register.a0 0;
  Ok (set_state RUNNABLE (set_trapframe tf (set_files fs c)), m).

Section disk.
Context {D : Type} `{BlockDevice D}.

(** [exec]: the image in a box of 128 KiB, the old user half dropped, the segments
    and a stack mapped. *)
Definition exec (path : list Z) (p : Process) (d : D) m : result (Process * D * kmem A) :=
  '(box_at, m) ← alloc_bytes 131072 m;
  '(content, d) ← exec_read path d;
  m ← unmap_user 3 (pgtable p) m;
  '(entry, m) ← parse_elf content (pgtable p) m;
  '(sp, m) ← map_stack (pgtable p) 0x80001000 m;
  tf ← set_reg (set_epc (trapframe p) entry) Register.sp sp;
  m ← free_bytes box_at m;
  Ok (set_trapframe tf p, d, m).
End disk.
End exec.

(** ** What the loader maps *)
Section loader.
Context {A : Type} `{GlobalAllocLaws A}.
Implicit Types (m : kmem A) (B : gmap Z Z).

(** A fresh page with contents [d] mapped at [va] *)
Record new_page (root va : Z) (d : list Z) (flags : Z) m B m' B' (pg : Z) : Prop := {
  np_inv : pt_inv 2 m' B' root;
  np_grow : B ⊆ B' ∧ B !! pg = None ∧ B' !! pg = Some 1;
  np_base : heap_base (ga m') = heap_base (ga m);
  np_data : frames m' !! pg = Some (FPage d);
  np_map : ∀ va', canonical va' → page_map m' root va' =
    if decide (va' = va) then Some (leaf_entry pg flags) else page_map m root va';
  np_fp : ∀ x, fp 2 (frames m') root x → fp 2 (frames m) root x ∨ ¬ live (ga m) B x;
  np_keep : ∀ x d', live (ga m) B x → frames m !! x = Some (FPage d') → frames m' !! x = Some (FPage d');
  np_frame : ∀ x, live (ga m) B x → ¬ fp 2 (frames m) root x → frames m' !! x = frames m !! x;
}.

(** A page outside the tree changes nothing in it. *)
Lemma pt_inv_page root m B p d a' :
  pt_inv 2 m B root → ¬ live (ga m) B p → heap_base a' = heap_base (ga m) →
  owned a' (<[p := 1]> B) →
  pt_inv 2 (KMem a' (<[p := FPage d]> (frames m))) (<[p := 1]> B) root ∧
  (∀ va, page_map (KMem a' (<[p := FPage d]> (frames m))) root va = page_map m root va) ∧
  (∀ x, fp 2 (<[p := FPage d]> (frames m)) root x ↔ fp 2 (frames m) root x).
Proof.
  intros [Ho Hw Hl] Hp Hb Ho'.
  assert (Hkept : kept (frames m) (<[p := FPage d]> (frames m)) (fp 2 (frames m) root)).
  { intros a es Ha Hes. rewrite (entries_eq (frames m)); [done|]. apply lookup_insert_ne.
    intros ->. by apply Hp, Hl. }
  destruct (tree_wf_frame 2 (frames m) (<[p := FPage d]> (frames m)) root Hw Hkept) as [Hw' Hlf].
  pose proof (fp_frame 2 _ _ root Hw Hkept) as Hfp. split_and!; [|done|done].
  split; cbn [ga frames]; [done|done|]. intros x [Hx|[n Hn]]%Hfp%Hl; [left; lia|right].
  exists n. rewrite lookup_insert_ne; [done|]. intros ->. apply Hp. right. eauto.
Qed.

Lemma map_new_page root va d flags m m' B pg :
  pt_inv 2 m B root → canonical va → leaf_flags flags → is_user flags = true →
  ('(p, m1) ← Page_new m; Ok (p, fill_page p d m1)) = Ok (pg, m') →
  ∀ m2, Table_map root va pg flags m' = Ok m2 → ∃ B', new_page root va d flags m B m2 B' pg.
Proof.
  intros Hinv Hva Hfl Hus Hpg m2 Hmap. inv_bind. simplify_eq.
  match goal with H : Page_new m = Ok (_, ?k) |- _ => rename H into Hbox; rename k into m1 end.
  destruct (box_frame_Ok _ _ _ _ _ (pi_owned _ _ _ _ Hinv) Hbox) as (Ho & Hg & Hnl & Hb & Hfr & Hfa).
  destruct (pt_inv_page root m B pg d (ga m1) Hinv Hnl Hb Ho) as (Hinv1 & Hpm1 & Hfp1).
  assert (fill_page pg d m1 = KMem (ga m1) (<[pg := FPage d]> (frames m))) as Hfill.
  { unfold fill_page. by rewrite Hfr, insert_insert_eq. }
  rewrite Hfill in Hmap. unfold Table_map in Hmap. apply bind_Ok in Hmap as (u & _ & Hmap).
  destruct (map_addr_sets root va pg flags _ m2 _ Hinv1 Hva (frame_addr_usize _ Hfa) Hfl) as (B' & [Hi Hgr Hba Hframe Hmfp _] & Hlf).
  - intros _. cbn [ga frames]. split; [right; rewrite lookup_insert_eq; eauto|]. rewrite Hfp1.
    intros Hx. by apply Hnl, (pi_live _ _ _ _ Hinv).
  - done.
  - pose proof (map_addr_entry _ _ _ _ _ _ Hmap) as (_ & _ & Hme).
    assert (Hkeep : ∀ x d', live (ga m1) (<[pg := 1]> B) x → <[pg := FPage d]> (frames m) !! x = Some (FPage d') →
      frames m2 !! x = Some (FPage d')).
    { intros x d' Hx Hd. by eapply (map_entry_keeps va _ 2 root _ m2 (<[pg := 1]> B) x d'); cbn [ga frames]. }
    assert (B !! pg = None) as HBpg.
    { destruct (B !! pg) eqn:E; [|done]. destruct Hnl. right. by rewrite E. }
    exists B'. split.
    + done.
    + split_and!; [by transitivity (<[pg := 1]> B)|done|].
      eapply lookup_weaken; [|exact Hgr]. by rewrite lookup_insert_eq.
    + cbn [ga] in Hba. congruence.
    + apply Hkeep; [right; rewrite lookup_insert_eq; eauto|by rewrite lookup_insert_eq].
    + intros va' Hva'. rewrite Hlf by done. by rewrite Hpm1.
    + intros x [Hx|[Hx|[_ Hx]]]%Hmfp; cbn [ga frames] in *.
      * left. by apply Hfp1.
      * right. intros Hx'. apply Hx. by eapply live_mono.
      * right. destruct (leaf_entry_spec pg flags (frame_addr_usize _ Hfa)) as (_ & _ & _ & Hpa & _);
          [by destruct Hfa|done|]. congruence.
    + intros x d' Hx Hd. assert (x ≠ pg) by congruence. apply Hkeep; [by eapply live_mono|].
      by rewrite lookup_insert_ne.
    + intros x Hx Hout. rewrite Hframe; cbn [ga frames]; [|by eapply live_mono|by rewrite Hfp1].
      apply lookup_insert_ne. congruence.
Qed.

(** Pages [0..k) of a run of fresh pages from [va0] on, page [i] with contents [src i] *)
Record run_mapped (root va0 : Z) (src : Z → list Z) (flags : Z) m B (k : Z) mk : Prop := {
  rm_inv : ∃ Bk, pt_inv 2 mk Bk root ∧ B ⊆ Bk ∧ heap_base (ga mk) = heap_base (ga m) ∧
    ∀ i, 0 ≤ i < k → ∃ pg, page_map mk root (va0 + i * PAGE_SIZE) = Some (leaf_entry pg flags) ∧
      frames mk !! pg = Some (FPage (src i)) ∧ Bk !! pg = Some 1 ∧ B !! pg = None;
  rm_fp : ∀ x, fp 2 (frames mk) root x → fp 2 (frames m) root x ∨ ¬ live (ga m) B x;
  rm_other : ∀ va, canonical va → ¬ (va0 ≤ va < va0 + k * PAGE_SIZE) → page_map mk root va = page_map m root va;
  rm_keep : ∀ x d, live (ga m) B x → frames m !! x = Some (FPage d) → frames mk !! x = Some (FPage d);
  rm_frame : ∀ x, live (ga m) B x → ¬ fp 2 (frames m) root x → frames mk !! x = frames m !! x;
}.

Lemma run_mapped_start root va0 src flags m B :
  pt_inv 2 m B root → run_mapped root va0 src flags m B 0 m.
Proof.
  intros Hinv. split; [|by left|done..]. exists B. split_and!; [done..|]. intros i Hi. lia.
Qed.

Lemma run_mapped_step root va0 src flags m B k mk m1 m' pg :
  canonical va0 → 0 ≤ k → va0 + k * PAGE_SIZE < 2 ^ 39 → leaf_flags flags → is_user flags = true →
  run_mapped root va0 src flags m B k mk →
  ('(p, m1) ← Page_new mk; Ok (p, fill_page p (src k) m1)) = Ok (pg, m1) →
  Table_map root (va0 + k * PAGE_SIZE) pg flags m1 = Ok m' →
  run_mapped root va0 src flags m B (k + 1) m'.
Proof.
  intros [Hva Hal] Hk Hhi Hfl Hus [(Bk & Hinv & Hg & Hb & Hpages) Hrfp Hoth Hrk Hrf] Hpg Hmap. layout.
  assert (canonical (va0 + k * 4096)) as Hc by (split; [lia|layout; by rewrite Z.mod_add]).
  destruct (map_new_page root _ (src k) flags mk m1 Bk pg Hinv Hc Hfl Hus Hpg m' Hmap)
    as (B' & [Hi (Hgr & Hn & Hs) Hba Hd Hm Hnfp Hkeep Hnf]).
  assert (Hcan : ∀ i, 0 ≤ i ≤ k → canonical (va0 + i * 4096)).
  { intros i Hi'. split; [lia|]. layout. by rewrite Z.mod_add. }
  split.
  - exists B'. split_and!; [done|by transitivity Bk|lia|]. intros i Hik. layout.
    destruct (decide (i = k)) as [->|Hne].
    + exists pg. rewrite Hm by done. rewrite decide_True by done. split_and!; [done..|].
      destruct (B !! pg) eqn:E; [|done]. by rewrite (lookup_weaken B Bk pg _ E Hg) in Hn.
    + destruct (Hpages i) as (q & Hq & Hqd & HqB & HqN); [lia|]. exists q.
      rewrite Hm by (apply Hcan; lia). rewrite decide_False by lia.
      split_and!; [done| |by eapply lookup_weaken|done].
      apply Hkeep; [right; by rewrite HqB|done].
  - intros x [Hx|Hx]%Hnfp; [by apply Hrfp|]. right. intros Hx'. apply Hx. by eapply live_mono.
  - intros va Hva' Hout. layout. rewrite Hm by done. rewrite decide_False by lia. apply Hoth; [done|lia].
  - intros x d Hx Hxd. apply Hkeep; [by eapply live_mono|by apply Hrk].
  - intros x Hx Hout. rewrite Hnf; [by apply Hrf|by eapply live_mono|]. by intros [?|?]%Hrfp.
Qed.


(** Page [i] of the segment at [off] of the image *)
Definition seg_page (elf : list Z) (off i : Z) : list Z :=
  take 4096 (drop (Z.to_nat (off + i * 4096)) elf).

Lemma load_segment_run root vaddr elf off sz m m' B :
  pt_inv 2 m B root → canonical vaddr → 0 ≤ off → is_usize sz → sz + 4095 < 2 ^ 64 →
  vaddr + pages_of sz * PAGE_SIZE ≤ 2 ^ 39 →
  load_segment root vaddr elf off sz m = Ok m' →
  run_mapped root vaddr (seg_page elf off) EntryAttributes.URX m B (pages_of sz) m'.
Proof.
  intros Hinv Hva Hoff Hsz Hfit Hhi Hrun. unfold load_segment in Hrun.
  rewrite align_val_page, bind_Ok_l in Hrun by done. layout. rewrite Z.div_mul in Hrun by done.
  assert (0 ≤ pages_of sz) by (unfold pages_of, is_u in *; apply Z.div_pos; lia).
  revert Hrun. apply (for_range_inv (λ k mk, run_mapped root vaddr (seg_page elf off) EntryAttributes.URX m B k mk));
    [done|by apply run_mapped_start|].
  intros k t t' Hk Hrm Hbody. inv_ok.
  match goal with H : slice_at _ _ _ = Ok _ |- _ => unfold slice_at in H; destruct (_ && _); [injection H as <-|done] end.
  eapply run_mapped_step; [done|lia|by layout; lia|apply URX_flags|apply URX_flags|exact Hrm| |layout; exact Hbody].
  match goal with H : Page_new t = Ok _ |- _ => rewrite H end. done.
Qed.

(** ** The stack *)
Lemma map_stack_run root sb m sp m' B :
  pt_inv 2 m B root → canonical sb → sb + 4 * PAGE_SIZE ≤ 2 ^ 39 →
  map_stack root sb m = Ok (sp, m') →
  sp = sb + 4 * PAGE_SIZE ∧ run_mapped root sb (λ _, zero_page) EntryAttributes.URW m B 4 m'.
Proof.
  intros Hinv Hva Hhi Hrun. unfold map_stack in Hrun. apply bind_Ok in Hrun as (m1 & Hloop & Hrun).
  apply bind_Ok in Hrun as (sp' & Hsp & [= <- <-]). apply uadd_Ok in Hsp as [-> _].
  split; [change USER_STACK_PAGE with 4; lia|].
  revert Hloop. apply (for_range_inv (λ k mk, run_mapped root sb (λ _, zero_page) EntryAttributes.URW m B k mk));
    [done|by apply run_mapped_start|].
  intros k t t' Hk Hrm Hbody. unfold USER_STACK_PAGE in Hk. inv_ok.
  match goal with H : Page_new t = Ok (?p, ?k) |- _ => rename H into Hbox; rename k into t1 end.
  eapply run_mapped_step; [done|lia|layout; lia|apply URW_flags|apply URW_flags|exact Hrm| |layout; exact Hbody].
  rewrite Hbox. rewrite bind_Ok_l. f_equal. f_equal. unfold fill_page.
  unfold Page_new, box_frame in Hbox. inv_bind. simplify_eq. cbn [ga frames]. by rewrite insert_insert_eq.
Qed.

(** ** The whole image *)
(** The tree after a sequence of mappings below [top]: it owns fresh frames on top of
    what it owned, and maps what it mapped from [top] on. *)
Record grown (root top : Z) m B m' B' : Prop := {
  gr_inv : pt_inv 2 m' B' root;
  gr_grow : B ⊆ B';
  gr_base : heap_base (ga m') = heap_base (ga m);
  gr_fp : ∀ x, fp 2 (frames m') root x → fp 2 (frames m) root x ∨ ¬ live (ga m) B x;
  gr_top : ∀ va, canonical va → top ≤ va → page_map m' root va = page_map m root va;
}.

Lemma grown_refl root top m B : pt_inv 2 m B root → grown root top m B m B.
Proof. intros Hinv. split; auto. Qed.

Lemma grown_trans root top m B m1 B1 m2 B2 :
  grown root top m B m1 B1 → grown root top m1 B1 m2 B2 → grown root top m B m2 B2.
Proof.
  intros [I1 G1 H1 F1 T1] [I2 G2 H2 F2 T2]. split; [done|by transitivity B1|lia|..].
  - intros x [Hx|Hx]%F2; [by apply F1|]. right. intros Hx'. apply Hx. by eapply live_mono.
  - intros va Hva Htop. rewrite T2 by done. by apply T1.
Qed.

Lemma run_grown root top va0 src flags m B k m' :
  run_mapped root va0 src flags m B k m' → va0 + k * PAGE_SIZE ≤ top → ∃ B', grown root top m B m' B'.
Proof.
  intros [(B' & Hi & Hg & Hb & _) Hf Ho _ _] Htop. exists B'. split; try done.
  intros va Hva Hle. apply Ho; [done|lia].
Qed.

(** The segments of an image lie below [top]. *)
Definition segments_below (a : list Z) (top : Z) : Prop :=
  ∀ eh i hdr, elf_header a = Ok eh → 0 ≤ i < phnum eh →
    program_header a (as_i 64 (phoff eh) + i * size_of_ProgramHeader) = Ok hdr →
    ptype hdr = ELF_PROG_LOAD →
    0 ≤ ph_vaddr hdr ∧ 0 ≤ ph_off hdr ∧ 0 ≤ ph_filesz hdr < 2 ^ 63 ∧
    ph_vaddr hdr + pages_of (ph_filesz hdr) * PAGE_SIZE ≤ top.

Lemma load_program_header_grown a root hdr m m' B top :
  pt_inv 2 m B root → top ≤ 2 ^ 39 - PAGE_SIZE →
  (ptype hdr = ELF_PROG_LOAD → 0 ≤ ph_vaddr hdr ∧ 0 ≤ ph_off hdr ∧ 0 ≤ ph_filesz hdr < 2 ^ 63 ∧
    ph_vaddr hdr + pages_of (ph_filesz hdr) * PAGE_SIZE ≤ top) →
  load_program_header a root hdr m = Ok m' → ∃ B', grown root top m B m' B'.
Proof.
  intros Hinv Htop Hseg Hrun. unfold load_program_header in Hrun.
  destruct (Z.eqb_spec (ptype hdr) ELF_PROG_LOAD) as [E|E]; cbn [negb] in Hrun.
  - destruct (Hseg E) as (Hv & Ho & Hf & Ht). inv_ok. layout.
    assert (0 ≤ pages_of (ph_filesz hdr)) by (unfold pages_of; apply Z.div_pos; lia).
    eapply run_grown; [|layout; exact Ht]. eapply load_segment_run; [done| |exact Ho|..|exact Hrun].
    + split; [lia|]. layout. lia.
    + unfold is_u. lia.
    + lia.
    + layout. lia.
  - injection Hrun as <-. exists B. by apply grown_refl.
Qed.

Lemma parse_elf_grown a root m e m' B top :
  pt_inv 2 m B root → top ≤ 2 ^ 39 - PAGE_SIZE → segments_below a top →
  parse_elf a root m = Ok (e, m') → ∃ B', grown root top m B m' B'.
Proof.
  intros Hinv Htop Hseg Hrun. unfold parse_elf in Hrun. apply bind_Ok in Hrun as (eh & Heh & Hrun).
  apply bind_Ok in Hrun as (u & _ & Hrun). apply bind_Ok in Hrun as (m1 & Hloop & [= <- <-]).
  destruct (decide (0 ≤ phnum eh)) as [Hn|Hn].
  - revert Hloop. apply (for_range_inv (λ k mk, ∃ Bk, grown root top m B mk Bk)); [done|exists B; by apply grown_refl|].
    intros k t t' Hk [Bk Hgk] Hbody. apply bind_Ok in Hbody as (hdr & Hhdr & Hbody).
    destruct (load_program_header_grown a root hdr t t' Bk top) as [B' HB']; [apply Hgk|done| |done|].
    + intros Hp. by apply (Hseg eh k hdr).
    + exists B'. by eapply grown_trans.
  - unfold for_range in Hloop. rewrite Z2Nat.nonpos in Hloop by lia. injection Hloop as <-.
    exists B. by apply grown_refl.
Qed.

(** ** Other allocations leave the tree alone. *)
Lemma alloc_bytes_inv size p m m' B root :
  0 < size → size + 4095 < 2 ^ 64 → pt_inv 2 m B root → alloc_bytes size m = Ok (p, m') →
  frames m' = frames m ∧ heap_base (ga m') = heap_base (ga m) ∧ ¬ live (ga m) B p ∧
  B !! p = None ∧ pt_inv 2 m' (<[p := pages_of size]> B) root.
Proof.
  intros Hs Hf [Ho Hw Hl] Hal. unfold alloc_bytes in Hal. inv_bind. simplify_eq. cbn [ga frames].
  match goal with H : galloc size (ga m) = Ok _ |- _ => destruct (galloc_new _ B _ _ _ Ho Hs Hf H) as (Hn & Hlo & Hb & Ho') end.
  split_and!; [done|done| |done|].
  - intros [?|[n Hn']]; [lia|congruence].
  - split; cbn [ga frames]; [done|done|]. intros x Hx%Hl. eapply live_mono; [exact Hb| |exact Hx]. by apply insert_subseteq.
Qed.

Lemma free_bytes_inv p n m B root :
  pt_inv 2 m B root → B !! p = Some n → ¬ fp 2 (frames m) root p →
  ∃ m', free_bytes p m = Ok m' ∧ frames m' = frames m ∧ pt_inv 2 m' (delete p B) root.
Proof.
  intros [Ho Hw Hl] HB Hp. destruct (gdealloc_owned _ B p n Ho HB) as (a' & Ha & Hb & Ho').
  exists (KMem a' (frames m)). unfold free_bytes. rewrite Ha. split_and!; [done..|].
  split; cbn [ga frames]; [done|done|]. intros x Hx. destruct (Hl x Hx) as [?|[k Hk]]; [left; lia|right].
  exists k. apply lookup_delete_Some. split; [congruence|done].
Qed.

(** A segment that is loaded lies in the image. *)
Lemma load_segment_in_image root vaddr elf off sz m m' :
  is_usize sz → sz + 4095 < 2 ^ 64 → load_segment root vaddr elf off sz m = Ok m' →
  ∀ i, 0 ≤ i < pages_of sz → 0 ≤ off + i * 4096 ∧ off + i * 4096 + 4096 ≤ Z.of_nat (length elf).
Proof.
  intros Hsz Hfit Hrun. unfold load_segment in Hrun.
  rewrite align_val_page, bind_Ok_l in Hrun by done. layout. rewrite Z.div_mul in Hrun by done.
  assert (0 ≤ pages_of sz) by (unfold pages_of, is_u in *; apply Z.div_pos; lia).
  revert Hrun. apply (for_range_inv (λ k _, ∀ i, 0 ≤ i < k → 0 ≤ off + i * 4096 ∧ off + i * 4096 + 4096 ≤ Z.of_nat (length elf)));
    [done|lia|].
  intros k t t' Hk IH Hbody. inv_ok.
  match goal with H : slice_at _ _ _ = Ok _ |- _ =>
    unfold slice_at in H; destruct (_ && _) eqn:E; [|done]; apply andb_true_iff in E as [? ?] end.
  layout. intros i Hi. destruct (decide (i = k)) as [->|]; [lia|apply IH; lia].
Qed.

Lemma seg_page_length elf off i :
  0 ≤ off + i * 4096 → off + i * 4096 + 4096 ≤ Z.of_nat (length elf) → length (seg_page elf off i) = 4096%nat.
Proof. intros. unfold seg_page. rewrite length_take, length_drop. lia. Qed.

(** C34: a LOAD program header with memsz below filesz, with an end that overflows, or
    with an unaligned address stops the loader with the panic of that check; when the
    header, whose size in the file and offset are below 2^63 and whose file pages end
    below the last page of the 39-bit address space, is loaded, page i of the segment
    is mapped at vaddr + 4096 i, user read-execute, to a page not allocated before
    that holds the 4096 image bytes from off + 4096 i on, and no other mapping
    changes: what memsz has beyond the pages of filesz stays unmapped. *)
Theorem elf_segment_mapped a root hdr m B :
  pt_inv 2 m B root → ptype hdr = ELF_PROG_LOAD → is_u 63 (ph_filesz hdr) → is_u 63 (ph_off hdr) →
  is_u 64 (ph_vaddr hdr) → ph_vaddr hdr + pages_of (ph_filesz hdr) * PAGE_SIZE ≤ 2 ^ 39 - PAGE_SIZE →
  (ph_memsz hdr < ph_filesz hdr → load_program_header a root hdr m = Err (Panic "bad elf: memsz")) ∧
  (ph_filesz hdr ≤ ph_memsz hdr → 2 ^ 64 ≤ ph_vaddr hdr + ph_memsz hdr →
     load_program_header a root hdr m = Err Overflow) ∧
  (ph_filesz hdr ≤ ph_memsz hdr → ph_vaddr hdr + ph_memsz hdr < 2 ^ 64 → ph_vaddr hdr mod PAGE_SIZE ≠ 0 →
     load_program_header a root hdr m = Err (Panic "bad elf: vaddr align")) ∧
  ∀ m', load_program_header a root hdr m = Ok m' →
    ∃ B', pt_inv 2 m' B' root ∧ B ⊆ B' ∧
      (∀ i, 0 ≤ i < pages_of (ph_filesz hdr) → ∃ pg,
         page_map m' root (ph_vaddr hdr + i * PAGE_SIZE) = Some (leaf_entry pg EntryAttributes.URX) ∧
         B !! pg = None ∧ B' !! pg = Some 1 ∧
         frames m' !! pg = Some (FPage (seg_page a (ph_off hdr) i)) ∧
         length (seg_page a (ph_off hdr) i) = 4096%nat) ∧
      (∀ va, canonical va →
         ¬ (ph_vaddr hdr ≤ va < ph_vaddr hdr + pages_of (ph_filesz hdr) * PAGE_SIZE) →
         page_map m' root va = page_map m root va).
Proof.
  intros Hinv Hp Hf Ho Hv Hhi. unfold load_program_header. rewrite Hp, Z.eqb_refl. cbn [negb].
  split_and!.
  - intros Hlt%Z.ltb_lt. by rewrite Hlt.
  - intros Hge%Z.ltb_ge Hov. rewrite Hge. cbn [panic_if]. rewrite bind_Ok_l. unfold uadd.
    by rewrite (proj2 (Z.ltb_ge _ _) Hov).
  - intros Hge Hov Hal. rewrite (proj2 (Z.ltb_ge _ _) Hge). cbn [panic_if]. rewrite bind_Ok_l. unfold uadd.
    rewrite (proj2 (Z.ltb_lt _ _) Hov), bind_Ok_l. unfold is_u in *.
    rewrite (proj2 (Z.ltb_ge (ph_vaddr hdr + _) _)) by lia. cbn [panic_if]. rewrite bind_Ok_l.
    by rewrite (proj2 (Z.eqb_neq _ _) Hal).
  - intros m' Hrun. inv_ok. layout. unfold is_u in *.
    assert (0 ≤ pages_of (ph_filesz hdr)) by (unfold pages_of; apply Z.div_pos; lia).
    assert (ph_vaddr hdr mod 4096 = 0) as Hal by lia.
    match goal with H : load_segment _ _ _ _ _ _ = Ok _ |- _ => rename H into Hseg end.
    pose proof (load_segment_in_image _ _ _ _ (ph_filesz hdr) _ _ ltac:(unfold is_u; lia) ltac:(lia) Hseg) as Hin.
    destruct (load_segment_run root (ph_vaddr hdr) a (ph_off hdr) (ph_filesz hdr) m m' B)
      as [(B' & Hi & Hg & _ & Hpg) _ Hoth]; [done|split; [lia|by layout]|lia|unfold is_u; lia|lia|layout; lia|done|].
    layout. exists B'. split_and!; [done|done| |done].
    intros i Hi'. destruct (Hpg i Hi') as (pg & ? & ? & ? & ?). exists pg. split_and!; try done.
    apply seg_page_length; by apply Hin.
Qed.

Section exec.
Context {D : Type} `{BlockDevice D}.

(** What [exec] leaves: the kernel part of the old space from the trapframe on, the
    stack, and the registers of the new program. *)
Record exec_post (root : Z) m (p p' : Process) (content : list Z) m' : Prop := {
  ep_inv : ∃ B', pt_inv 2 m' B' root;
  ep_kernel : ∀ va, canonical va → TRAPFRAME_START ≤ va →
    page_map m' root va = kernel_part (page_map m root va);
  ep_stack : ∀ i, 0 ≤ i < 4 → ∃ pg, page_map m' root (0x80001000 + i * PAGE_SIZE) =
    Some (leaf_entry pg EntryAttributes.URW) ∧ frames m' !! pg = Some (FPage zero_page);
  ep_regs : regs (trapframe p') !! 2%nat = Some 0x80005000 ∧
    ∃ eh, elf_header content = Ok eh ∧ magic eh = ELF_MAGIC ∧ epc (trapframe p') = entry eh;
}.

(** C15: when exec succeeds on a file whose LOAD segments end below the trapframe, the
    address space is well-formed, maps from the trapframe on what its kernel part
    mapped before, has four zeroed user stack pages at 0x80001000, and the trapframe
    has sp at the end of the stack and epc at the entry point of an ELF image with the
    right magic number. *)
Theorem exec_replaces_user_half path p (d d1 d' : D) content m B p' m' :
  pt_inv 2 m B (pgtable p) → user_boxed 2 m B (pgtable p) →
  length (regs (trapframe p)) = 32%nat →
  exec_read path d = Ok (content, d1) → segments_below content TRAPFRAME_START →
  exec path p d m = Ok (p', d', m') → exec_post (pgtable p) m p p' content m'.
Proof.
  intros Hinv Hbox Hregs Hread Hseg Hrun. unfold exec in Hrun.
  apply bind_Ok in Hrun as ([b m0] & Hal & Hrun). rewrite Hread, bind_Ok_l in Hrun.
  apply bind_Ok in Hrun as (m1 & Hum & Hrun). apply bind_Ok in Hrun as ([e m2] & Hpe & Hrun).
  apply bind_Ok in Hrun as ([sp m3] & Hst & Hrun). apply bind_Ok in Hrun as (tf & Htf & Hrun).
  apply bind_Ok in Hrun as (m4 & Hfr & [= <- _ <-]). set (root := pgtable p) in *.
  destruct (alloc_bytes_inv 131072 b m m0 B root) as (Hf0 & Hb0 & Hnl & HBb & Hinv0); [lia|lia|done..|].
  set (B0 := <[b := pages_of 131072]> B) in *.
  assert (Hnfp : ¬ fp 2 (frames m0) root b).
  { rewrite Hf0. intros Hx. by apply Hnl, (pi_live _ _ _ _ Hinv). }
  assert (Hbox0 : user_boxed 2 m0 B0 root).
  { intros x Hx. rewrite Hf0 in Hx. destruct (Hbox x Hx) as [n Hn]. exists n.
    unfold B0. rewrite lookup_insert_ne; [done|]. intros <-. congruence. }
  destruct (unmap_user_level 2 root m0 B0 Hinv0 Hbox0) as (m1' & B1 & Hum' & [Hi1 Hb1 Hfd _ Hfp1 Hlf1]).
  assert (m1' = m1) as -> by congruence.
  assert (HB1 : B1 !! b = Some (pages_of 131072)).
  { apply (Hfd b). split; [apply lookup_insert_eq|]. intros Hx%upages_fp. done. }
  assert (Hnfp1 : ¬ fp 2 (frames m1) root b) by (intros Hx%Hfp1; done).
  destruct (parse_elf_grown content root m1 e m2 B1 TRAPFRAME_START) as (B2 & Hg2); [done|by layout|done|done|].
  destruct (map_stack_run root 0x80001000 m2 sp m3 B2) as [-> Hrm]; [apply Hg2|done|by layout|done|].
  destruct (run_grown root TRAPFRAME_START _ _ _ _ _ _ _ Hrm) as (B3 & Hg3); [by layout|].
  pose proof (grown_trans _ _ _ _ _ _ _ _ Hg2 Hg3) as [Hi3 HG3 Hb3 Hfp3 Htop3].
  destruct (free_bytes_inv b (pages_of 131072) m3 B3 root) as (m4' & Hfr' & Hf4 & Hi4); [done|by eapply lookup_weaken| |].
  { intros [Hx|Hx]%Hfp3; [done|]. apply Hx. right. by rewrite HB1. }
  assert (m4' = m4) as -> by congruence. split.
  - eauto.
  - intros va Hva Hle. unfold page_map in *. rewrite Hf4, Htop3, Hlf1 by done. by rewrite Hf0.
  - intros i Hi. destruct Hrm as [(Bs & _ & _ & _ & Hpg) _ _]. destruct (Hpg i Hi) as (pg & Hm & Hd & _).
    exists pg. unfold page_map in *. by rewrite Hf4.
  - unfold set_reg in Htf. apply bind_Ok in Htf as (rs & Hrs & [= <-]). apply aset_Ok in Hrs as [_ ->].
    split.
    { cbn [regs trapframe set_trapframe set_epc]. change (Z.to_nat Register.sp) with 2%nat.
      rewrite list_lookup_insert_eq; [by layout|]. rewrite Hregs. lia. }
    unfold parse_elf in Hpe. apply bind_Ok in Hpe as (eh & Heh & Hpe). apply bind_Ok in Hpe as (u & Hmg & Hpe).
    apply bind_Ok in Hpe as (m5 & _ & [= <- _]). exists eh. split_and!; [done| |done].
    destruct u. apply panic_if_Ok, negb_false_iff, Z.eqb_eq in Hmg. done.
Qed.
End exec.
End loader.

(** ** [exec] of the file [/a] in the address space [ptu] *)
Definition proc0 : Process :=
  mkProcess root0 0x80400000 TrapFrame_zero Context_zero RUNNING 0x80800000 0x80c00000 1 0 false
    (replicate 256 None).
Definition image0 : list Z := (or_else (exec_read file_a disk0) ([], disk0)).1.
Definition hdr0 : ProgramHeader := mkProgramHeader 1 1024 0x1000 100 200.

Lemma image0_run : ∃ d1, exec_read file_a disk0 = Ok (image0, d1).
Proof.
  destruct (is_ok_Ok (exec_read file_a disk0)) as [[c d1] Hr]; [vm_compute; reflexivity|].
  exists d1. unfold image0. rewrite Hr. reflexivity.
Qed.

Lemma image0_headers :
  elf_header image0 = Ok (mkELFHeader ELF_MAGIC 0x1000 64 1) ∧ program_header image0 64 = Ok hdr0.
Proof. split; vm_compute; reflexivity. Qed.

#[local] Opaque image0.

Lemma image0_below : segments_below image0 TRAPFRAME_START.
Proof.
  destruct image0_headers as [He Hp]. intros eh i hdr Heh Hi Hph _.
  rewrite He in Heh. injection Heh as <-. cbn [phnum phoff] in *. assert (i = 0) as -> by lia.
  rewrite (eq_refl : as_i 64 64 + 0 * size_of_ProgramHeader = 64), Hp in Hph. injection Hph as <-.
  vm_compute. intuition discriminate.
Qed.

(** The loader does not look at the addresses of a segment: one at the trapframe takes
    the place of the kernel's mapping there, for any user program to read. *)
Theorem segment_over_trapframe :
  ∃ pg, pg ≠ upage ∧
    (m ← kernel_map root0 TRAPFRAME_START upage EntryAttributes.RW pt0';
     m' ← load_program_header image0 root0 (mkProgramHeader 1 1024 TRAPFRAME_START 100 200) m;
     Ok (page_map m root0 TRAPFRAME_START, page_map m' root0 TRAPFRAME_START)) =
    Ok (Some (leaf_entry upage EntryAttributes.RW), Some (leaf_entry pg EntryAttributes.URX)).
Proof. exists (upage + 3 * PAGE_SIZE). split; [layout; lia|]. vm_compute. reflexivity. Qed.

Lemma elf_segment_mapped_witness :
  ∃ m' pg, load_program_header image0 root0 hdr0 pt0 = Ok m' ∧
    page_map m' root0 0x1000 = Some (leaf_entry pg EntryAttributes.URX) ∧
    frames m' !! pg = Some (FPage (seg_page image0 1024 0)).
Proof.
  destruct (is_ok_Ok (load_program_header image0 root0 hdr0 pt0)) as [m' Hm]; [vm_compute; reflexivity|].
  destruct (elf_segment_mapped image0 root0 hdr0 pt0 ∅ pt0_inv) as (_ & _ & _ & Hrun);
    [reflexivity|split; cbn; lia|split; cbn; lia|split; cbn; lia|vm_compute; discriminate|].
  destruct (Hrun m' Hm) as (B' & _ & _ & Hpg & _).
  destruct (Hpg 0 (conj (Z.le_refl 0) eq_refl)) as (pg & H1 & _ & _ & H2 & _).
  exists m', pg. split_and!; [exact Hm|exact H1|exact H2].
Defined.

Lemma exec_replaces_user_half_witness :
  ∃ p' d' m', exec file_a proc0 disk0 ptu = Ok (p', d', m') ∧ exec_post root0 ptu proc0 p' image0 m'.
Proof.
  destruct (is_ok_Ok (exec file_a proc0 disk0 ptu)) as [[[p' d'] m'] Hr]; [vm_compute; reflexivity|].
  destruct image0_run as [d1 Hd]. destruct ptu_inv as (B & Hi & Hb).
  exists p', d', m'. split; [exact Hr|].
  apply (exec_replaces_user_half file_a proc0 disk0 d1 d' image0 ptu B p' m' Hi
    (tree_boxed_user _ _ _ Hi Hb)); [reflexivity|exact Hd|apply image0_below|exact Hr].
Defined.
