(* ===== verification/Syscall.v ===== *)
(** * System calls

    [syscall.rs], [syscall/file.rs], the numbers of [syscall/gen.rs], the [File] of
    [file.rs] and the in-kernel tests ([test.rs]) that [sys_exec] runs before [/init].

    A system call works on the current process, the kernel's memory (user pages are
    reached through their physical address), the disk, the devices, the shared files
    and the pool.  A file is shared by reference count: [k_arcs] maps the address of an
    [Arc] to its file and its strong count, and a file table holds addresses.  Log
    output ([info!]) is left out.  The sections of [fork] on the pool run without other
    harts in between here; Sched.v interleaves them. *)

From S2P Require Import Prelude Symbols Mem Page PageTree PageOps Hart Proc Devices Uart Virtio FsFile Exec.

(** ** [file.rs] and the strong counts of [Arc] *)
Inductive device := Console.
Inductive File :=
  | Device (dev : device)
  | FsFileF (f : FsFile)
  | Pipe.

(** ** [syscall/gen.rs] *)
Definition SYS_FORK : Z := 0.
Definition SYS_EXIT : Z := 1.
Definition SYS_WAIT : Z := 2.
Definition SYS_PIPE : Z := 3.
Definition SYS_READ : Z := 4.
Definition SYS_WRITE : Z := 5.
Definition SYS_CLOSE : Z := 6.
Definition SYS_KILL : Z := 7.
Definition SYS_EXEC : Z := 8.
Definition SYS_OPEN : Z := 9.
Definition SYS_MKNOD : Z := 10.
Definition SYS_UNLINK : Z := 11.
Definition SYS_FSTAT : Z := 12.
Definition SYS_LINK : Z := 13.
Definition SYS_MKDIR : Z := 14.
Definition SYS_CHDIR : Z := 15.
Definition SYS_DUP : Z := 16.
Definition SYS_GETPID : Z := 17.
Definition SYS_SBRK : Z := 18.
Definition SYS_SLEEP : Z := 19.
Definition SYS_UPTIME : Z := 20.

(** ** Arguments *)
Definition argraw (tf : TrapFrame) (pos : Z) : result Z :=
  match pos with
  | 0 => aget (regs tf) Register.a0
  | 1 => aget (regs tf) Register.a1
  | 2 => aget (regs tf) Register.a2
  | 3 => aget (regs tf) Register.a3
  | 4 => aget (regs tf) Register.a4
  | 5 => aget (regs tf) Register.a5
  | _ => Err Unreachable
  end.
Definition arg_int (tf : TrapFrame) (pos : Z) : result Z := x ← argraw tf pos; Ok (as_i 32 x).
Definition arg_uint (tf : TrapFrame) (pos : Z) : result Z :=
  x ← argraw tf pos;
  let sz := as_i 32 x in
  _ ← panic_if (sz <? 0) (Panic "invalid unsigned int");
  Ok sz.

(** The address of the file behind a descriptor *)
Definition arg_fd (p : Process) (pos : Z) : result Z :=
  fd ← argraw (trapframe p) pos;
  o ← aget (files p) fd;
  match o with Some x => Ok x | None => Err (Panic "invalid file handler {}") end.

(** [for i in 0..files.len()]; a table has 256 entries. *)
Definition next_available_fd (files : list (option Z)) : result (option Z) :=
  c ← ctl_range 0 (Z.of_nat (length files)) (λ i (_ : unit),
    o ← aget files i;
    match o with None => Ok (Stop i) | Some _ => Ok (Next tt) end) tt;
  Ok (match c with Stop i => Some i | Next _ => None end).

Section user_memory.
Context {A : Type} `{GlobalAlloc A}.
Implicit Types m : kmem A.

Definition arg_ptr (pgtable : Z) (tf : TrapFrame) (pos sz : Z) m : result Z :=
  ptr ← argraw tf pos;
  pg_begin ← page_down ptr;
  e ← uadd 64 ptr sz;
  pe ← uadd 64 pg_begin PAGE_SIZE;
  _ ← panic_if (pe <=? e) (Panic "out of bound!");
  o ← paddr_of pgtable pg_begin m;
  paddr ← unwrap o;
  off ← usub ptr pg_begin;
  Ok (paddr + off).
Definition arg_ptr_mut (pgtable : Z) (tf : TrapFrame) (pos sz : Z) m : result Z :=
  arg_ptr pgtable tf pos sz m.

(** [slice::from_raw_parts(ptr, sz)] inside one page: the bytes, and the bytes written
    through it; an empty slice touches no memory. *)
Definition page_base (ptr : Z) : Z := ptr - ptr mod PAGE_SIZE.
Definition slice_read (ptr sz : Z) m : result (list Z) :=
  if sz =? 0 then Ok []
  else d ← page_at m (page_base ptr); slice_at d (ptr mod PAGE_SIZE) sz.
Definition slice_write (ptr : Z) (bs : list Z) m : result (kmem A) :=
  if (length bs =? 0)%nat then Ok m
  else
    d ← page_at m (page_base ptr);
    _ ← slice_at d (ptr mod PAGE_SIZE) (Z.of_nat (length bs));
    let o := Z.to_nat (ptr mod PAGE_SIZE) in
    Ok (fill_page (page_base ptr) (take o d ++ bs ++ drop (o + length bs) d) m).
End user_memory.

(** ** The state of a system call *)
Record kst (A BD MD : Type) := KSt {
  k_proc : Process;
  k_mem : kmem A;
  k_disk : BD;
  k_dev : MD;
  k_arcs : gmap Z (File * Z);
  k_pool : Pool;
}.
Arguments KSt {A BD MD}.
Arguments k_proc {A BD MD}.
Arguments k_mem {A BD MD}.
Arguments k_disk {A BD MD}.
Arguments k_dev {A BD MD}.
Arguments k_arcs {A BD MD}.
Arguments k_pool {A BD MD}.

(** A system call returns to its caller, or the process never runs again. *)
Inductive outcome (S : Type) := Returns (v : Z) (s : S) | Exits (s : S).
Arguments Returns {S}.
Arguments Exits {S}.

Section calls.
Context {A BD MD : Type} `{GlobalAlloc A} `{BlockDevice BD} `{Mmio MD}.
(** The linked kernel, the addresses of [forkret] and of the static [VirtIOData],
    [size_of::<ArcInner<File>>()] and the bound on polls of the UART *)
Context (sym : linker_symbols) (forkret vio_at arc_size : Z) (fuel : nat).
Implicit Types s : kst A BD MD.

Definition with_proc s (p : Process) : kst A BD MD := KSt p (k_mem s) (k_disk s) (k_dev s) (k_arcs s) (k_pool s).
Definition with_mem s (m : kmem A) : kst A BD MD := KSt (k_proc s) m (k_disk s) (k_dev s) (k_arcs s) (k_pool s).
Definition with_disk s (d : BD) : kst A BD MD := KSt (k_proc s) (k_mem s) d (k_dev s) (k_arcs s) (k_pool s).
Definition with_dev s (d : MD) : kst A BD MD := KSt (k_proc s) (k_mem s) (k_disk s) d (k_arcs s) (k_pool s).
Definition with_arcs s (a : gmap Z (File * Z)) : kst A BD MD := KSt (k_proc s) (k_mem s) (k_disk s) (k_dev s) a (k_pool s).
Definition with_pool s (pl : Pool) : kst A BD MD := KSt (k_proc s) (k_mem s) (k_disk s) (k_dev s) (k_arcs s) pl.

(** [Arc::new], [Arc::clone] (which aborts past [isize::MAX]) and the drop of an [Arc] *)
Definition arc_new (f : File) s : result (Z * kst A BD MD) :=
  '(a, m) ← alloc_bytes arc_size (k_mem s);
  Ok (a, with_arcs (with_mem s m) (<[a := (f, 1)]> (k_arcs s))).
Definition arc_clone (a : Z) s : result (kst A BD MD) :=
  match k_arcs s !! a with
  | Some (f, n) => n ← isize (n + 1); Ok (with_arcs s (<[a := (f, n)]> (k_arcs s)))
  | None => Err BadAccess
  end.
Definition arc_drop (a : Z) s : result (kst A BD MD) :=
  match k_arcs s !! a with
  | Some (f, n) =>
      if n =? 1 then m ← free_bytes a (k_mem s); Ok (with_arcs (with_mem s m) (delete a (k_arcs s)))
      else Ok (with_arcs s (<[a := (f, n - 1)]> (k_arcs s)))
  | None => Err BadAccess
  end.
Definition arc_get (a : Z) s : result File :=
  match k_arcs s !! a with Some (f, _) => Ok f | None => Err BadAccess end.
(** Interior mutability: the file behind the [Arc] changes, its count does not. *)
Definition arc_put (a : Z) (f : File) s : kst A BD MD :=
  with_arcs s (alter (λ '(_, n), (f, n)) a (k_arcs s)).

(** [p.files[fd] = o]: what was there is dropped. *)
Definition assign_file (fd : Z) (o : option Z) s : result (kst A BD MD) :=
  let p := k_proc s in
  old ← aget (files p) fd;
  fs ← aset (files p) fd o;
  let s := with_proc s (set_files fs p) in
  match old with Some a => arc_drop a s | None => Ok s end.

(** ** [syscall/file.rs] *)
Definition sys_write s : result (Z * kst A BD MD) :=
  let p := k_proc s in
  sz ← arg_uint (trapframe p) 2;
  _ ← panic_if (BSIZE <? sz) (Panic "size > BSIZE not supported");
  content ← arg_ptr (pgtable p) (trapframe p) 1 sz (k_mem s);
  u8_slice ← slice_read content sz (k_mem s);
  file ← arg_fd p 0;
  f ← arc_get file s;
  match f with
  | Device Console => '(n, d) ← Console_write fuel u8_slice (k_dev s); Ok (n, with_dev s d)
  | FsFileF f => n ← FsFile_write f u8_slice; Ok (n, s)
  | Pipe => Err Unimplemented
  end.

Definition sys_read s : result (Z * kst A BD MD) :=
  let p := k_proc s in
  sz ← arg_uint (trapframe p) 2;
  _ ← panic_if (BSIZE <? sz) (Panic "size > BSIZE not supported");
  content ← arg_ptr_mut (pgtable p) (trapframe p) 1 sz (k_mem s);
  u8_slice ← slice_read content sz (k_mem s);
  file ← arg_fd p 0;
  f ← arc_get file s;
  match f with
  | Device Console =>
      '(n, buf, d) ← Console_read u8_slice (k_dev s);
      m ← slice_write content buf (k_mem s);
      Ok (n, with_dev (with_mem s m) d)
  | FsFileF f =>
      '(n, buf, f, d) ← FsFile_read f u8_slice (k_disk s);
      m ← slice_write content buf (k_mem s);
      Ok (n, arc_put file (FsFileF f) (with_disk (with_mem s m) d))
  | Pipe => Err Unimplemented
  end.

Definition sys_open s : result (Z * kst A BD MD) :=
  let p := k_proc s in
  sz ← arg_uint (trapframe p) 1;
  mode ← arg_uint (trapframe p) 2;
  content ← arg_ptr (pgtable p) (trapframe p) 0 sz (k_mem s);
  path ← slice_read content sz (k_mem s);
  _ ← panic_if (negb (from_utf8 path)) utf8_error;
  o ← next_available_fd (files p);
  match o with
  | None => Ok (-1, s)
  | Some fd =>
      '(a, s) ←
        (if bool_decide (path = bytes "/console") then arc_new (Device Console) s
         else '(f, d) ← FsFile_open path mode (k_disk s); arc_new (FsFileF f) (with_disk s d));
      s ← assign_file fd (Some a) s;
      Ok (as_i 32 fd, s)
  end.

Definition sys_close s : result (Z * kst A BD MD) :=
  x ← arg_int (trapframe (k_proc s)) 0;
  s ← assign_file (as_u 64 x) None s;
  Ok (0, s).

Definition sys_dup s : result (Z * kst A BD MD) :=
  let p := k_proc s in
  old_fd ← arg_uint (trapframe p) 0;
  o ← next_available_fd (files p);
  match o with
  | None => Ok (-1, s)
  | Some fd =>
      x ← aget (files p) old_fd;
      a ← unwrap x;
      s ← arc_clone a s;
      s ← assign_file fd (Some a) s;
      Ok (as_i 32 fd, s)
  end.

(** ** [test.rs]: the suites, without their output *)
(** [assert_eq!] *)
Definition assert_that (b : bool) : result unit := panic_if (negb b) (Panic "assertion failed").
(** [test_memory_layout] of [virtio.rs]; [VirtIOData] is [repr(C)], so that [used] comes
    after the 16-byte descriptors and the 2-byte entries of [avail]. *)
Definition used_offset : Z := DESC_NUM * 16 + AVAIL_SZ * 2.
Definition test_memory_layout : result unit :=
  let desc_at := vio_at in
  let used_at := vio_at + used_offset in
  _ ← assert_that (desc_at mod PAGE_SIZE =? 0);
  _ ← assert_that (used_at mod PAGE_SIZE =? 0);
  d ← usub used_at desc_at;
  assert_that (d =? PAGE_SIZE).
(** [test_rw] of [virtio.rs]: the name in block 0 is read up to its end. *)
Definition test_rw (d : BD) : result BD :=
  '(b, d) ← bread d 1 0;
  _ ← ctl_range 16 (Z.of_nat (length b)) (λ i (_ : unit),
    x ← aget b i; if x =? 0 then Ok (Stop tt) else Ok (Next tt)) tt;
  Ok d.
Definition test_open (d : BD) : result BD := '(_, d) ← FsFile_open (bytes "/test.txt") 0 d; Ok d.
Definition test_read (d : BD) : result BD :=
  '(f, d) ← FsFile_open (bytes "/test.txt") 0 d;
  '(n, content, _, d) ← FsFile_read f (replicate 10 0) d;
  _ ← assert_that (n =? 10);
  _ ← assert_that (bool_decide (content = bytes "0123456789"));
  Ok d.
(** [while f.read(&mut content) == 1024 {}]: a file has no more whole blocks than this. *)
Fixpoint read_all (n : nat) (f : FsFile) (content : list Z) (d : BD) : result BD :=
  match n with
  | O => Err NoFuel
  | S n =>
      '(k, content, f, d) ← FsFile_read f content d;
      if k =? 1024 then read_all n f content d else Ok d
  end.
Definition test_read_elf (d : BD) : result BD :=
  '(f, d) ← FsFile_open (bytes "/test1") 0 d;
  read_all (Z.to_nat (sz f / 1024) + 1) f (replicate 1024 0) d.
Definition run_tests (d : BD) : result BD :=
  _ ← test_memory_layout;
  d ← test_rw d;
  d ← test_open d;
  d ← test_read d;
  test_read_elf d.

(** ** [syscall.rs] *)
(** [fork]: the copies of the [Arc]s, and the child, boxed, in the pool *)
Definition clone_files (fs : list (option Z)) s : result (kst A BD MD) :=
  for_range 0 256 (λ i s,
    o ← aget fs i;
    match o with Some a => arc_clone a s | None => Ok s end) s.
Definition sys_fork s : result (Z * kst A BD MD) :=
  let p := k_proc s in
  o ← find_available_pid (k_pool s);
  match o with
  | None => Err (Panic "pid unavailable")
  | Some f_pid =>
      '(fork_p, m) ← fork_build sym forkret f_pid p (k_mem s);
      s ← clone_files (files p) (with_mem s m);
      '(_, m) ← alloc_bytes PAGE_SIZE (k_mem s);
      '(_, pl) ← put_back_proc fork_p (k_pool s);
      Ok (f_pid, with_pool (with_mem s m) pl)
  end.

Definition sys_exec s : result (Z * kst A BD MD) :=
  let p := k_proc s in
  sz ← arg_uint (trapframe p) 1;
  ptr ← arg_ptr (pgtable p) (trapframe p) 0 sz (k_mem s);
  path ← slice_read ptr sz (k_mem s);
  _ ← panic_if (negb (from_utf8 path)) utf8_error;
  d ← (if bool_decide (path = bytes "/init") then run_tests (k_disk s) else Ok (k_disk s));
  '(p, d, m) ← exec path p d (k_mem s);
  Ok (0, with_proc (with_disk (with_mem s m) d) p).

Definition sys_exit s : result (kst A BD MD) :=
  let p := k_proc s in
  code ← arg_int (trapframe p) 0;
  _ ← panic_if (pid p =? 0) (Panic "init exiting");
  Ok (with_proc s (set_state ZOMBIE p)).

Definition returns (r : result (Z * kst A BD MD)) : result (outcome (kst A BD MD)) :=
  '(v, s) ← r; Ok (Returns v s).
Definition syscall s : result (outcome (kst A BD MD)) :=
  x ← aget (regs (trapframe (k_proc s))) Register.a7;
  let syscall_id := as_i 64 x in
  if syscall_id =? SYS_WRITE then returns (sys_write s)
  else if syscall_id =? SYS_READ then returns (sys_read s)
  else if syscall_id =? SYS_FORK then returns (sys_fork s)
  else if syscall_id =? SYS_EXEC then returns (sys_exec s)
  else if syscall_id =? SYS_EXIT then s ← sys_exit s; Ok (Exits s)
  else if syscall_id =? SYS_DUP then returns (sys_dup s)
  else if syscall_id =? SYS_OPEN then returns (sys_open s)
  else if syscall_id =? SYS_CLOSE then returns (sys_close s)
  else Err Unreachable.
End calls.
