(* ===== verification/SyscallIo.v ===== *)
(** * System calls on user buffers

    How a pointer of a user program reaches its bytes ([arg_ptr]), and [write] and
    [read] on the console from the trapframe to the UART and back. *)

From S2P Require Import Prelude Symbols Mem Page PageTree PageOps PageUser Hart Proc Devices Uart Virtio FsFile Exec Syscall.

(** ** Pointers *)
Lemma Entry_paddr_aligned e : Entry_paddr e mod PAGE_SIZE = 0.
Proof.
  layout. change 4096 with (2 ^ 12). rewrite <- Z.land_ones by lia.
  apply Z.bits_inj'. intros i Hi. unfold Entry_paddr, ushl.
  rewrite Z.bits_0, !Z.land_spec, Z.shiftl_spec, Z.land_spec, !testbit_ones by lia.
  destruct (Z.ltb_spec i 12); [|by rewrite andb_false_r].
  destruct (Z.ltb_spec (i - 2) 0); [by rewrite !Z.testbit_neg_r by lia|].
  unfold unot. rewrite Z.lxor_spec, testbit_ones by lia. change 0x3ff with (Z.ones 10).
  rewrite testbit_ones by lia. rewrite (proj2 (Z.ltb_lt (i - 2) 10)), (proj2 (Z.ltb_lt (i - 2) 64)) by lia.
  by rewrite andb_false_r.
Qed.

Lemma page_base_eq ptr : page_base ptr = ptr - ptr mod 4096.
Proof. done. Qed.

Lemma page_base_mod ptr : page_base ptr mod PAGE_SIZE = 0.
Proof. rewrite page_base_eq. layout. by rewrite Zminus_mod_idemp_r, Z.sub_diag. Qed.

(** A pointer [pg + o] into the page at [pg] *)
Lemma page_base_add pg o : pg mod PAGE_SIZE = 0 → 0 ≤ o < 4096 → page_base (pg + o) = pg ∧ (pg + o) mod PAGE_SIZE = o.
Proof.
  intros Hp Ho. assert ((pg + o) mod PAGE_SIZE = o) as Hm.
  { layout. by rewrite Z.add_mod, Hp, Z.add_0_l, Z.mod_mod, Z.mod_small by lia. }
  split; [|done]. rewrite page_base_eq. layout. lia.
Qed.

Section specs.
Context {A : Type} `{GlobalAlloc A}.
Implicit Types m : kmem A.

Lemma arg_ptr_run root tf pos n ptr m o :
  argraw tf pos = Ok ptr → 0 ≤ ptr < 2 ^ 39 → 0 ≤ n < 2 ^ 31 →
  paddr_of root (page_base ptr) m = Ok o →
  arg_ptr root tf pos n m =
    if ptr mod PAGE_SIZE + n <? PAGE_SIZE then paddr ← unwrap o; Ok (paddr + ptr mod PAGE_SIZE)
    else Err (Panic "out of bound!").
Proof.
  intros Hp Hr Hn Ho. unfold arg_ptr. rewrite Hp, bind_Ok_l, page_down_eq by (unfold is_u; lia).
  pose proof (Z.mod_pos_bound ptr 4096 ltac:(lia)). rewrite page_base_eq in Ho. rewrite bind_Ok_l.
  rewrite (uadd_eq 64 ptr n), bind_Ok_l by lia. layout.
  rewrite (uadd_eq 64 (ptr - ptr mod 4096) 4096), bind_Ok_l by lia.
  destruct (Z.ltb_spec (ptr mod 4096 + n) 4096) as [Hlt|Hge].
  - rewrite (proj2 (Z.leb_gt _ _)) by lia. cbn [panic_if]. rewrite bind_Ok_l, Ho, bind_Ok_l.
    destruct (unwrap o); [|done]. rewrite !bind_Ok_l, usub_eq, bind_Ok_l by lia. do 2 f_equal. lia.
  - rewrite (proj2 (Z.leb_le _ _)) by lia. done.
Qed.

(** C33: for a mapped user address arg_ptr returns the physical address behind it when the
    buffer ends before the end of the page, and panics when it reaches the end of the
    page, also for a buffer that just fits. *)
Theorem arg_ptr_translates root tf pos n ptr m e :
  tree_wf 2 (frames m) root → argraw tf pos = Ok ptr → 0 ≤ ptr < 2 ^ 39 → 0 ≤ n < 2 ^ 31 →
  page_map m root (page_base ptr) = Some e →
  (ptr + n < page_base ptr + PAGE_SIZE →
     arg_ptr root tf pos n m = Ok (Entry_paddr e + ptr mod PAGE_SIZE)) ∧
  (page_base ptr + PAGE_SIZE ≤ ptr + n → arg_ptr root tf pos n m = Err (Panic "out of bound!")).
Proof.
  intros Hw Hp Hr Hn He.
  rewrite (arg_ptr_run root tf pos n ptr m (Some (Entry_paddr e))) by (done || by apply paddr_of_page_map; [|apply page_base_mod|]).
  rewrite page_base_eq. layout. split; intros Hb.
  - by rewrite (proj2 (Z.ltb_lt _ _)) by lia.
  - by rewrite (proj2 (Z.ltb_ge _ _)) by lia.
Qed.

(** ** Buffers: [n] bytes from [ptr] on lie in the page at [pg], which holds [data]. *)
Record user_buffer m (root ptr n pg : Z) (data : list Z) : Prop := {
  ub_tree : tree_wf 2 (frames m) root;
  ub_ptr : 0 ≤ ptr < 2 ^ 39;
  ub_size : 0 ≤ n ∧ ptr mod PAGE_SIZE + n < PAGE_SIZE;
  ub_map : ∃ e, page_map m root (page_base ptr) = Some e ∧ Entry_paddr e = pg;
  ub_page : frames m !! pg = Some (FPage data) ∧ length data = 4096%nat;
}.

(** The bytes of the buffer, and the page with others in their place *)
Definition buf_bytes (data : list Z) (ptr n : Z) : list Z :=
  take (Z.to_nat n) (drop (Z.to_nat (ptr mod PAGE_SIZE)) data).
Definition splice (data : list Z) (o : nat) (bs : list Z) : list Z :=
  take o data ++ bs ++ drop (o + length bs) data.

Lemma buffer_ptr m root ptr n pg data tf pos :
  user_buffer m root ptr n pg data → argraw tf pos = Ok ptr →
  arg_ptr root tf pos n m = Ok (pg + ptr mod PAGE_SIZE) ∧ pg mod PAGE_SIZE = 0.
Proof.
  intros [Hw Hr [Hn Hf] (e & He & <-) _] Hp. split; [|apply Entry_paddr_aligned].
  rewrite (arg_ptr_run root tf pos n ptr m (Some (Entry_paddr e))).
  - by rewrite (proj2 (Z.ltb_lt _ _)).
  - done.
  - done.
  - pose proof (Z.mod_pos_bound ptr PAGE_SIZE). layout. lia.
  - by apply paddr_of_page_map; [|apply page_base_mod|].
Qed.

Lemma buffer_offset m root ptr n pg data :
  user_buffer m root ptr n pg data → 0 ≤ ptr mod PAGE_SIZE < 4096 ∧ ptr mod PAGE_SIZE + n ≤ Z.of_nat (length data).
Proof.
  intros [_ _ [Hn Hf] _ [_ Hl]]. rewrite Hl. layout. pose proof (Z.mod_pos_bound ptr 4096). lia.
Qed.

Lemma slice_at_Ok d o n : 0 ≤ o → 0 ≤ n → o + n ≤ Z.of_nat (length d) →
  slice_at d o n = Ok (take (Z.to_nat n) (drop (Z.to_nat o) d)).
Proof. intros. unfold slice_at. by rewrite (proj2 (Z.leb_le 0 o)), (proj2 (Z.leb_le (o + n) _)) by done. Qed.

Lemma buf_bytes_length m root ptr n pg data :
  user_buffer m root ptr n pg data → Z.of_nat (length (buf_bytes data ptr n)) = n.
Proof.
  intros Hb. destruct (buffer_offset _ _ _ _ _ _ Hb) as [Ho Hfit]. destruct Hb as [_ _ [Hn _] _ _].
  unfold buf_bytes. rewrite length_take, length_drop. lia.
Qed.

Lemma buffer_read m root ptr n pg data :
  user_buffer m root ptr n pg data → pg mod PAGE_SIZE = 0 →
  slice_read (pg + ptr mod PAGE_SIZE) n m = Ok (buf_bytes data ptr n).
Proof.
  intros Hb Hpg. destruct (buffer_offset _ _ _ _ _ _ Hb) as [Ho Hfit]. destruct Hb as [_ _ [Hn _] _ [Hp Hl]].
  unfold slice_read, buf_bytes. destruct (Z.eqb_spec n 0) as [->|]; [done|].
  destruct (page_base_add pg (ptr mod PAGE_SIZE) Hpg) as [-> ->]; [done|].
  unfold page_at. rewrite Hp, bind_Ok_l. apply slice_at_Ok; lia.
Qed.

Lemma splice_nil data o : (o ≤ length data)%nat → splice data o [] = data.
Proof. intros Ho. unfold splice. cbn. rewrite Nat.add_0_r. apply take_drop. Qed.

Lemma buffer_write m root ptr n pg data bs :
  user_buffer m root ptr n pg data → pg mod PAGE_SIZE = 0 → Z.of_nat (length bs) = n →
  slice_write (pg + ptr mod PAGE_SIZE) bs m =
    Ok (if (length bs =? 0)%nat then m else fill_page pg (splice data (Z.to_nat (ptr mod PAGE_SIZE)) bs) m).
Proof.
  intros Hb Hpg Hbs. destruct (buffer_offset _ _ _ _ _ _ Hb) as [Ho Hfit]. destruct Hb as [_ _ [Hn _] _ [Hp Hl]].
  unfold slice_write. destruct (length bs =? 0)%nat; [done|].
  destruct (page_base_add pg (ptr mod PAGE_SIZE) Hpg) as [-> ->]; [done|].
  unfold page_at. rewrite Hp, bind_Ok_l, slice_at_Ok by lia. done.
Qed.
End specs.

(** ** [write] and [read] on the console *)
Section console.
Context {A BD MD : Type} `{GlobalAlloc A} `{BlockDevice BD} `{Mmio MD} `{!Ns16550 MD UART_BASE_ADDR}.
Implicit Types s : kst A BD MD.
Local Notation rx := (rx (base := UART_BASE_ADDR)).
Local Notation tx := (tx (base := UART_BASE_ADDR)).
Local Notation dlab := (dlab (base := UART_BASE_ADDR)).

(** A call [(fd, ptr, n)] on an open file with a buffer *)
Record io_call s (f : File) (fd ptr n pg : Z) (data : list Z) : Prop := {
  io_fd : argraw (trapframe (k_proc s)) 0 = Ok fd;
  io_ptr : argraw (trapframe (k_proc s)) 1 = Ok ptr;
  io_n : argraw (trapframe (k_proc s)) 2 = Ok n ∧ n ≤ BSIZE;
  io_buf : user_buffer (k_mem s) (pgtable (k_proc s)) ptr n pg data;
  io_file : ∃ a c, aget (files (k_proc s)) fd = Ok (Some a) ∧ k_arcs s !! a = Some (f, c);
}.

Lemma io_uint s f fd ptr n pg data : io_call s f fd ptr n pg data → arg_uint (trapframe (k_proc s)) 2 = Ok n.
Proof.
  intros [_ _ [Hn Hle] [_ _ [Hz _] _ _] _]. unfold arg_uint. rewrite Hn, bind_Ok_l.
  unfold BSIZE in Hle. rewrite as_i_id by lia. by rewrite (proj2 (Z.ltb_ge n 0)).
Qed.

Lemma io_arg_fd s f fd ptr n pg data :
  io_call s f fd ptr n pg data →
  ∃ a, arg_fd (k_proc s) 0 = Ok a ∧ arc_get a s = Ok f.
Proof.
  intros [Hfd _ _ _ (a & c & Ha & Harc)]. exists a. unfold arg_fd, arc_get.
  rewrite Hfd, bind_Ok_l, Ha, bind_Ok_l, Harc. done.
Qed.

(** [write] of [n] bytes transmits the buffer and returns [n]. *)
Lemma write_console fuel s fd ptr n pg data :
  (thr_bound (D := MD) (base := UART_BASE_ADDR) < fuel)%nat →
  io_call s (Device Console) fd ptr n pg data → dlab (k_dev s) = false →
  ∃ d', sys_write fuel s = Ok (n, with_dev s d') ∧ tx d' = tx (k_dev s) ++ buf_bytes data ptr n ∧
    rx (k_dev s) `prefix_of` rx d'.
Proof.
  intros Hfuel Hio Hd. unfold sys_write. rewrite (io_uint _ _ _ _ _ _ _ Hio), bind_Ok_l.
  destruct (io_arg_fd _ _ _ _ _ _ _ Hio) as (a & Ha & Hf). destruct Hio as [_ Hp [_ Hle] Hb _].
  rewrite (proj2 (Z.ltb_ge BSIZE n)) by done. cbn [panic_if]. rewrite bind_Ok_l.
  destruct (buffer_ptr _ _ _ _ _ _ _ _ Hb Hp) as [-> Hpg].
  rewrite bind_Ok_l, (buffer_read _ _ _ _ _ _ Hb Hpg), bind_Ok_l, Ha, bind_Ok_l, Hf, bind_Ok_l.
  pose proof (buf_bytes_length _ _ _ _ _ _ Hb) as Hlen. unfold BSIZE in Hle.
  destruct (console_write_transmits fuel (buf_bytes data ptr n) (k_dev s) Hfuel Hd) as (d' & -> & Htx & Hrx & _); [lia|].
  rewrite bind_Ok_l, Hlen. by exists d'.
Qed.

(** C32: read on a console descriptor into a mapped buffer of at most 1024 bytes that ends
    strictly before the end of its page, on an initialised UART, stores the received
    bytes in order at the start of the buffer and nothing else in memory, returns how
    many, and stops early only when every byte received so far was delivered. *)
Theorem sys_read_console s fd ptr n pg data :
  io_call s (Device Console) fd ptr n pg data → dlab (k_dev s) = false →
  ∃ got s', sys_read s = Ok (Z.of_nat (length got), s') ∧
    Z.of_nat (length got) ≤ n ∧ rx (k_dev s) `prefix_of` got ++ rx (k_dev s') ∧
    (Z.of_nat (length got) = n ∨ rx (k_dev s) `prefix_of` got) ∧ tx (k_dev s') = tx (k_dev s) ∧
    frames (k_mem s') = <[pg := FPage (splice data (Z.to_nat (ptr mod PAGE_SIZE)) got)]> (frames (k_mem s)) ∧
    k_proc s' = k_proc s ∧ k_arcs s' = k_arcs s.
Proof.
  intros Hio Hd. unfold sys_read, arg_ptr_mut. rewrite (io_uint _ _ _ _ _ _ _ Hio), bind_Ok_l.
  destruct (io_arg_fd _ _ _ _ _ _ _ Hio) as (a & Ha & Hf). destruct Hio as [_ Hp [_ Hle] Hb _].
  rewrite (proj2 (Z.ltb_ge BSIZE n)) by done. cbn [panic_if]. rewrite bind_Ok_l.
  destruct (buffer_ptr _ _ _ _ _ _ _ _ Hb Hp) as [-> Hpg].
  rewrite bind_Ok_l, (buffer_read _ _ _ _ _ _ Hb Hpg), bind_Ok_l, Ha, bind_Ok_l, Hf, bind_Ok_l.
  pose proof (buf_bytes_length _ _ _ _ _ _ Hb) as Hlen. unfold BSIZE in Hle.
  destruct (console_read_in_order (buf_bytes data ptr n) (k_dev s) Hd) as (got & d' & -> & Hg & Ho & Ht & Hall); [lia|].
  rewrite bind_Ok_l.
  set (bs := got ++ drop (length got) (buf_bytes data ptr n)).
  assert (Z.of_nat (length bs) = n) as Hbs by (unfold bs; rewrite length_app, length_drop; lia).
  rewrite (buffer_write _ _ _ _ _ _ bs Hb Hpg Hbs), bind_Ok_l. exists got. eexists. split; [reflexivity|].
  assert (splice data (Z.to_nat (ptr mod PAGE_SIZE)) bs = splice data (Z.to_nat (ptr mod PAGE_SIZE)) got) as Hsp.
  { unfold splice. f_equal. unfold bs, buf_bytes. rewrite <- app_assoc. f_equal.
    rewrite length_app, length_drop, skipn_firstn_comm, drop_drop.
    assert (length (take (Z.to_nat n) (drop (Z.to_nat (ptr mod PAGE_SIZE)) data)) = Z.to_nat n) as -> by (unfold buf_bytes in Hlen; lia).
    unfold buf_bytes in Hg. replace (Z.to_nat (ptr mod PAGE_SIZE) + (length got + (Z.to_nat n - length got)))%nat
      with (Z.to_nat (ptr mod PAGE_SIZE) + length got + (Z.to_nat n - length got))%nat by lia.
    set (o := Z.to_nat (ptr mod PAGE_SIZE)) in *. set (k := (Z.to_nat n - length got)%nat) in *.
    rewrite <- (drop_drop data k (o + length got)). apply take_drop. }
  cbn [k_dev k_mem k_proc k_arcs with_dev with_mem]. split_and!; [lia|done| |done| |done|done].
  - destruct Hall as [Hall|Hall]; [left; lia|by right].
  - destruct (Nat.eqb_spec (length bs) 0) as [Hz|Hz].
    + assert (got = []) as ->.
      { destruct got; [done|]. unfold bs in Hz. rewrite length_app in Hz. cbn in Hz. lia. }
      rewrite splice_nil; [symmetry; apply insert_id, (ub_page _ _ _ _ _ _ Hb)|].
      destruct (buffer_offset _ _ _ _ _ _ Hb). lia.
    + unfold fill_page. cbn [frames]. by rewrite Hsp.
Qed.
End console.

(** ** A process with the console as descriptor 0 and a page at 0x1000 *)
Definition tf_call (id a0 a1 a2 : Z) : TrapFrame :=
  mkTrapFrame (<[17%nat := id]> (<[12%nat := a2]> (<[11%nat := a1]> (<[10%nat := a0]> (replicate 32 0)))))
    (replicate 32 0) 0 0 0 0 0.
Definition proc_call (tf : TrapFrame) (fs : list (option Z)) : Process :=
  set_files fs (set_trapframe tf proc0).
Definition kst0 (tf : TrapFrame) : kst Allocator (gmap Z (list Z)) Chip :=
  KSt (proc_call tf (<[0%nat := Some 0x9000]> (replicate 256 None))) ptu disk0 chip1
    {[0x9000 := (Device Console, 1)]} PROCS_POOL_new.

Lemma ptu_page :
  page_map ptu root0 (page_base 0x1ff0) = Some (leaf_entry upage EntryAttributes.URW) ∧
  frames ptu !! upage = Some (FPage zero_page).
Proof. split; vm_compute; reflexivity. Qed.

Lemma ptu_buffer n : 0 ≤ n < 16 → user_buffer ptu root0 0x1ff0 n upage zero_page.
Proof.
  intros Hn. destruct ptu_page as [Hm Hp]. destruct ptu_inv as (B & [_ Hw _] & _). split.
  - exact Hw.
  - lia.
  - change (0x1ff0 mod PAGE_SIZE) with 0xff0. layout. lia.
  - eexists. split; [exact Hm|vm_compute; reflexivity].
  - split; [exact Hp|reflexivity].
Qed.

Lemma kst0_io id : io_call (kst0 (tf_call id 0 0x1ff0 2)) (Device Console) 0 0x1ff0 2 upage zero_page.
Proof.
  split; [reflexivity|reflexivity|split; [reflexivity|unfold BSIZE; lia]|apply ptu_buffer; lia|].
  exists 0x9000, 1. split; [reflexivity|by apply lookup_singleton_eq].
Qed.

Lemma arg_ptr_translates_witness :
  arg_ptr root0 (tf_call 5 0 0x1ff0 15) 1 15 ptu = Ok (upage + 0xff0) ∧
  arg_ptr root0 (tf_call 5 0 0x1ff0 16) 1 16 ptu = Err (Panic "out of bound!").
Proof.
  destruct ptu_page as [Hm Hp]. destruct ptu_inv as (B & [_ Hw _] & _). split.
  - assert (Entry_paddr (leaf_entry upage EntryAttributes.URW) = upage) as He by (vm_compute; reflexivity).
    rewrite <- He at 1. change 0xff0 with (0x1ff0 mod PAGE_SIZE).
    apply (arg_ptr_translates root0 (tf_call 5 0 0x1ff0 15) 1 15 0x1ff0 ptu (leaf_entry upage EntryAttributes.URW) Hw); [reflexivity|lia|lia|exact Hm|].
    change (page_base 0x1ff0) with 0x1000. layout. lia.
  - apply (arg_ptr_translates root0 (tf_call 5 0 0x1ff0 16) 1 16 0x1ff0 ptu (leaf_entry upage EntryAttributes.URW) Hw); [reflexivity|lia|lia|exact Hm|].
    change (page_base 0x1ff0) with 0x1000. layout. lia.
Defined.

Lemma sys_read_console_witness :
  ∃ got s', sys_read (kst0 (tf_call SYS_READ 0 0x1ff0 2)) = Ok (Z.of_nat (length got), s') ∧
    [97; 98; 13] `prefix_of` got ++ c_rx (k_dev s').
Proof.
  destruct (sys_read_console (kst0 (tf_call SYS_READ 0 0x1ff0 2)) 0 0x1ff0 2 upage zero_page (kst0_io SYS_READ))
    as (got & s' & H1 & _ & H2 & _); [reflexivity|].
  exists got, s'. split; [exact H1|exact H2].
Defined.
