(* ===== verification/FdTable.v ===== *)
(** * File descriptors: reference counts of shared files

    The [Option<Arc<File>>] tables of the processes against the strong counts.  The
    invariant ties every count to the number of descriptors that name the file, in the
    table of the caller, in those of the processes in the pool and in any others
    (processes on other harts); every file call keeps it, so a descriptor never names
    a freed file and the last [close] frees it. *)

From S2P Require Import Prelude Symbols Mem Page PageTree PageOps PageUser Hart Proc Devices Uart Virtio FsFile Exec Syscall.

(** ** Counting references *)
Definition ind (b : bool) : nat := if b then 1 else 0.
Definition names (a : Z) (o : option Z) : bool := bool_decide (o = Some a).
Fixpoint refs_in (a : Z) (l : list (option Z)) : nat :=
  match l with [] => 0%nat | o :: l => (ind (names a o) + refs_in a l)%nat end.
Fixpoint refs (a : Z) (ts : list (list (option Z))) : nat :=
  match ts with [] => 0%nat | l :: ts => (refs_in a l + refs a ts)%nat end.

Lemma refs_in_insert a l i o o' :
  l !! i = Some o → (refs_in a (<[i := o']> l) + ind (names a o) = refs_in a l + ind (names a o'))%nat.
Proof.
  revert i. induction l as [|x l IH]; intros [|i] Hi; [done..| |].
  - injection Hi as ->. simpl. lia.
  - simpl. specialize (IH i Hi). lia.
Qed.

Lemma refs_in_pos a l i : l !! i = Some (Some a) → (0 < refs_in a l)%nat.
Proof.
  revert i. induction l as [|x l IH]; intros [|i] Hi; [done..| |].
  - injection Hi as ->. cbn. unfold names. rewrite bool_decide_true by done. cbn. lia.
  - cbn. specialize (IH i Hi). lia.
Qed.

Lemma refs_app a ts us : refs a (ts ++ us) = (refs a ts + refs a us)%nat.
Proof. induction ts as [|t ts IH]; cbn; [done|]. rewrite IH. lia. Qed.

Lemma names_eq a : names a (Some a) = true.
Proof. by apply bool_decide_true. Qed.
Lemma names_ne a b : a ≠ b → names a (Some b) = false.
Proof. intros. apply bool_decide_false. congruence. Qed.
Lemma names_None a : names a None = false.
Proof. by apply bool_decide_false. Qed.

Definition pool_table (x : ProcInPool) : list (list (option Z)) :=
  match x with Pooling p => [files p] | _ => [] end.
Definition pool_tables (pl : Pool) : list (list (option Z)) := concat (pool_table <$> pl).

Section fd.
Context {A BD MD : Type} `{GlobalAllocLaws A} `{BlockDevice BD} `{Mmio MD}.
Context (arc_size : Z) (Harc : 0 < arc_size ≤ PAGE_SIZE).
Context (others : list (list (option Z))).
Implicit Types s : kst A BD MD.

(** The count of every file is the number of its descriptors. *)
Definition counted (arcs : gmap Z (File * Z)) (ts : list (list (option Z))) : Prop :=
  ∀ a, match arcs !! a with
       | Some (_, n) => n = Z.of_nat (refs a ts) ∧ 0 < n
       | None => refs a ts = 0%nat
       end.
Definition tables s : list (list (option Z)) := files (k_proc s) :: pool_tables (k_pool s) ++ others.

Record fd_inv s : Prop := {
  fi_counts : counted (k_arcs s) (tables s);
  fi_files : length (files (k_proc s)) = 256%nat;
  fi_mem : ∃ B, owned (ga (k_mem s)) B ∧ ∀ a, is_Some (k_arcs s !! a) → B !! a = Some 1;
}.

(** A descriptor names a live file. *)
Lemma fd_live s i a : fd_inv s → files (k_proc s) !! i = Some (Some a) → is_Some (k_arcs s !! a).
Proof.
  intros [Hc _ _] Hi. specialize (Hc a). destruct (k_arcs s !! a); [eauto|].
  apply refs_in_pos in Hi. unfold tables in Hc. cbn in Hc. lia.
Qed.

(** Only these parts matter. *)
Lemma fd_inv_same s s' :
  fd_inv s → k_arcs s' = k_arcs s → files (k_proc s') = files (k_proc s) → k_pool s' = k_pool s →
  ga (k_mem s') = ga (k_mem s) → fd_inv s'.
Proof.
  intros [Hc Hl Hm] Ha Hf Hp Hg. split; unfold tables in *; rewrite ?Ha, ?Hf, ?Hp, ?Hg; done.
Qed.

(** Between taking an [Arc] and storing it, one reference is in the hands of the code:
    [pending x] is one more table with it. *)
Definition held_inv (x : option Z) s : Prop :=
  counted (k_arcs s) ([x] :: tables s) ∧ length (files (k_proc s)) = 256%nat ∧
  ∃ B, owned (ga (k_mem s)) B ∧ ∀ a, is_Some (k_arcs s !! a) → B !! a = Some 1.

Lemma held_None s : held_inv None s ↔ fd_inv s.
Proof.
  split.
  - intros (Hc & Hl & Hm). split; [|done..]. intros a. specialize (Hc a). cbn [refs refs_in] in Hc.
    by rewrite names_None in Hc.
  - intros [Hc Hl Hm]. split_and!; [|done..]. intros a. specialize (Hc a). cbn [refs refs_in].
    by rewrite names_None.
Qed.

Lemma arc_new_held f s a s' :
  fd_inv s → arc_new arc_size f s = Ok (a, s') →
  held_inv (Some a) s' ∧ k_proc s' = k_proc s ∧ k_pool s' = k_pool s.
Proof using Harc.
  intros [Hc Hl (B & Ho & HB)] Hrun. unfold arc_new, alloc_bytes in Hrun. inv_bind. simplify_eq.
  match goal with G : galloc _ _ = Ok _ |- _ => rename G into Hga end.
  assert (arc_size + 4095 < 2 ^ 64) as Hsz by (layout; lia).
  destruct (galloc_new _ B _ _ _ Ho (proj1 Harc) Hsz Hga) as (Hn & _ & _ & Ho').
  assert (pages_of arc_size = 1) as Hpg by (unfold pages_of; layout; symmetry; apply (Z.div_unique _ _ _ (arc_size - 1)); lia).
  rewrite Hpg in Ho'. assert (k_arcs s !! a = None) as Hna.
  { destruct (k_arcs s !! a) eqn:E; [|done]. by rewrite HB in Hn by (by rewrite E). }
  split; [|done]. split_and!; [|done|].
  - intros b. cbn [k_arcs with_arcs refs refs_in]. pose proof (Hc b) as Hb.
    destruct (decide (a = b)) as [<-|Hne].
    + rewrite lookup_insert_eq, names_eq. rewrite Hna in Hb. cbn [ind].
      change (tables (with_arcs _ _)) with (tables s). rewrite Hb. lia.
    + rewrite lookup_insert_ne, names_ne by congruence. exact Hb.
  - eexists. split; [exact Ho'|]. intros b. cbn [k_arcs with_arcs].
    intros [->|[Hne Hb]]%lookup_insert_is_Some; [by rewrite lookup_insert_eq|].
    rewrite lookup_insert_ne by congruence. by apply HB.
Qed.

Lemma arc_clone_held a s s' :
  fd_inv s → arc_clone a s = Ok s' → held_inv (Some a) s' ∧ k_proc s' = k_proc s ∧ k_pool s' = k_pool s.
Proof using.
  intros [Hc Hl (B & Ho & HB)] Hrun. unfold arc_clone in Hrun.
  destruct (k_arcs s !! a) as [[f n]|] eqn:E; [|done]. apply bind_Ok in Hrun as (n' & Hn & [= <-]).
  unfold isize in Hn. destruct (_ && _); [injection Hn as <-|done]. split; [|done]. split_and!; [|done|].
  - intros b. cbn [k_arcs with_arcs refs refs_in]. pose proof (Hc b) as Hb.
    change (tables (with_arcs _ _)) with (tables s). destruct (decide (a = b)) as [<-|Hne].
    + rewrite lookup_insert_eq, names_eq. rewrite E in Hb. cbn [ind]. lia.
    + rewrite lookup_insert_ne, names_ne by congruence. exact Hb.
  - exists B. split; [done|]. cbn [k_arcs with_arcs]. intros b [->|[_ Hb]]%lookup_insert_is_Some; apply HB; [by rewrite E|done].
Qed.

(** Dropping the reference in hand *)
Lemma arc_drop_held a s s' :
  held_inv (Some a) s → arc_drop a s = Ok s' → fd_inv s' ∧ k_proc s' = k_proc s ∧ k_pool s' = k_pool s ∧
    ∀ b, b ≠ a → k_arcs s' !! b = k_arcs s !! b.
Proof using.
  intros (Hc & Hl & B & Ho & HB) Hrun. unfold arc_drop in Hrun. pose proof (Hc a) as Hca.
  destruct (k_arcs s !! a) as [[f n]|] eqn:E; [|done].
  cbn [refs refs_in] in Hca. rewrite names_eq in Hca. cbn [ind] in Hca.
  assert (Hother : ∀ b, b ≠ a → match k_arcs s !! b with
       | Some (_, n) => n = Z.of_nat (refs b (tables s)) ∧ 0 < n
       | None => refs b (tables s) = 0%nat end).
  { intros b Hne. specialize (Hc b). cbn [refs refs_in] in Hc. by rewrite names_ne in Hc. }
  destruct (Z.eqb_spec n 1) as [->|Hn1].
  - apply bind_Ok in Hrun as (m & Hfr & [= <-]). unfold free_bytes in Hfr. apply bind_Ok in Hfr as (a' & Hg & [= <-]).
    assert (B !! a = Some 1) as HBa by (apply HB; by rewrite E).
    destruct (gdealloc_owned _ B a 1 Ho HBa) as (a'' & Hg' & _ & Ho'). rewrite Hg in Hg'. injection Hg' as <-.
    split_and!; [|done|done|].
    + split; [|done|].
      * intros b. cbn [k_arcs with_arcs]. change (tables (with_arcs _ _)) with (tables s).
        destruct (decide (b = a)) as [->|Hne]; [rewrite lookup_delete_eq; lia|].
        rewrite lookup_delete_ne by congruence. by apply Hother.
      * exists (delete a B). split; [done|]. cbn [k_arcs with_arcs]. intros b Hb.
        destruct (decide (b = a)) as [->|Hne]; [by rewrite lookup_delete_eq in Hb; destruct Hb|].
        rewrite lookup_delete_ne in Hb by congruence. rewrite lookup_delete_ne by congruence. by apply HB.
    + intros b Hne. cbn [k_arcs with_arcs]. by rewrite lookup_delete_ne by congruence.
  - injection Hrun as <-. split_and!; [|done|done|].
    + split; [|done|].
      * intros b. cbn [k_arcs with_arcs]. change (tables (with_arcs _ _)) with (tables s).
        destruct (decide (b = a)) as [->|Hne]; [rewrite lookup_insert_eq; lia|].
        rewrite lookup_insert_ne by congruence. by apply Hother.
      * exists B. split; [done|]. cbn [k_arcs with_arcs]. intros b [->|[_ Hb]]%lookup_insert_is_Some; apply HB; [by rewrite E|done].
    + intros b Hne. cbn [k_arcs with_arcs]. by rewrite lookup_insert_ne by congruence.
Qed.

(** [p.files[fd] = o] with the reference of [o] in hand *)
Lemma assign_file_inv fd o s s' :
  held_inv o s → assign_file fd o s = Ok s' →
  fd_inv s' ∧ k_pool s' = k_pool s ∧ k_proc s' = set_files (<[Z.to_nat fd := o]> (files (k_proc s))) (k_proc s).
Proof using.
  intros (Hc & Hl & Hm) Hrun. unfold assign_file in Hrun. apply bind_Ok in Hrun as (old & Hg & Hrun).
  apply bind_Ok in Hrun as (fs & Hs & Hrun). apply aget_Ok in Hg as [_ Hg]. apply aset_Ok in Hs as [_ ->].
  set (p' := set_files _ _) in *.
  assert (held_inv old (with_proc s p')) as Hh.
  { split_and!; [|cbn; by rewrite length_insert|done]. intros b. specialize (Hc b).
    pose proof (refs_in_insert b (files (k_proc s)) _ old o Hg) as Hr.
    cbn [k_arcs with_proc refs refs_in tables k_proc files p' set_files] in *.
    change (k_pool (with_proc s p')) with (k_pool s).
    destruct (k_arcs s !! b) as [[f n]|]; lia. }
  destruct old as [a|].
  - destruct (arc_drop_held a _ _ Hh Hrun) as (Hi & Hp & Hpl & _). split_and!; [done|by rewrite Hpl|by rewrite Hp].
  - injection Hrun as <-. split_and!; [by apply held_None|done..].
Qed.

(** ** The calls *)
Lemma sys_open_inv s v s' : fd_inv s → sys_open arc_size s = Ok (v, s') → fd_inv s'.
Proof using Harc.
  intros Hi Hrun. unfold sys_open in Hrun.
  do 6 (apply bind_Ok in Hrun as (? & _ & Hrun)). destruct x4 as [fd|]; [|by injection Hrun as <- <-].
  apply bind_Ok in Hrun as ([a s1] & Hnew & Hrun). apply bind_Ok in Hrun as (s2 & Has & Hrun).
  injection Hrun as <- <-. destruct (bool_decide _).
  - destruct (arc_new_held _ _ _ _ Hi Hnew) as (Hh & _). by apply (assign_file_inv _ _ _ _ Hh Has).
  - apply bind_Ok in Hnew as ([f d] & _ & Hnew).
    destruct (arc_new_held _ (with_disk s d) _ _ (fd_inv_same s (with_disk s d) Hi eq_refl eq_refl eq_refl eq_refl) Hnew) as (Hh & _).
    by apply (assign_file_inv _ _ _ _ Hh Has).
Qed.

Lemma sys_close_inv s v s' : fd_inv s → sys_close s = Ok (v, s') → fd_inv s'.
Proof using.
  intros Hi Hrun. unfold sys_close in Hrun. inv_bind.
  match goal with Has : assign_file _ _ _ = Ok _ |- _ => eapply (assign_file_inv _ None); [|exact Has] end.
  by apply held_None.
Qed.

Lemma sys_dup_inv s v s' : fd_inv s → sys_dup s = Ok (v, s') → fd_inv s'.
Proof using.
  intros Hi Hrun. unfold sys_dup in Hrun. do 2 (apply bind_Ok in Hrun as (? & _ & Hrun)).
  destruct x0 as [fd|]; [|by injection Hrun as <- <-].
  do 2 (apply bind_Ok in Hrun as (? & _ & Hrun)). apply bind_Ok in Hrun as (s1 & Hcl & Hrun).
  apply bind_Ok in Hrun as (s2 & Has & Hrun). injection Hrun as <- <-.
  destruct (arc_clone_held _ _ _ Hi Hcl) as (Hh & _). by apply (assign_file_inv _ _ _ _ Hh Has).
Qed.

Lemma sys_write_inv fuel s v s' : fd_inv s → sys_write fuel s = Ok (v, s') → fd_inv s'.
Proof using.
  intros Hi Hrun. unfold sys_write in Hrun. do 6 (apply bind_Ok in Hrun as (? & _ & Hrun)).
  destruct x4 as [[]|f|]; [| |done].
  - apply bind_Ok in Hrun as ([n d] & _ & [= <- <-]). by apply (fd_inv_same s).
  - by apply bind_Ok in Hrun as (n & _ & [= <- <-]).
Qed.

Lemma slice_write_ga ptr bs (m m' : kmem A) : slice_write ptr bs m = Ok m' → ga m' = ga m.
Proof using.
  unfold slice_write. intros Hrun. destruct (length bs =? 0)%nat; [by injection Hrun as <-|].
  inv_bind. done.
Qed.

Lemma arc_put_inv a f s : fd_inv s → fd_inv (arc_put a f s).
Proof using.
  intros [Hc Hl (B & Ho & HB)]. split; [|done|].
  - intros b. specialize (Hc b). unfold arc_put. cbn [k_arcs with_arcs].
    change (tables (with_arcs _ _)) with (tables s). destruct (decide (a = b)) as [<-|Hne].
    + rewrite lookup_alter_eq. by destruct (k_arcs s !! a) as [[? ?]|].
    + by rewrite lookup_alter_ne.
  - exists B. split; [done|]. unfold arc_put. cbn [k_arcs with_arcs]. intros b Hb. apply HB.
    destruct (decide (a = b)) as [<-|Hne].
    + rewrite lookup_alter_eq in Hb. destruct (k_arcs s !! a); [eauto|by destruct Hb].
    + by rewrite lookup_alter_ne in Hb.
Qed.

Lemma sys_read_inv s v s' : fd_inv s → sys_read s = Ok (v, s') → fd_inv s'.
Proof using.
  intros Hi Hrun. unfold sys_read in Hrun. do 6 (apply bind_Ok in Hrun as (? & _ & Hrun)).
  destruct x4 as [[]|f|]; [| |done].
  - apply bind_Ok in Hrun as ([[n b] d] & _ & Hrun). apply bind_Ok in Hrun as (m & Hw & [= <- <-]).
    apply (fd_inv_same s); [done..|]. by eapply slice_write_ga.
  - apply bind_Ok in Hrun as ([[[n b] f'] d] & _ & Hrun). apply bind_Ok in Hrun as (m & Hw & [= <- <-]).
    apply arc_put_inv, (fd_inv_same s); [done..|]. by eapply slice_write_ga.
Qed.

(** The calls on files *)
Inductive file_call (fuel : nat) : (kst A BD MD → result (Z * kst A BD MD)) → Prop :=
  | call_write : file_call fuel (sys_write fuel)
  | call_read : file_call fuel sys_read
  | call_open : file_call fuel (sys_open arc_size)
  | call_close : file_call fuel sys_close
  | call_dup : file_call fuel sys_dup.

(** C14: read, write, open, close and dup keep the invariant that the strong count of
    every open file equals the number of descriptors that name it in all file tables,
    so that a descriptor never names a freed file. *)
Theorem file_calls_keep_counts fuel call s v s' :
  file_call fuel call → fd_inv s → call s = Ok (v, s') →
  fd_inv s' ∧ ∀ i a, files (k_proc s') !! i = Some (Some a) → is_Some (k_arcs s' !! a).
Proof using Harc.
  intros Hcall Hi Hrun. assert (fd_inv s') as Hi'.
  { destruct Hcall; [by eapply sys_write_inv|by eapply sys_read_inv|by eapply sys_open_inv|
      by eapply sys_close_inv|by eapply sys_dup_inv]. }
  split; [done|]. intros i a. by apply fd_live.
Qed.

(** ** [close] and [dup] on open descriptors *)
Lemma arg_uint_fd tf pos fd : argraw tf pos = Ok fd → 0 ≤ fd < 256 → arg_uint tf pos = Ok fd ∧ arg_int tf pos = Ok fd.
Proof using.
  intros Ha Hfd. unfold arg_uint, arg_int. rewrite Ha, !bind_Ok_l, as_i_id by lia.
  by rewrite (proj2 (Z.ltb_ge fd 0)) by lia.
Qed.

(** C30: close of an open descriptor returns 0 and clears exactly that descriptor; when it
    was the only descriptor of all tables naming the file, the file is forgotten and
    its block given back to the allocator; otherwise only its count goes down by one,
    stays positive, and memory is unchanged; all other files are unchanged. *)
Theorem close_frees_last s fd a f n :
  fd_inv s → argraw (trapframe (k_proc s)) 0 = Ok fd → 0 ≤ fd < 256 →
  files (k_proc s) !! Z.to_nat fd = Some (Some a) → k_arcs s !! a = Some (f, n) →
  ∃ s', sys_close s = Ok (0, s') ∧
    files (k_proc s') = <[Z.to_nat fd := None]> (files (k_proc s)) ∧
    n = Z.of_nat (refs a (tables s)) ∧
    (∀ b, b ≠ a → k_arcs s' !! b = k_arcs s !! b) ∧
    (refs a (tables s) = 1%nat → k_arcs s' !! a = None ∧
       gdealloc a (ga (k_mem s)) = Ok (ga (k_mem s')) ∧ frames (k_mem s') = frames (k_mem s)) ∧
    (refs a (tables s) ≠ 1%nat → k_arcs s' !! a = Some (f, n - 1) ∧ 0 < n - 1 ∧ k_mem s' = k_mem s).
Proof using.
  intros [Hc Hl (B & Ho & HB)] Harg Hfd Hf Ha. pose proof (Hc a) as Hn. rewrite Ha in Hn. destruct Hn as [Hn Hpos].
  unfold sys_close.
  rewrite (proj2 (arg_uint_fd _ _ _ Harg Hfd)), bind_Ok_l, as_u_id by (unfold is_u; lia).
  unfold assign_file. rewrite (aget_eq (files (k_proc s)) fd (Some a)) by (lia || done).
  rewrite bind_Ok_l, aset_eq by lia. rewrite bind_Ok_l. unfold arc_drop. cbn [k_arcs with_proc]. rewrite Ha.
  destruct (Z.eqb_spec n 1) as [E|E].
  - destruct (gdealloc_owned _ B a 1 Ho (HB a ltac:(by rewrite Ha))) as (a' & Hg & _).
    unfold free_bytes. cbn [k_mem with_proc]. rewrite Hg, !bind_Ok_l. eexists. split; [reflexivity|].
    cbn [k_proc k_arcs k_mem with_arcs with_mem with_proc files set_files ga frames].
    split_and!; [done|done| | |lia].
    + intros b Hb. by rewrite lookup_delete_ne by congruence.
    + intros _. by rewrite lookup_delete_eq.
  - rewrite bind_Ok_l. eexists. split; [reflexivity|]. cbn [k_proc k_arcs k_mem with_arcs with_proc files set_files].
    split_and!; [done|done| |lia|].
    + intros b Hb. by rewrite lookup_insert_ne by congruence.
    + intros _. rewrite lookup_insert_eq. split_and!; [done|lia|done].
Qed.

Lemma next_available_spec (fs : list (option Z)) k :
  fs !! k = Some None → (∀ j, (j < k)%nat → ∃ a, fs !! j = Some (Some a)) →
  next_available_fd fs = Ok (Some (Z.of_nat k)).
Proof using.
  intros Hk Hlt. unfold next_available_fd. set (body := λ (i : Z) (_ : unit), _).
  assert (body (Z.of_nat k) tt = Ok (Stop (Z.of_nat k))) as Hs.
  { unfold body. by rewrite (aget_eq fs _ None) by (lia || by rewrite Nat2Z.id). }
  pose proof (lookup_lt_Some _ _ _ Hk). rewrite (ctl_range_at body 0 _ (Z.of_nat k)).
  - rewrite Hs. done.
  - lia.
  - intros j Hj. destruct (Hlt (Z.to_nat j)) as [a Ha]; [lia|]. unfold body. by rewrite (aget_eq fs j (Some a)) by (lia || done).
  - by rewrite Hs.
Qed.

(** [dup] of an open descriptor: the least free descriptor names the same file. *)
Theorem dup_shares_file s fd a f n k :
  fd_inv s → argraw (trapframe (k_proc s)) 0 = Ok fd → 0 ≤ fd < 256 →
  files (k_proc s) !! Z.to_nat fd = Some (Some a) → k_arcs s !! a = Some (f, n) → n < 2 ^ 62 →
  files (k_proc s) !! k = Some None → (∀ j, (j < k)%nat → ∃ b, files (k_proc s) !! j = Some (Some b)) →
  ∃ s', sys_dup s = Ok (Z.of_nat k, s') ∧
    files (k_proc s') = <[k := Some a]> (files (k_proc s)) ∧
    k_arcs s' = <[a := (f, n + 1)]> (k_arcs s) ∧ k_mem s' = k_mem s.
Proof using.
  intros [Hc Hl _] Harg Hfd Hf Ha Hn Hk Hlt. unfold sys_dup.
  rewrite (proj1 (arg_uint_fd _ _ _ Harg Hfd)), bind_Ok_l, (next_available_spec _ k Hk Hlt), bind_Ok_l.
  rewrite (aget_eq (files (k_proc s)) fd (Some a)) by (lia || done). rewrite bind_Ok_l. cbn [unwrap].
  pose proof (Hc a) as Hca. rewrite Ha in Hca. rewrite bind_Ok_l. unfold arc_clone. rewrite Ha.
  pose proof (lookup_lt_Some _ _ _ Hk) as Hkl. rewrite Hl in Hkl.
  rewrite isize_Ok by lia. rewrite !bind_Ok_l. unfold assign_file. cbn [k_proc with_arcs].
  rewrite (aget_eq (files (k_proc s)) (Z.of_nat k) None) by (lia || by rewrite Nat2Z.id).
  rewrite bind_Ok_l, aset_eq by lia. rewrite !bind_Ok_l, Nat2Z.id, as_i_id by lia. eexists. split; [reflexivity|]. done.
Qed.
End fd.

(** ** Descriptor 0 is the console; it is duplicated, then closed. *)
Definition fd_state (id a0 : Z) : kst Allocator (gmap Z (list Z)) Chip :=
  KSt (set_files (<[0%nat := Some upage]> (replicate 256 None))
         (set_trapframe (mkTrapFrame (<[17%nat := id]> (<[10%nat := a0]> (replicate 32 0))) (replicate 32 0) 0 0 0 0 0) proc0))
    pt0' disk0 chip1 {[upage := (Device Console, 1)]} PROCS_POOL_new.

Lemma fd_state_inv id a0 : fd_inv [] (fd_state id a0).
Proof.
  split; [|reflexivity|].
  - intros a. unfold tables. rewrite app_nil_r. cbn [k_arcs k_proc k_pool fd_state files set_files].
    assert (refs a (pool_tables PROCS_POOL_new) = 0%nat) as Hp by reflexivity.
    assert (∀ n, refs_in a (replicate n None) = 0%nat) as Hn.
    { induction n as [|n IH]; [done|]. exact IH. }
    change (<[0%nat:=Some upage]> (replicate 256 None)) with (Some upage :: replicate 255 None).
    cbn [refs refs_in]. rewrite Hn, Hp. destruct (decide (upage = a)) as [<-|Hne].
    + rewrite lookup_singleton_eq, names_eq. done.
    + rewrite lookup_singleton_ne, names_ne by congruence. done.
  - exists {[upage := 1]}. split; [apply pt0'_inv|]. intros a Ha. cbn in Ha.
    apply lookup_singleton_is_Some in Ha as <-. apply lookup_singleton_eq.
Qed.

Lemma file_calls_keep_counts_witness :
  ∃ v s', sys_dup (fd_state SYS_DUP 0) = Ok (v, s') ∧ fd_inv [] s'.
Proof.
  destruct (is_ok_Ok (sys_dup (fd_state SYS_DUP 0))) as [[v s'] Hrun]; [vm_compute; reflexivity|].
  exists v, s'. split; [exact Hrun|].
  apply (file_calls_keep_counts 64 ltac:(split; vm_compute; done) [] 3 sys_dup (fd_state SYS_DUP 0) v s');
    [constructor|apply fd_state_inv|exact Hrun].
Defined.

(** Closed as the only descriptor of the console; and after a [dup]. *)
Definition dup_done : kst Allocator (gmap Z (list Z)) Chip :=
  match sys_dup (fd_state SYS_DUP 0) with Ok (_, s) => s | Err _ => fd_state SYS_DUP 0 end.

Lemma dup_done_inv : fd_inv [] dup_done.
Proof.
  destruct (is_ok_Ok (sys_dup (fd_state SYS_DUP 0))) as [[v s'] Hrun]; [vm_compute; reflexivity|].
  unfold dup_done. rewrite Hrun. eapply sys_dup_inv; [apply fd_state_inv|exact Hrun].
Qed.

Lemma close_frees_last_witness :
  (∃ s', sys_close (fd_state SYS_CLOSE 0) = Ok (0, s') ∧ k_arcs s' !! upage = None ∧
    gdealloc upage (ga pt0') = Ok (ga (k_mem s'))) ∧
  (∃ s', sys_close dup_done = Ok (0, s') ∧ k_arcs s' !! upage = Some (Device Console, 1) ∧ k_mem s' = k_mem dup_done).
Proof.
  split.
  - destruct (close_frees_last [] (fd_state SYS_CLOSE 0) 0 upage (Device Console) 1) as (s' & H1 & _ & Hn & _ & H2 & _);
      [apply fd_state_inv|reflexivity|lia|reflexivity|by apply lookup_singleton_eq|].
    destruct H2 as (H2 & H3 & _); [lia|]. exists s'. split_and!; [exact H1|exact H2|exact H3].
  - destruct (close_frees_last [] dup_done 0 upage (Device Console) 2) as (s' & H1 & _ & Hn & _ & _ & H2);
      [apply dup_done_inv|vm_compute; reflexivity|lia|vm_compute; reflexivity|vm_compute; reflexivity|].
    destruct H2 as (H2 & _ & H3); [lia|]. exists s'. split_and!; [exact H1|exact H2|exact H3].
Defined.

Lemma dup_shares_file_witness :
  ∃ s', sys_dup (fd_state SYS_DUP 0) = Ok (1, s') ∧ k_arcs s' = <[upage := (Device Console, 2)]> {[upage := (Device Console, 1)]}.
Proof.
  destruct (dup_shares_file [] (fd_state SYS_DUP 0) 0 upage (Device Console) 1 1) as (s' & H1 & _ & H2 & _);
    [apply fd_state_inv|reflexivity|lia|reflexivity|by apply lookup_singleton_eq|lia|reflexivity|
     intros j Hj; assert (j = 0%nat) as -> by lia; by exists upage|].
  exists s'. split; [exact H1|exact H2].
Defined.
