(* ===== verification/Fork.v ===== *)
(** * [fork], end to end

    The parts of [fork] together: the copied address space with the trampoline and the
    trapframe mapped into it, the shared files with their counts, and the child in the
    pool. *)

From S2P Require Import Prelude Symbols Mem Page PageTree PageOps PageUser PageClone Hart Proc Devices Uart Virtio FsFile Exec Syscall FdTable.

Section space.
Context {A : Type} `{GlobalAllocLaws A}.
Implicit Types (m : kmem A) (B : gmap Z Z).

(** The child's table [r] in [mi] as a copy of the table [root] of [m], with the kernel
    mappings [K] so far *)
Record child_space m B (root : Z) (K : Z → option Z) mi Bi (r : Z) : Prop := {
  cs_grow : grows m B mi Bi;
  cs_inv : pt_inv 2 mi Bi r;
  cs_fresh : ∀ x, fp 2 (frames mi) r x → ¬ live (ga m) B x;
  cs_map : ∀ va, canonical va →
    match K va with
    | Some e => page_map mi r va = Some e
    | None => copied m B mi Bi (page_map m root va) (page_map mi r va)
    end;
}.

Lemma child_start m B root r m1 :
  pt_inv 2 m B root → Table_clone root m = Ok (r, m1) → ∃ B1, child_space m B root (λ _, None) m1 B1 r.
Proof.
  intros Hinv Hrun. destruct (clone_walk_level 2 root m B r m1 Hinv Hrun) as (B1 & [Hg Hw Hnew Hleaf]).
  exists B1. split; [done| | |intros va _; apply Hleaf].
  - split; [apply Hg|done|]. intros x Hx%Hnew. right. apply Hx.
  - intros x Hx%Hnew. apply Hx.
Qed.

(** Blocks that come or go outside of what is used *)
Lemma child_blocks m B root K mi Bi r a' B' :
  child_space m B root K mi Bi r → owned a' B' → heap_base a' = heap_base (ga mi) →
  Bi ⊆ B' →
  child_space m B root K (KMem a' (frames mi)) B' r.
Proof.
  intros [[Ho Hs Hb Hf] [_ Hw Hl] Hfr Hm] Ho' Hb' Hsub.
  assert (Hg : grows mi Bi (KMem a' (frames mi)) B') by (split; cbn [ga frames]; done).
  split.
  - split; cbn [ga frames]; [done|by transitivity Bi|congruence|done].
  - split; cbn [ga frames]; [done|done|]. intros x Hx. apply (grows_live mi Bi _ _ x Hg). by apply Hl.
  - done.
  - intros va Hva. specialize (Hm va Hva). destruct (K va); [done|]. by eapply copied_later.
Qed.

Lemma child_alloc m B root K mi Bi r size p m' :
  child_space m B root K mi Bi r → 0 < size → size + 4095 < 2 ^ 64 → alloc_bytes size mi = Ok (p, m') →
  child_space m B root K m' (<[p := pages_of size]> Bi) r ∧ Bi !! p = None ∧ frame_addr p.
Proof.
  intros Hc Hs0 Hs1 Hrun. unfold alloc_bytes in Hrun. apply bind_Ok in Hrun as ([q a'] & Hga & [= <- <-]).
  destruct (galloc_new _ Bi _ _ _ (gw_owned _ _ _ _ (cs_grow _ _ _ _ _ _ _ Hc)) Hs0 Hs1 Hga) as (Hn & _ & Hb & Ho).
  split_and!; [|done|].
  - eapply child_blocks; [exact Hc|done|done|by apply insert_subseteq].
  - destruct (owned_block _ _ q (pages_of size) Ho) as (? & ? & ? & ?); [by rewrite lookup_insert_eq|].
    split; [|done]. layout. nia.
Qed.

(** [box *tf.clone()]: of two new blocks the first is freed. *)
Lemma child_swap m B root K mi Bi r p q m1 m2 m3 size :
  child_space m B root K mi Bi r → 0 < size → size + 4095 < 2 ^ 64 →
  alloc_bytes size mi = Ok (p, m1) → alloc_bytes size m1 = Ok (q, m2) → free_bytes p m2 = Ok m3 →
  child_space m B root K m3 (<[q := pages_of size]> Bi) r ∧ frame_addr q.
Proof.
  intros Hc Hs0 Hs1 H1 H2 H3.
  destruct (child_alloc _ _ _ _ _ _ _ _ _ _ Hc Hs0 Hs1 H1) as (Hc1 & Hp & _).
  destruct (child_alloc _ _ _ _ _ _ _ _ _ _ Hc1 Hs0 Hs1 H2) as (Hc2 & Hq & Hfq). split; [|done].
  assert (p ≠ q) as Hpq. { intros <-. by rewrite lookup_insert_eq in Hq. }
  unfold free_bytes in H3. apply bind_Ok in H3 as (a' & Hd & [= <-]).
  destruct (gdealloc_owned _ _ p (pages_of size) (gw_owned _ _ _ _ (cs_grow _ _ _ _ _ _ _ Hc2))) as (a'' & Hd' & Hb & Ho).
  { rewrite lookup_insert_ne by done. apply lookup_insert_eq. }
  rewrite Hd in Hd'. injection Hd' as <-.
  replace (frames m2) with (frames mi).
  2: { unfold alloc_bytes in *. inv_bind. by simplify_eq. }
  eapply child_blocks; [exact Hc| | |].
  - rewrite delete_insert_ne in Ho by congruence. rewrite delete_insert_id in Ho by done. exact Ho.
  - rewrite Hb. rewrite (gw_base _ _ _ _ (cs_grow _ _ _ _ _ _ _ Hc2)). symmetry. apply Hc.
  - apply insert_subseteq. by rewrite lookup_insert_ne in Hq by done.
Qed.

(** A kernel page mapped into the child *)
Lemma child_map m B root K mi Bi r va pa flags m' :
  child_space m B root K mi Bi r → canonical va → is_usize pa → leaf_flags flags → is_user flags = false →
  kernel_map r va pa flags mi = Ok m' →
  ∃ B', child_space m B root (λ x, if decide (x = va) then Some (leaf_entry pa flags) else K x) m' B' r ∧ Bi ⊆ B'.
Proof.
  intros [Hg Hinv Hfr Hm] Hva Hpa Hfl Hus Hrun. unfold kernel_map in Hrun. apply bind_Ok in Hrun as (u & _ & Hrun).
  destruct (map_addr_sets r va pa flags mi m' Bi Hinv Hva Hpa Hfl) as (B' & [Hi Hs Hb Hf Hfp _] & Hlf);
    [intros Hu; congruence|done|]. pose proof (map_addr_entry _ _ _ _ _ _ Hrun) as (Hpal & _ & Hme).
  assert (Hkeep : ∀ x d, live (ga mi) Bi x → frames mi !! x = Some (FPage d) → frames m' !! x = Some (FPage d)).
  { intros x d Hx Hd. by eapply (map_entry_keeps va _ 2 r mi m' Bi x d). }
  exists B'. split; [|done]. split.
  - destruct Hg as [Ho Hs0 Hb0 Hf0]. split; [apply Hi|by transitivity Bi|congruence|].
    intros x Hx. rewrite Hf; [by apply Hf0| |].
    + eapply live_mono; [exact Hb0|exact Hs0|done].
    + intros Hx'. by apply (Hfr x Hx').
  - done.
  - intros x Hx Hlive. destruct (Hfp x Hx) as [Hx'|[Hn|[Hu _]]].
    + by apply (Hfr x Hx').
    + apply Hn. eapply live_mono; [apply Hg|apply Hg|done].
    + destruct (leaf_entry_spec pa flags Hpa Hpal Hfl) as (_ & _ & _ & _ & Hue). congruence.
  - intros va' Hva'. specialize (Hm va' Hva'). rewrite Hlf by done. destruct (decide (va' = va)); [done|].
    destruct (K va'); [done|]. unfold copied in *. destruct (page_map m root va') as [e|]; [|done].
    destruct (is_user e); [|done]. destruct Hm as (pg & d & Ho & He & Hd & Hn & [k Hp]). exists pg, d.
    split_and!; [done|done| |done|exists k; by eapply lookup_weaken].
    apply Hkeep; [right; by exists k|done].
Qed.
End space.

(** The kernel mappings of a process *)
Definition kernel_pages (sym : linker_symbols) (tf_at va : Z) : option Z :=
  if decide (va = TRAPFRAME_START) then Some (leaf_entry tf_at EntryAttributes.RW)
  else if decide (va = TRAMPOLINE_START) then Some (leaf_entry (TRAMPOLINE_TEXT_START sym) EntryAttributes.RX)
  else None.

Lemma trampoline_canonical : canonical TRAMPOLINE_START ∧ canonical TRAPFRAME_START.
Proof. split; split; vm_compute; done. Qed.

(** The loop over the file table copies it. *)
Lemma files_copied (fs l l' : list (option Z)) :
  length fs = 256%nat → length l = 256%nat →
  for_range 0 256 (λ i fs', x ← aget fs i; aset fs' i x) l = Ok l' → l' = fs.
Proof.
  intros Hfs Hl Hrun.
  assert (length l' = 256%nat ∧ ∀ j, (Z.of_nat j < 256) → l' !! j = fs !! j) as [Hl' Heq].
  { revert Hrun. apply (for_range_inv (λ k t, length t = 256%nat ∧ ∀ j, (Z.of_nat j < k) → t !! j = fs !! j));
      [lia|split; [done|lia]|].
    intros k t t' Hk [Ht Hj] Hb. apply bind_Ok in Hb as (x & Hx & Hb). apply aget_Ok in Hx as [_ Hx].
    apply aset_Ok in Hb as [Hr ->]. split; [by rewrite length_insert|]. intros j Hjk.
    destruct (decide (j = Z.to_nat k)) as [->|]; [rewrite list_lookup_insert_eq by lia; done|].
    rewrite list_lookup_insert_ne by done. apply Hj. lia. }
  apply list_eq. intros j. destruct (decide (j < 256)%nat); [apply Heq; lia|].
  by rewrite !lookup_ge_None_2 by lia.
Qed.

Section build.
Context {A : Type} `{GlobalAllocLaws A}.
Context (sym : linker_symbols) (forkret : Z) (Hsym : is_usize (TRAMPOLINE_TEXT_START sym)).
Implicit Types (m : kmem A) (B : gmap Z Z).

Lemma from_exist_space m B root mi Bi r pid tf_at tf c m' :
  child_space m B root (λ _, None) mi Bi r → frame_addr tf_at →
  Process_from_exist sym forkret pid r tf_at tf mi = Ok (c, m') →
  (∃ B', child_space m B root (kernel_pages sym tf_at) m' B' r) ∧
  ∃ ks ctx, c = mkProcess r tf_at tf ctx UNUSED ks (ks + 4096 * 1024) pid 0 false (replicate 256 None).
Proof using Hsym.
  intros Hc Htf Hrun. unfold Process_from_exist in Hrun. apply bind_Ok in Hrun as (u & _ & Hrun).
  apply bind_Ok in Hrun as (ksz & Hksz & Hrun). apply umul_Ok in Hksz as [-> _].
  apply bind_Ok in Hrun as ([ks m1] & H1 & Hrun). apply bind_Ok in Hrun as ([cx m2] & H2 & Hrun).
  apply bind_Ok in Hrun as (ksp & Hksp & Hrun). apply uadd_Ok in Hksp as [-> _].
  apply bind_Ok in Hrun as (m3 & H3 & Hrun). apply bind_Ok in Hrun as (m4 & H4 & Hrun).
  apply bind_Ok in Hrun as (sp & _ & [= <- <-]).
  destruct (child_alloc _ _ _ _ _ _ _ (PAGE_SIZE * 1024) _ _ Hc ltac:(by vm_compute) ltac:(by vm_compute) H1) as (Hc1 & _).
  destruct (child_alloc _ _ _ _ _ _ _ 112 _ _ Hc1 ltac:(by vm_compute) ltac:(by vm_compute) H2) as (Hc2 & _).
  destruct trampoline_canonical as [Ct Cf].
  destruct (child_map _ _ _ _ _ _ _ _ _ _ _ Hc2 Ct Hsym (proj1 RX_flags) (proj2 RX_flags) H3) as (B3 & Hc3 & _).
  destruct (child_map _ _ _ _ _ _ _ _ _ _ _ Hc3 Cf (frame_addr_usize _ Htf) (proj1 RW_flags) (proj2 RW_flags) H4) as (B4 & Hc4 & _).
  split; [exists B4; exact Hc4|]. eexists ks, _. done.
Qed.

Lemma fork_build_space f p c m B m' :
  pt_inv 2 m B (pgtable p) → length (files p) = 256%nat → length (regs (trapframe p)) = 32%nat →
  fork_build sym forkret f p m = Ok (c, m') →
  (∃ B', child_space m B (pgtable p) (kernel_pages sym (trapframe_at c)) m' B' (pgtable c)) ∧
  pid c = f ∧ files c = files p ∧ state c = RUNNABLE ∧ kstack_sp c = kstack c + 4096 * 1024 ∧
  drop_on_put_back c = false ∧
  regs (trapframe c) = <[10%nat := 0]> (regs (trapframe p)) ∧ epc (trapframe c) = epc (trapframe p).
Proof using Hsym.
  intros Hinv Hfl Hrl Hrun. unfold fork_build in Hrun. apply bind_Ok in Hrun as ([r m1] & H1 & Hrun).
  apply bind_Ok in Hrun as ([t1 m2] & H2 & Hrun). apply bind_Ok in Hrun as ([tf_at m3] & H3 & Hrun).
  apply bind_Ok in Hrun as (m4 & H4 & Hrun). apply bind_Ok in Hrun as ([c0 m5] & H5 & Hrun).
  apply bind_Ok in Hrun as (fs & Hfs & Hrun). apply bind_Ok in Hrun as (tf & Htf & [= <- <-]).
  destruct (child_start m B (pgtable p) r m1 Hinv H1) as (B1 & Hc1).
  destruct (child_swap _ _ _ _ _ _ _ _ _ _ _ _ PAGE_SIZE Hc1 ltac:(by vm_compute) ltac:(by vm_compute) H2 H3 H4) as (Hc4 & Htfa).
  destruct (from_exist_space _ _ _ _ _ _ _ _ _ _ _ Hc4 Htfa H5) as (Hsp & ks & ctx & ->).
  cbn [files trapframe] in Hfs, Htf. apply files_copied in Hfs as ->; [|done|done].
  unfold set_reg in Htf. apply bind_Ok in Htf as (rs & Hrs & [= <-]). apply aset_Ok in Hrs as [_ ->].
  split; [exact Hsp|]. done.
Qed.
End build.

(** ** Files *)
Lemma refs_in_take a fs j o : fs !! j = Some o → refs_in a (take (S j) fs) = (refs_in a (take j fs) + ind (names a o))%nat.
Proof.
  revert j. induction fs as [|x fs IH]; intros [|j] Hj; [done..| |].
  - injection Hj as ->. change (take 1 (o :: fs)) with (o :: take 0 fs). cbn [refs_in]. rewrite !take_0. cbn [refs_in]. lia.
  - change (take (S (S j)) (x :: fs)) with (x :: take (S j) fs). change (take (S j) (x :: fs)) with (x :: take j fs).
    cbn [refs_in]. rewrite (IH j Hj). lia.
Qed.

Lemma pool_tables_put a pl i p :
  pl !! i = Some NoProc → refs a (pool_tables (<[i := Pooling p]> pl)) = (refs_in a (files p) + refs a (pool_tables pl))%nat.
Proof.
  unfold pool_tables. revert i. induction pl as [|x pl IH]; intros [|i] Hi; [done..| |].
  - injection Hi as ->. done.
  - change (<[S i := Pooling p]> (x :: pl)) with (x :: <[i := Pooling p]> pl). cbn [fmap list_fmap concat].
    rewrite !refs_app, (IH i Hi). lia.
Qed.

Section files.
Context {A BD MD : Type} `{GlobalAllocLaws A} `{BlockDevice BD} `{Mmio MD}.
Context (others : list (list (option Z))).
Implicit Types s : kst A BD MD.

Lemma clone_files_counted fs s s' :
  length fs = 256%nat → counted (k_arcs s) (tables others s) → clone_files fs s = Ok s' →
  counted (k_arcs s') (fs :: tables others s) ∧ k_proc s' = k_proc s ∧ k_pool s' = k_pool s ∧ k_mem s' = k_mem s ∧
  (∀ a, is_Some (k_arcs s' !! a) → is_Some (k_arcs s !! a)) ∧ k_dev s' = k_dev s ∧ k_disk s' = k_disk s.
Proof.
  intros Hfs Hc Hrun. unfold clone_files in Hrun.
  assert (Hi : counted (k_arcs s') (take (Z.to_nat 256) fs :: tables others s) ∧ k_proc s' = k_proc s ∧
    k_pool s' = k_pool s ∧ k_mem s' = k_mem s ∧ (∀ a, is_Some (k_arcs s' !! a) → is_Some (k_arcs s !! a)) ∧
    k_dev s' = k_dev s ∧ k_disk s' = k_disk s).
  { revert Hrun. apply (for_range_inv (λ k t, counted (k_arcs t) (take (Z.to_nat k) fs :: tables others s) ∧
      k_proc t = k_proc s ∧ k_pool t = k_pool s ∧ k_mem t = k_mem s ∧
      (∀ a, is_Some (k_arcs t !! a) → is_Some (k_arcs s !! a)) ∧ k_dev t = k_dev s ∧ k_disk t = k_disk s)); [lia|done|].
    intros k t t' Hk (Ht & Hrest & Hpl & Hmem & Harc & Hdv & Hdk) Hb. apply bind_Ok in Hb as (o & Ho & Hb). apply aget_Ok in Ho as [_ Ho].
    replace (Z.to_nat (k + 1)) with (S (Z.to_nat k)) by lia.
    assert (Hadd : ∀ a, refs a (take (S (Z.to_nat k)) fs :: tables others s) =
      (refs a (take (Z.to_nat k) fs :: tables others s) + ind (names a o))%nat).
    { intros a. cbn [refs]. rewrite (refs_in_take a fs _ o Ho). lia. }
    destruct o as [a|].
    - unfold arc_clone in Hb. destruct (k_arcs t !! a) as [[f n]|] eqn:E; [|done].
      apply bind_Ok in Hb as (n' & Hn & [= <-]). unfold isize in Hn. destruct (_ && _); [injection Hn as <-|done].
      cbn [k_arcs k_proc k_pool k_mem k_dev k_disk with_arcs]. split_and!; [|done..| |done|done].
      + intros b. rewrite Hadd. specialize (Ht b). destruct (decide (a = b)) as [<-|Hne].
        * rewrite lookup_insert_eq, names_eq. rewrite E in Ht. cbn [ind]. lia.
        * rewrite lookup_insert_ne, names_ne by congruence. cbn [ind]. rewrite Nat.add_0_r. exact Ht.
      + intros b [->|[_ Hb]]%lookup_insert_is_Some; apply Harc; [by rewrite E|done].
    - injection Hb as <-. split_and!; [|done..]. intros b. rewrite Hadd, names_None. cbn [ind]. rewrite Nat.add_0_r. apply Ht. }
  by rewrite take_ge in Hi by (rewrite Hfs; lia).
Qed.

(** ** The whole call *)
Context (sym : linker_symbols) (forkret : Z) (Hsym : is_usize (TRAMPOLINE_TEXT_START sym)).

Lemma set_drop_id c : drop_on_put_back c = false → set_drop false c = c.
Proof. destruct c; cbn. by intros ->. Qed.

(** C6: when fork returns, the parent is unchanged and so are its mappings; the pool has,
    at the pid fork returns and where there was no process, a runnable child with the
    parent's registers and program counter except a0 = 0, the same files with their
    counts raised, and an address space of its own: the trampoline and its trapframe,
    and a private copy of every user page. *)
Theorem fork_duplicates s B v s' :
  fd_inv others s → pool_size (k_pool s) → length (regs (trapframe (k_proc s))) = 32%nat →
  pt_inv 2 (k_mem s) B (pgtable (k_proc s)) → (∀ a, is_Some (k_arcs s !! a) → B !! a = Some 1) →
  sys_fork sym forkret s = Ok (v, s') →
  fd_inv others s' ∧ k_proc s' = k_proc s ∧
  (∀ va, page_map (k_mem s') (pgtable (k_proc s)) va = page_map (k_mem s) (pgtable (k_proc s)) va) ∧
  ∃ c B', k_pool s !! Z.to_nat v = Some NoProc ∧ k_pool s' = <[Z.to_nat v := Pooling c]> (k_pool s) ∧
    pid c = v ∧ files c = files (k_proc s) ∧ state c = RUNNABLE ∧
    regs (trapframe c) = <[10%nat := 0]> (regs (trapframe (k_proc s))) ∧ epc (trapframe c) = epc (trapframe (k_proc s)) ∧
    child_space (k_mem s) B (pgtable (k_proc s)) (kernel_pages sym (trapframe_at c)) (k_mem s') B' (pgtable c).
Proof using Hsym.
  intros Hi Hsz Hrl Hinv HB Hrun. unfold sys_fork in Hrun. apply bind_Ok in Hrun as (o & Ho & Hrun).
  destruct (find_available_pid_spec (k_pool s) Hsz) as [(i & Hf & Hir & Hno & _)|[Hf _]];
    rewrite Hf in Ho; injection Ho as <-; [|done].
  apply bind_Ok in Hrun as ([c m1] & Hb & Hrun). apply bind_Ok in Hrun as (s1 & Hcl & Hrun).
  apply bind_Ok in Hrun as ([bx m2] & Hal & Hrun). apply bind_Ok in Hrun as ([rl pl] & Hpb & [= <- <-]).
  destruct (fork_build_space sym forkret Hsym i (k_proc s) c (k_mem s) B m1 Hinv (fi_files _ _ Hi) Hrl Hb)
    as ([B1 Hc1] & Hpid & Hfiles & Hst & _ & Hdr & Hregs & Hepc).
  destruct (clone_files_counted (files (k_proc s)) (with_mem s m1) s1 (fi_files _ _ Hi) (fi_counts _ _ Hi) Hcl)
    as (Hcnt & Hp1 & Hpl1 & Hm1 & Harc & _). cbn [k_proc k_pool k_mem k_arcs with_mem] in Hp1, Hpl1, Hm1, Harc.
  rewrite Hm1 in Hal. destruct (child_alloc _ _ _ _ _ _ _ PAGE_SIZE _ _ Hc1 ltac:(by vm_compute) ltac:(by vm_compute) Hal) as (Hc2 & _).
  assert (Hpid64 : as_u 64 (pid c) = i) by (rewrite Hpid; apply as_u_id; [unfold is_u, NMAXPROCS in *; lia|lia]).
  unfold put_back_proc in Hpb. rewrite Hpl1, Hpid64 in Hpb.
  rewrite (aget_eq (k_pool s) i NoProc), bind_Ok_l in Hpb by (lia || done).
  apply bind_Ok in Hpb as (pl' & Hset & [= _ <-]). apply aset_Ok in Hset as [_ ->].
  change (pid (set_drop false c)) with (pid c). rewrite Hpid64, (set_drop_id c Hdr). split_and!.
  - split; cbn [k_arcs k_proc k_mem with_pool with_mem]; [|rewrite Hp1; apply Hi|].
    + intros a. specialize (Hcnt a). unfold tables in *. cbn [k_proc k_pool with_pool with_mem] in *. rewrite Hp1.
      cbn [refs] in *. rewrite refs_app in *. rewrite (pool_tables_put a (k_pool s) _ c Hno), Hfiles.
      destruct (k_arcs s1 !! a) as [[f n]|]; lia.
    + eexists. split; [apply (gw_owned _ _ _ _ (cs_grow _ _ _ _ _ _ _ Hc2))|]. intros a Ha.
      eapply lookup_weaken; [apply HB, Harc, Ha|]. apply (gw_blocks _ _ _ _ (cs_grow _ _ _ _ _ _ _ Hc2)).
  - exact Hp1.
  - apply (grows_pt_inv 2 _ B _ _ _ (cs_grow _ _ _ _ _ _ _ Hc2) Hinv).
  - exists c. eexists. split_and!; [done..|exact Hc2].
Qed.
End files.

(** ** A process with one page and no open file *)
Definition kst_f : kst Allocator (gmap Z (list Z)) Chip := KSt proc0 ptu disk0 chip1 ∅ PROCS_POOL_new.

Lemma kst_f_inv : fd_inv [] kst_f.
Proof.
  assert (∀ a n, refs_in a (replicate n None) = 0%nat) as Hn.
  { intros a. induction n as [|n IH]; [done|]. exact IH. }
  destruct ptu_inv as (B & [Ho _ _] & _). split.
  - intros a. cbn [k_arcs kst_f]. rewrite lookup_empty. unfold tables. rewrite app_nil_r.
    cbn [k_proc kst_f files proc0 refs]. rewrite Hn. reflexivity.
  - reflexivity.
  - exists B. split; [exact Ho|]. cbn [k_arcs kst_f]. intros a [x Hx]. by rewrite lookup_empty in Hx.
Qed.

Lemma fork_duplicates_witness :
  ∃ v s' c pg, sys_fork link0 0x80001000 kst_f = Ok (v, s') ∧ k_pool s' = <[Z.to_nat v := Pooling c]> PROCS_POOL_new ∧
    regs (trapframe c) = <[10%nat := 0]> (replicate 32 0) ∧
    page_map (k_mem s') (pgtable c) 0x1000 = Some (Entry_new pg (Z.lor EntryAttributes.URW EntryAttributes.V)) ∧
    frames (k_mem s') !! pg = Some (FPage zero_page).
Proof.
  destruct (is_ok_Ok (sys_fork link0 0x80001000 kst_f)) as [[v s'] Hrun]; [vm_compute; reflexivity|].
  destruct ptu_inv as (B & Hi & _).
  destruct (fork_duplicates [] link0 0x80001000 ltac:(split; vm_compute; done) kst_f B v s' kst_f_inv)
    as (_ & _ & _ & c & B' & _ & Hpl & _ & _ & _ & Hr & _ & [_ _ _ Hm]);
    [reflexivity|reflexivity|exact Hi|intros a [x Hx]; cbn in Hx; by rewrite lookup_empty in Hx|exact Hrun|].
  assert (canonical 0x1000) as Hcan by (split; [lia|reflexivity]). pose proof (Hm 0x1000 Hcan) as Hpg. clear Hm. rename Hpg into Hm.
  assert (kernel_pages link0 (trapframe_at c) 0x1000 = None) as Hk by reflexivity. rewrite Hk in Hm. clear Hk.
  cbn [k_mem kst_f k_proc pgtable proc0] in Hm.
  assert (page_map ptu root0 0x1000 = Some (leaf_entry upage EntryAttributes.URW)) as Hu by (vm_compute; reflexivity).
  assert (frames ptu !! upage = Some (FPage zero_page)) as Hz by (vm_compute; reflexivity).
  assert (is_user (leaf_entry upage EntryAttributes.URW) = true ∧ Entry_paddr (leaf_entry upage EntryAttributes.URW) = upage ∧
    Entry_flags (leaf_entry upage EntryAttributes.URW) = Z.lor EntryAttributes.URW EntryAttributes.V) as (H1 & H2 & H3)
    by (split_and!; vm_compute; reflexivity).
  unfold copied in Hm. rewrite Hu, H1, H2, H3 in Hm. destruct Hm as (pg & d & Hp & Hd & Hd' & _).
  exists v, s', c, pg. split_and!; [exact Hrun|exact Hpl|exact Hr|exact Hp|]. rewrite Hd'. congruence.
Defined.
