(* ===== verification/InitProc.v ===== *)
(** * The first process

    [init_proc] of [process/process.rs]: the address space of process 0, built next to
    the kernel's table. *)

From S2P Require Import Prelude Symbols Mem Page PageTree PageOps PageUser PageClone KernelMap Proc Exec Fork.

(** ** An empty table *)
Section empty.
Context {A : Type} `{GlobalAllocLaws A}.
Implicit Types (m : kmem A) (B : gmap Z Z).

Lemma no_frame_no_map m t va : frames m !! t = None → page_map m t va = None.
Proof. intros Hn. unfold page_map. cbn [leaf_at]. unfold entries. by rewrite Hn. Qed.

(** A new table is a copy of a table that maps nothing. *)
Lemma child_new m B e r m1 :
  owned (ga m) B → frames m !! e = None → box_frame (FTable Table_new) m = Ok (r, m1) →
  child_space m B e (λ _, None) m1 (<[r := 1]> B) r.
Proof.
  intros Ho He Hb. destruct (box_grows _ _ _ _ _ Ho Hb) as (Hg & Hn & Hr & Hfa).
  destruct (fresh_tree 2 (frames m1) r) as (Hw & Hfp & Hl); [unfold entries; by rewrite Hr|done|].
  split; [done|split; [apply Hg|done|]|..].
  - intros x ->%Hfp. right. by rewrite lookup_insert_eq.
  - by intros x ->%Hfp.
  - intros va _. rewrite (no_frame_no_map m e va He). apply Hl.
Qed.

(** Frames of the old world survive the mappings of a run in the child's table. *)
Lemma child_frames_run m B e K mi Bi r va src flags k m' x :
  child_space m B e K mi Bi r → run_mapped r va src flags mi Bi k m' →
  live (ga m) B x → frames m' !! x = frames m !! x.
Proof.
  intros Hc Hr Hx. rewrite (rm_frame _ _ _ _ _ _ _ _ Hr).
  - by apply (gw_frames _ _ _ _ (cs_grow _ _ _ _ _ _ _ Hc)).
  - by apply (grows_live _ _ _ _ _ (cs_grow _ _ _ _ _ _ _ Hc)).
  - intros Hf. by apply (cs_fresh _ _ _ _ _ _ _ Hc x Hf).
Qed.

(** A user page mapped into the child *)
Lemma child_page m B e K mi Bi r va d flags pg m1 m2 :
  child_space m B e K mi Bi r → (∀ va, page_map m e va = None) →
  canonical va → leaf_flags flags → is_user flags = true →
  ('(p, m1) ← Page_new mi; Ok (p, fill_page p d m1)) = Ok (pg, m1) → Table_map r va pg flags m1 = Ok m2 →
  ∃ B', child_space m B e (λ x, if decide (x = va) then Some (leaf_entry pg flags) else K x) m2 B' r ∧
    frames m2 !! pg = Some (FPage d) ∧ is_Some (B' !! pg).
Proof.
  intros [[Ho Hs Hb Hf] Hinv Hfr Hm] He Hva Hfl Hus Hpg Hmap.
  destruct (map_new_page r va d flags mi m1 Bi pg Hinv Hva Hfl Hus Hpg m2 Hmap)
    as (B' & [Hi (Hg & _ & HB) Hba Hd Hnm Hnfp _ Hnf]).
  exists B'. split_and!; [|done|by rewrite HB]. split.
  - split; [apply Hi|by transitivity Bi|congruence|]. intros x Hx.
    rewrite Hnf; [by apply Hf|by eapply live_mono|]. intros Hx'. by apply (Hfr x Hx').
  - done.
  - intros x [Hx|Hx]%Hnfp Hl; [by apply (Hfr x Hx)|]. apply Hx. by eapply live_mono.
  - intros va' Hva'. rewrite Hnm by done. destruct (decide (va' = va)); [done|]. specialize (Hm va' Hva').
    destruct (K va'); [done|]. rewrite He in *. done.
Qed.
End empty.

Definition zeroed (code : list Z) : list Z := code ++ replicate (4096 - length code) 0.
Definition STACK : Z := 0x80001000.

Section init_proc.
Context {A : Type} `{GlobalAllocLaws A}.
Context (sym : linker_symbols) (forkret : Z) (Hsym : is_usize (TRAMPOLINE_TEXT_START sym)).
Implicit Types (m : kmem A) (B : gmap Z Z).

(** What process 0 maps: its code, four stack pages, the trampoline and its trapframe *)
Record init_space (code : list Z) m (p : Process) : Prop := {
  is_code : ∃ pg, page_map m (pgtable p) 0 = Some (leaf_entry pg EntryAttributes.URX) ∧
    frames m !! pg = Some (FPage (zeroed code)) ∧ frame_addr pg;
  is_stack : ∀ i, 0 ≤ i < 4 → ∃ pg, page_map m (pgtable p) (STACK + i * PAGE_SIZE) = Some (leaf_entry pg EntryAttributes.URW) ∧
    frames m !! pg = Some (FPage zero_page);
  is_rest : ∀ va, canonical va → va ≠ 0 → ¬ (STACK ≤ va < STACK + 4 * PAGE_SIZE) →
    page_map m (pgtable p) va = kernel_pages sym (trapframe_at p) va;
}.

Lemma Process_new_space m B p m' :
  owned (ga m) B → Process_new sym forkret 0 m = Ok (p, m') →
  (∃ e B', child_space m B e (kernel_pages sym (trapframe_at p)) m' B' (pgtable p) ∧ ∀ va, page_map m e va = None) ∧
  pid p = 0 ∧ trapframe p = TrapFrame_zero ∧ drop_on_put_back p = false ∧ channel p = 0 ∧
  files p = replicate 256 None ∧ kstack_sp p = kstack p + 4096 * 1024.
Proof using Hsym.
  intros Ho Hrun. unfold Process_new in Hrun. apply bind_Ok in Hrun as ([r m1] & H1 & Hrun).
  apply bind_Ok in Hrun as ([tf_at m2] & H2 & Hrun).
  assert (∃ e, frames m !! e = None) as [e He].
  { exists (fresh (dom (frames m))). apply not_elem_of_dom, is_fresh. }
  pose proof (child_new m B e r m1 Ho He H1) as Hc1.
  destruct (child_alloc _ _ _ _ _ _ _ PAGE_SIZE _ _ Hc1 ltac:(by vm_compute) ltac:(by vm_compute) H2) as (Hc2 & _ & Hfa).
  destruct (from_exist_space sym forkret Hsym _ _ _ _ _ _ _ _ _ _ _ Hc2 Hfa Hrun) as ([B3 Hc3] & ks & ctx & ->).
  split; [|done]. exists e, B3. split; [exact Hc3|]. intros va. by apply no_frame_no_map.
Qed.

(** A run of user pages in the table of the process leaves other trees as they were. *)
Lemma other_tree m B t m' B' :
  grows m B m' B' → pt_inv 2 m B t → pt_inv 2 m' B' t ∧ ∀ va, page_map m' t va = page_map m t va.
Proof. apply grows_pt_inv. Qed.

Lemma init_proc_ready code m B kroot p m' :
  pt_inv 2 m B kroot → init_proc sym forkret code m = Ok (p, m') →
  (∃ B', pt_inv 2 m' B' kroot ∧ pt_inv 2 m' B' (pgtable p)) ∧
  (∀ va, page_map m' kroot va = page_map m kroot va) ∧ init_space code m' p ∧
  pid p = 0 ∧ state p = RUNNABLE ∧ drop_on_put_back p = false ∧
  epc (trapframe p) = 0 ∧ regs (trapframe p) !! 2%nat = Some (STACK + 4 * PAGE_SIZE).
Proof using Hsym.
  intros Hk Hrun. unfold init_proc in Hrun. apply bind_Ok in Hrun as ([p0 m1] & H1 & Hrun).
  apply bind_Ok in Hrun as ([pg m2] & H2 & Hrun). apply bind_Ok in Hrun as (u & _ & Hrun).
  apply bind_Ok in Hrun as (m3 & H3 & Hrun). apply bind_Ok in Hrun as ([sp m4] & H4 & Hrun).
  apply bind_Ok in Hrun as (tf & Htf & [= <- <-]).
  destruct (Process_new_space m B p0 m1 (pi_owned _ _ _ _ Hk) H1) as ((e & B1 & Hc1 & He) & Hpid & Htf0 & Hdr & _).
  destruct (child_page m B e _ m1 B1 (pgtable p0) 0 (zeroed code) EntryAttributes.URX pg (fill_page pg (zeroed code) m2) m3 Hc1 He)
    as (B3 & Hc3 & Hd3 & [n3 HB3]); [split; [lia|done]|apply URX_flags|apply URX_flags|by rewrite H2|exact H3|].
  destruct (box_frame_Ok _ _ _ _ _ (pi_owned _ _ _ _ (cs_inv _ _ _ _ _ _ _ Hc1)) H2) as (_ & _ & _ & _ & _ & Hfa).
  assert (canonical STACK) as Hst by (split; vm_compute; done).
  destruct (map_stack_run (pgtable p0) STACK m3 sp m4 B3 (cs_inv _ _ _ _ _ _ _ Hc3) Hst) as [-> Hr];
    [vm_compute; done|exact H4|].
  pose proof (λ x, child_frames_run _ _ _ _ _ _ _ _ _ _ _ _ x Hc3 Hr) as Hold.
  destruct (rm_inv _ _ _ _ _ _ _ _ Hr) as (B4 & Hi4 & Hs4 & Hb4 & Hpages).
  assert (grows m B m4 B4) as Hg4.
  { destruct (cs_grow _ _ _ _ _ _ _ Hc3) as [_ Hs Hb _]. split; [apply Hi4|by transitivity B3|congruence|exact Hold]. }
  destruct (other_tree m B kroot m4 B4 Hg4 Hk) as [Hk4 Hsame].
  unfold set_reg in Htf. apply bind_Ok in Htf as (rs & Hrs & [= <-]).
  rewrite Htf0 in Hrs. cbn [regs set_epc] in Hrs. apply aset_Ok in Hrs as [_ ->].
  split_and!; [by exists B4|exact Hsame| |done|done|done|done|reflexivity].
  pose proof (cs_map _ _ _ _ _ _ _ Hc3) as Hm3.
  split; cbn [pgtable trapframe_at set_state set_trapframe].
  - exists pg. assert (canonical 0) as Hz by (split; [lia|done]). specialize (Hm3 0 Hz). cbv beta in Hm3. rewrite decide_True in Hm3 by done.
    split_and!; [|apply (rm_keep _ _ _ _ _ _ _ _ Hr); [right; by exists n3|exact Hd3]|exact Hfa].
    rewrite (rm_other _ _ _ _ _ _ _ _ Hr 0 Hz); [exact Hm3|]. unfold STACK. lia.
  - intros i Hi. destruct (Hpages i Hi) as (q & Hq & Hd & _). by exists q.
  - intros va Hva Hne Hn. rewrite (rm_other _ _ _ _ _ _ _ _ Hr va Hva Hn). specialize (Hm3 va Hva). cbv beta in Hm3.
    rewrite decide_False in Hm3 by done. destruct (kernel_pages sym _ va); [exact Hm3|]. rewrite He in Hm3. exact Hm3.
Qed.
End init_proc.

(** ** [init_proc] succeeds on a heap whose first pages alone are in use *)
Section total.
Context (sym : linker_symbols) (forkret : Z) (Hsym : is_usize (TRAMPOLINE_TEXT_START sym)).
Context (Htramp : TRAMPOLINE_TEXT_START sym mod PAGE_SIZE = 0).
Implicit Types (m : kmem Allocator) (B : gmap Z Z).

Lemma alloc_low k size m :
  low k (ga m) → 0 ≤ k → 0 < size → size + 4095 < 2 ^ 64 → k + pages_of size ≤ MAX_PAGE →
  ∃ p m', alloc_bytes size m = Ok (p, m') ∧ low (k + pages_of size) (ga m').
Proof.
  intros Hl Hk Hs Hf Hm. destruct (low_alloc k size (ga m) Hl Hk Hs Hf Hm) as (p & a' & Ha & Hl').
  exists p, (KMem a' (frames m)). split; [|done]. unfold alloc_bytes. change (galloc size (ga m)) with (allocate (ga m) size).
  by rewrite Ha.
Qed.

Lemma box_low k f m :
  low k (ga m) → 0 ≤ k → k + 1 ≤ MAX_PAGE → ∃ p m', box_frame f m = Ok (p, m') ∧ low (k + 1) (ga m').
Proof.
  intros Hl Hk Hm. destruct (low_alloc k PAGE_SIZE (ga m) Hl Hk) as (p & a' & Ha & Hl'); [by vm_compute|by vm_compute|done|].
  exists p, (KMem a' (<[p := f]> (frames m))). split; [|exact Hl']. unfold box_frame.
  change (galloc PAGE_SIZE (ga m)) with (allocate (ga m) PAGE_SIZE). by rewrite Ha.
Qed.

Lemma map_low k root va pa flags m B :
  pt_inv 2 m B root → low k (ga m) → 0 ≤ k → k + 2 ≤ MAX_PAGE → va mod PAGE_SIZE = 0 → pa mod PAGE_SIZE = 0 →
  ∃ m', map_addr root va pa flags 0 m = Ok m' ∧ low (k + 2) (ga m').
Proof.
  intros Hinv Hl Hk Hm Hva Hpa. unfold map_addr. rewrite Hva, Hpa. cbn [negb Z.eqb panic_if]. rewrite !bind_Ok_l.
  destruct (map_entry_total (P:=low (k + 2)) (leaf_entry pa flags) va 0 2 root m B) as (m' & Hr & Hs); [done|done| |].
  - apply (low_serves (k + 2) (2 + 0) (ga m) k); [done|lia|cbn; lia|done].
  - exists m'. split; [exact Hr|]. by eapply serves_P.
Qed.

Lemma Process_new_low k m B :
  owned (ga m) B → low k (ga m) → 0 ≤ k → k + 1031 ≤ MAX_PAGE →
  ∃ p m', Process_new sym forkret 0 m = Ok (p, m') ∧ low (k + 1031) (ga m').
Proof using Hsym Htramp.
  intros Ho Hl Hk Hm. destruct (box_low k (FTable Table_new) m Hl Hk ltac:(lia)) as (r & m1 & H1 & L1).
  assert (∃ e, frames m !! e = None) as [e He].
  { exists (fresh (dom (frames m))). apply not_elem_of_dom, is_fresh. }
  pose proof (child_new m B e r m1 Ho He H1) as Hc1.
  destruct (alloc_low (k + 1) PAGE_SIZE m1 L1) as (tf_at & m2 & H2 & L2); [lia|by vm_compute|by vm_compute|change (pages_of PAGE_SIZE) with 1; lia|].
  destruct (child_alloc _ _ _ _ _ _ _ PAGE_SIZE _ _ Hc1 ltac:(by vm_compute) ltac:(by vm_compute) H2) as (Hc2 & _ & Hfa).
  change (pages_of PAGE_SIZE) with 1 in L2.
  destruct (alloc_low (k + 1 + 1) (PAGE_SIZE * 1024) m2 L2) as (ks & m3 & H3 & L3);
    [lia|by vm_compute|by vm_compute|change (pages_of (PAGE_SIZE * 1024)) with 1024; lia|].
  destruct (child_alloc _ _ _ _ _ _ _ (PAGE_SIZE * 1024) _ _ Hc2 ltac:(by vm_compute) ltac:(by vm_compute) H3) as (Hc3 & _ & Hfk).
  change (pages_of (PAGE_SIZE * 1024)) with 1024 in L3.
  destruct (alloc_low (k + 1 + 1 + 1024) 112 m3 L3) as (cx & m4 & H4 & L4);
    [lia|by vm_compute|by vm_compute|change (pages_of 112) with 1; lia|]. change (pages_of 112) with 1 in L4.
  destruct (child_alloc _ _ _ _ _ _ _ 112 _ _ Hc3 ltac:(by vm_compute) ltac:(by vm_compute) H4) as (Hc4 & _ & _).
  destruct trampoline_canonical as [Ct Cf].
  destruct (map_low (k + 1 + 1 + 1024 + 1) r TRAMPOLINE_START (TRAMPOLINE_TEXT_START sym) EntryAttributes.RX m4 _
    (cs_inv _ _ _ _ _ _ _ Hc4) L4) as (m5 & H5 & L5); [lia|lia|apply Ct|done|].
  destruct (child_map _ _ _ _ _ _ _ TRAMPOLINE_START (TRAMPOLINE_TEXT_START sym) EntryAttributes.RX m5 Hc4 Ct Hsym
    (proj1 RX_flags) (proj2 RX_flags) H5) as (B5 & Hc5 & _).
  destruct (map_low (k + 1 + 1 + 1024 + 1 + 2) r TRAPFRAME_START tf_at EntryAttributes.RW m5 _
    (cs_inv _ _ _ _ _ _ _ Hc5) L5) as (m6 & H6 & L6); [lia|lia|apply Cf|apply Hfa|].
  unfold Process_new. rewrite H1, bind_Ok_l, H2, bind_Ok_l. unfold Process_from_exist.
  rewrite (eq_refl : (0 <? 0) = false). cbn [panic_if]. rewrite bind_Ok_l, umul_eq, bind_Ok_l by (vm_compute; intuition congruence).
  rewrite H3, bind_Ok_l, H4, bind_Ok_l. destruct Hfk as [Hfk _].
  rewrite (uadd_eq 64 ks (PAGE_SIZE * 1024)), bind_Ok_l by (layout; lia). unfold kernel_map.
  change (negb (Z.land EntryAttributes.RX EntryAttributes.U =? 0)) with false.
  change (negb (Z.land EntryAttributes.RW EntryAttributes.U =? 0)) with false. cbn [panic_if].
  rewrite !bind_Ok_l, H5, bind_Ok_l, H6, bind_Ok_l. rewrite uadd_eq, bind_Ok_l by (layout; lia).
  eexists _, m6. split; [reflexivity|]. eapply low_le; [|exact L6]. lia.
Qed.

Lemma map_stack_low k root sb m B :
  pt_inv 2 m B root → canonical sb → sb + 4 * PAGE_SIZE ≤ 2 ^ 39 → low k (ga m) → 0 ≤ k → k + 12 ≤ MAX_PAGE →
  ∃ sp m', map_stack root sb m = Ok (sp, m') ∧ low (k + 12) (ga m').
Proof.
  intros Hinv Hsb Hhi Hl Hk Hm. unfold map_stack.
  destruct (for_range_total (λ i mi, run_mapped root sb (λ _, zero_page) EntryAttributes.URW m B i mi ∧ low (k + 3 * i) (ga mi))
    0 USER_STACK_PAGE (λ i m, '(stack, m) ← Page_new m; k ← umul 64 i PAGE_SIZE; va ← uadd 64 sb k;
      Table_map root va stack EntryAttributes.URW m) m) as (m' & -> & _ & Hl').
  - done.
  - split; [by apply run_mapped_start|]. by rewrite Z.add_0_r.
  - intros i mi Hi [Hr Hli]. unfold USER_STACK_PAGE in Hi.
    destruct (box_low (k + 3 * i) (FPage zero_page) mi Hli) as (pg & m1 & Hb & L1); [lia|lia|].
    destruct (rm_inv _ _ _ _ _ _ _ _ Hr) as (Bi & Hbi & _).
    destruct (box_frame_Ok _ _ _ _ _ (pi_owned _ _ _ _ Hbi) Hb) as (Ho & _ & Hnl & Hba & Hfr & Hfa).
    destruct (pt_inv_page root mi Bi pg zero_page (ga m1) Hbi Hnl Hba Ho) as (Hi1 & _ & _).
    assert (m1 = KMem (ga m1) (<[pg := FPage zero_page]> (frames mi))) as E1 by (destruct m1; cbn in *; by rewrite Hfr).
    rewrite <- E1 in Hi1. destruct Hsb as [Hsb0 Hsb1].
    destruct (map_low (k + 3 * i + 1) root (sb + i * PAGE_SIZE) pg EntryAttributes.URW m1 _ Hi1 L1)
      as (m2 & Hm2 & L2); [lia|lia|layout; by rewrite Z.mod_add|apply Hfa|].
    assert (Table_map root (sb + i * PAGE_SIZE) pg EntryAttributes.URW m1 = Ok m2) as Hmap by exact Hm2.
    exists m2. unfold Page_new. rewrite Hb, bind_Ok_l. layout. rewrite umul_eq, bind_Ok_l, uadd_eq, bind_Ok_l by lia.
    split; [exact Hmap|]. split; [|eapply low_le; [|exact L2]; lia].
    eapply (run_mapped_step root sb _ EntryAttributes.URW m B i mi m1 m2 pg); [done|lia|layout; lia|apply URW_flags|apply URW_flags|exact Hr| |by layout].
    unfold Page_new. rewrite Hb, bind_Ok_l. f_equal. f_equal. unfold fill_page. rewrite Hfr, insert_insert_eq. by rewrite <- E1.
  - rewrite bind_Ok_l. unfold USER_STACK_PAGE. rewrite uadd_eq, bind_Ok_l by (destruct Hsb; layout; lia).
    eexists _, m'. split; [reflexivity|]. exact Hl'.
Qed.

Lemma init_proc_low code k m B :
  owned (ga m) B → low k (ga m) → 0 ≤ k → k + 1046 ≤ MAX_PAGE → (length code ≤ 4096)%nat →
  ∃ p m', init_proc sym forkret code m = Ok (p, m') ∧ low (k + 1046) (ga m').
Proof using Hsym Htramp.
  intros Ho Hl Hk Hm Hcode. destruct (Process_new_low k m B Ho Hl Hk) as (p & m1 & H1 & L1); [lia|].
  destruct (Process_new_space sym forkret Hsym m B p m1 Ho H1) as ((e & B1 & Hc1 & He) & _ & Htf & _).
  destruct (box_low (k + 1031) (FPage zero_page) m1 L1) as (pg & m2 & H2 & L2); [lia|lia|].
  destruct (box_frame_Ok _ _ _ _ _ (pi_owned _ _ _ _ (cs_inv _ _ _ _ _ _ _ Hc1)) H2) as (Ho2 & _ & Hnl & Hba & Hfr & Hfa).
  destruct (pt_inv_page (pgtable p) m1 B1 pg (zeroed code) (ga m2) (cs_inv _ _ _ _ _ _ _ Hc1) Hnl Hba Ho2) as (Hi2 & _ & _).
  assert (KMem (ga m2) (<[pg := FPage (zeroed code)]> (frames m1)) = fill_page pg (zeroed code) m2) as E2
    by (unfold fill_page; by rewrite Hfr, insert_insert_eq).
  rewrite E2 in Hi2.
  destruct (map_low (k + 1031 + 1) (pgtable p) 0 pg EntryAttributes.URX _ _ Hi2 L2) as (m3 & H3 & L3); [lia|lia|done|apply Hfa|].
  destruct (child_page m B e _ m1 B1 (pgtable p) 0 (zeroed code) EntryAttributes.URX pg (fill_page pg (zeroed code) m2) m3 Hc1 He)
    as (B3 & Hc3 & _); [split; [lia|done]|apply URX_flags|apply URX_flags|by unfold Page_new; rewrite H2|exact H3|].
  destruct (map_stack_low (k + 1031 + 1 + 2) (pgtable p) STACK m3 B3 (cs_inv _ _ _ _ _ _ _ Hc3)) as (sp & m4 & H4 & L4);
    [split; by vm_compute|by vm_compute|done|lia|lia|].
  unfold init_proc. rewrite H1, bind_Ok_l. unfold Page_new. rewrite H2, bind_Ok_l.
  rewrite (proj2 (Z.ltb_ge _ _)) by (layout; lia). cbn [panic_if]. rewrite bind_Ok_l. fold (zeroed code).
  change (Table_map (pgtable p) 0 pg EntryAttributes.URX (fill_page pg (zeroed code) m2)) with
    (map_addr (pgtable p) 0 pg EntryAttributes.URX 0 (fill_page pg (zeroed code) m2)).
  rewrite H3, bind_Ok_l. fold STACK. rewrite H4, bind_Ok_l. rewrite Htf. unfold set_reg.
  rewrite aset_eq by (split; by vm_compute). rewrite !bind_Ok_l. eexists _, m4. split; [reflexivity|].
  eapply low_le; [|exact L4]. lia.
Qed.
End total.
