(* ===== verification/Trap.v ===== *)
(** * Traps: from user code into the kernel and back

    [trap.rs] with the assembly around it: [uservec] and [userret] of
    [asm/trampoline.S].  [trap_entry] and [sret] are the machine.  A trap handler may
    give up the hart ([yield_cpu]) and go on on another one, so what follows a yield
    starts from the registers of any hart: the theorems quantify over them. *)

From S2P Require Import Prelude Symbols Mem Page PageTree PageOps Hart Proc Devices Uart Virtio FsFile Intr Exec Syscall.

(** ** Supervisor registers *)
Record csr := Csr {
  c_sepc : Z; c_stval : Z; c_scause : Z; c_sstatus : Z; c_sie : Z; c_sip : Z;
  c_stvec : Z; c_satp : Z; c_sscratch : Z;
}.
Implicit Types c : csr.

Definition set_bit (x i : Z) (b : bool) : Z := if b then Z.setbit x i else Z.clearbit x i.
Definition SIE : Z := 1.
Definition SPIE : Z := 5.
Definition SPP : Z := 8.

Definition set_sepc c x : csr := Csr x (c_stval c) (c_scause c) (c_sstatus c) (c_sie c) (c_sip c) (c_stvec c) (c_satp c) (c_sscratch c).
Definition set_sstatus c x : csr := Csr (c_sepc c) (c_stval c) (c_scause c) x (c_sie c) (c_sip c) (c_stvec c) (c_satp c) (c_sscratch c).
Definition set_sip c x : csr := Csr (c_sepc c) (c_stval c) (c_scause c) (c_sstatus c) (c_sie c) x (c_stvec c) (c_satp c) (c_sscratch c).
Definition set_stvec c x : csr := Csr (c_sepc c) (c_stval c) (c_scause c) (c_sstatus c) (c_sie c) (c_sip c) x (c_satp c) (c_sscratch c).
Definition set_satp c x : csr := Csr (c_sepc c) (c_stval c) (c_scause c) (c_sstatus c) (c_sie c) (c_sip c) (c_stvec c) x (c_sscratch c).
Definition set_sscratch c x : csr := Csr (c_sepc c) (c_stval c) (c_scause c) (c_sstatus c) (c_sie c) (c_sip c) (c_stvec c) (c_satp c) x.

(** [arch::r_sstatus], [arch::w_sstatus] and [arch::r_satp] *)
Definition r_sstatus c : Z := c_sstatus c.
Definition w_sstatus c (x : Z) : csr := set_sstatus c x.
Definition r_satp c : Z := c_satp c.

Definition trap_intr_get c : bool := Z.testbit (c_sstatus c) SIE.
Definition trap_intr_off c : csr := set_sstatus c (set_bit (c_sstatus c) SIE false).
(** [sie::set_sext], [set_ssoft], [set_stimer] and [sstatus::set_sie] *)
Definition trap_intr_on c : csr :=
  set_sstatus (Csr (c_sepc c) (c_stval c) (c_scause c) (c_sstatus c) (Z.lor (c_sie c) 0x222) (c_sip c)
    (c_stvec c) (c_satp c) (c_sscratch c)) (set_bit (c_sstatus c) SIE true).

(** ** The machine: a trap is taken at [pc] ([from_s]: in supervisor mode), and [sret] *)
Definition trap_entry (cause tval pc : Z) (from_s : bool) c : csr :=
  let st := c_sstatus c in
  let st := set_bit (set_bit (set_bit st SPIE (Z.testbit st SIE)) SIE false) SPP from_s in
  Csr pc tval cause st (c_sie c) (c_sip c) (c_stvec c) (c_satp c) (c_sscratch c).
(** The next [pc], whether in supervisor mode, and the registers *)
Definition sret c : Z * bool * csr :=
  let st := c_sstatus c in
  (c_sepc c, Z.testbit st SPP,
   set_sstatus c (set_bit (set_bit (set_bit st SIE (Z.testbit st SPIE)) SPIE true) SPP false)).

(** ** [asm/trampoline.S] *)
Definition set_regs (tf : TrapFrame) (rs : list Z) : TrapFrame :=
  mkTrapFrame rs (fregs tf) (tf_satp tf) (tf_sp tf) (tf_hartid tf) (tf_trap tf) (epc tf).

(** [uservec]: x1 to x31 are saved ([sscratch] keeps t6); the frame, the new sp, tp and
    pc, and the registers with the kernel's table *)
Definition uservec (gpr : list Z) (tf : TrapFrame) c : TrapFrame * (Z * Z * Z) * csr :=
  (set_regs tf (take 1 (regs tf) ++ drop 1 gpr), (tf_sp tf, tf_hartid tf, tf_trap tf),
   set_satp (set_sscratch c (nth 31 gpr 0)) (tf_satp tf)).
(** [userret(TRAPFRAME, satp)]: the user's registers, and [sret] *)
Definition userret (trapframe satp : Z) (tf : TrapFrame) c : list Z * (Z * bool * csr) :=
  (0 :: drop 1 (regs tf), sret (set_sscratch (set_satp c satp) trapframe)).

(** ** [trap.rs] *)
(** Addresses of [kernelvec], [uservec], [userret] and [usertrap] *)
Record trap_syms := TrapSyms { kernelvec : Z; uservec_at : Z; userret_at : Z; usertrap_at : Z }.

Definition set_tf_epc (tf : TrapFrame) (x : Z) : TrapFrame :=
  mkTrapFrame (regs tf) (fregs tf) (tf_satp tf) (tf_sp tf) (tf_hartid tf) (tf_trap tf) x.

Section trap.
Context {A BD MD : Type} `{GlobalAlloc A} `{BlockDevice BD} `{Mmio MD}.
Context (ts : trap_syms) (sym : linker_symbols) (forkret vio_at arc_size : Z) (fuel : nat).
Implicit Types (k : kst A BD MD) (v : VirtIOData).

(** How [usertrap] ends: on to [usertrapret], through [yield_cpu] first, or never *)
Inductive uafter := UReturn c k v | UYield c k v | UExit k.

Definition with_tf k (tf : TrapFrame) : kst A BD MD := with_proc k (set_trapframe tf (k_proc k)).

(** [h] is [hart_id()], [procs] the processes of [CPUS]. *)
Definition usertrap (h : Z) (procs : list (option Process)) c k v : result uafter :=
  _ ← panic_if (Z.testbit (c_sstatus c) SPP) (Panic "not from user mode");
  let c := set_stvec c (kernelvec ts) in
  let k := with_tf k (set_tf_epc (trapframe (k_proc k)) (c_sepc c)) in
  if c_scause c =? 8 then
    e ← uadd 64 (epc (trapframe (k_proc k))) 4;
    let k := with_tf k (set_tf_epc (trapframe (k_proc k)) e) in
    let c := trap_intr_on c in
    o ← syscall sym forkret vio_at arc_size fuel k;
    match o with
    | Returns r k =>
        rs ← aset (regs (trapframe (k_proc k))) Register.a0 (as_u 64 r);
        Ok (UReturn c (with_tf k (set_regs (trapframe (k_proc k)) rs)) v)
    | Exits k => Ok (UExit k)
    end
  else
    '(o, ds) ← devintr fuel h (c_scause c) procs (k_pool k) (mkDevs (k_dev k) v (c_sip c));
    let k := with_dev k (mmio ds) in
    let c := set_sip c (r_sip ds) in
    match o with
    | None => Err (Panic "unexpected scause {:x}")
    | Some IntrTimer => Ok (UYield c k (vio ds))
    | Some IntrDevice => Ok (UReturn c k (vio ds))
    end.

(** [usertrapret] on hart [h]: registers, process, and the arguments of [userret] with
    its address *)
Definition usertrapret (h : Z) c (p : Process) : result (csr * Process * Z * Z) :=
  let c := trap_intr_off c in
  o ← usub (uservec_at ts) (TRAMPOLINE_TEXT_START sym);
  vec ← uadd 64 o TRAMPOLINE_START;
  let c := set_stvec c vec in
  let tf := trapframe p in
  let tf := mkTrapFrame (regs tf) (fregs tf) (r_satp c) (kstack_sp p) h (usertrap_at ts) (epc tf) in
  let p := set_trapframe tf p in
  let c := set_sstatus c (set_bit (c_sstatus c) SPIE true) in
  let c := set_sstatus c (set_bit (c_sstatus c) SPP false) in
  let c := set_sepc c (epc tf) in
  satp_val ← build_satp 8 0 (pgtable p);
  uo ← usub (userret_at ts) (TRAMPOLINE_TEXT_START sym);
  fn_addr ← uadd 64 TRAMPOLINE_START uo;
  Ok (c, p, satp_val, fn_addr).

(** [forkret], where a new process starts *)
Definition forkret_body (h : Z) c (p : Process) : result (csr * Process * Z * Z) := usertrapret h c p.

(** [kerneltrap] up to the yield: whether it yields *)
Definition kerneltrap_enter (h : Z) (procs : list (option Process)) (ctx : Context) (cur : option Process)
    (pool : Pool) c (ds : devs MD) : result (bool * devs MD) :=
  let is_async := is_interrupt (c_scause c) in
  let cause_num := cause_code (c_scause c) in
  _ ← panic_if (negb (Z.testbit (c_sstatus c) SPP))
        (Panic "not from supervisor mode, async {}, {:x}, hart {}, epc {:x}, tval {}");
  _ ← panic_if (trap_intr_get c) (Panic "interrupt not disabled");
  '(dev_intr, ds) ←
    (if is_async then
       '(o, ds) ← devintr fuel h (c_scause c) procs pool ds;
       _ ← panic_if (bool_decide (o = None)) (Panic "Unhandled async trap CPU#{} -> {}");
       Ok (o, ds)
     else Err (Panic
       (if cause_num =? 2 then "Illegal instruction CPU#{} -> 0x{:08x}: 0x{:08x}"
        else if cause_num =? 8 then "E-call from User mode! CPU#{} -> 0x{:08x}"
        else if cause_num =? 9 then "E-call from Supervisor mode! CPU#{} -> 0x{:08x}"
        else if cause_num =? 11 then "E-call from Machine mode! CPU#{} -> 0x{:08x}"
        else if cause_num =? 12 then "Instruction page fault CPU#{} -> 0x{:08x}: 0x{:08x}"
        else if cause_num =? 13 then "Load page fault CPU#{} -> 0x{:08x}: 0x{:08x}"
        else if cause_num =? 15 then "Store page fault CPU#{} -> 0x{:08x}: 0x{:08x}"
        else "Unhandled sync trap CPU#{} -> {}")));
  ra ← aget (cregs ctx) 0;
  Ok (bool_decide (dev_intr = Some IntrTimer) && negb (ra =? 0) &&
      match cur with Some p => bool_decide (state p = RUNNING) | None => false end, ds).

(** [kerneltrap] up to [sepc::write]; after a yield the registers are [back], those of the
    hart it goes on on.  The saved [sstatus], the registers and the devices *)
Definition kerneltrap_sepc (h : Z) (procs : list (option Process)) (ctx : Context) (cur : option Process)
    (pool : Pool) (back : csr) c (ds : devs MD) : result (Z * csr * devs MD) :=
  let epc := c_sepc c in
  let sstatus_bits := r_sstatus c in
  '(yields, ds) ← kerneltrap_enter h procs ctx cur pool c ds;
  let c := if yields : bool then back else set_sip c (r_sip ds) in
  Ok (sstatus_bits, set_sepc c epc, ds).

(** [kerneltrap].  [scheduler] switches to a process with interrupts on, so that they are
    on after a yield; [irq] is what the interrupts do that come between [sepc::write] and
    [w_sstatus], when they are on. *)
Definition kerneltrap (h : Z) (procs : list (option Process)) (ctx : Context) (cur : option Process)
    (pool : Pool) (back : csr) (irq : csr → devs MD → result (csr * devs MD)) c (ds : devs MD) :
    result (csr * devs MD) :=
  '(sstatus_bits, c, ds) ← kerneltrap_sepc h procs ctx cur pool back c ds;
  '(c, ds) ← (if trap_intr_get c then irq c ds else Ok (c, ds));
  Ok (w_sstatus c sstatus_bits, ds).

(** No interrupt; and one taken at [pc]: the trap, its [kerneltrap], and [sret] *)
Definition no_irq c (ds : devs MD) : result (csr * devs MD) := Ok (c, ds).
Definition kernel_irq (cause tval pc : Z) (h : Z) (procs : list (option Process)) (ctx : Context)
    (cur : option Process) (pool : Pool) (back : csr) (irq : csr → devs MD → result (csr * devs MD))
    c (ds : devs MD) : result (csr * devs MD) :=
  '(c, ds) ← kerneltrap h procs ctx cur pool back irq (trap_entry cause tval pc true c) ds;
  Ok ((sret c).2, ds).

(** [hartinit] *)
Definition trap_hartinit c : csr := set_stvec c (kernelvec ts).
End trap.

(** ** Bits *)
Lemma set_bit_spec x i b j : 0 ≤ i → Z.testbit (set_bit x i b) j = if decide (j = i) then b else Z.testbit x j.
Proof.
  intros Hi. unfold set_bit. destruct (decide (j = i)) as [->|Hne], b.
  - by apply Z.setbit_eq.
  - by apply Z.clearbit_eq.
  - by apply Z.setbit_neq.
  - by apply Z.clearbit_neq.
Qed.
Ltac csr_simpl := cbn [r_sstatus w_sstatus r_satp fst snd userret sret trap_entry uservec c_sstatus c_sepc c_satp c_stvec c_sscratch c_scause c_sip
  c_stval c_sie set_sstatus set_sepc set_stvec set_satp set_sscratch set_sip trap_intr_off trap_intr_on trapframe
  set_trapframe regs epc tf_sp tf_hartid tf_trap tf_satp set_regs set_tf_epc].
Ltac bits := rewrite ?set_bit_spec by done; repeat (case_decide; try done).

(** The trampoline page holds [uservec] and [userret]; the table of the process is a page. *)
Record trap_layout (ts : trap_syms) (sym : linker_symbols) (p : Process) : Prop := {
  tl_text : 0 ≤ TRAMPOLINE_TEXT_START sym;
  tl_uservec : TRAMPOLINE_TEXT_START sym ≤ uservec_at ts < TRAMPOLINE_TEXT_START sym + PAGE_SIZE;
  tl_userret : TRAMPOLINE_TEXT_START sym ≤ userret_at ts < TRAMPOLINE_TEXT_START sym + PAGE_SIZE;
  tl_table : is_u 52 (pgtable p) ∧ pgtable p mod PAGE_SIZE = 0;
}.

(** ** Into user mode

    What [usertrapret] on hart [h] (with kernel table [ks]) and [userret] lead to: user
    code at [pc] with registers [gpr], interrupts on, in the table [root] of the process
    at the value [satp]; and the next trap will find the kernel stack [sp], the hart and
    the handler in the frame. *)
Record in_user (ts : trap_syms) (sym : linker_symbols) (gpr : list Z) (pc root sp h ks : Z)
    (r : list Z * (Z * bool * csr)) (tf : TrapFrame) (fn : Z) : Prop := {
  iu_regs : r.1 = gpr;
  iu_pc : r.2.1 = (pc, false);
  iu_sie : Z.testbit (c_sstatus r.2.2) SIE = true;
  iu_satp : Z.shiftr (c_satp r.2.2) 60 = 8 ∧ Z.shiftl (Z.land (c_satp r.2.2) (Z.ones 44)) 12 = root;
  iu_vec : c_stvec r.2.2 = TRAMPOLINE_START + (uservec_at ts - TRAMPOLINE_TEXT_START sym);
  iu_scratch : c_sscratch r.2.2 = TRAPFRAME_START;
  iu_frame : tf_sp tf = sp ∧ tf_hartid tf = h ∧ tf_trap tf = usertrap_at ts ∧ tf_satp tf = ks;
  iu_fn : fn = TRAMPOLINE_START + (userret_at ts - TRAMPOLINE_TEXT_START sym);
}.

Lemma usertrapret_enters ts sym h c p :
  trap_layout ts sym p →
  ∃ c' p' satp fn, usertrapret ts sym h c p = Ok (c', p', satp, fn) ∧
    in_user ts sym (0 :: drop 1 (regs (trapframe p))) (epc (trapframe p)) (pgtable p) (kstack_sp p) h (c_satp c)
      (userret TRAPFRAME_START satp (trapframe p') c') (trapframe p') fn.
Proof.
  intros [Ht Hv Hr [Hp Ha]]. unfold usertrapret.
  destruct (satp_word 8 0 (pgtable p)) as (x & Hx & Hm & _ & Hn); [split; done|split; done|done|done|].
  layout. rewrite (usub_eq (uservec_at ts)), bind_Ok_l by lia. rewrite (uadd_eq 64 _ (2 ^ 38 - 4096)), bind_Ok_l by lia.
  cbn [pgtable set_trapframe]. rewrite Hx, bind_Ok_l, (usub_eq (userret_at ts)), bind_Ok_l by lia.
  rewrite (uadd_eq 64 (2 ^ 38 - 4096)), bind_Ok_l by lia. eexists _, _, _, _. split; [reflexivity|].
  split; csr_simpl; [done| | |done|layout; lia|done|done|done].
  - f_equal. by bits.
  - by bits.
Qed.

(** A process comes back from the scheduler with the same table, frame and stack. *)
Definition resumed (p p' : Process) : Prop :=
  pgtable p' = pgtable p ∧ trapframe p' = trapframe p ∧ kstack_sp p' = kstack_sp p.

Lemma resumed_layout ts sym p p' : trap_layout ts sym p → resumed p p' → trap_layout ts sym p'.
Proof. intros [? ? ? ?] (Hp & _). split; by rewrite ?Hp. Qed.

(** Saving and restoring *)
Lemma frame_roundtrip (gpr rs : list Z) :
  gpr !! 0%nat = Some 0 → (1 ≤ length rs)%nat → 0 :: drop 1 (take 1 rs ++ drop 1 gpr) = gpr.
Proof.
  intros Hg Hr. destruct gpr as [|x gpr]; [done|]. injection Hg as ->. destruct rs as [|y rs]; [cbn in Hr; lia|].
  cbn. by rewrite !drop_0.
Qed.

(** Register [i] in the saved frame *)
Lemma frame_lookup (rs gpr : list Z) i : (1 ≤ length rs)%nat → (1 ≤ i)%nat → (take 1 rs ++ drop 1 gpr) !! i = gpr !! i.
Proof.
  intros Hr Hi. destruct rs as [|y rs]; [cbn in Hr; lia|]. destruct i as [|i]; [lia|]. cbn. rewrite take_0. cbn.
  by destruct gpr as [|x gpr]; cbn; rewrite ?drop_0.
Qed.

Section specs.
Context {A BD MD : Type} `{GlobalAlloc A} `{BlockDevice BD} `{Mmio MD}.
Context (ts : trap_syms) (sym : linker_symbols) (forkret vio_at arc_size : Z) (fuel : nat).
Implicit Types (k : kst A BD MD) (v : VirtIOData).

(** [usertrap] reached from user code at [pc] with registers [gpr] *)
Definition from_user (h : Z) procs (cause tval pc : Z) (gpr : list Z) c k v : result (@uafter A BD MD) :=
  let '(tf, _, c) := uservec gpr (trapframe (k_proc k)) (trap_entry cause tval pc false c) in
  usertrap ts sym forkret vio_at arc_size fuel h procs c (with_tf k tf) v.

Definition goes_on (r : @uafter A BD MD) k : Prop := ∃ c v, r = UReturn c k v ∨ r = UYield c k v.

Lemma from_user_spp cause tval pc c : Z.testbit (c_sstatus (trap_entry cause tval pc false c)) SPP = false.
Proof. csr_simpl. by bits. Qed.

(** C7: an interrupt in user code, taken through uservec, usertrap and devintr, and
    resumed later by usertrapret and userret on any hart, returns to the same
    instruction with the same registers, the process's page table, user mode and
    interrupts on, and with the frame set up for the next trap. *)
Theorem interrupt_transparent h procs cause tval pc gpr c k v i ds :
  trap_layout ts sym (k_proc k) → gpr !! 0%nat = Some 0 → (1 ≤ length (regs (trapframe (k_proc k))))%nat →
  cause ≠ 8 →
  devintr fuel h cause procs (k_pool k) (mkDevs (k_dev k) v (c_sip c)) = Ok (Some i, ds) →
  ∃ r k1, from_user h procs cause tval pc gpr c k v = Ok r ∧ goes_on r k1 ∧ k_dev k1 = mmio ds ∧
    ∀ h' c' p', resumed (k_proc k1) p' →
    ∃ c3 p3 satp fn, usertrapret ts sym h' c' p' = Ok (c3, p3, satp, fn) ∧
      in_user ts sym gpr pc (pgtable (k_proc k)) (kstack_sp (k_proc k)) h' (c_satp c')
        (userret TRAPFRAME_START satp (trapframe p3) c3) (trapframe p3) fn.
Proof.
  intros Hl Hg Hr Hc Hdev. unfold from_user, usertrap. cbn [uservec].
  cbn [c_sstatus set_satp set_sscratch]. rewrite from_user_spp. cbn [panic_if]. rewrite bind_Ok_l.
  cbn [c_scause c_sip set_stvec set_satp set_sscratch trap_entry k_pool k_dev with_tf with_proc].
  rewrite (proj2 (Z.eqb_neq cause 8)) by done. rewrite Hdev, bind_Ok_l. cbn zeta.
  set (k1 := with_dev _ (mmio ds)).
  assert (Hback : ∀ h' c' p', resumed (k_proc k1) p' →
    ∃ c3 p3 satp fn, usertrapret ts sym h' c' p' = Ok (c3, p3, satp, fn) ∧
      in_user ts sym gpr pc (pgtable (k_proc k)) (kstack_sp (k_proc k)) h' (c_satp c')
        (userret TRAPFRAME_START satp (trapframe p3) c3) (trapframe p3) fn).
  { intros h' c' p' (Hp & Htf & Hs). cbn in Hp, Htf, Hs.
    destruct (usertrapret_enters ts sym h' c' p') as (c3 & p3 & satp & fn & Hrun & Hin).
    { destruct Hl as [? ? ? ?]. split; by rewrite ?Hp. }
    exists c3, p3, satp, fn. split; [exact Hrun|]. rewrite Hp, Htf, Hs in Hin. cbn [regs set_tf_epc set_regs epc] in Hin.
    by rewrite frame_roundtrip in Hin. }
  destruct i; eexists _, k1; (split; [reflexivity|]); (split_and!; [|done|exact Hback]); eexists _, _; auto.
Qed.

(** ** System calls *)
(** Every call but [exec] leaves table, trapframe and kernel stack alone. *)
Lemma resumed_refl p : resumed p p.
Proof. done. Qed.
Lemma resumed_trans p p1 p2 : resumed p p1 → resumed p1 p2 → resumed p p2.
Proof. intros (? & ? & ?) (? & ? & ?). split_and!; congruence. Qed.
#[local] Hint Resolve resumed_refl : core.

Lemma assign_file_frame fd o k k' : assign_file fd o k = Ok k' → resumed (k_proc k) (k_proc k').
Proof.
  unfold assign_file, arc_drop. intros Hrun. apply bind_Ok in Hrun as (old & _ & Hrun).
  apply bind_Ok in Hrun as (fs & _ & Hrun). destruct old as [a|]; [|by injection Hrun as <-].
  destruct (k_arcs _ !! a) as [[f n]|]; [|done]. destruct (n =? 1); inv_bind; done.
Qed.

Lemma arc_clone_proc a k k' : arc_clone a k = Ok k' → k_proc k' = k_proc k.
Proof. unfold arc_clone. intros Hb. destruct (k_arcs k !! a) as [[f n]|]; [|done]. by inv_bind. Qed.

Lemma arc_new_proc f a k k' : arc_new arc_size f k = Ok (a, k') → k_proc k' = k_proc k.
Proof. unfold arc_new. intros Hb. by inv_bind. Qed.

Lemma clone_files_proc fs k k' : clone_files fs k = Ok k' → k_proc k' = k_proc k.
Proof.
  unfold clone_files. apply (for_range_inv (λ _ t, k_proc t = k_proc k)); [done|done|].
  intros i t t' _ Ht Hb. apply bind_Ok in Hb as (o & _ & Hb). destruct o as [a|]; [|by injection Hb as <-].
  apply arc_clone_proc in Hb. congruence.
Qed.

Lemma sys_open_frame k r k' : sys_open arc_size k = Ok (r, k') → resumed (k_proc k) (k_proc k').
Proof.
  unfold sys_open. intros Hrun. do 6 (apply bind_Ok in Hrun as (? & _ & Hrun)).
  destruct x4 as [fd|]; [|by injection Hrun as <- <-]. apply bind_Ok in Hrun as ([a s1] & Hnew & Hrun).
  apply bind_Ok in Hrun as (s2 & Has%assign_file_frame & [= <- <-]).
  destruct (bool_decide _); [|apply bind_Ok in Hnew as ([f d] & _ & Hnew)];
    apply arc_new_proc in Hnew; by rewrite Hnew in Has.
Qed.

Lemma sys_dup_frame k r k' : sys_dup k = Ok (r, k') → resumed (k_proc k) (k_proc k').
Proof.
  unfold sys_dup. intros Hrun. do 2 (apply bind_Ok in Hrun as (? & _ & Hrun)).
  destruct x0 as [fd|]; [|by injection Hrun as <- <-]. do 2 (apply bind_Ok in Hrun as (? & _ & Hrun)).
  apply bind_Ok in Hrun as (s1 & Hc%arc_clone_proc & Hrun).
  apply bind_Ok in Hrun as (s2 & Has%assign_file_frame & [= <- <-]). by rewrite Hc in Has.
Qed.

Lemma sys_rw_frame k r k' : sys_write fuel k = Ok (r, k') ∨ sys_read k = Ok (r, k') → resumed (k_proc k) (k_proc k').
Proof.
  unfold sys_write, sys_read. intros [Hrun|Hrun]; do 6 (apply bind_Ok in Hrun as (? & _ & Hrun));
    destruct x4 as [[]|f|]; try done; inv_bind; done.
Qed.

Lemma sys_fork_frame k r k' : sys_fork sym forkret k = Ok (r, k') → resumed (k_proc k) (k_proc k').
Proof.
  unfold sys_fork. intros Hrun. apply bind_Ok in Hrun as (o & _ & Hrun). destruct o as [f|]; [|done].
  apply bind_Ok in Hrun as ([c m] & _ & Hrun). apply bind_Ok in Hrun as (s1 & Hc%clone_files_proc & Hrun).
  apply bind_Ok in Hrun as ([b m2] & _ & Hrun). apply bind_Ok in Hrun as ([b2 pl] & _ & [= <- <-]).
  cbn in *. by rewrite Hc.
Qed.

Lemma syscall_frame k r k' a7 :
  syscall sym forkret vio_at arc_size fuel k = Ok (Returns r k') →
  aget (regs (trapframe (k_proc k))) Register.a7 = Ok a7 → as_i 64 a7 ≠ SYS_EXEC →
  resumed (k_proc k) (k_proc k').
Proof.
  unfold syscall, returns. intros Hrun Ha7 Hne. rewrite Ha7, bind_Ok_l in Hrun.
  rewrite (proj2 (Z.eqb_neq _ SYS_EXEC)) in Hrun by done.
  repeat (match type of Hrun with (if ?b then _ else _) = _ => destruct b end; [inv_bind; simplify_eq|]);
    [by eapply sys_rw_frame; left|by eapply sys_rw_frame; right|by eapply sys_fork_frame|by eapply sys_dup_frame|
     by eapply sys_open_frame| |done].
  match goal with Hc : sys_close _ = _ |- _ => unfold sys_close in Hc end. inv_bind.
  by eapply assign_file_frame.
Qed.

(** A call that returns: back behind the [ecall] with the result *)
Lemma syscall_returns h procs tval pc gpr c k v a7 r k2 :
  trap_layout ts sym (k_proc k) → length gpr = 32%nat → gpr !! 0%nat = Some 0 →
  (1 ≤ length (regs (trapframe (k_proc k))))%nat →
  0 ≤ pc < 2 ^ 64 - 4 → gpr !! 17%nat = Some a7 → as_i 64 a7 ≠ SYS_EXEC →
  let tf := set_tf_epc (set_regs (trapframe (k_proc k)) (take 1 (regs (trapframe (k_proc k))) ++ drop 1 gpr)) (pc + 4) in
  syscall sym forkret vio_at arc_size fuel (with_tf k tf) = Ok (Returns r k2) →
  ∃ c1 k1, from_user h procs 8 tval pc gpr c k v = Ok (UReturn c1 k1 v) ∧ k_mem k1 = k_mem k2 ∧ k_dev k1 = k_dev k2 ∧
    ∀ h' c' p', resumed (k_proc k1) p' →
    ∃ c3 p3 satp fn, usertrapret ts sym h' c' p' = Ok (c3, p3, satp, fn) ∧
      in_user ts sym (<[10%nat := as_u 64 r]> gpr) (pc + 4) (pgtable (k_proc k)) (kstack_sp (k_proc k)) h' (c_satp c')
        (userret TRAPFRAME_START satp (trapframe p3) c3) (trapframe p3) fn.
Proof.
  intros Hl Hlen Hg Hr Hpc Ha7 Hne tf Hsys. unfold from_user, usertrap. cbn [uservec].
  cbn [c_sstatus set_satp set_sscratch]. rewrite from_user_spp. cbn [panic_if]. rewrite bind_Ok_l.
  cbn [c_scause c_sepc set_stvec set_satp set_sscratch trap_entry]. change (8 =? 8) with true. cbn iota.
  cbn [k_proc with_tf with_proc trapframe set_trapframe epc set_tf_epc]. rewrite uadd_eq, bind_Ok_l by lia.
  match goal with |- context [syscall sym forkret vio_at arc_size fuel ?k'] => change k' with (with_tf k tf) end.
  rewrite Hsys, bind_Ok_l.
  assert (Hrs : length (regs tf) = 32%nat).
  { unfold tf. cbn [regs set_tf_epc set_regs]. rewrite length_app, length_take, length_drop. lia. }
  destruct (syscall_frame _ _ _ a7 Hsys) as (Hp & Htf & Hs); [|done|].
  { cbn [k_proc with_tf with_proc trapframe set_trapframe tf regs set_tf_epc set_regs]. apply aget_eq; [done|].
    rewrite frame_lookup by (done || (vm_compute; lia)). exact Ha7. }
  cbn [k_proc with_tf with_proc trapframe set_trapframe pgtable kstack_sp] in Hp, Htf, Hs.
  rewrite Htf, aset_eq by (rewrite Hrs; unfold Register.a0; lia). rewrite bind_Ok_l.
  eexists _, _. split; [reflexivity|]. split; [done|]. split; [done|]. intros h' c' p' (Hp' & Htf' & Hs'). cbn in Hp', Htf', Hs'.
  destruct (usertrapret_enters ts sym h' c' p') as (c3 & p3 & satp & fn & Hrun & Hin).
  { destruct Hl as [? ? ? ?]. split; by rewrite ?Hp', ?Hp. }
  exists c3, p3, satp, fn. split; [exact Hrun|]. rewrite Hp', Hp, Htf', Hs', Hs in Hin. revert Hin.
  cbn [regs set_regs epc set_tf_epc tf]. change (Z.to_nat Register.a0) with 10%nat.
  replace (0 :: drop 1 _) with (<[10%nat:=as_u 64 r]> gpr); [done|].
  destruct (regs (trapframe (k_proc k))) as [|y rs]; [cbn in Hr; lia|]. destruct gpr as [|x gpr]; [done|].
  injection Hg as ->. cbn. by rewrite !drop_0.
Qed.

(** C16: a system call other than exec that returns comes back after the ecall, on
    whichever hart, with its result in a0 and all other registers as they were. *)
Theorem syscall_resumes h procs tval pc gpr c k v a7 r k2 :
  trap_layout ts sym (k_proc k) → length gpr = 32%nat → gpr !! 0%nat = Some 0 →
  (1 ≤ length (regs (trapframe (k_proc k))))%nat →
  0 ≤ pc < 2 ^ 64 - 4 → gpr !! 17%nat = Some a7 → as_i 64 a7 ≠ SYS_EXEC →
  let tf := set_tf_epc (set_regs (trapframe (k_proc k)) (take 1 (regs (trapframe (k_proc k))) ++ drop 1 gpr)) (pc + 4) in
  syscall sym forkret vio_at arc_size fuel (with_tf k tf) = Ok (Returns r k2) →
  ∃ c1 k1, from_user h procs 8 tval pc gpr c k v = Ok (UReturn c1 k1 v) ∧ k_mem k1 = k_mem k2 ∧ k_dev k1 = k_dev k2 ∧
    ∀ h' c' p', resumed (k_proc k1) p' →
    ∃ c3 p3 satp fn, usertrapret ts sym h' c' p' = Ok (c3, p3, satp, fn) ∧
      in_user ts sym (<[10%nat := as_u 64 r]> gpr) (pc + 4) (pgtable (k_proc k)) (kstack_sp (k_proc k)) h' (c_satp c')
        (userret TRAPFRAME_START satp (trapframe p3) c3) (trapframe p3) fn.
Proof. apply syscall_returns. Qed.

(** ** Traps in the kernel *)
(** A device or timer interrupt in kernel code up to [sepc::write]: whether it yields, and
    the registers it leaves *)
Lemma kerneltrap_enters h procs ctx cur pool cause tval pc back c (ds : devs MD) i ds' :
  is_interrupt cause = true → cregs ctx ≠ [] →
  devintr fuel h cause procs pool ds = Ok (Some i, ds') →
  let c0 := trap_entry cause tval pc true c in
  ∃ y, kerneltrap_enter fuel h procs ctx cur pool c0 ds = Ok (y, ds') ∧
    kerneltrap_sepc fuel h procs ctx cur pool back c0 ds =
      Ok (c_sstatus c0, set_sepc (if y : bool then back else set_sip c0 (r_sip ds')) pc, ds').
Proof.
  intros Hint Hctx Hdev c0. assert (∃ y, kerneltrap_enter fuel h procs ctx cur pool c0 ds = Ok (y, ds')) as (y & Hy).
  - unfold kerneltrap_enter, c0. csr_simpl. rewrite Hint, Hdev, !bind_Ok_l. unfold trap_intr_get at 1. csr_simpl.
    rewrite (set_bit_spec _ SPP true SPP) by done. rewrite decide_True by done. cbn [negb panic_if]. rewrite bind_Ok_l.
    assert (∀ st, Z.testbit (set_bit (set_bit st SIE false) SPP true) SIE = false) as Hoff by (intros; by bits).
    rewrite Hoff. cbn [panic_if]. rewrite bind_Ok_l. rewrite bool_decide_false by done. cbn [panic_if]. rewrite !bind_Ok_l.
    destruct (cregs ctx) as [|ra rest]; [done|]. change (aget (ra :: rest) 0) with (Ok ra). rewrite !bind_Ok_l. eauto.
  - exists y. split; [done|]. unfold kerneltrap_sepc. by rewrite Hy, bind_Ok_l.
Qed.

(** [kerneltrap] returns, and [sret] goes back to the interrupted instruction in supervisor
    mode with the interrupt enable bit as before: always when the trap does not yield, and
    after a yield when no interrupt comes between the last two writes. *)
Lemma kerneltrap_returns h procs ctx cur pool cause tval pc back irq c (ds : devs MD) i ds' :
  is_interrupt cause = true → cregs ctx ≠ [] →
  devintr fuel h cause procs pool ds = Ok (Some i, ds') →
  (kerneltrap_enter fuel h procs ctx cur pool (trap_entry cause tval pc true c) ds = Ok (true, ds') → irq = no_irq) →
  ∃ c1, kerneltrap fuel h procs ctx cur pool back irq (trap_entry cause tval pc true c) ds = Ok (c1, ds') ∧
    let '(pc', supervisor, c2) := sret c1 in
    pc' = pc ∧ supervisor = true ∧ trap_intr_get c2 = trap_intr_get c.
Proof.
  intros Hint Hctx Hdev Hirq.
  destruct (kerneltrap_enters h procs ctx cur pool cause tval pc back c ds i ds' Hint Hctx Hdev) as (y & Hy & Hk).
  unfold kerneltrap. rewrite Hk, bind_Ok_l. set (c1 := set_sepc _ pc) in *.
  assert (Hno : (if trap_intr_get c1 then irq c1 ds' else Ok (c1, ds')) = Ok (c1, ds')).
  { destruct y; [rewrite (Hirq Hy); by destruct (trap_intr_get c1)|].
    assert (trap_intr_get c1 = false) as -> by (unfold c1, trap_intr_get; csr_simpl; by bits). done. }
  rewrite Hno, bind_Ok_l. eexists. split; [reflexivity|]. unfold sret, trap_intr_get. csr_simpl.
  split_and!; [done|by bits|by bits].
Qed.

(** C40: kerneltrap writes sepc before it writes sstatus, and after a yield to a hart with
    interrupts on it does so with interrupts on: a device interrupt that comes at the
    instruction between the two writes leaves that instruction in sepc, so that the
    sret of the outer trap goes there and not to the interrupted instruction. *)
Theorem kerneltrap_nested_lost h procs ctx cur pool cause tval pc back c (ds : devs MD) ds1
    cause2 tval2 pcw h2 procs2 ctx2 cur2 pool2 back2 i ds2 :
  kerneltrap_enter fuel h procs ctx cur pool (trap_entry cause tval pc true c) ds = Ok (true, ds1) →
  trap_intr_get back = true →
  is_interrupt cause2 = true → cregs ctx2 ≠ [] → devintr fuel h2 cause2 procs2 pool2 ds1 = Ok (Some i, ds2) →
  ∃ c1, kerneltrap fuel h procs ctx cur pool back (kernel_irq fuel cause2 tval2 pcw h2 procs2 ctx2 cur2 pool2 back2 no_irq)
      (trap_entry cause tval pc true c) ds = Ok (c1, ds2) ∧ (sret c1).1.1 = pcw.
Proof.
  intros Hy Hon Hint2 Hctx2 Hdev2. unfold kerneltrap at 1, kerneltrap_sepc. rewrite Hy, !bind_Ok_l.
  assert (trap_intr_get (set_sepc back (c_sepc (trap_entry cause tval pc true c))) = true) as -> by exact Hon.
  set (cb := set_sepc back _).
  destruct (kerneltrap_returns h2 procs2 ctx2 cur2 pool2 cause2 tval2 pcw back2 no_irq cb ds1 i ds2 Hint2 Hctx2 Hdev2)
    as (c2 & Hk2 & Hs2); [done|].
  unfold kernel_irq. rewrite Hk2, !bind_Ok_l. eexists. split; [reflexivity|]. by destruct Hs2.
Qed.

(** An exception in the kernel stops it. *)
Lemma kernel_exception_stops h procs ctx cur pool back irq c (ds : devs MD) :
  is_interrupt (c_scause c) = false → ∃ msg, kerneltrap fuel h procs ctx cur pool back irq c ds = Err (Panic msg).
Proof.
  intros Hi. unfold kerneltrap, kerneltrap_sepc, kerneltrap_enter. destruct (Z.testbit _ SPP); cbn [negb panic_if]; [|eauto].
  rewrite bind_Ok_l. destruct (trap_intr_get c); cbn [panic_if]; [eauto|]. rewrite bind_Ok_l, Hi. eauto.
Qed.
End specs.

(** ** A timer interrupt and a [close] of a process with an empty file table *)
Definition sym0 : linker_symbols := link0.
Definition ts0 : trap_syms :=
  TrapSyms 0x80000100 (TRAMPOLINE_TEXT_START link0) (TRAMPOLINE_TEXT_START link0 + 0x90) 0x80000400.
Definition ktrap0 : kst Allocator (gmap Z (list Z)) QBoard :=
  KSt proc0 (KMem heap0 ∅) disk0 (mkQ chip1 [] ∅) ∅ PROCS_POOL_new.
Definition csr0 : csr := Csr 0 0 0 2 0x222 2 0 0 0.
Definition gpr0 : list Z := <[17%nat := SYS_CLOSE]> (<[10%nat := 3]> (replicate 32 0)).

Lemma layout0 : trap_layout ts0 sym0 proc0.
Proof. split; vm_compute; done. Qed.

Lemma interrupt_transparent_witness :
  ∃ r k1, from_user ts0 sym0 0 0x80300000 64 3 0 [] (2 ^ 63 + 1) 0 0x1004 gpr0 csr0 ktrap0 (VirtIO_new 0) = Ok r ∧ goes_on r k1 ∧
    ∀ h' c' p', resumed (k_proc k1) p' →
    ∃ c3 p3 satp fn, usertrapret ts0 sym0 h' c' p' = Ok (c3, p3, satp, fn) ∧
      in_user ts0 sym0 gpr0 0x1004 root0 0x80c00000 h' (c_satp c')
        (userret TRAPFRAME_START satp (trapframe p3) c3) (trapframe p3) fn.
Proof.
  destruct (interrupt_transparent ts0 sym0 0 0x80300000 64 3 0 [] (2 ^ 63 + 1) 0 0x1004 gpr0 csr0 ktrap0 (VirtIO_new 0)
    IntrTimer (mkDevs (mkQ chip1 [] ∅) (VirtIO_new 0) 0)) as (r & k1 & H1 & H2 & _ & H3);
    [apply layout0|reflexivity|cbn; lia|lia|reflexivity|].
  exists r, k1. split_and!; [exact H1|exact H2|exact H3].
Defined.

Lemma close_runs :
  ∃ r k2, syscall sym0 0 0x80300000 64 3 (with_tf ktrap0 (set_tf_epc (set_regs TrapFrame_zero (take 1 (replicate 32 0) ++ drop 1 gpr0)) (0x1004 + 4)))
    = Ok (Returns r k2).
Proof. eexists _, _. reflexivity. Qed.

Lemma syscall_resumes_witness :
  ∃ r c1 k1, from_user ts0 sym0 0 0x80300000 64 3 0 [] 8 0 0x1004 gpr0 csr0 ktrap0 (VirtIO_new 0) = Ok (UReturn c1 k1 (VirtIO_new 0)) ∧
    ∀ h' c' p', resumed (k_proc k1) p' →
    ∃ c3 p3 satp fn, usertrapret ts0 sym0 h' c' p' = Ok (c3, p3, satp, fn) ∧
      in_user ts0 sym0 (<[10%nat := as_u 64 r]> gpr0) (0x1004 + 4) root0 0x80c00000 h' (c_satp c')
        (userret TRAPFRAME_START satp (trapframe p3) c3) (trapframe p3) fn.
Proof.
  destruct close_runs as (r & k2 & Hrun).
  destruct (syscall_resumes ts0 sym0 0 0x80300000 64 3 0 [] 0 0x1004 gpr0 csr0 ktrap0 (VirtIO_new 0) SYS_CLOSE r k2)
    as (c1 & k1 & H1 & _ & _ & H2);
    [apply layout0|reflexivity|reflexivity|cbn; lia|lia|reflexivity|vm_compute; discriminate|exact Hrun|].
  exists r, c1, k1. split; [exact H1|exact H2].
Defined.

(** A timer interrupt yields; back on a hart with interrupts on, another one comes at the
    write of [sstatus]. *)
Lemma kerneltrap_nested_lost_witness :
  ∃ c1, kerneltrap 3 0 [] (mkContext [1] InTrap) (Some (set_state RUNNING proc0)) PROCS_POOL_new csr0
      (kernel_irq 3 (2 ^ 63 + 1) 0 0x80000900 0 [] (mkContext [1] InTrap) None PROCS_POOL_new csr0 no_irq)
      (trap_entry (2 ^ 63 + 1) 0 0x80000040 true csr0) (mkDevs (mkQ chip1 [] ∅) (VirtIO_new 0) 2) =
    Ok (c1, mkDevs (mkQ chip1 [] ∅) (VirtIO_new 0) 0) ∧ (sret c1).1.1 = 0x80000900.
Proof.
  apply (kerneltrap_nested_lost 3 0 [] (mkContext [1] InTrap) (Some (set_state RUNNING proc0)) PROCS_POOL_new
    (2 ^ 63 + 1) 0 0x80000040 csr0 csr0 (mkDevs (mkQ chip1 [] ∅) (VirtIO_new 0) 2)
    (mkDevs (mkQ chip1 [] ∅) (VirtIO_new 0) 0) (2 ^ 63 + 1) 0 0x80000900 0 [] (mkContext [1] InTrap) None
    PROCS_POOL_new csr0 IntrTimer); [reflexivity|reflexivity|reflexivity|discriminate|reflexivity].
Defined.
