(* ===== verification/Asm.v ===== *)
(** * The assembly of the kernel, one instruction at a time

    [asm/trampoline.S], [asm/kernelvec.S], [asm/swtch.S], [asm/boot.S] and the first user
    code, [user/src/initcode.S], as lists of instructions, and a machine that runs them.
    A register is a 64-bit word, memory a map from the addresses that are accessible to
    the 8-byte words there; an access elsewhere, or to an address that is not a multiple
    of eight, is [BadAccess].  A routine makes all its accesses in one address space:
    [uservec] loads [satp] after the last one, [userret] before the first.

    The code runs until it leaves for other code: a call, a jump through a register,
    [sret], [mret] or [ecall]. *)

From S2P Require Import Prelude Symbols Hart Proc Devices Trap.

(** ** The machine *)
Module X.
Definition zero := 0%nat.
Definition ra := 1%nat.
Definition sp := 2%nat.
Definition gp := 3%nat.
Definition tp := 4%nat.
Definition t0 := 5%nat.
Definition t1 := 6%nat.
Definition t2 := 7%nat.
Definition s0 := 8%nat.
Definition s1 := 9%nat.
Definition a0 := 10%nat.
Definition a1 := 11%nat.
Definition a2 := 12%nat.
Definition a3 := 13%nat.
Definition a4 := 14%nat.
Definition a5 := 15%nat.
Definition a6 := 16%nat.
Definition a7 := 17%nat.
Definition s2 := 18%nat.
Definition s3 := 19%nat.
Definition s4 := 20%nat.
Definition s5 := 21%nat.
Definition s6 := 22%nat.
Definition s7 := 23%nat.
Definition s8 := 24%nat.
Definition s9 := 25%nat.
Definition s10 := 26%nat.
Definition s11 := 27%nat.
Definition t3 := 28%nat.
Definition t4 := 29%nat.
Definition t5 := 30%nat.
Definition t6 := 31%nat.
End X.

Inductive csreg := Satp | Sscratch | Sip | Mscratch | Mhartid.

(** Instructions that go on to the next one.  [Li] is [li] and [la]. *)
Inductive op :=
  | Sd (rs : nat) (off : Z) (base : nat)
  | Ld (rd : nat) (off : Z) (base : nat)
  | Li (rd : nat) (v : Z)
  | Mv (rd rs : nat)
  | Addi (rd rs : nat) (imm : Z)
  | Add (rd rs1 rs2 : nat)
  | Mul (rd rs1 rs2 : nat)
  | Csrrw (rd : nat) (c : csreg) (rs : nat)
  | Csrr (rd : nat) (c : csreg)
  | Csrw (c : csreg) (rs : nat)
  | Sfence.
Inductive instr :=
  | Op (o : op)
  | Bgeu (rs1 rs2 : nat) (target : nat)
  | Bltu (rs1 rs2 : nat) (target : nat)
  | Jal (target : nat)
  | Call (f : Z)
  | Jr (rs : nat)
  | Sret
  | Mret
  | Ecall.
Coercion Op : op >-> instr.

Record cpu := Cpu {
  x_reg : list Z;
  x_csr : csr;
  x_mscratch : Z;
  x_mhartid : Z;
  x_mem : gmap Z Z;
}.
Implicit Types (m : cpu) (r : nat).

Definition with_reg m (g : list Z) : cpu := Cpu g (x_csr m) (x_mscratch m) (x_mhartid m) (x_mem m).
Definition with_csr m (c : csr) : cpu := Cpu (x_reg m) c (x_mscratch m) (x_mhartid m) (x_mem m).
Definition with_words m (w : gmap Z Z) : cpu := Cpu (x_reg m) (x_csr m) (x_mscratch m) (x_mhartid m) w.

(** Register 0 reads as its value and ignores writes. *)
Definition rget r m : Z := nth r (x_reg m) 0.
Definition wr r (v : Z) (g : list Z) : list Z := if (r =? 0)%nat then g else <[r := v]> g.
Definition rset r (v : Z) m : cpu := with_reg m (wr r v (x_reg m)).

Definition accessible m (a : Z) : bool := (a mod 8 =? 0) && bool_decide (is_Some (x_mem m !! a)).
Definition load m (a : Z) : result Z :=
  if accessible m a then unwrap (x_mem m !! a) else Err BadAccess.
Definition store m (a v : Z) : result cpu :=
  if accessible m a then Ok (with_words m (<[a := v]> (x_mem m))) else Err BadAccess.

Definition csr_get (c : csreg) m : Z :=
  match c with
  | Satp => c_satp (x_csr m) | Sscratch => c_sscratch (x_csr m) | Sip => c_sip (x_csr m)
  | Mscratch => x_mscratch m | Mhartid => x_mhartid m
  end.
(** [mhartid] is read-only. *)
Definition csr_set (c : csreg) (v : Z) m : result cpu :=
  match c with
  | Satp => Ok (with_csr m (set_satp (x_csr m) v))
  | Sscratch => Ok (with_csr m (set_sscratch (x_csr m) v))
  | Sip => Ok (with_csr m (set_sip (x_csr m) v))
  | Mscratch => Ok (Cpu (x_reg m) (x_csr m) v (x_mhartid m) (x_mem m))
  | Mhartid => Err BadAccess
  end.

Definition exec_op (o : op) m : result cpu :=
  match o with
  | Sd rs off base => store m (as_u 64 (rget base m + off)) (rget rs m)
  | Ld rd off base => v ← load m (as_u 64 (rget base m + off)); Ok (rset rd v m)
  | Li rd v => Ok (rset rd (as_u 64 v) m)
  | Mv rd rs => Ok (rset rd (rget rs m) m)
  | Addi rd rs imm => Ok (rset rd (as_u 64 (rget rs m + imm)) m)
  | Add rd a b => Ok (rset rd (as_u 64 (rget a m + rget b m)) m)
  | Mul rd a b => Ok (rset rd (as_u 64 (rget a m * rget b m)) m)
  | Csrrw rd c rs => let old := csr_get c m in m ← csr_set c (rget rs m) m; Ok (rset rd old m)
  | Csrr rd c => Ok (rset rd (csr_get c m) m)
  | Csrw c rs => csr_set c (rget rs m) m
  | Sfence => Ok m
  end.
Fixpoint ops (l : list op) m : result cpu :=
  match l with [] => Ok m | o :: l => m ← exec_op o m; ops l m end.

(** Where the code goes when it leaves *)
Inductive exit :=
  | ToCall (f : Z)
  | ToAddr (a : Z)
  | ToSret (pc : Z) (supervisor : bool)
  | ToMret
  | ToEcall.

Section run.
(** The address of the instruction at a position *)
Context (link : nat → Z).

(** The exit, the position behind the instruction that left, and the machine *)
Fixpoint run (fuel : nat) (code : list instr) (pos : nat) m : result (exit * nat * cpu) :=
  match fuel with
  | O => Err NoFuel
  | S fuel =>
      match code !! pos with
      | None => Err BadAccess
      | Some (Op o) => m ← exec_op o m; run fuel code (S pos) m
      | Some (Bgeu a b t) => run fuel code (if rget b m <=? rget a m then t else S pos) m
      | Some (Bltu a b t) => run fuel code (if rget a m <? rget b m then t else S pos) m
      | Some (Jal t) => run fuel code t (rset X.ra (link (S pos)) m)
      | Some (Call f) => Ok (ToCall f, S pos, rset X.ra (link (S pos)) m)
      | Some (Jr a) => Ok (ToAddr (rget a m), S pos, m)
      | Some Sret => let '(pc, s, c) := sret (x_csr m) in Ok (ToSret pc s, S pos, with_csr m c)
      | Some Mret => Ok (ToMret, S pos, m)
      | Some Ecall => Ok (ToEcall, S pos, m)
      end
  end.
End run.

(** ** [asm/macro.S] and [asm/trampoline.S] *)
Definition save_gp (i base : nat) : op := Sd i (Z.of_nat i * 8) base.
Definition load_gp (i base : nat) : op := Ld i (Z.of_nat i * 8) base.

Definition uservec_code : list instr :=
  [Op (Csrrw X.t6 Sscratch X.t6)] ++
  ((λ i, Op (save_gp i X.t6)) <$> seq 1 30) ++
  [ Mv X.t5 X.t6 : instr;
    Csrr X.t6 Sscratch : instr;
    save_gp 31 X.t5 : instr;
    Ld X.sp 520 X.t5 : instr;
    Ld X.tp 528 X.t5 : instr;
    Ld X.t0 536 X.t5 : instr;
    Ld X.t1 512 X.t5 : instr;
    Csrw Satp X.t1 : instr;
    Sfence : instr;
    Jr X.t0 ].

Definition userret_code : list instr :=
  [ Csrw Satp X.a1 : instr;
    Sfence : instr;
    Csrw Sscratch X.a0 : instr;
    Mv X.t6 X.a0 : instr ] ++
  ((λ i, Op (load_gp i X.t6)) <$> seq 1 31) ++
  [Sret].

(** ** [asm/kernelvec.S]; [kerneltrap] is the address of the handler *)
Definition kernelvec_code (kerneltrap : Z) : list instr :=
  [ Addi X.sp X.sp (-256) : instr;
    Sd X.ra 0 X.sp : instr;
    Sd X.sp 8 X.sp : instr;
    Sd X.gp 16 X.sp : instr;
    Sd X.tp 24 X.sp : instr;
    Sd X.t0 32 X.sp : instr;
    Sd X.t1 40 X.sp : instr;
    Sd X.t2 48 X.sp : instr;
    Sd X.s0 56 X.sp : instr;
    Sd X.s1 64 X.sp : instr;
    Sd X.a0 72 X.sp : instr;
    Sd X.a1 80 X.sp : instr;
    Sd X.a2 88 X.sp : instr;
    Sd X.a3 96 X.sp : instr;
    Sd X.a4 104 X.sp : instr;
    Sd X.a5 112 X.sp : instr;
    Sd X.a6 120 X.sp : instr;
    Sd X.a7 128 X.sp : instr;
    Sd X.s2 136 X.sp : instr;
    Sd X.s3 144 X.sp : instr;
    Sd X.s4 152 X.sp : instr;
    Sd X.s5 160 X.sp : instr;
    Sd X.s6 168 X.sp : instr;
    Sd X.s7 176 X.sp : instr;
    Sd X.s8 184 X.sp : instr;
    Sd X.s9 192 X.sp : instr;
    Sd X.s10 200 X.sp : instr;
    Sd X.s11 208 X.sp : instr;
    Sd X.t3 216 X.sp : instr;
    Sd X.t4 224 X.sp : instr;
    Sd X.t5 232 X.sp : instr;
    Sd X.t6 240 X.sp : instr;
    Call kerneltrap;
    Ld X.ra 0 X.sp : instr;
    Ld X.sp 8 X.sp : instr;
    Ld X.gp 16 X.sp : instr;
    (* not tp, in case the thread moved to another hart *)
    Ld X.t0 32 X.sp : instr;
    Ld X.t1 40 X.sp : instr;
    Ld X.t2 48 X.sp : instr;
    Ld X.s0 56 X.sp : instr;
    Ld X.s1 64 X.sp : instr;
    Ld X.a0 72 X.sp : instr;
    Ld X.a1 80 X.sp : instr;
    Ld X.a2 88 X.sp : instr;
    Ld X.a3 96 X.sp : instr;
    Ld X.a4 104 X.sp : instr;
    Ld X.a5 112 X.sp : instr;
    Ld X.a6 120 X.sp : instr;
    Ld X.a7 128 X.sp : instr;
    Ld X.s2 136 X.sp : instr;
    Ld X.s3 144 X.sp : instr;
    Ld X.s4 152 X.sp : instr;
    Ld X.s5 160 X.sp : instr;
    Ld X.s6 168 X.sp : instr;
    Ld X.s7 176 X.sp : instr;
    Ld X.s8 184 X.sp : instr;
    Ld X.s9 192 X.sp : instr;
    Ld X.s10 200 X.sp : instr;
    Ld X.s11 208 X.sp : instr;
    Ld X.t3 216 X.sp : instr;
    Ld X.t4 224 X.sp : instr;
    Ld X.t5 232 X.sp : instr;
    Ld X.t6 240 X.sp : instr;
    Addi X.sp X.sp 256 : instr;
    Sret ].

Definition timervec_code : list instr :=
  [ Csrrw X.a0 Mscratch X.a0 : instr;
    Sd X.a1 0 X.a0 : instr;
    Sd X.a2 8 X.a0 : instr;
    Sd X.a3 16 X.a0 : instr;
    Ld X.a1 32 X.a0 : instr;
    Ld X.a2 40 X.a0 : instr;
    Ld X.a3 0 X.a1 : instr;
    Add X.a3 X.a3 X.a2 : instr;
    Sd X.a3 0 X.a1 : instr;
    Li X.a1 2 : instr;
    Csrw Sip X.a1 : instr;
    Ld X.a3 16 X.a0 : instr;
    Ld X.a2 8 X.a0 : instr;
    Ld X.a1 0 X.a0 : instr;
    Csrrw X.a0 Mscratch X.a0 : instr;
    Mret ].

(** ** [asm/swtch.S] *)
Definition swtch_code : list instr :=
  [ Sd X.ra 0 X.a0 : instr;
    Sd X.sp 8 X.a0 : instr;
    Sd X.s0 16 X.a0 : instr;
    Sd X.s1 24 X.a0 : instr;
    Sd X.s2 32 X.a0 : instr;
    Sd X.s3 40 X.a0 : instr;
    Sd X.s4 48 X.a0 : instr;
    Sd X.s5 56 X.a0 : instr;
    Sd X.s6 64 X.a0 : instr;
    Sd X.s7 72 X.a0 : instr;
    Sd X.s8 80 X.a0 : instr;
    Sd X.s9 88 X.a0 : instr;
    Sd X.s10 96 X.a0 : instr;
    Sd X.s11 104 X.a0 : instr;
    Ld X.ra 0 X.a1 : instr;
    Ld X.sp 8 X.a1 : instr;
    Ld X.s0 16 X.a1 : instr;
    Ld X.s1 24 X.a1 : instr;
    Ld X.s2 32 X.a1 : instr;
    Ld X.s3 40 X.a1 : instr;
    Ld X.s4 48 X.a1 : instr;
    Ld X.s5 56 X.a1 : instr;
    Ld X.s6 64 X.a1 : instr;
    Ld X.s7 72 X.a1 : instr;
    Ld X.s8 80 X.a1 : instr;
    Ld X.s9 88 X.a1 : instr;
    Ld X.s10 96 X.a1 : instr;
    Ld X.s11 104 X.a1 : instr;
    Jr X.ra ].

(** ** [asm/boot.S], with the symbols of the linked kernel; position 3 is the label [1],
    position 6 the label [2] *)
Definition start_code (bss_start bss_end stack_start kinit : Z) : list instr :=
  [ Li X.a0 bss_start : instr;
    Li X.a1 bss_end : instr;
    Bgeu X.a0 X.a1 6;
    Sd X.zero 0 X.a0 : instr;
    Addi X.a0 X.a0 8 : instr;
    Bltu X.a0 X.a1 3;
    Li X.sp stack_start : instr;
    Li X.a0 0x10000 : instr;
    Csrr X.a1 Mhartid : instr;
    Addi X.a1 X.a1 1 : instr;
    Mul X.a0 X.a0 X.a1 : instr;
    Add X.sp X.sp X.a0 : instr;
    Call kinit ].

(** ** [user/src/initcode.S]: the addresses of [init] and [argv] and the numbers of
    [syscall.h]; position 5 is the label [exit] *)
Definition initcode (init argv SYS_exec SYS_exit : Z) : list instr :=
  [ Li X.a0 init : instr;
    Li X.a1 5 : instr;
    Li X.a2 argv : instr;
    Li X.a7 SYS_exec : instr;
    Ecall;
    Li X.a7 SYS_exit : instr;
    Ecall;
    Jal 5 ].

(** ** Registers and memory *)
Lemma wr_length r v g : length (wr r v g) = length g.
Proof. unfold wr. destruct (r =? 0)%nat; [done|apply length_insert]. Qed.

Lemma nth_wr r v g j : (r < length g)%nat → r ≠ 0%nat → nth j (wr r v g) 0 = if decide (j = r) then v else nth j g 0.
Proof.
  intros Hr Hr0. unfold wr. destruct (Nat.eqb_spec r 0); [done|]. rewrite !nth_lookup. case_decide.
  - subst. by rewrite list_lookup_insert_eq.
  - by rewrite list_lookup_insert_ne.
Qed.

Lemma load_ok m a v : a mod 8 = 0 → x_mem m !! a = Some v → load m a = Ok v.
Proof.
  intros Ha Hv. unfold load, accessible. rewrite bool_decide_eq_true_2 by (rewrite Hv; eauto). by rewrite Ha, Hv.
Qed.

Lemma store_ok m a v : a mod 8 = 0 → is_Some (x_mem m !! a) → store m a v = Ok (with_words m (<[a := v]> (x_mem m))).
Proof. intros Ha Hv. unfold store, accessible. rewrite bool_decide_eq_true_2 by done. by rewrite Ha. Qed.

(** The words of memory from [b] on are [ws]. *)
Definition words_at (w : gmap Z Z) (b : Z) (ws : list Z) : Prop :=
  ∀ i x, ws !! i = Some x → w !! (b + 8 * Z.of_nat i) = Some x.

Lemma ops_app l1 l2 m : ops (l1 ++ l2) m = (m1 ← ops l1 m; ops l2 m1).
Proof.
  revert m. induction l1 as [|o l1 IH]; intros m; [done|]. cbn [app ops].
  destruct (exec_op o m) as [m1|e]; [|done]. rewrite !bind_Ok_l. apply IH.
Qed.

(** A run of plain instructions *)
Lemma run_ops link l code pos n m m' :
  take (length l) (drop pos code) = Op <$> l → ops l m = Ok m' →
  run link (length l + n) code pos m = run link n code (pos + length l) m'.
Proof.
  revert pos m. induction l as [|o l IH]; intros pos m Hc Hr.
  - cbn in *. injection Hr as ->. by rewrite Nat.add_0_r.
  - cbn [ops] in Hr. apply bind_Ok in Hr as (m1 & H1 & Hr). cbn [length Nat.add run].
    destruct (drop pos code) as [|i rest] eqn:E; [done|]. cbn in Hc. injection Hc as -> Hc.
    assert (code !! pos = Some (Op o)) as ->.
    { replace pos with (pos + 0)%nat by lia. rewrite <- lookup_drop, E. done. }
    rewrite H1, bind_Ok_l, (IH (S pos) m1).
    + f_equal. lia.
    + replace (S pos) with (pos + 1)%nat by lia. rewrite <- drop_drop, E. exact Hc.
    + exact Hr.
Qed.

(** ** Blocks of stores and loads *)
Definition saves (base : nat) (l : list (nat * Z)) : list op := (λ '(r, off), Sd r off base) <$> l.
Definition loads (base : nat) (l : list (nat * Z)) : list op := (λ '(r, off), Ld r off base) <$> l.

Definition stored (b : Z) (g : list Z) (l : list (nat * Z)) (w : gmap Z Z) : gmap Z Z :=
  foldl (λ w '(r, off), <[b + off := nth r g 0]> w) w l.
Definition loaded (b : Z) (w : gmap Z Z) (l : list (nat * Z)) (g : list Z) : list Z :=
  foldl (λ g '(r, off), wr r (default 0 (w !! (b + off))) g) g l.

(** Offset [off] from [b] is a word of memory. *)
Definition slot (w : gmap Z Z) (b off : Z) : Prop :=
  (b + off) mod 8 = 0 ∧ 0 ≤ b + off < 2 ^ 64 ∧ is_Some (w !! (b + off)).

Lemma ops_saves base l m :
  Forall (λ '(_, off), slot (x_mem m) (rget base m) off) l →
  ops (saves base l) m = Ok (with_words m (stored (rget base m) (x_reg m) l (x_mem m))).
Proof.
  revert m. induction l as [|[r off] l IH]; intros m Hl; [by destruct m|].
  apply list.Forall_cons in Hl as [(Ha & Hb & Hs) Hl]. cbn [saves fmap list_fmap ops exec_op].
  rewrite as_u_id by (done || unfold is_u; lia). rewrite store_ok by done. rewrite bind_Ok_l.
  set (m1 := with_words m _). change (ops (saves base l) m1 = Ok (with_words m (stored (rget base m) (x_reg m) ((r, off) :: l) (x_mem m)))).
  rewrite IH; [done|]. eapply list.Forall_impl; [exact Hl|]. intros [r' off'] (H1 & H2 & Hs'). split; [exact H1|].
  split; [exact H2|]. apply lookup_insert_is_Some'. by right.
Qed.

Lemma ops_loads base l m :
  Forall (λ '(r, off), slot (x_mem m) (rget base m) off ∧ (0 < r < length (x_reg m))%nat ∧
    (r = base → x_mem m !! (rget base m + off) = Some (rget base m))) l →
  ops (loads base l) m = Ok (with_reg m (loaded (rget base m) (x_mem m) l (x_reg m))).
Proof.
  revert m. induction l as [|[r off] l IH]; intros m Hl; [by destruct m|].
  apply list.Forall_cons in Hl as [((Ha & Hb & [v Hv]) & Hr & Hsame) Hl]. cbn [loads fmap list_fmap ops exec_op].
  rewrite as_u_id by (done || unfold is_u; lia). rewrite (load_ok _ _ v) by done. rewrite !bind_Ok_l.
  set (m1 := rset r v m).
  change (ops (loads base l) m1 = Ok (with_reg m (loaded (rget base m) (x_mem m) ((r, off) :: l) (x_reg m)))).
  assert (rget base m1 = rget base m) as Hbase.
  { unfold m1, rset, rget. cbn. rewrite nth_wr by lia. case_decide; [|done]. subst. rewrite Hsame in Hv by done. by injection Hv. }
  rewrite IH, Hbase.
  - unfold m1. cbn. by rewrite Hv.
  - eapply list.Forall_impl; [exact Hl|]. intros [r' off']. rewrite Hbase. unfold m1. cbn. by rewrite wr_length.
Qed.

Lemma stored_cons b g r off l w : stored b g ((r, off) :: l) w = stored b g l (<[b + off := nth r g 0]> w).
Proof. done. Qed.
Lemma loaded_cons b w r off l g : loaded b w ((r, off) :: l) g = loaded b w l (wr r (default 0 (w !! (b + off))) g).
Proof. done. Qed.

Lemma stored_other b g l w a : (∀ r off, (r, off) ∈ l → a ≠ b + off) → stored b g l w !! a = w !! a.
Proof.
  revert w. induction l as [|[r off] l IH]; intros w Ha; [done|]. rewrite stored_cons, IH.
  - rewrite lookup_insert_ne; [done|]. intros Heq. by apply (Ha r off); [left|].
  - intros r' off' Hin. apply (Ha r' off'). by right.
Qed.

Lemma stored_some b g l w a : is_Some (w !! a) → is_Some (stored b g l w !! a).
Proof.
  revert w. induction l as [|[r off] l IH]; intros w Hw; [done|]. rewrite stored_cons. apply IH.
  apply lookup_insert_is_Some'. by right.
Qed.

Lemma stored_at b g l w r off : NoDup l.*2 → (r, off) ∈ l → stored b g l w !! (b + off) = Some (nth r g 0).
Proof.
  revert w. induction l as [|[r' off'] l IH]; intros w Hnd Hin; [by apply not_elem_of_nil in Hin|].
  cbn in Hnd. rewrite stored_cons. apply list.NoDup_cons in Hnd as [Hn Hnd]. apply elem_of_cons in Hin as [[= -> ->]|Hin]; [|by apply IH].
  rewrite stored_other; [by rewrite lookup_insert_eq|].
  intros r off Hin Heq. assert (off = off') as -> by lia. apply Hn. by apply (list_elem_of_fmap_2 snd) in Hin.
Qed.

Lemma loaded_length b w l g : length (loaded b w l g) = length g.
Proof. revert g. induction l as [|[r off] l IH]; intros g; [done|]. rewrite loaded_cons, IH. apply wr_length. Qed.

Lemma loaded_other b w l g j : Forall (λ '(r, _), (0 < r < length g)%nat) l → j ∉ l.*1 → nth j (loaded b w l g) 0 = nth j g 0.
Proof.
  revert g. induction l as [|[r off] l IH]; intros g Hl Hj; [done|]. apply list.Forall_cons in Hl as [Hr Hl].
  cbn in Hj. rewrite loaded_cons, IH.
  - rewrite nth_wr by lia. case_decide; [|done]. subst. destruct Hj. by left.
  - eapply list.Forall_impl; [exact Hl|]. intros [r' off']. by rewrite wr_length.
  - intros Hin. apply Hj. by right.
Qed.

Lemma loaded_at b w l g r off :
  Forall (λ '(r, _), (0 < r < length g)%nat) l → NoDup l.*1 → (r, off) ∈ l →
  nth r (loaded b w l g) 0 = default 0 (w !! (b + off)).
Proof.
  revert g. induction l as [|[r' off'] l IH]; intros g Hl Hnd Hin; [by apply not_elem_of_nil in Hin|].
  apply list.Forall_cons in Hl as [Hr Hl]. cbn in Hnd. rewrite loaded_cons. apply list.NoDup_cons in Hnd as [Hn Hnd].
  set (g' := wr r' _ g). assert (Forall (λ '(r, _), (0 < r < length g')%nat) l) as Hl'.
  { eapply list.Forall_impl; [exact Hl|]. intros [r2 off2]. unfold g'. by rewrite wr_length. }
  apply elem_of_cons in Hin as [[= -> ->]|Hin]; [|by apply IH].
  rewrite loaded_other by done. unfold g'. rewrite nth_wr by lia. by rewrite decide_True.
Qed.

(** A block of [n] words at [b] that the code may use *)
Record block (w : gmap Z Z) (b n : Z) : Prop := {
  bk_align : b mod 8 = 0;
  bk_range : 0 ≤ b ∧ b + 8 * n ≤ 2 ^ 64;
  bk_words : ∀ i, 0 ≤ i < n → is_Some (w !! (b + 8 * i));
}.

(** Registers and offsets of a list of moves fit the machine and a block of [n] words. *)
Definition fits (n : Z) (l : list (nat * Z)) : bool :=
  forallb (λ '(r, off), (0 <? r)%nat && (r <? 32)%nat && (off mod 8 =? 0) && (0 <=? off) && (off <? 8 * n)) l.

Lemma fits_elem n l r off : fits n l = true → (r, off) ∈ l → (0 < r < 32)%nat ∧ off mod 8 = 0 ∧ 0 ≤ off < 8 * n.
Proof.
  intros Hf Hin. unfold fits in Hf. rewrite forallb_forall in Hf. specialize (Hf (r, off)).
  rewrite <- list_elem_of_In in Hf. specialize (Hf Hin). cbv beta iota in Hf.
  rewrite !andb_true_iff, !Nat.ltb_lt, Z.eqb_eq, Z.leb_le, Z.ltb_lt in Hf. lia.
Qed.

Lemma block_slot w b n off : block w b n → off mod 8 = 0 → 0 ≤ off < 8 * n → slot w b off.
Proof.
  intros [Ha Hr Hw] Ho Hb. apply Z.mod_divide in Ho as [i ->]; [|done]. apply Z.mod_divide in Ha as [j ->]; [|done].
  split_and!; [|lia|lia|].
  - replace (j * 8 + i * 8) with ((j + i) * 8) by lia. by apply Z.mod_mul.
  - replace (i * 8) with (8 * i) by lia. apply Hw. lia.
Qed.

(** A block of stores at [base] saves the registers, and changes nothing else. *)
Lemma saves_block base n l m :
  block (x_mem m) (rget base m) n → fits n l = true → NoDup l.*2 →
  ∃ w, ops (saves base l) m = Ok (with_words m w) ∧
    (∀ r off, (r, off) ∈ l → w !! (rget base m + off) = Some (rget r m)) ∧
    (∀ a, (∀ off, off ∈ l.*2 → a ≠ rget base m + off) → w !! a = x_mem m !! a) ∧
    (∀ a, is_Some (x_mem m !! a) → is_Some (w !! a)).
Proof.
  intros Hb Hf Hnd. eexists. split_and!; [| | |intros a; apply stored_some].
  - apply ops_saves. apply list.Forall_forall. intros [r off] Hin.
    destruct (fits_elem n l r off Hf Hin) as (_ & ? & ?). by eapply block_slot.
  - intros r off Hin. by apply stored_at.
  - intros a Ha. apply stored_other. intros r off Hin. apply Ha. by apply (list_elem_of_fmap_2 snd) in Hin.
Qed.

(** A block of loads from [base] sets the registers, and changes nothing else. *)
Lemma loads_block base n l m :
  length (x_reg m) = 32%nat → block (x_mem m) (rget base m) n → fits n l = true → NoDup l.*1 →
  (∀ off, (base, off) ∈ l → x_mem m !! (rget base m + off) = Some (rget base m)) →
  ∃ g, ops (loads base l) m = Ok (with_reg m g) ∧ length g = 32%nat ∧
    (∀ r off v, (r, off) ∈ l → x_mem m !! (rget base m + off) = Some v → nth r g 0 = v) ∧
    (∀ r, r ∉ l.*1 → nth r g 0 = rget r m).
Proof.
  intros Hlen Hb Hf Hnd Hbase.
  assert (Forall (λ '(r, _), (0 < r < length (x_reg m))%nat) l) as Hr.
  { apply list.Forall_forall. intros [r off] Hin. rewrite Hlen. by eapply fits_elem. }
  eexists. split; [|split_and!].
  - apply ops_loads. apply list.Forall_forall. intros [r off] Hin.
    destruct (fits_elem n l r off Hf Hin) as (? & ? & ?). split_and!; [by eapply block_slot|lia|lia|].
    intros ->. by apply Hbase.
  - by rewrite loaded_length.
  - intros r off v Hin Hv. rewrite (loaded_at _ _ _ _ r off) by done. by rewrite Hv.
  - intros r Hin. by apply loaded_other.
Qed.

(** A closed decidable fact *)
Ltac dec_compute := match goal with |- ?P => apply (bool_decide_eq_true_1 P); vm_compute; reflexivity end.

Lemma rget_rset r v m j :
  length (x_reg m) = 32%nat → (0 < r < 32)%nat → rget j (rset r v m) = if decide (j = r) then v else rget j m.
Proof. intros Hl Hr. unfold rget, rset. cbn. apply nth_wr; lia. Qed.

Lemma rset_length r v m : length (x_reg (rset r v m)) = length (x_reg m).
Proof. apply wr_length. Qed.

Ltac reg_simpl := repeat (rewrite rget_rset; [|by rewrite ?rset_length|split; [vm_compute; lia|vm_compute; lia]]).

(** Memory that holds [ws] from [b] on, and nothing else *)
Fixpoint mem_of (b : Z) (ws : list Z) : gmap Z Z :=
  match ws with [] => ∅ | x :: ws => <[b := x]> (mem_of (b + 8) ws) end.

Lemma mem_of_words b ws : words_at (mem_of b ws) b ws.
Proof.
  revert b. induction ws as [|y ws IH]; intros b i x Hx; [done|]. cbn. destruct i as [|i].
  - injection Hx as ->. replace (b + 8 * Z.of_nat 0) with b by lia. apply lookup_insert_eq.
  - rewrite lookup_insert_ne by lia. replace (b + 8 * Z.of_nat (S i)) with (b + 8 + 8 * Z.of_nat i) by lia. by apply IH.
Qed.

Lemma words_block w b ws : words_at w b ws → b mod 8 = 0 → 0 ≤ b → b + 8 * Z.of_nat (length ws) ≤ 2 ^ 64 →
  block w b (Z.of_nat (length ws)).
Proof.
  intros Hw Ha H0 H1. split; [done|lia|]. intros i Hi. destruct (lookup_lt_is_Some_2 ws (Z.to_nat i)) as [x Hx]; [lia|].
  exists x. replace i with (Z.of_nat (Z.to_nat i)) by lia. by apply Hw.
Qed.
