(* ===== verification/Vectors.v ===== *)
(** * Traps and context switches in assembly

    What the code of Asm.v does: [kernelvec] around [kerneltrap] is transparent to the
    interrupted kernel code; [__swtch] exchanges the callee-saved registers, and a context
    that was switched away from resumes where it was; [uservec] and [userret] implement the
    functions of Trap.v on the trap frame in memory; [timervec] implements that of
    Devices.v. *)

From S2P Require Import Prelude Symbols Mem Page Hart Proc Devices Uart Virtio FsFile Intr Exec Syscall Trap Asm.

Implicit Types (m : cpu) (r : nat).

(** ** Kernel interrupts: [kernelvec] around [kerneltrap] *)
Definition kv_saved : list (nat * Z) :=
  [(X.ra, 0); (X.sp, 8); (X.gp, 16); (X.tp, 24)] ++ zip (seq 5 27) ((λ i, 8 * Z.of_nat i) <$> seq 4 27).
Definition kv_loaded : list (nat * Z) :=
  [(X.ra, 0); (X.sp, 8); (X.gp, 16)] ++ zip (seq 5 27) ((λ i, 8 * Z.of_nat i) <$> seq 4 27).

Lemma kernelvec_saves kt : take 32 (kernelvec_code kt) = Op <$> (Addi X.sp X.sp (-256) :: saves X.sp kv_saved).
Proof. reflexivity. Qed.
Lemma kernelvec_loads kt : take 31 (drop 33 (kernelvec_code kt)) = Op <$> (loads X.sp kv_loaded ++ [Addi X.sp X.sp 256]).
Proof. reflexivity. Qed.

(** Every register but [x0] and [tp] is reloaded from where it was saved. *)
Lemma kv_offset r : (0 < r < 32)%nat → r ≠ X.tp → ∃ off, (r, off) ∈ kv_saved ∧ (r, off) ∈ kv_loaded.
Proof.
  intros Hr Ht. assert (existsb (λ p, (p.1 =? r)%nat && bool_decide (p ∈ kv_loaded)) kv_saved = true) as He.
  { do 32 (destruct r as [|r]; [first [lia|done|reflexivity]|]). lia. }
  apply existsb_exists in He as ([r' off] & Hin & [Hr' Hl]%andb_true_iff).
  cbn in Hr'. apply Nat.eqb_eq in Hr' as ->. apply bool_decide_eq_true in Hl.
  exists off. split; [by apply list_elem_of_In|done].
Qed.

Lemma kv_sp_offset off : (X.sp, off) ∈ kv_loaded → off = 8.
Proof.
  intros Hin%list_elem_of_In. unfold kv_loaded in Hin. cbn in Hin.
  repeat (destruct Hin as [Hin|Hin]; [by injection Hin|]). done.
Qed.

(** What the compiled [kerneltrap] leaves to [kernelvec]: the stack pointer and the frame
    on the stack are as at the call. *)
Record returned m1 m2 : Prop := {
  rt_regs : length (x_reg m2) = 32%nat;
  rt_sp : rget X.sp m2 = rget X.sp m1;
  rt_frame : ∀ a, rget X.sp m1 ≤ a < rget X.sp m1 + 256 → x_mem m2 !! a = x_mem m1 !! a;
}.

Section kernelvec.
Context (link : nat → Z) (kt : Z).

Lemma kernelvec_enter m :
  length (x_reg m) = 32%nat → is_usize (rget X.sp m) → block (x_mem m) (rget X.sp m - 256) 32 →
  ∃ m1, run link 33 (kernelvec_code kt) 0 m = Ok (ToCall kt, 33%nat, m1) ∧
    length (x_reg m1) = 32%nat ∧ rget X.sp m1 = rget X.sp m - 256 ∧ rget X.tp m1 = rget X.tp m ∧ x_csr m1 = x_csr m ∧
    (∀ r off, (r, off) ∈ kv_saved →
      x_mem m1 !! (rget X.sp m1 + off) = Some (if decide (r = X.sp) then rget X.sp m1 else rget r m)) ∧
    (∀ a, ¬ (rget X.sp m1 ≤ a < rget X.sp m1 + 256) → x_mem m1 !! a = x_mem m !! a) ∧
    (∀ a, is_Some (x_mem m !! a) → is_Some (x_mem m1 !! a)).
Proof.
  intros Hlen Hsp Hb. set (m0 := rset X.sp (rget X.sp m - 256) m).
  assert (Hg : ∀ j, rget j m0 = if decide (j = X.sp) then rget X.sp m - 256 else rget j m).
  { intros j. apply rget_rset; [done|unfold X.sp; lia]. }
  destruct (saves_block X.sp 32 kv_saved m0) as (w & Hops & Hat & Hother & Hsome).
  { rewrite Hg. exact Hb. }
  { reflexivity. }
  { dec_compute. }
  change (rget X.sp m0) with (rget X.sp m0) in *. pose proof (Hg X.sp) as Hs. rewrite decide_True in Hs by done.
  assert (Hsp1 : ∀ j, j ≠ X.ra → rget j (rset X.ra (link 33) (with_words m0 w)) = rget j m0).
  { intros j Hj. rewrite rget_rset; [by rewrite decide_False| |unfold X.ra; lia].
    etransitivity; [apply (wr_length X.sp)|done]. }
  exists (rset X.ra (link 33) (with_words m0 w)). rewrite !Hsp1 by done. split_and!.
  - rewrite (run_ops link (Addi X.sp X.sp (-256) :: saves X.sp kv_saved) _ 0 1 m (with_words m0 w)); [done|reflexivity|].
    cbn [ops exec_op]. rewrite as_u_id, bind_Ok_l; [exact Hops| |done].
    destruct Hb as [_ ? _]. unfold is_u in *. lia.
  - rewrite rset_length. unfold m0. cbn [x_reg with_words]. by rewrite rset_length.
  - done.
  - by rewrite Hg.
  - done.
  - intros r off Hin. cbn [x_mem rset with_reg with_words]. rewrite (Hat r off Hin), Hs, Hg. done.
  - intros a Ha. cbn [x_mem rset with_reg with_words]. rewrite Hother; [done|].
    intros off Hin Heq. apply list_elem_of_fmap in Hin as ([r o] & -> & Hin). cbn [snd] in Heq.
    destruct (fits_elem 32 kv_saved r o eq_refl Hin) as (_ & _ & ?). lia.
  - exact Hsome.
Qed.

Lemma kernelvec_leave m m1 m2 :
  block (x_mem m1) (rget X.sp m1) 32 → returned m1 m2 → is_usize (rget X.sp m1 + 256) →
  (∀ r off, (r, off) ∈ kv_saved →
    x_mem m1 !! (rget X.sp m1 + off) = Some (if decide (r = X.sp) then rget X.sp m1 else rget r m)) →
  ∃ m3, run link 32 (kernelvec_code kt) 33 m2 =
      Ok (ToSret (c_sepc (x_csr m2)) (Z.testbit (c_sstatus (x_csr m2)) SPP), 65%nat, m3) ∧
    rget X.sp m3 = rget X.sp m1 + 256 ∧ rget X.tp m3 = rget X.tp m2 ∧ length (x_reg m3) = 32%nat ∧
    (∀ r, (0 < r < 32)%nat → r ≠ X.tp → r ≠ X.sp → rget r m3 = rget r m) ∧
    x_mem m3 = x_mem m2 ∧ x_csr m3 = (sret (x_csr m2)).2.
Proof.
  intros Hb [Hlen Hsp Hfr] Hu Hsaved.
  assert (Hmem : ∀ off v, 0 ≤ off < 256 → x_mem m1 !! (rget X.sp m1 + off) = Some v → x_mem m2 !! (rget X.sp m2 + off) = Some v).
  { intros off v Ho Hv. rewrite Hsp, Hfr by lia. exact Hv. }
  assert (Hval : ∀ r off, (r, off) ∈ kv_saved →
    x_mem m2 !! (rget X.sp m2 + off) = Some (if decide (r = X.sp) then rget X.sp m1 else rget r m)).
  { intros r off Hin. apply Hmem; [|by apply Hsaved]. destruct (fits_elem 32 kv_saved r off eq_refl Hin) as (_ & _ & ?). lia. }
  destruct (loads_block X.sp 32 kv_loaded m2 Hlen) as (g & Hops & Hgl & Hat & Hother).
  { destruct Hb as [Ha Hr Hw]. rewrite Hsp. split; [done..|]. intros i Hi. rewrite Hfr by lia. by apply Hw. }
  { reflexivity. }
  { dec_compute. }
  { intros off Hin. rewrite (kv_sp_offset off Hin), (Hval X.sp 8); [by rewrite Hsp|].
    dec_compute. }
  set (m3 := rset X.sp (rget X.sp m1 + 256) (with_reg m2 g)).
  assert (Hg : ∀ j, rget j m3 = if decide (j = X.sp) then rget X.sp m1 + 256 else nth j g 0).
  { intros j. apply rget_rset; [done|unfold X.sp; lia]. }
  exists (with_csr m3 (sret (x_csr m2)).2). split_and!; try done.
  - rewrite (run_ops link (loads X.sp kv_loaded ++ [Addi X.sp X.sp 256]) _ 33 1 m2 m3); [done|reflexivity|].
    rewrite ops_app, Hops, bind_Ok_l. cbn [ops exec_op]. unfold rget at 1. cbn [x_reg with_reg].
    rewrite (Hat X.sp 8 (rget X.sp m1)).
    + rewrite as_u_id by done. done.
    + dec_compute.
    + rewrite (Hval X.sp 8); [done|]. dec_compute.
  - change (rget X.sp m3 = rget X.sp m1 + 256). by rewrite Hg.
  - change (rget X.tp m3 = rget X.tp m2). rewrite Hg. cbn. apply Hother. dec_compute.
  - etransitivity; [apply (wr_length X.sp)|done].
  - intros r Hr Ht Hs. change (rget r m3 = rget r m). rewrite Hg, decide_False by done.
    destruct (kv_offset r Hr Ht) as (off & Hin & Hin'). apply (Hat r off); [done|]. rewrite (Hval r off Hin).
    by rewrite decide_False.
Qed.

(** C9: a device or timer interrupt in kernel code, from the first instruction of
    kernelvec to its sret, when kerneltrap does not yield, or yields and no further
    interrupt comes between its last two register writes: kernelvec writes only its
    256 bytes of stack, kerneltrap returns, and when it hands back stack pointer and
    frame the interrupted code goes on at its instruction in supervisor mode with the
    interrupt enable bit as before and every register as before, except that tp is
    that of the hart it now runs on. *)
Theorem kernel_interrupt_transparent {MD} `{Mmio MD} fuel h procs ctx cur pool cause tval pc back irq c (ds : devs MD) i ds' m :
  is_interrupt cause = true → cregs ctx ≠ [] → devintr fuel h cause procs pool ds = Ok (Some i, ds') →
  (kerneltrap_enter fuel h procs ctx cur pool (trap_entry cause tval pc true c) ds = Ok (true, ds') → irq = no_irq) →
  length (x_reg m) = 32%nat → is_usize (rget X.sp m) → block (x_mem m) (rget X.sp m - 256) 32 →
  x_csr m = trap_entry cause tval pc true c →
  ∃ m1 c1, run link 33 (kernelvec_code kt) 0 m = Ok (ToCall kt, 33%nat, m1) ∧ length (x_reg m1) = 32%nat ∧
    (∀ a, ¬ (rget X.sp m - 256 ≤ a < rget X.sp m) → x_mem m1 !! a = x_mem m !! a) ∧
    kerneltrap fuel h procs ctx cur pool back irq (x_csr m1) ds = Ok (c1, ds') ∧
    ∀ m2, returned m1 m2 → x_csr m2 = c1 →
    ∃ m3, run link 32 (kernelvec_code kt) 33 m2 = Ok (ToSret pc true, 65%nat, m3) ∧
      (∀ r, (0 < r < 32)%nat → r ≠ X.tp → rget r m3 = rget r m) ∧ rget X.tp m3 = rget X.tp m2 ∧
      x_mem m3 = x_mem m2 ∧ trap_intr_get (x_csr m3) = trap_intr_get c.
Proof.
  intros Hint Hctx Hdev Hirq Hlen Hsp Hb Hc.
  destruct (kernelvec_enter m Hlen Hsp Hb) as (m1 & Hrun & Hl1 & Hs1 & _ & Hc1 & Hsaved & Hmem & Hsome).
  destruct (kerneltrap_returns fuel h procs ctx cur pool cause tval pc back irq c ds i ds' Hint Hctx Hdev Hirq) as (c1 & Hk & Hret).
  exists m1, c1. rewrite Hc1, Hc. split_and!; [exact Hrun|exact Hl1| |exact Hk|].
  { intros a Ha. apply Hmem. lia. }
  intros m2 Hm2 Hc2. destruct (kernelvec_leave m m1 m2) as (m3 & Hrun3 & Hs3 & Ht3 & _ & Hr3 & Hm3 & Hc3);
    [|exact Hm2|by rewrite Hs1, Z.sub_add|exact Hsaved|].
  { rewrite Hs1. destruct Hb as [Ha Hr Hw]. split; [done..|]. intros j Hj. by apply Hsome, Hw. }
  rewrite Hc2 in *. unfold sret in Hret. cbv zeta in Hret. destruct Hret as (Hpc & Hsup & Hsie).
  exists m3. rewrite Hrun3, Hpc, Hsup. split_and!; [done| |done|done|by rewrite Hc3].
  intros r Hr Ht. destruct (decide (r = X.sp)) as [->|]; [|by apply Hr3]. rewrite Hs3, Hs1. lia.
Qed.
End kernelvec.

(** ** Context switches *)
Definition ctx_regs : list (nat * Z) :=
  [(X.ra, 0); (X.sp, 8); (X.s0, 16); (X.s1, 24)] ++ zip (seq 18 10) ((λ i, 8 * Z.of_nat i) <$> seq 4 10).

Lemma swtch_saves : take 14 swtch_code = Op <$> saves X.a0 ctx_regs.
Proof. reflexivity. Qed.
Lemma swtch_loads : take 14 (drop 14 swtch_code) = Op <$> loads X.a1 ctx_regs.
Proof. reflexivity. Qed.

(** ra, sp and s0 to s11: the words of a [Context] *)
Definition callee_saved m : list Z := (λ p, rget p.1 m) <$> ctx_regs.

Lemma ctx_regs_lookup i r off : ctx_regs !! i = Some (r, off) → off = 8 * Z.of_nat i.
Proof. do 14 (destruct i as [|i]; [by intros [= <- <-]|]). done. Qed.

Lemma callee_saved_eq m (ws : list Z) :
  length ws = 14%nat → (∀ i r off v, ctx_regs !! i = Some (r, off) → ws !! i = Some v → rget r m = v) → callee_saved m = ws.
Proof.
  intros Hl Hw. apply list_eq. intros i. unfold callee_saved. rewrite list_lookup_fmap.
  destruct (ctx_regs !! i) as [[r off]|] eqn:E.
  - destruct (lookup_lt_is_Some_2 ws i) as [v Hv]; [rewrite Hl; by apply lookup_lt_Some in E|].
    cbn. rewrite Hv. f_equal. by eapply Hw.
  - symmetry. apply lookup_ge_None. rewrite Hl. by apply lookup_ge_None in E.
Qed.

(** [__swtch(a0, a1)] may run, and the context at [a1] is [ws]. *)
Record swtch_ready m (ws : list Z) : Prop := {
  sr_regs : length (x_reg m) = 32%nat;
  sr_old : block (x_mem m) (rget X.a0 m) 14;
  sr_new : block (x_mem m) (rget X.a1 m) 14;
  sr_words : length ws = 14%nat ∧ words_at (x_mem m) (rget X.a1 m) ws;
  sr_apart : rget X.a0 m + 112 ≤ rget X.a1 m ∨ rget X.a1 m + 112 ≤ rget X.a0 m;
}.

(** What a switch does *)
Record switched m (ws : list Z) (e : exit) m' : Prop := {
  sw_to : e = ToAddr (nth 0 ws 0);
  sw_regs : callee_saved m' = ws;
  sw_kept : ∀ r, r ∉ ctx_regs.*1 → rget r m' = rget r m;
  sw_saved : words_at (x_mem m') (rget X.a0 m) (callee_saved m);
  sw_mem : ∀ a, ¬ (rget X.a0 m ≤ a < rget X.a0 m + 112) → x_mem m' !! a = x_mem m !! a;
  sw_csr : x_csr m' = x_csr m;
}.

Lemma swtch_runs link m ws :
  swtch_ready m ws → ∃ e m', run link 29 swtch_code 0 m = Ok (e, 29%nat, m') ∧ switched m ws e m'.
Proof.
  intros [Hlen Hold Hnew [Hws Hw] Hap].
  destruct (saves_block X.a0 14 ctx_regs m Hold) as (w & Hops & Hat & Hother & Hsome); [reflexivity|dec_compute|].
  set (m1 := with_words m w). change (rget X.a1 m) with (rget X.a1 m1) in *.
  assert (Hout : ∀ a, ¬ (rget X.a0 m ≤ a < rget X.a0 m + 112) → w !! a = x_mem m !! a).
  { intros a Ha. apply Hother. intros off Hin ->. apply list_elem_of_fmap in Hin as ([r o] & -> & Hin). cbn [snd] in Ha.
    destruct (fits_elem 14 ctx_regs r o eq_refl Hin) as (_ & _ & ?). lia. }
  destruct (loads_block X.a1 14 ctx_regs m1) as (g & Hops2 & Hgl & Hgat & Hgo).
  { done. }
  { destruct Hnew as [? ? Hk]. split; [done..|]. intros i Hi. by apply Hsome, Hk. }
  { reflexivity. }
  { dec_compute. }
  { intros off Hin. apply (list_elem_of_fmap_2 fst) in Hin. exfalso. revert Hin.
    change (X.a1 ∉ ctx_regs.*1). dec_compute. }
  assert (Hreg : ∀ i r off v, ctx_regs !! i = Some (r, off) → ws !! i = Some v → nth r g 0 = v).
  { intros i r off v Hi Hv. apply (Hgat r off); [by eapply list_elem_of_lookup_2|].
    pose proof (ctx_regs_lookup _ _ _ Hi) as ->. pose proof (lookup_lt_Some _ _ _ Hv). change (x_mem m1) with w.
    rewrite Hout by lia. by apply Hw. }
  destruct (lookup_lt_is_Some_2 ws 0) as [v0 Hv0]; [lia|].
  exists (ToAddr (nth 0 ws 0)), (with_reg m1 g). split; [|split; [done|..|done]].
  - rewrite (run_ops link (saves X.a0 ctx_regs ++ loads X.a1 ctx_regs) _ 0 1 m (with_reg m1 g)); [|reflexivity|].
    + cbn. unfold rget. cbn. by rewrite (Hreg 0%nat X.ra 0 v0 eq_refl Hv0), (nth_lookup_Some _ _ _ _ Hv0).
    + by rewrite ops_app, Hops, bind_Ok_l.
  - apply callee_saved_eq; [done|]. exact Hreg.
  - exact Hgo.
  - intros i x Hx. unfold callee_saved in Hx. rewrite list_lookup_fmap in Hx.
    destruct (ctx_regs !! i) as [[r off]|] eqn:E; [|done]. injection Hx as <-.
    rewrite <- (ctx_regs_lookup _ _ _ E). cbn. apply Hat. by eapply list_elem_of_lookup_2.
  - exact Hout.
Qed.

(** C8: __swtch, run instruction by instruction, saves ra, sp and s0 to s11 in the old
    context, goes to the address in the new one with its registers, and changes no
    other register and no other word of memory; and a later switch to the saved
    context, from any thread on any hart, goes on at the return address of the first
    call with the callee-saved registers and the stack of that moment, keeping the tp
    of the hart it runs on. *)
Theorem swtch_resumes link m1 ws :
  swtch_ready m1 ws →
  ∃ e m1', run link 29 swtch_code 0 m1 = Ok (e, 29%nat, m1') ∧ switched m1 ws e m1' ∧
    ∀ m2, swtch_ready m2 (callee_saved m1) →
    ∃ m2', run link 29 swtch_code 0 m2 = Ok (ToAddr (rget X.ra m1), 29%nat, m2') ∧
      callee_saved m2' = callee_saved m1 ∧ rget X.tp m2' = rget X.tp m2 ∧ x_csr m2' = x_csr m2 ∧
      words_at (x_mem m2') (rget X.a0 m2) (callee_saved m2).
Proof.
  intros H1. destruct (swtch_runs link m1 ws H1) as (e & m1' & Hr & Hs). exists e, m1'. split_and!; [done..|].
  intros m2 H2. destruct (swtch_runs link m2 _ H2) as (e2 & m2' & Hr2 & [-> Hreg Hk Hsv _ Hc]).
  exists m2'. split_and!; [exact Hr2|done| |done|done]. apply Hk. dec_compute.
Qed.

(** The context of a new process: the switch to it goes to [forkret], on the first page of its kernel
    stack. *)
Lemma swtch_starts {A} `{GlobalAlloc A} link sym forkret pid pgt tf_at tf (k k' : kmem A) p m :
  Process_from_exist sym forkret pid pgt tf_at tf k = Ok (p, k') → swtch_ready m (cregs (context p)) →
  ∃ m', run link 29 swtch_code 0 m = Ok (ToAddr forkret, 29%nat, m') ∧ rget X.sp m' = kstack p + PAGE_SIZE.
Proof.
  intros Hp Hm. destruct (swtch_runs link m _ Hm) as (e & m' & Hr & [-> Hreg _ _ _ _]). exists m'.
  unfold Process_from_exist in Hp. inv_bind. inv_arith. cbn [cregs context kstack] in *.
  split; [exact Hr|]. by injection Hreg.
Qed.

(** A new process: the switch to its context and [forkret] lead to user code at its program
    counter with the registers of its frame, in its table, on whichever hart. *)
Lemma new_process_enters {A} `{GlobalAlloc A} link ts sym forkret pid pgt tf_at tf (k k' : kmem A) p m h c :
  Process_from_exist sym forkret pid pgt tf_at tf k = Ok (p, k') → trap_layout ts sym p →
  swtch_ready m (cregs (context p)) →
  ∃ m' c' p' satp fn, run link 29 swtch_code 0 m = Ok (ToAddr forkret, 29%nat, m') ∧
    forkret_body ts sym h c p = Ok (c', p', satp, fn) ∧
    in_user ts sym (0 :: drop 1 (regs tf)) (epc tf) (pgtable p) (kstack_sp p) h (c_satp c)
      (userret TRAPFRAME_START satp (trapframe p') c') (trapframe p') fn.
Proof.
  intros Hp Hl Hm. destruct (swtch_starts link sym forkret pid pgt tf_at tf k k' p m Hp Hm) as (m' & Hr & _).
  destruct (usertrapret_enters ts sym h c p Hl) as (c' & p' & satp & fn & Hu & Hin).
  exists m', c', p', satp, fn. split_and!; [exact Hr|exact Hu|].
  unfold Process_from_exist in Hp. inv_bind. exact Hin.
Qed.

(** ** The trampoline *)
(** The words of a [TrapFrame]: x0 to x31, f0 to f31, and the kernel's five *)
Definition frame_words (tf : TrapFrame) : list Z :=
  regs tf ++ fregs tf ++ [tf_satp tf; tf_sp tf; tf_hartid tf; tf_trap tf; epc tf].

Definition gp_slots (n : nat) : list (nat * Z) := (λ i, (i, Z.of_nat i * 8)) <$> seq 1 n.

Definition uservec_stores : list op :=
  [Csrrw X.t6 Sscratch X.t6] ++ saves X.t6 (gp_slots 30) ++ [Mv X.t5 X.t6; Csrr X.t6 Sscratch] ++ saves X.t5 [(X.t6, 248)].
Definition uservec_loads : list (nat * Z) := [(X.sp, 520); (X.tp, 528); (X.t0, 536); (X.t1, 512)].

Lemma gp_slots_elem n r off : (r, off) ∈ gp_slots n ↔ (1 ≤ r ≤ n)%nat ∧ off = 8 * Z.of_nat r.
Proof.
  unfold gp_slots. rewrite list_elem_of_fmap. split.
  - intros (i & [= -> ->] & Hi%elem_of_seq). lia.
  - intros [Hr ->]. exists r. split; [f_equal; lia|]. apply elem_of_seq. lia.
Qed.

(** The trap frame [tf] is in memory at [b]. *)
Record frame_at (w : gmap Z Z) (b : Z) (tf : TrapFrame) : Prop := {
  fa_regs : length (regs tf) = 32%nat ∧ length (fregs tf) = 32%nat;
  fa_block : block w b 69;
  fa_words : words_at w b (frame_words tf);
}.

Lemma frame_reg w b tf i x : frame_at w b tf → regs tf !! i = Some x → w !! (b + 8 * Z.of_nat i) = Some x.
Proof. intros [_ _ Hw] Hx. apply Hw. by apply lookup_app_l_Some. Qed.

Lemma frame_kernel w b tf i x :
  frame_at w b tf → [tf_satp tf; tf_sp tf; tf_hartid tf; tf_trap tf; epc tf] !! i = Some x →
  w !! (b + (512 + 8 * Z.of_nat i)) = Some x.
Proof.
  intros [[Hr Hf] _ Hw] Hx. replace (b + (512 + 8 * Z.of_nat i)) with (b + 8 * Z.of_nat (64 + i)) by lia. apply Hw.
  unfold frame_words. rewrite lookup_app_r, lookup_app_r by lia. rewrite Hr, Hf. by replace (64 + i - 32 - 32)%nat with i by lia.
Qed.

(** A frame after stores of registers 1 to 31 *)
Lemma frame_saved w w' b tf (g : list Z) :
  frame_at w b tf → length g = 32%nat →
  (∀ r, (1 ≤ r < 32)%nat → w' !! (b + 8 * Z.of_nat r) = Some (nth r g 0)) →
  (∀ a, ¬ (b + 8 ≤ a < b + 256) → w' !! a = w !! a) →
  frame_at w' b (set_regs tf (take 1 (regs tf) ++ drop 1 g)).
Proof.
  intros [[Hr Hf] [Ha Hrg Hk] Hw] Hg Hin Hout. split; [split|split|].
  - cbn. rewrite length_app, length_take, length_drop. lia.
  - done.
  - done.
  - done.
  - intros i Hi. destruct (decide (1 ≤ i < 32)) as [Hi'|Hi'].
    + replace i with (Z.of_nat (Z.to_nat i)) by lia. rewrite Hin by lia. eauto.
    + rewrite Hout by lia. by apply Hk.
  - intros i x Hx. unfold frame_words in Hx. cbn [regs fregs set_regs tf_satp tf_sp tf_hartid tf_trap epc] in Hx.
    destruct (decide (1 ≤ i < 32)%nat) as [Hi|Hi].
    + rewrite Hin by done. rewrite lookup_app_l in Hx by (rewrite length_app, length_take, length_drop; lia).
      rewrite frame_lookup in Hx by lia. by rewrite (nth_lookup_Some _ _ _ _ Hx).
    + rewrite Hout by lia. apply Hw. unfold frame_words. destruct i as [|i].
      * destruct (regs tf); [done|]. done.
      * rewrite lookup_app_r in Hx |- * by (rewrite ?length_app, ?length_take, ?length_drop; lia).
        rewrite length_app, length_take, length_drop in Hx. rewrite Hr in *. by replace (S i - (1 `min` 32 + (length g - 1)))%nat with (S i - 32)%nat in Hx by lia.
Qed.

Lemma off_one (a b o : Z) r : a ≠ b + o → ∀ off, off ∈ [(r, o)].*2 → a ≠ b + off.
Proof. intros Hne off [->|Hin%not_elem_of_nil]%elem_of_cons; done. Qed.
Lemma off_gp a b n : ¬ (b + 8 ≤ a < b + 8 * Z.of_nat n + 8) → ∀ off, off ∈ (gp_slots n).*2 → a ≠ b + off.
Proof. intros Ha off Hin. apply list_elem_of_fmap in Hin as ([r o] & -> & [Hr ->]%gp_slots_elem). cbn [snd]. lia. Qed.

(** The stores of [uservec], [t6] apart, and then [t6] through [t5] *)
Lemma uservec_saves m tf :
  length (x_reg m) = 32%nat → frame_at (x_mem m) (c_sscratch (x_csr m)) tf →
  ∃ m5, ops uservec_stores m = Ok m5 ∧
    length (x_reg m5) = 32%nat ∧ rget X.t5 m5 = c_sscratch (x_csr m) ∧
    x_csr m5 = set_sscratch (x_csr m) (rget X.t6 m) ∧
    frame_at (x_mem m5) (c_sscratch (x_csr m)) (set_regs tf (take 1 (regs tf) ++ drop 1 (x_reg m))) ∧
    (∀ a, ¬ (c_sscratch (x_csr m) + 8 ≤ a < c_sscratch (x_csr m) + 256) → x_mem m5 !! a = x_mem m !! a).
Proof.
  intros Hlen Hf. set (F := c_sscratch (x_csr m)) in *. set (u := rget X.t6 m).
  set (m1 := rset X.t6 F (with_csr m (set_sscratch (x_csr m) u))).
  assert (Hg1 : ∀ j, rget j m1 = if decide (j = X.t6) then F else rget j m) by (intros j; unfold m1; by reg_simpl).
  destruct (saves_block X.t6 69 (gp_slots 30) m1) as (w & Hops1 & Hat1 & Hout1 & Hsome1);
    [by rewrite Hg1; apply Hf|reflexivity|dec_compute|].
  rewrite Hg1, decide_True in Hat1, Hout1 by done.
  set (m4 := rset X.t6 u (rset X.t5 F (with_words m1 w))).
  assert (Hl4 : length (x_reg m4) = 32%nat) by (unfold m4, m1; by rewrite !rset_length; cbn [x_reg with_words]; rewrite rset_length).
  assert (Hg4 : rget X.t5 m4 = F ∧ rget X.t6 m4 = u).
  { unfold m4. split; (rewrite rget_rset; [|by rewrite rset_length; cbn [x_reg with_words]; unfold m1; rewrite rset_length|vm_compute; lia]);
      [rewrite decide_False by done|by rewrite decide_True].
    rewrite rget_rset; [by rewrite decide_True|by cbn [x_reg with_words]; unfold m1; rewrite rset_length|vm_compute; lia]. }
  destruct Hg4 as [Hg5 Hg6].
  destruct (saves_block X.t5 69 [(X.t6, 248)] m4) as (w2 & Hops2 & Hat2 & Hout2 & _);
    [|reflexivity|dec_compute|].
  { rewrite Hg5. destruct Hf as [_ [? ? Hk] _]. split; [done..|]. intros i Hi. by apply Hsome1, Hk. }
  rewrite Hg5 in Hat2, Hout2. change (x_mem m4) with w in Hout2. change (x_mem m1) with (x_mem m) in Hout1.
  assert (Hout : ∀ a, ¬ (F + 8 ≤ a < F + 256) → w2 !! a = x_mem m !! a).
  { intros a Ha. rewrite Hout2, Hout1; [done|apply off_gp; lia|apply off_one; lia]. }
  exists (with_words m4 w2). cbn [x_reg x_mem with_words]. split_and!; [|exact Hl4|exact Hg5|done|..].
  - unfold uservec_stores. rewrite ops_app. change (ops [Csrrw X.t6 Sscratch X.t6] m) with (Ok m1). rewrite bind_Ok_l, ops_app, Hops1, bind_Ok_l, ops_app.
    assert (ops [Mv X.t5 X.t6; Csrr X.t6 Sscratch] (with_words m1 w) = Ok m4) as ->; [|by rewrite bind_Ok_l].
    cbn [ops exec_op]. rewrite !bind_Ok_l. change (rget X.t6 (with_words m1 w)) with (rget X.t6 m1).
    by rewrite Hg1, decide_True.
  - apply (frame_saved (x_mem m)); [done|done|..].
    + intros r Hr. destruct (decide (r = X.t6)) as [->|Hne].
      * change (8 * Z.of_nat X.t6) with 248. rewrite (Hat2 X.t6 248), Hg6; [done|by left].
      * unfold X.t6 in Hne. rewrite Hout2; [|apply off_one; lia].
        rewrite (Hat1 r (8 * Z.of_nat r)), Hg1; [by rewrite decide_False|]. apply gp_slots_elem. lia.
    + exact Hout.
  - exact Hout.
Qed.

Lemma uservec_runs link m tf :
  length (x_reg m) = 32%nat → frame_at (x_mem m) (c_sscratch (x_csr m)) tf →
  let '(tf', (sp, tp, pc), c) := uservec (x_reg m) tf (x_csr m) in
  ∃ m', run link 41 uservec_code 0 m = Ok (ToAddr pc, 41%nat, m') ∧
    rget X.sp m' = sp ∧ rget X.tp m' = tp ∧ x_csr m' = c ∧ frame_at (x_mem m') (c_sscratch (x_csr m)) tf' ∧
    ∀ a, ¬ (c_sscratch (x_csr m) + 8 ≤ a < c_sscratch (x_csr m) + 256) → x_mem m' !! a = x_mem m !! a.
Proof.
  intros Hlen Hf. unfold uservec. destruct (uservec_saves m tf Hlen Hf) as (m5 & Hops & Hl5 & H5 & Hc5 & Hf5 & Hout).
  set (F := c_sscratch (x_csr m)) in *.
  destruct (loads_block X.t5 69 uservec_loads m5 Hl5)
    as (g & Hopsl & _ & Hat & _); [by rewrite H5; apply Hf5|reflexivity|dec_compute| |].
  { intros off Hin. apply (list_elem_of_fmap_2 fst) in Hin. exfalso. revert Hin.
    match goal with |- ?x ∈ ?l → False => change (x ∉ l) end. dec_compute. }
  rewrite H5 in Hat. pose proof (λ i x, frame_kernel _ _ _ i x Hf5) as Hk. cbn [set_regs tf_satp tf_sp tf_hartid tf_trap epc] in Hk.
  assert (Hsp : nth X.sp g 0 = tf_sp tf) by (apply (Hat X.sp 520); [dec_compute|by apply (Hk 1%nat)]).
  assert (Htp : nth X.tp g 0 = tf_hartid tf) by (apply (Hat X.tp 528); [dec_compute|by apply (Hk 2%nat)]).
  assert (Ht0 : nth X.t0 g 0 = tf_trap tf) by (apply (Hat X.t0 536); [dec_compute|by apply (Hk 3%nat)]).
  assert (Ht1 : nth X.t1 g 0 = tf_satp tf) by (apply (Hat X.t1 512); [dec_compute|by apply (Hk 0%nat)]).
  exists (with_csr (with_reg m5 g) (set_satp (x_csr m5) (tf_satp tf))). split_and!; [|done|done|..].
  - rewrite (run_ops link (uservec_stores ++ loads X.t5 uservec_loads ++ [Csrw Satp X.t1; Sfence]) _ 0 1 m
      (with_csr (with_reg m5 g) (set_satp (x_csr m5) (tf_satp tf)))); [|reflexivity|].
    + cbn. unfold rget. cbn [x_reg with_reg with_csr]. by rewrite Ht0.
    + rewrite ops_app, Hops, bind_Ok_l, ops_app, Hopsl, bind_Ok_l. cbn [ops exec_op csr_set]. unfold rget.
      cbn [x_reg with_reg x_csr]. by rewrite Ht1.
  - by rewrite Hc5.
  - exact Hf5.
  - exact Hout.
Qed.

Lemma userret_runs link m tf :
  length (x_reg m) = 32%nat → rget X.zero m = 0 → frame_at (x_mem m) (rget X.a0 m) tf →
  let '(gpr, (pc, s, c)) := userret (rget X.a0 m) (rget X.a1 m) tf (x_csr m) in
  ∃ m', run link 36 userret_code 0 m = Ok (ToSret pc s, 36%nat, m') ∧
    x_reg m' = gpr ∧ x_csr m' = c ∧ x_mem m' = x_mem m.
Proof.
  intros Hlen Hz Hf. unfold userret. set (F := rget X.a0 m) in *. set (c1 := set_sscratch (set_satp (x_csr m) (rget X.a1 m)) F).
  set (m1 := rset X.t6 F (with_csr m c1)).
  assert (Hg1 : ∀ j, rget j m1 = if decide (j = X.t6) then F else rget j m) by (intros j; unfold m1; by reg_simpl).
  assert (Hl1 : length (x_reg m1) = 32%nat) by (unfold m1; by rewrite rset_length).
  destruct (loads_block X.t6 69 (gp_slots 30) m1) as (g & Hops & Hgl & Hat & Hoth);
    [done|rewrite Hg1, decide_True by done; apply Hf|reflexivity|dec_compute| |].
  { intros off [? _]%gp_slots_elem. unfold X.t6 in *. lia. }
  rewrite Hg1, decide_True in Hat by done.
  destruct (lookup_lt_is_Some_2 (regs tf) 31) as [u Hu]; [destruct Hf as [[-> _] _ _]; lia|].
  assert (Ht6 : rget X.t6 (with_reg m1 g) = F).
  { unfold rget. cbn [x_reg with_reg]. rewrite Hoth; [by rewrite Hg1, decide_True|]. dec_compute. }
  set (m2 := rset X.t6 u (with_reg m1 g)).
  assert (Hg2 : ∀ j, rget j m2 = if decide (j = X.t6) then u else nth j g 0).
  { intros j. unfold m2. rewrite rget_rset; [done|done|vm_compute; lia]. }
  exists (with_csr m2 (sret c1).2). split_and!; [..|done|done].
  - rewrite (run_ops link ([Csrw Satp X.a1; Sfence; Csrw Sscratch X.a0; Mv X.t6 X.a0] ++ loads X.t6 (gp_slots 30) ++
      [Ld X.t6 248 X.t6]) _ 0 1 m m2); [done|reflexivity|].
    rewrite ops_app. change (ops _ m) with (Ok m1). rewrite bind_Ok_l, ops_app, Hops, bind_Ok_l. cbn [ops exec_op].
    rewrite Ht6. destruct Hf as [Hl [Ha Hb Hk] Hw]. rewrite as_u_id by (unfold is_u; lia).
    rewrite (load_ok _ _ u); [done| |].
    + by rewrite <- Zplus_mod_idemp_l, Ha.
    + apply (frame_reg (x_mem m) F tf 31); [by split|done].
  - cbn [x_reg with_csr]. apply (nth_ext _ _ 0 0).
    + unfold m2. rewrite rset_length. cbn [x_reg with_reg]. rewrite Hgl. destruct Hf as [[Hr _] _ _]. cbn. rewrite length_drop. lia.
    + intros j Hj. unfold m2 in Hj. rewrite rset_length in Hj. cbn [x_reg with_reg] in Hj. rewrite Hgl in Hj.
      change (nth j (x_reg m2) 0) with (rget j m2). rewrite Hg2.
      destruct (lookup_lt_is_Some_2 (regs tf) j) as [v Hv]; [destruct Hf as [[-> _] _ _]; lia|].
      assert (Hval : x_mem m1 !! (F + 8 * Z.of_nat j) = Some v) by (by apply (frame_reg (x_mem m) F tf)).
      destruct j as [|j].
      * rewrite decide_False, Hoth, Hg1 by (done || dec_compute). by rewrite decide_False.
      * assert (nth (S j) (0 :: drop 1 (regs tf)) 0 = v) as ->.
        { cbn. rewrite nth_lookup, lookup_drop. cbn. by rewrite Hv. }
        case_decide as Hj6; [rewrite Hj6 in Hv; unfold X.t6 in Hv; congruence|].
        apply (Hat (S j) (8 * Z.of_nat (S j))); [|done]. apply gp_slots_elem. unfold X.t6 in Hj6. lia.
Qed.

(** C13: the instructions of uservec and userret, run one at a time on the trap frame in
    memory, implement the functions uservec and userret of the trap model: uservec
    stores x1 to x31 in the frame, through t6 and then t5, writes nothing else and
    jumps to the handler with the kernel's stack, hart number and page table, and
    userret loads all registers, its own base register last, and returns through sret. *)
Theorem trampoline_refines link m tf :
  length (x_reg m) = 32%nat → rget X.zero m = 0 →
  (frame_at (x_mem m) (c_sscratch (x_csr m)) tf →
    let '(tf', (sp, tp, pc), c) := uservec (x_reg m) tf (x_csr m) in
    ∃ m', run link 41 uservec_code 0 m = Ok (ToAddr pc, 41%nat, m') ∧
      rget X.sp m' = sp ∧ rget X.tp m' = tp ∧ x_csr m' = c ∧ frame_at (x_mem m') (c_sscratch (x_csr m)) tf' ∧
      ∀ a, ¬ (c_sscratch (x_csr m) + 8 ≤ a < c_sscratch (x_csr m) + 256) → x_mem m' !! a = x_mem m !! a) ∧
  (frame_at (x_mem m) (rget X.a0 m) tf →
    let '(gpr, (pc, s, c)) := userret (rget X.a0 m) (rget X.a1 m) tf (x_csr m) in
    ∃ m', run link 36 userret_code 0 m = Ok (ToSret pc s, 36%nat, m') ∧
      x_reg m' = gpr ∧ x_csr m' = c ∧ x_mem m' = x_mem m).
Proof. intros Hl Hz. split; [by apply uservec_runs|by apply userret_runs]. Qed.

(** ** The timer interrupt *)
Definition timer_saved : list (nat * Z) := [(X.a1, 0); (X.a2, 8); (X.a3, 16)].

(** The row of [MSCRATCH0] at [mscratch], and the comparator of the device as a word of memory *)
Record timer_at m (row : list Z) (d : RegFile) (cmp : Z) : Prop := {
  ta_regs : length (x_reg m) = 32%nat;
  ta_row : timer_row row cmp;
  ta_words : block (x_mem m) (x_mscratch m) 8 ∧ words_at (x_mem m) (x_mscratch m) row;
  ta_cmp : cmp mod 8 = 0 ∧ is_usize cmp ∧ x_mem m !! cmp = Some (reg d cmp);
  ta_apart : ¬ (x_mscratch m ≤ cmp < x_mscratch m + 64);
}.

(** Saving a1 to a3 in the row and loading the comparator and the interval from it *)
Lemma timervec_enter m row d cmp :
  timer_at m row d cmp →
  ∃ m2, ops ([Csrrw X.a0 Mscratch X.a0] ++ saves X.a0 timer_saved ++ loads X.a0 [(X.a1, 32); (X.a2, 40)]) m = Ok m2 ∧
    length (x_reg m2) = 32%nat ∧ rget X.a0 m2 = x_mscratch m ∧ x_mscratch m2 = rget X.a0 m ∧ x_csr m2 = x_csr m ∧
    rget X.a1 m2 = cmp ∧ rget X.a2 m2 = SCHEDULER_INTERVAL ∧
    (∀ r, r ∉ [X.a0; X.a1; X.a2] → rget r m2 = rget r m) ∧
    (∀ r off, (r, off) ∈ timer_saved → x_mem m2 !! (x_mscratch m + off) = Some (rget r m)) ∧
    (∀ a, ¬ (x_mscratch m ≤ a < x_mscratch m + 24) → x_mem m2 !! a = x_mem m !! a) ∧
    (∀ a, is_Some (x_mem m !! a) → is_Some (x_mem m2 !! a)).
Proof.
  intros [Hlen [Hrl Hr4 Hr5] [Hb Hw] _ _]. set (S := x_mscratch m) in *.
  set (m1 := rset X.a0 S (Cpu (x_reg m) (x_csr m) (rget X.a0 m) (x_mhartid m) (x_mem m))).
  assert (Hg1 : ∀ j, rget j m1 = if decide (j = X.a0) then S else rget j m) by (intros j; unfold m1; by reg_simpl).
  destruct (saves_block X.a0 8 timer_saved m1) as (w & Hops1 & Hat1 & Hout1 & Hsome1);
    [by rewrite Hg1|reflexivity|dec_compute|].
  rewrite Hg1, decide_True in Hat1, Hout1 by done. change (x_mem m1) with (x_mem m) in *.
  assert (Hout : ∀ a, ¬ (S ≤ a < S + 24) → w !! a = x_mem m !! a).
  { intros a Ha. apply Hout1. intros off Hin. apply list_elem_of_fmap in Hin as ([r o] & -> & Hin). cbn [snd].
    destruct (fits_elem 3 timer_saved r o eq_refl Hin) as (_ & _ & ?). lia. }
  destruct (loads_block X.a0 8 [(X.a1, 32); (X.a2, 40)] (with_words m1 w)) as (g & Hops2 & Hgl & Hat2 & Hoth2).
  { by change (length (x_reg m1) = 32%nat); unfold m1; rewrite rset_length. }
  { change (block w (rget X.a0 m1) 8). rewrite Hg1, decide_True by done. destruct Hb as [? ? Hk].
    split; [done..|]. intros i Hi. by apply Hsome1, Hk. }
  { reflexivity. }
  { dec_compute. }
  { intros off Hin. apply (list_elem_of_fmap_2 fst) in Hin. exfalso. revert Hin. change (X.a0 ∉ [X.a1; X.a2]). dec_compute. }
  assert (Hsc : ∀ r, rget r (with_words m1 w) = rget r m1) by done. rewrite Hsc, Hg1, decide_True in Hat2 by done.
  exists (with_reg (with_words m1 w) g). split_and!; [|exact Hgl|..|exact Hout|exact Hsome1].
  - rewrite ops_app. change (ops _ m) with (Ok m1). by rewrite bind_Ok_l, ops_app, Hops1, bind_Ok_l.
  - unfold rget. cbn [x_reg with_reg]. rewrite Hoth2 by dec_compute. by rewrite Hsc, Hg1, decide_True.
  - done.
  - done.
  - apply (Hat2 X.a1 32); [dec_compute|]. cbn [x_mem with_words]. rewrite Hout by lia. exact (Hw 4%nat cmp Hr4).
  - apply (Hat2 X.a2 40); [dec_compute|]. cbn [x_mem with_words]. rewrite Hout by lia. exact (Hw 5%nat _ Hr5).
  - intros r Hr. rewrite not_elem_of_cons in Hr. destruct Hr as [H0 Hr].
    unfold rget at 1. cbn [x_reg with_reg]. by rewrite (Hoth2 r Hr), Hsc, Hg1, decide_False.
  - intros r off Hin. cbn [x_mem with_words with_reg]. rewrite (Hat1 r off Hin), Hg1, decide_False; [done|]. intros ->.
    apply (list_elem_of_fmap_2 fst) in Hin. revert Hin. change (X.a0 ∉ timer_saved.*1). dec_compute.
Qed.

(** Up to the store to the comparator *)
Definition timervec_part1 : list op :=
  ([Csrrw X.a0 Mscratch X.a0] ++ saves X.a0 timer_saved ++ loads X.a0 [(X.a1, 32); (X.a2, 40)]) ++
  [Ld X.a3 0 X.a1; Add X.a3 X.a3 X.a2; Sd X.a3 0 X.a1].
Lemma timervec_first m row d cmp :
  timer_at m row d cmp →
  ∃ m2, ops timervec_part1 m = Ok m2 ∧
    length (x_reg m2) = 32%nat ∧ rget X.a0 m2 = x_mscratch m ∧ x_mscratch m2 = rget X.a0 m ∧ x_csr m2 = x_csr m ∧
    (∀ r, r ∉ [X.a0; X.a1; X.a2; X.a3] → rget r m2 = rget r m) ∧
    (∀ r off, (r, off) ∈ timer_saved → x_mem m2 !! (x_mscratch m + off) = Some (rget r m)) ∧
    x_mem m2 !! cmp = Some (as_u 64 (reg d cmp + SCHEDULER_INTERVAL)) ∧
    (∀ a, a ≠ cmp → ¬ (x_mscratch m ≤ a < x_mscratch m + 24) → x_mem m2 !! a = x_mem m !! a) ∧
    (∀ a, is_Some (x_mem m !! a) → is_Some (x_mem m2 !! a)).
Proof.
  intros Ht. destruct (timervec_enter m row d cmp Ht) as (m1 & Hops & Hl1 & H0 & Hsc & Hc1 & Ha1 & Ha2 & Hoth & Hsaved & Hout & Hsome).
  destruct Ht as [_ _ _ (Hca & Hcu & Hcm) Hap].
  set (t := reg d cmp) in *. set (v := as_u 64 (t + SCHEDULER_INTERVAL)). set (m3 := rset X.a3 t m1). set (m4 := rset X.a3 v m3).
  assert (Hg3 : ∀ j, rget j m3 = if decide (j = X.a3) then t else rget j m1) by (intros j; unfold m3; by reg_simpl).
  assert (Hg4 : ∀ j, rget j m4 = if decide (j = X.a3) then v else rget j m1).
  { intros j. unfold m4. rewrite rget_rset; [|by unfold m3; rewrite rset_length|vm_compute; lia].
    case_decide; [done|]. by rewrite Hg3, decide_False. }
  assert (Hm1 : x_mem m1 !! cmp = Some t) by (rewrite Hout by lia; done).
  exists (with_words m4 (<[cmp := v]> (x_mem m1))). split_and!; [| |..|exact Hc1| | | | |].
  - unfold timervec_part1. rewrite ops_app, Hops, bind_Ok_l. cbn [ops exec_op]. rewrite Ha1, Z.add_0_r, as_u_id by done.
    rewrite (load_ok m1 cmp t), !bind_Ok_l by done. fold m3. rewrite !Hg3, decide_True, decide_False, Ha2 by done. fold v. fold m4.
    rewrite !Hg4, decide_False, decide_True, Ha1, Z.add_0_r, as_u_id by done. rewrite store_ok; [done|done|eauto].
  - change (length (x_reg m4) = 32%nat). unfold m4, m3. by rewrite !rset_length.
  - change (rget X.a0 m4 = x_mscratch m). by rewrite Hg4, decide_False.
  - exact Hsc.
  - intros r Hr. change (rget r m4 = rget r m). rewrite !not_elem_of_cons in Hr. destruct Hr as (? & ? & ? & ? & Hn).
    rewrite Hg4, decide_False by done. apply Hoth. by rewrite !not_elem_of_cons.
  - intros r off Hin. cbn [x_mem with_words]. destruct (fits_elem 3 timer_saved r off eq_refl Hin) as (_ & _ & ?).
    rewrite lookup_insert_ne by lia. by apply Hsaved.
  - apply lookup_insert_eq.
  - intros a Ha Hn. cbn [x_mem with_words]. by rewrite lookup_insert_ne, Hout.
  - intros a Ha. cbn [x_mem with_words]. apply lookup_insert_is_Some'. right. by apply Hsome.
Qed.

(** From there to [mret]: the software interrupt, and the registers from the row *)
Definition timervec_part2 : list op :=
  [Li X.a1 2; Csrw Sip X.a1] ++ loads X.a0 [(X.a3, 16); (X.a2, 8); (X.a1, 0)] ++ [Csrrw X.a0 Mscratch X.a0].
Lemma timervec_last m :
  length (x_reg m) = 32%nat → block (x_mem m) (rget X.a0 m) 8 →
  ∃ m', ops timervec_part2 m = Ok m' ∧
    length (x_reg m') = 32%nat ∧ rget X.a0 m' = x_mscratch m ∧ x_mscratch m' = rget X.a0 m ∧
    x_csr m' = set_sip (x_csr m) 2 ∧ x_mem m' = x_mem m ∧
    (∀ r off v, (r, off) ∈ [(X.a3, 16); (X.a2, 8); (X.a1, 0)] → x_mem m !! (rget X.a0 m + off) = Some v → rget r m' = v) ∧
    (∀ r, r ∉ [X.a0; X.a1; X.a2; X.a3] → rget r m' = rget r m).
Proof.
  intros Hl Hb. set (m3 := with_csr (rset X.a1 2 m) (set_sip (x_csr m) 2)).
  assert (Hg3 : ∀ j, rget j m3 = if decide (j = X.a1) then 2 else rget j m).
  { intros j. change (rget j m3) with (rget j (rset X.a1 2 m)). by reg_simpl. }
  destruct (loads_block X.a0 8 [(X.a3, 16); (X.a2, 8); (X.a1, 0)] m3) as (g & Hopsl & Hgl & Hat & Hoth).
  { change (length (x_reg (rset X.a1 2 m)) = 32%nat). by rewrite rset_length. }
  { by rewrite Hg3, decide_False. }
  { reflexivity. }
  { dec_compute. }
  { intros off Hin. apply (list_elem_of_fmap_2 fst) in Hin. exfalso. revert Hin. change (X.a0 ∉ [X.a3; X.a2; X.a1]). dec_compute. }
  rewrite Hg3, decide_False in Hat by done. change (x_mem m3) with (x_mem m) in Hat.
  set (mf := rset X.a0 (x_mscratch m) (Cpu g (x_csr m3) (rget X.a0 m) (x_mhartid m) (x_mem m))).
  assert (Hgf : ∀ j, rget j mf = if decide (j = X.a0) then x_mscratch m else nth j g 0) by (intros j; unfold mf; by reg_simpl).
  exists mf. split_and!; [|by unfold mf; rewrite rset_length|by rewrite Hgf|done|done|done|..].
  - unfold timervec_part2. rewrite ops_app.
    assert (ops [Li X.a1 2; Csrw Sip X.a1] m = Ok m3) as ->.
    { cbn [ops exec_op csr_set]. rewrite !bind_Ok_l. change (as_u 64 2) with 2.
      rewrite rget_rset, decide_True by (done || vm_compute; lia). done. }
    rewrite bind_Ok_l, ops_app, Hopsl, bind_Ok_l. cbn [ops exec_op csr_get csr_set]. rewrite !bind_Ok_l.
    change (rget X.a0 (with_reg m3 g)) with (nth X.a0 g 0). rewrite Hoth by dec_compute. by rewrite Hg3, decide_False.
  - intros r off v Hin Hv. rewrite Hgf, decide_False; [by apply (Hat r off)|]. intros ->.
    apply (list_elem_of_fmap_2 fst) in Hin. revert Hin. change (X.a0 ∉ [X.a3; X.a2; X.a1]). dec_compute.
  - intros r Hr. rewrite !not_elem_of_cons in Hr. destruct Hr as (? & ? & ? & ? & Hn). rewrite Hgf, decide_False by done.
    rewrite Hoth, Hg3, decide_False; [done|done|]. change (r ∉ [X.a3; X.a2; X.a1]). by rewrite !not_elem_of_cons.
Qed.

(** The result of [timervec], with the row it leaves *)
Lemma timervec_result a1 a2 a3 row (r : mcsr) (d : RegFile) cmp :
  timer_row row cmp →
  timervec a1 a2 a3 row r d = Ok (a1, a2, a3, [a1; a2; a3] ++ drop 3 row,
    MCsr (mscratch r) (mtvec r) (mstatus_mie r) (mie_mtimer r) 2,
    mmio_write cmp (as_u 64 (reg d cmp + SCHEDULER_INTERVAL)) d).
Proof.
  intros [Hlen Hc Hi]. destruct row as [|x0 [|x1 [|x2 [|x3 [|x4 [|x5 [|x6 [|x7 [|? ?]]]]]]]]]; try done.
  cbn in Hc, Hi. injection Hc as ->. injection Hi as ->. done.
Qed.

Lemma timervec_runs link m row d cmp (r : mcsr) :
  timer_at m row d cmp →
  ∃ row' (r' : mcsr) d' m',
    timervec (rget X.a1 m) (rget X.a2 m) (rget X.a3 m) row r d =
      Ok (rget X.a1 m, rget X.a2 m, rget X.a3 m, row', r', d') ∧
    run link 16 timervec_code 0 m = Ok (ToMret, 16%nat, m') ∧ x_reg m' = x_reg m ∧ x_mscratch m' = x_mscratch m ∧
    x_csr m' = set_sip (x_csr m) (sip r') ∧ timer_at m' row' d' cmp ∧
    ∀ a, a ≠ cmp → ¬ (x_mscratch m ≤ a < x_mscratch m + 24) → x_mem m' !! a = x_mem m !! a.
Proof.
  intros Ht. destruct (timervec_first m row d cmp Ht) as (m2 & Hops & Hl2 & H2 & Hsc & Hc2 & Hother & Hsaved & Hcmp & Hout & Hsome).
  destruct Ht as [Hlen Hrow [Hb Hw] (Hca & Hcu & Hcm) Hap].
  assert (Hb2 : block (x_mem m2) (x_mscratch m) 8).
  { destruct Hb as [? ? Hk]. split; [done..|]. intros i Hi. by apply Hsome, Hk. }
  destruct (timervec_last m2) as (mf & Hopsl & Hlf & Hf0 & Hfs & Hfc & Hfm & Hat & Hoth); [done|by rewrite H2|].
  rewrite H2 in Hat, Hfs. rewrite Hsc in Hf0.
  eexists _, _, _, mf. split; [by apply timervec_result|]. split_and!.
  - rewrite (run_ops link (timervec_part1 ++ timervec_part2) _ 0 1 m mf); [done|reflexivity|].
    by rewrite ops_app, Hops, bind_Ok_l.
  - apply (nth_ext _ _ 0 0); [congruence|]. intros j _. change (rget j mf = rget j m).
    assert (Hs : ∀ off, (j, off) ∈ timer_saved → (j, off) ∈ [(X.a3, 16); (X.a2, 8); (X.a1, 0)] → rget j mf = rget j m).
    { intros off Hin Hin'. by apply (Hat j off); [|apply Hsaved]. }
    destruct (decide (j ∈ [X.a0; X.a1; X.a2; X.a3])) as [Hin|Hn]; [|by rewrite Hoth, Hother].
    rewrite !elem_of_cons in Hin. destruct Hin as [->|[->|[->|[->|Hin%not_elem_of_nil]]]]; [done| | | |done].
    + apply (Hs 0); dec_compute.
    + apply (Hs 8); dec_compute.
    + apply (Hs 16); dec_compute.
  - exact Hfs.
  - by rewrite Hfc, Hc2.
  - destruct Hrow as [Hrl Hr4 Hr5]. split; rewrite ?Hfm, ?Hfs; [done|..|done].
    + split; [by rewrite length_app, length_drop, Hrl|..]; (rewrite lookup_app_r by (cbn; lia)); by rewrite lookup_drop.
    + split; [exact Hb2|].
      intros i x Hx. destruct (decide (i < 3)%nat) as [Hi|Hi].
      * rewrite lookup_app_l in Hx by done. destruct i as [|[|[|i]]]; [| | |lia]; injection Hx as <-; apply Hsaved; dec_compute.
      * rewrite lookup_app_r, lookup_drop in Hx by (cbn; lia). cbn [length] in Hx. replace (3 + (i - 3))%nat with i in Hx by lia.
        pose proof (lookup_lt_Some _ _ _ Hx). rewrite Hout by lia. by apply Hw.
    + split_and!; [done..|]. rewrite Hcmp. f_equal. by rewrite reg_write, decide_True.
  - by rewrite Hfm.
Qed.

(** ** A timer interrupt on a kernel stack, a switch between two contexts, a trap frame *)
Definition krun0 : cpu :=
  Cpu (<[X.sp := 0x80200000]> (Z.of_nat <$> seq 0 32)) (trap_entry (2 ^ 63 + 1) 0 0x80000040 true csr0) 0 0
    (mem_of (0x80200000 - 256) (replicate 32 0)).

Lemma kernel_interrupt_transparent_witness :
  ∃ m1 c1 m3, run (λ _, 0) 33 (kernelvec_code 0x80000800) 0 krun0 = Ok (ToCall 0x80000800, 33%nat, m1) ∧
    run (λ _, 0) 32 (kernelvec_code 0x80000800) 33 (with_csr m1 c1) = Ok (ToSret 0x80000040 true, 65%nat, m3) ∧
    rget X.a0 m3 = 10 ∧ rget X.sp m3 = 0x80200000.
Proof.
  destruct (kernel_interrupt_transparent (λ _, 0) 0x80000800 3 0 [] (mkContext [1] InTrap) (Some proc0) PROCS_POOL_new
    (2 ^ 63 + 1) 0 0x80000040 csr0 no_irq csr0 (mkDevs (mkQ chip1 [] ∅) (VirtIO_new 0) 2) IntrTimer
    (mkDevs (mkQ chip1 [] ∅) (VirtIO_new 0) 0) krun0) as (m1 & c1 & Hrun & Hl & _ & _ & Hback).
  - reflexivity.
  - discriminate.
  - reflexivity.
  - done.
  - reflexivity.
  - split; vm_compute; done.
  - apply (words_block _ _ (replicate 32 0)); [apply mem_of_words|reflexivity|vm_compute; discriminate|vm_compute; discriminate].
  - reflexivity.
  - destruct (Hback (with_csr m1 c1)) as (m3 & Hrun3 & Hr & _); [by split|done|].
    exists m1, c1, m3. split_and!; [exact Hrun|exact Hrun3|..]; (rewrite Hr; [reflexivity|vm_compute; lia|discriminate]).
Defined.

Definition sregs0 : list Z := <[X.a1 := 0x80300080]> (<[X.a0 := 0x80300000]> (Z.of_nat <$> seq 0 32)).
Definition swtch0 (ws : list Z) : cpu := Cpu sregs0 csr0 0 0 (mem_of 0x80300000 (replicate 16 7 ++ ws)).

Lemma swtch_ready0 ws : length ws = 14%nat → swtch_ready (swtch0 ws) ws.
Proof.
  intros Hws. pose proof (mem_of_words 0x80300000 (replicate 16 7 ++ ws)) as Hw.
  assert (rget X.a0 (swtch0 ws) = 0x80300000 ∧ rget X.a1 (swtch0 ws) = 0x80300080) as [H0 H1] by done.
  split; rewrite ?H0, ?H1; [done|..|lia].
  - split; [done|lia|]. intros i Hi. destruct (lookup_lt_is_Some_2 (replicate 16 7 ++ ws) (Z.to_nat i)) as [x Hx].
    { rewrite length_app. cbn [length replicate]. lia. }
    exists x. replace i with (Z.of_nat (Z.to_nat i)) by lia. by apply Hw.
  - split; [done|lia|]. intros i Hi. destruct (lookup_lt_is_Some_2 ws (Z.to_nat i)) as [x Hx]; [lia|].
    exists x. replace (0x80300080 + 8 * i) with (0x80300000 + 8 * Z.of_nat (16 + Z.to_nat i)) by lia. apply Hw.
    exact Hx.
  - split; [done|]. intros i x Hx.
    replace (0x80300080 + 8 * Z.of_nat i) with (0x80300000 + 8 * Z.of_nat (16 + i)) by lia. apply Hw.
    exact Hx.
Qed.

Lemma swtch_resumes_witness :
  ∃ e m1' m2', run (λ _, 0) 29 swtch_code 0 (swtch0 (replicate 14 100)) = Ok (e, 29%nat, m1') ∧ e = ToAddr 100 ∧
    run (λ _, 0) 29 swtch_code 0 (swtch0 (callee_saved (swtch0 (replicate 14 100)))) = Ok (ToAddr 1, 29%nat, m2') ∧
    callee_saved m2' = [1; 2; 8; 9; 18; 19; 20; 21; 22; 23; 24; 25; 26; 27].
Proof.
  destruct (swtch_resumes (λ _, 0) (swtch0 (replicate 14 100)) (replicate 14 100)) as (e & m1' & H1 & [He _ _ _ _ _] & H2);
    [by apply swtch_ready0|].
  destruct (H2 (swtch0 (callee_saved (swtch0 (replicate 14 100))))) as (m2' & Hr & Hs & _); [by apply swtch_ready0|].
  exists e, m1', m2'. split_and!; [exact H1|exact He|exact Hr|exact Hs].
Defined.

Definition frame0 : TrapFrame := mkTrapFrame (Z.of_nat <$> seq 0 32) (replicate 32 0) 5 6 7 0x80000400 0x1004.
Definition trap0 : cpu :=
  Cpu (<[X.a0 := 0x3fffffe000]> (<[X.zero := 0]> (replicate 32 9))) (set_sscratch csr0 0x3fffffe000) 0 0
    (mem_of 0x3fffffe000 (frame_words frame0)).

Lemma trampoline_refines_witness :
  ∃ m1 m2, run (λ _, 0) 41 uservec_code 0 trap0 = Ok (ToAddr 0x80000400, 41%nat, m1) ∧ rget X.sp m1 = 6 ∧ rget X.tp m1 = 7 ∧
    run (λ _, 0) 36 userret_code 0 trap0 = Ok (ToSret 0 false, 36%nat, m2) ∧ x_reg m2 = Z.of_nat <$> seq 0 32.
Proof.
  assert (frame_at (x_mem trap0) 0x3fffffe000 frame0) as Hf.
  { split; [done| |apply mem_of_words]. apply (words_block _ _ (frame_words frame0)); [apply mem_of_words|done|lia|cbn; lia]. }
  destruct (trampoline_refines (λ _, 0) trap0 frame0 eq_refl eq_refl) as [Hv Hr].
  specialize (Hv Hf). specialize (Hr Hf). cbn [uservec userret] in Hv, Hr.
  destruct Hv as (m1 & H1 & Hs & Ht & _). destruct Hr as (m2 & H2 & Hg & _).
  exists m1, m2. split_and!; [exact H1|exact Hs|exact Ht|exact H2|exact Hg].
Defined.
