(* ===== verification/User.v ===== *)
(** * The user library and the calls behind it

    [user/src/syscall.rs] with the stubs of [usys.S]: a function of the library puts its
    arguments into a0, a1, ... and the number of the call into a7, and executes [ecall].
    A slice or a [str] is its address and its length; an [i32] argument is sign-extended
    into its register.  The theorems follow a call from the library through the trap and
    the kernel and back. *)

From S2P Require Import Prelude Symbols Mem Page PageTree PageOps PageUser Hart Proc Devices Uart Virtio FsFile Intr Exec Syscall SyscallIo FdTable Fork Trap.

(** ** [user/src/constant.rs] *)
Definition STDIN : Z := 0.
Definition STDOUT : Z := 1.
Definition STDERR : Z := 2.

Definition EXEC_MAX_ARGS : Z := 10.

Module Lib.
(** Arguments from register [k] on, and the stub of call [id] *)
Fixpoint put_args (k : nat) (args gpr : list Z) : list Z :=
  match args with [] => gpr | x :: args => put_args (S k) args (<[k := as_u 64 x]> gpr) end.
Definition stub (id : Z) (args gpr : list Z) : list Z := <[17%nat := id]> (put_args 10 args gpr).

Definition exit (code : Z) (gpr : list Z) : list Z := stub SYS_EXIT [code] gpr.
Definition fork (gpr : list Z) : list Z := stub SYS_FORK [] gpr.
(** The arrays of [exec] have room for ten arguments; they are at [ptrs_at] and [szs_at]. *)
Definition exec (path : Z * Z) (args : list (Z * Z)) (ptrs_at szs_at : Z) (gpr : list Z)
    : result (list Z * list Z * list Z) :=
  '(args_sz, args_ptr) ← for_range 0 (Z.of_nat (length args)) (λ i '(args_sz, args_ptr),
      '(p, n) ← aget args i;
      args_sz ← aset args_sz i (as_i 32 n);
      args_ptr ← aset args_ptr i p;
      Ok (args_sz, args_ptr))
    (replicate (Z.to_nat EXEC_MAX_ARGS) 0, replicate (Z.to_nat EXEC_MAX_ARGS) 0);
  Ok (stub SYS_EXEC [path.1; as_i 32 path.2; as_i 32 (Z.of_nat (length args)); ptrs_at; szs_at] gpr,
      args_ptr, args_sz).
Definition write (fd : Z) (content : Z * Z) (gpr : list Z) : list Z :=
  stub SYS_WRITE [fd; content.1; as_i 32 content.2] gpr.
Definition read (fd : Z) (content : Z * Z) (gpr : list Z) : list Z :=
  stub SYS_READ [fd; content.1; as_i 32 content.2] gpr.
Definition open (path : Z * Z) (mode : Z) (gpr : list Z) : list Z :=
  stub SYS_OPEN [path.1; as_i 32 path.2; mode] gpr.
Definition close (fd : Z) (gpr : list Z) : list Z := stub SYS_CLOSE [fd] gpr.
Definition dup (fd : Z) (gpr : list Z) : list Z := stub SYS_DUP [fd] gpr.
Definition wait (pid : Z) (gpr : list Z) : list Z := stub SYS_WAIT [pid] gpr.

(** [StdIO::write_str] of [user/src/print.rs] *)
Definition write_str (out : Z * Z) (gpr : list Z) : list Z := write 1 out gpr.
End Lib.

(** ** What the kernel finds in the registers *)
Lemma put_args_length k args : ∀ gpr, length (Lib.put_args k args gpr) = length gpr.
Proof. revert k. induction args as [|x args IH]; intros k gpr; cbn; [done|]. by rewrite IH, length_insert. Qed.

Lemma put_args_below k args : ∀ gpr j, (j < k)%nat → Lib.put_args k args gpr !! j = gpr !! j.
Proof.
  revert k. induction args as [|x args IH]; intros k gpr j Hj; cbn; [done|].
  rewrite IH by lia. by rewrite list_lookup_insert_ne by lia.
Qed.

Lemma put_args_at k args : ∀ gpr i x, (k + length args ≤ length gpr)%nat → args !! i = Some x →
  Lib.put_args k args gpr !! (k + i)%nat = Some (as_u 64 x).
Proof.
  revert k. induction args as [|y args IH]; intros k gpr i x Hk Hi; [done|]. cbn in *. destruct i as [|i].
  - injection Hi as ->. rewrite Nat.add_0_r, put_args_below by lia. apply list_lookup_insert_eq. lia.
  - replace (k + S i)%nat with (S k + i)%nat by lia. apply IH; [rewrite length_insert; lia|done].
Qed.

(** A frame that holds the registers of a stub *)
Definition in_frame (rs gpr : list Z) : Prop := ∀ i, (1 ≤ i)%nat → rs !! i = gpr !! i.

Lemma stub_args tf id args gpr :
  length gpr = 32%nat → (length args ≤ 6)%nat → in_frame (regs tf) (Lib.stub id args gpr) →
  aget (regs tf) Register.a7 = Ok id ∧
  ∀ i x, args !! i = Some x → argraw tf (Z.of_nat i) = Ok (as_u 64 x).
Proof.
  intros Hl Ha Hf. unfold Lib.stub in Hf. split.
  - apply aget_eq; [done|]. rewrite Hf by (vm_compute; lia). apply list_lookup_insert_eq. rewrite put_args_length. vm_compute in Hl |- *. lia.
  - intros i x Hi. pose proof (lookup_lt_Some _ _ _ Hi) as Hlt.
    assert (regs tf !! (10 + i)%nat = Some (as_u 64 x)) as Hr.
    { rewrite Hf by lia. rewrite list_lookup_insert_ne by lia. apply put_args_at; [lia|done]. }
    assert (Hget : aget (regs tf) (10 + Z.of_nat i) = Ok (as_u 64 x)).
    { apply aget_eq; [lia|]. replace (Z.to_nat (10 + Z.of_nat i)) with (10 + i)%nat by lia. exact Hr. }
    do 6 (destruct i as [|i]; [exact Hget|]). lia.
Qed.

Lemma as_u_i32 n : 0 ≤ n < 2 ^ 31 → as_u 64 (as_i 32 n) = n.
Proof. intros Hn. rewrite as_i_id by lia. apply as_u_id; [unfold is_u|]; lia. Qed.

(** ** A write of the library, end to end *)
Section write.
Context {A BD MD : Type} `{GlobalAlloc A} `{BlockDevice BD} `{Mmio MD} `{!Ns16550 MD UART_BASE_ADDR}.
Context (ts : trap_syms) (sym : linker_symbols) (forkret vio_at arc_size : Z) (fuel : nat).
Implicit Types k : kst A BD MD.
Local Notation tx := (tx (base := UART_BASE_ADDR)).
Local Notation dlab := (dlab (base := UART_BASE_ADDR)).

(** Descriptor [fd] of the process names the file [f]. *)
Definition names_file k (fd : Z) (f : File) : Prop :=
  ∃ a n, aget (files (k_proc k)) fd = Ok (Some a) ∧ k_arcs k !! a = Some (f, n).

(** The trap frame while the kernel runs a call made at [pc] *)
Definition call_frame k (gpr : list Z) (pc : Z) : TrapFrame :=
  set_tf_epc (set_regs (trapframe (k_proc k)) (take 1 (regs (trapframe (k_proc k))) ++ drop 1 gpr)) (pc + 4).

Lemma call_frame_args k gpr pc id args :
  length gpr = 32%nat → (length args ≤ 6)%nat → (1 ≤ length (regs (trapframe (k_proc k))))%nat →
  let tf := call_frame k (Lib.stub id args gpr) pc in
  aget (regs tf) Register.a7 = Ok id ∧ ∀ i x, args !! i = Some x → argraw tf (Z.of_nat i) = Ok (as_u 64 x).
Proof. intros Hl Ha Hr tf. eapply stub_args; [done..|]. intros i Hi. by apply frame_lookup. Qed.

Lemma stub_length id args gpr : length (Lib.stub id args gpr) = length gpr.
Proof. unfold Lib.stub. by rewrite length_insert, put_args_length. Qed.

Lemma stub_zero id args gpr : Lib.stub id args gpr !! 0%nat = gpr !! 0%nat.
Proof. unfold Lib.stub. rewrite list_lookup_insert_ne by lia. apply put_args_below. lia. Qed.

(** C31: the library's write to a console descriptor of a buffer of at most 1024 bytes
    that is mapped and ends strictly before the end of its page, on an initialised
    UART, followed from the stub through the trap, the dispatch, the translation of
    the pointer and the UART and back: exactly the bytes of the buffer are
    transmitted, memory is unchanged, and the program goes on behind the ecall with
    the number of bytes in a0 and its other registers, on whichever hart. *)
Theorem write_prints h procs tval pc gpr c k v fd ptr n pg data :
  (thr_bound (D := MD) (base := UART_BASE_ADDR) < fuel)%nat →
  trap_layout ts sym (k_proc k) → length gpr = 32%nat → gpr !! 0%nat = Some 0 →
  (1 ≤ length (regs (trapframe (k_proc k))))%nat → 0 ≤ pc < 2 ^ 64 - 4 → 0 ≤ fd < 256 → n ≤ BSIZE →
  user_buffer (k_mem k) (pgtable (k_proc k)) ptr n pg data →
  names_file k fd (Device Console) → dlab (k_dev k) = false →
  ∃ c1 k1, from_user ts sym forkret vio_at arc_size fuel h procs 8 tval pc (Lib.write fd (ptr, n) gpr) c k v = Ok (UReturn c1 k1 v) ∧
    tx (k_dev k1) = tx (k_dev k) ++ buf_bytes data ptr n ∧ k_mem k1 = k_mem k ∧
    ∀ h' c' p', resumed (k_proc k1) p' →
    ∃ c3 p3 satp fn, usertrapret ts sym h' c' p' = Ok (c3, p3, satp, fn) ∧
      in_user ts sym (<[10%nat := n]> (Lib.write fd (ptr, n) gpr)) (pc + 4) (pgtable (k_proc k)) (kstack_sp (k_proc k)) h' (c_satp c')
        (userret TRAPFRAME_START satp (trapframe p3) c3) (trapframe p3) fn.
Proof.
  intros Hfuel Hl Hlen Hz Hr Hpc Hfd Hn Hb (a & cnt & Hf & Harc) Hd.
  destruct (call_frame_args k gpr pc SYS_WRITE [fd; ptr; as_i 32 n] Hlen ltac:(cbn; lia) Hr) as [Ha7 Hargs].
  assert (Hn0 : 0 ≤ n ∧ n ≤ 1024) by (destruct Hb as [_ _ [? _] _ _]; unfold BSIZE in Hn; lia).
  set (tf := call_frame k (Lib.write fd (ptr, n) gpr) pc). change (aget (regs tf) Register.a7 = Ok SYS_WRITE) in Ha7.
  assert (io_call (with_tf k tf) (Device Console) fd ptr n pg data) as Hio.
  { split; [..|exact Hb|by exists a, cnt]; cbn [k_proc with_tf with_proc trapframe set_trapframe].
    - etransitivity; [exact (Hargs 0%nat fd eq_refl)|]. f_equal. apply as_u_id; [unfold is_u|]; lia.
    - etransitivity; [exact (Hargs 1%nat ptr eq_refl)|]. f_equal. destruct Hb as [_ ? _ _ _]. apply as_u_id; [unfold is_u|]; lia.
    - split; [|done]. etransitivity; [exact (Hargs 2%nat _ eq_refl)|]. f_equal. apply as_u_i32. lia. }
  destruct (write_console fuel (with_tf k tf) fd ptr n pg data Hfuel Hio Hd) as (d' & Hrun & Htx & _).
  assert (syscall sym forkret vio_at arc_size fuel (with_tf k tf) = Ok (Returns n (with_dev (with_tf k tf) d'))) as Hsys.
  { unfold syscall. cbn [k_proc with_tf with_proc trapframe set_trapframe]. rewrite Ha7, bind_Ok_l.
    change (as_i 64 SYS_WRITE =? SYS_WRITE) with true. cbn iota. unfold returns. by rewrite Hrun. }
  destruct (syscall_returns ts sym forkret vio_at arc_size fuel h procs tval pc (Lib.write fd (ptr, n) gpr) c k v SYS_WRITE n
    (with_dev (with_tf k tf) d')) as (c1 & k1 & Hrun1 & Hm & Hdv & Hback).
  - done.
  - by rewrite <- Hlen; apply stub_length.
  - unfold Lib.write. by rewrite stub_zero.
  - done.
  - done.
  - apply aget_Ok in Ha7 as [_ Ha7]. unfold tf, call_frame in Ha7. cbn [regs set_tf_epc set_regs] in Ha7.
    rewrite frame_lookup in Ha7 by (done || (vm_compute; lia)). exact Ha7.
  - vm_compute. discriminate.
  - exact Hsys.
  - exists c1, k1. split_and!; [exact Hrun1|rewrite Hdv; exact Htx|exact Hm|].
    rewrite as_u_id in Hback by (unfold is_u; lia). exact Hback.
Qed.
End write.

(** ** The start of [init]: [open("/console", 0); dup(0); dup(0)] *)
Section init.
Context {A BD MD : Type} `{GlobalAllocLaws A} `{BlockDevice BD} `{Mmio MD}.
Context (arc_size : Z) (Harc : 0 < arc_size ≤ PAGE_SIZE) (others : list (list (option Z))).
Context (sym : linker_symbols) (forkret vio_at : Z) (fuel : nat).
Implicit Types k : kst A BD MD.

(** A call of the process with registers [gpr]; [pc] is where its [ecall] is. *)
Definition do_call (gpr : list Z) (pc : Z) k : result (outcome (kst A BD MD)) :=
  syscall sym forkret vio_at arc_size fuel (with_tf k (call_frame k gpr pc)).

Lemma dispatch k id : aget (regs (trapframe (k_proc k))) Register.a7 = Ok id →
  (id = SYS_OPEN → syscall sym forkret vio_at arc_size fuel k = returns (sys_open arc_size k)) ∧
  (id = SYS_DUP → syscall sym forkret vio_at arc_size fuel k = returns (sys_dup k)).
Proof using. intros Ha. split; intros ->; unfold syscall; rewrite Ha, bind_Ok_l; reflexivity. Qed.

Lemma with_tf_inv k tf : fd_inv others k → fd_inv others (with_tf k tf).
Proof using. intros Hi. by eapply fd_inv_same. Qed.

Lemma open_console k gpr pc ptr pg data a m :
  fd_inv others k → files (k_proc k) = replicate 256 None → length gpr = 32%nat →
  (1 ≤ length (regs (trapframe (k_proc k))))%nat →
  user_buffer (k_mem k) (pgtable (k_proc k)) ptr 8 pg data → buf_bytes data ptr 8 = bytes "/console" →
  alloc_bytes arc_size (k_mem k) = Ok (a, m) →
  ∃ k1, do_call (Lib.open (ptr, 8) 0 gpr) pc k = Ok (Returns 0 k1) ∧ fd_inv others k1 ∧
    files (k_proc k1) = <[0%nat := Some a]> (replicate 256 None) ∧
    k_arcs k1 !! a = Some (Device Console, 1) ∧ regs (trapframe (k_proc k1)) = regs (call_frame k (Lib.open (ptr, 8) 0 gpr) pc).
Proof using Harc.
  intros Hi Hfs Hl Hr Hb Hpath Hal.
  destruct (call_frame_args k gpr pc SYS_OPEN [ptr; as_i 32 8; 0] Hl ltac:(cbn; lia) Hr) as [Ha7 Hargs].
  set (tf := call_frame k (Lib.open (ptr, 8) 0 gpr) pc). change (aget (regs tf) Register.a7 = Ok SYS_OPEN) in Ha7.
  pose proof (Hargs 0%nat ptr eq_refl : argraw tf 0 = Ok (as_u 64 ptr)) as H0'.
  pose proof (Hargs 1%nat _ eq_refl : argraw tf 1 = Ok 8) as H1'.
  pose proof (Hargs 2%nat 0 eq_refl : argraw tf 2 = Ok 0) as H2'.
  rewrite as_u_id in H0' by (destruct Hb as [_ ? _ _ _]; unfold is_u; lia).
  destruct (buffer_ptr _ _ _ _ _ _ tf 0 Hb H0') as [Hptr Hpg].
  assert (sys_open arc_size (with_tf k tf) = Ok (0, with_proc (with_arcs (with_mem (with_tf k tf) m)
    (<[a := (Device Console, 1)]> (k_arcs k))) (set_files (<[0%nat := Some a]> (replicate 256 None)) (k_proc (with_tf k tf))))) as Hrun.
  { unfold sys_open. cbn [k_proc with_tf with_proc trapframe set_trapframe pgtable files k_mem].
    unfold arg_uint. rewrite H1', H2', !bind_Ok_l. change (as_i 32 8) with 8. change (as_i 32 0) with 0.
    change (8 <? 0) with false. change (0 <? 0) with false. cbn [panic_if]. rewrite !bind_Ok_l, Hptr, bind_Ok_l.
    rewrite (buffer_read _ _ _ _ _ _ Hb Hpg), bind_Ok_l, Hpath. change (from_utf8 (bytes "/console")) with true.
    cbn [negb panic_if]. rewrite bind_Ok_l, Hfs, (next_available_spec (replicate 256 None) 0 eq_refl ltac:(lia)), bind_Ok_l.
    rewrite bool_decide_true by done. unfold arc_new. cbn [k_mem with_tf with_proc]. rewrite Hal, !bind_Ok_l.
    unfold assign_file. cbn [k_proc with_arcs with_mem with_tf with_proc files set_trapframe]. rewrite Hfs. reflexivity. }
  eexists. split; [|split_and!].
  - unfold do_call. fold tf. rewrite (proj1 (dispatch (with_tf k tf) _ Ha7) eq_refl). unfold returns. rewrite Hrun. reflexivity.
  - eapply (sys_open_inv arc_size Harc others); [|exact Hrun]. by apply with_tf_inv.
  - done.
  - cbn. apply lookup_insert_eq.
  - done.
Qed.

Lemma dup_console k gpr pc a n j :
  fd_inv others k → length gpr = 32%nat → (1 ≤ length (regs (trapframe (k_proc k))))%nat →
  files (k_proc k) !! 0%nat = Some (Some a) → k_arcs k !! a = Some (Device Console, n) → n < 2 ^ 62 →
  files (k_proc k) !! j = Some None → (∀ i, (i < j)%nat → ∃ b, files (k_proc k) !! i = Some (Some b)) →
  ∃ k1, do_call (Lib.dup 0 gpr) pc k = Ok (Returns (Z.of_nat j) k1) ∧ fd_inv others k1 ∧
    files (k_proc k1) = <[j := Some a]> (files (k_proc k)) ∧ k_arcs k1 !! a = Some (Device Console, n + 1) ∧
    regs (trapframe (k_proc k1)) = regs (call_frame k (Lib.dup 0 gpr) pc).
Proof using.
  intros Hi Hl Hr Hf Ha Hn Hj Hlt.
  destruct (call_frame_args k gpr pc SYS_DUP [0] Hl ltac:(cbn; lia) Hr) as [Ha7 Hargs].
  set (tf := call_frame k (Lib.dup 0 gpr) pc). change (aget (regs tf) Register.a7 = Ok SYS_DUP) in Ha7.
  pose proof (Hargs 0%nat 0 eq_refl : argraw tf 0 = Ok 0) as H0'.
  destruct (dup_shares_file others (with_tf k tf) 0 a (Device Console) n j) as (k1 & Hrun & Hfs & Hk & _);
    [by apply with_tf_inv|exact H0'|lia|exact Hf|exact Ha|done|exact Hj|exact Hlt|].
  exists k1. split_and!.
  - unfold do_call. fold tf. rewrite (proj2 (dispatch (with_tf k tf) _ Ha7) eq_refl). unfold returns. by rewrite Hrun.
  - eapply (sys_dup_inv others); [|exact Hrun]. by apply with_tf_inv.
  - exact Hfs.
  - rewrite Hk. apply lookup_insert_eq.
  - by destruct (sys_dup_frame _ _ _ Hrun) as (_ & -> & _).
Qed.

(** The start of init, open of /console and two dups in a process without open files,
    returns 0, 1 and 2, and then standard input, output and error name one console
    whose reference count is three, and no other descriptor is open. *)
Theorem init_opens_console k g1 g2 g3 pc ptr pg data a m :
  fd_inv others k → files (k_proc k) = replicate 256 None → Forall (λ g : list Z, length g = 32%nat) [g1; g2; g3] →
  (1 ≤ length (regs (trapframe (k_proc k))))%nat →
  user_buffer (k_mem k) (pgtable (k_proc k)) ptr 8 pg data → buf_bytes data ptr 8 = bytes "/console" →
  alloc_bytes arc_size (k_mem k) = Ok (a, m) →
  ∃ k1 k2 k3, do_call (Lib.open (ptr, 8) 0 g1) pc k = Ok (Returns STDIN k1) ∧
    do_call (Lib.dup 0 g2) pc k1 = Ok (Returns STDOUT k2) ∧ do_call (Lib.dup 0 g3) pc k2 = Ok (Returns STDERR k3) ∧
    fd_inv others k3 ∧ k_arcs k3 !! a = Some (Device Console, 3) ∧
    (∀ fd, fd ∈ [STDIN; STDOUT; STDERR] → names_file k3 fd (Device Console)) ∧
    ∀ i, (3 ≤ i < 256)%nat → files (k_proc k3) !! i = Some None.
Proof using Harc.
  intros Hi Hfs Hg Hr Hb Hpath Hal. rewrite !list.Forall_cons in Hg. destruct Hg as (Hg1 & Hg2 & Hg3 & _).
  assert (Hlen : ∀ rs g id args, (1 ≤ length rs)%nat → (1 ≤ length (take 1 rs ++ drop 1 (Lib.stub id args g)))%nat).
  { intros [|y rs] *; cbn; lia. }
  destruct (open_console k g1 pc ptr pg data a m Hi Hfs Hg1 Hr Hb Hpath Hal) as (k1 & Hk1 & Hi1 & Hf1 & Ha1 & Hr1).
  assert (1 ≤ length (regs (trapframe (k_proc k1))))%nat as Hl1 by (rewrite Hr1; apply Hlen; done).
  destruct (dup_console k1 g2 pc a 1 1 Hi1 Hg2 Hl1) as (k2 & Hk2 & Hi2 & Hf2 & Ha2 & Hr2);
    [by rewrite Hf1|done|lia|by rewrite Hf1|intros i Hlt; assert (i = 0%nat) as -> by lia; rewrite Hf1; by exists a|].
  assert (1 ≤ length (regs (trapframe (k_proc k2))))%nat as Hl2 by (rewrite Hr2; apply Hlen; done).
  rewrite Hf1 in Hf2.
  destruct (dup_console k2 g3 pc a 2 2 Hi2 Hg3 Hl2) as (k3 & Hk3 & Hi3 & Hf3 & Ha3 & _);
    [by rewrite Hf2|done|lia|by rewrite Hf2|intros i Hlt; rewrite Hf2; exists a; by destruct i as [|[|i]]; [..|lia]|].
  rewrite Hf2 in Hf3. exists k1, k2, k3. split_and!; [done..| |].
  - intros fd Hfd. exists a, 3. rewrite !elem_of_cons, elem_of_nil in Hfd. rewrite Hf3.
    destruct Hfd as [->|[->|[->|[]]]]; (split; [reflexivity|done]).
  - intros i Hrange. rewrite Hf3, !list_lookup_insert_ne by lia. apply lookup_replicate. split; [done|lia].
Qed.
End init.

(** ** A process with [/console] in its page *)
Definition console_page : list Z := bytes "/console" ++ replicate 4088 0.
Definition mem_console : kmem Allocator := fill_page upage console_page ptu.
Definition kst_init : kst Allocator (gmap Z (list Z)) Chip :=
  KSt proc0 mem_console disk0 chip1 ∅ PROCS_POOL_new.

Lemma console_buffer n : 0 ≤ n < 4096 → user_buffer mem_console root0 0x1000 n upage console_page.
Proof.
  intros Hn. destruct ptu_page as [Hm Hp]. destruct ptu_inv as (B & [_ Hw _] & _).
  assert (kept (frames ptu) (frames mem_console) (fp 2 (frames ptu) root0)) as Hk.
  { intros x es _ Hx. unfold mem_console, fill_page, entries in *. cbn [frames].
    rewrite lookup_insert_ne; [done|]. intros <-. by rewrite Hp in Hx. }
  destruct (tree_wf_frame 2 _ _ root0 Hw Hk) as [Hw' Hlf]. split.
  - exact Hw'.
  - lia.
  - change (0x1000 mod PAGE_SIZE) with 0. layout. lia.
  - eexists. split; [unfold page_map; rewrite Hlf; exact Hm|vm_compute; reflexivity].
  - split; [apply lookup_insert_eq|reflexivity].
Qed.

Lemma kst_init_inv : fd_inv [] kst_init.
Proof.
  destruct ptu_inv as (B & [Ho _ _] & _). split; [|reflexivity|].
  - intros a. unfold tables. cbn [k_arcs k_proc k_pool kst_init]. rewrite lookup_empty. rewrite app_nil_r. cbn [refs].
    assert (refs a (pool_tables PROCS_POOL_new) = 0%nat) as -> by reflexivity.
    assert (∀ n, refs_in a (replicate n None) = 0%nat) as Hn by (induction n as [|n IH]; [done|exact IH]).
    change (files proc0) with (replicate 256 (@None Z)). by rewrite Hn.
  - exists B. split; [exact Ho|]. intros a [x Hx]. cbn [k_arcs kst_init] in Hx. by rewrite lookup_empty in Hx.
Qed.

Lemma console_bytes : buf_bytes console_page 0x1000 8 = bytes "/console".
Proof. vm_compute. reflexivity. Qed.

Lemma init_opens_console_witness :
  ∃ a k1 k2 k3, do_call 64 link0 0 0x80300000 3 (Lib.open (0x1000, 8) 0 (replicate 32 0)) 0 kst_init = Ok (Returns 0 k1) ∧
    do_call 64 link0 0 0x80300000 3 (Lib.dup 0 (replicate 32 0)) 0 k1 = Ok (Returns 1 k2) ∧
    do_call 64 link0 0 0x80300000 3 (Lib.dup 0 (replicate 32 0)) 0 k2 = Ok (Returns 2 k3) ∧
    k_arcs k3 !! a = Some (Device Console, 3).
Proof.
  destruct (is_ok_Ok (alloc_bytes 64 mem_console)) as [[a m] Hal]; [vm_compute; reflexivity|].
  destruct (init_opens_console (MD := Chip) 64 ltac:(split; vm_compute; done) [] link0 0 0x80300000 3 kst_init
    (replicate 32 0) (replicate 32 0) (replicate 32 0) 0 0x1000 upage console_page a m) as (k1 & k2 & k3 & E1 & E2 & E3 & _ & E4 & _);
    [apply kst_init_inv|reflexivity|repeat constructor; reflexivity|exact (Nat.lt_0_succ 31)|apply console_buffer; lia|exact console_bytes|exact Hal|].
  exists a, k1, k2, k3. split_and!; [exact E1|exact E2|exact E3|exact E4].
Defined.

Definition kst_user : kst Allocator (gmap Z (list Z)) Chip :=
  KSt (set_files (<[1%nat := Some 0x9000]> (replicate 256 None)) proc0) mem_console disk0 chip1
    {[0x9000 := (Device Console, 1)]} PROCS_POOL_new.

Lemma write_prints_witness :
  ∃ c1 k1, from_user ts0 link0 0 0x80300000 64 3 0 [] 8 0 0x1004 (Lib.write STDOUT (0x1000, 8) (replicate 32 0)) csr0 kst_user (VirtIO_new 0)
      = Ok (UReturn c1 k1 (VirtIO_new 0)) ∧ c_tx (k_dev k1) = bytes "/console".
Proof.
  pose proof (le_n 3 : (thr_bound (D := Chip) (base := UART_BASE_ADDR) < 3)%nat) as Hf.
  destruct (write_prints (MD := Chip) ts0 link0 0 0x80300000 64 3 0 [] 0 0x1004 (replicate 32 0) csr0 kst_user (VirtIO_new 0)
    STDOUT 0x1000 8 upage console_page Hf) as (c1 & k1 & E1 & E2 & _);
    [split; vm_compute; done|reflexivity|reflexivity|cbn; lia|lia|unfold STDOUT; lia|unfold BSIZE; lia|
     by apply console_buffer|exists 0x9000, 1; split; [reflexivity|by apply lookup_singleton_eq]|reflexivity|].
  exists c1, k1. split; [exact E1|exact E2].
Defined.
