(* ===== verification/Start.v ===== *)
(** * The first code: [_start] on every hart, and [initcode] in the first process

    [asm/boot.S] clears .bss and gives every hart a stack; [user/src/initcode.S], in the
    page that [init_proc] maps at address 0, asks the kernel for [/init]. *)

From S2P Require Import Prelude Symbols Mem Page PageTree PageOps PageUser Hart Proc Devices Uart Virtio FsFile Intr Exec Syscall SyscallIo FdTable Fork InitProc Trap Asm User.

Implicit Types (mc : cpu).

(** ** [_start] *)
Section start.
Context (link : nat → Z) (bs be st kinit : Z).
Local Notation code := (start_code bs be st kinit).

(** The number of 8-byte words from [bs] to [be], the last one maybe shared *)
Definition bss_words : Z := (be - bs + 7) / 8.

Lemma bss_words_spec k : bs ≤ be → (bs + 8 * k < be ↔ k < bss_words).
Proof.
  intros Hle. unfold bss_words. pose proof (Z.div_mod (be - bs + 7) 8 ltac:(done)).
  pose proof (Z.mod_pos_bound (be - bs + 7) 8 ltac:(done)). lia.
Qed.

(** In the loop, before the store to word [k] *)
Record clearing mc (k : Z) : Prop := {
  cl_regs : length (x_reg mc) = 32%nat ∧ rget X.zero mc = 0;
  cl_a0 : rget X.a0 mc = bs + 8 * k;
  cl_a1 : rget X.a1 mc = be;
  cl_block : block (x_mem mc) bs bss_words;
}.

Hypothesis (Hbs : 0 ≤ bs ≤ be) (Hbe : be + 8 < 2 ^ 64).

Lemma bss_range k : k < bss_words → bs + 8 * k + 8 < 2 ^ 64.
Proof using Hbs Hbe. intros Hk. apply bss_words_spec in Hk; lia. Qed.

(** One round *)
Lemma clear_round n mc k :
  clearing mc k → 0 ≤ k < bss_words →
  ∃ mc', run link (3 + n) code 3 mc = run link n code (if k + 1 <? bss_words then 3 else 6) mc' ∧
    clearing mc' (k + 1) ∧ x_mem mc' = <[bs + 8 * k := 0]> (x_mem mc) ∧ x_mhartid mc' = x_mhartid mc.
Proof using Hbs Hbe.
  intros [[Hl Hz] H0 H1 Hb] Hk. pose proof (bss_range k (proj2 Hk)) as Hr.
  set (mc1 := with_words mc (<[bs + 8 * k := 0]> (x_mem mc))). set (mc2 := rset X.a0 (bs + 8 * (k + 1)) mc1).
  assert (Hg : ∀ j, rget j mc2 = if decide (j = X.a0) then bs + 8 * (k + 1) else rget j mc) by (intros j; unfold mc2; by reg_simpl).
  exists mc2. split_and!; [|split; rewrite ?Hg|done|done].
  - cbn [run Nat.add lookup list_lookup start_code]. cbn [exec_op].
    rewrite H0, Z.add_0_r, as_u_id by (done || unfold is_u; lia). rewrite store_ok.
    + rewrite Hz, bind_Ok_l. fold mc1. change (rget X.a0 mc1) with (rget X.a0 mc). rewrite H0, as_u_id by (done || unfold is_u; lia).
      replace (bs + 8 * k + 8) with (bs + 8 * (k + 1)) by lia. rewrite bind_Ok_l. fold mc2. rewrite !Hg.
      cbn [decide]. rewrite decide_True, decide_False, H1 by done.
      assert ((bs + 8 * (k + 1) <? be) = (k + 1 <? bss_words)) as ->; [|done].
      apply eq_true_iff_eq. rewrite !Z.ltb_lt. apply bss_words_spec. lia.
    + destruct Hb as [Ha _ _]. apply Z.mod_divide in Ha as [q ->]; [|done].
      replace (q * 8 + 8 * k) with ((q + k) * 8) by lia. by apply Z.mod_mul.
    + by apply Hb.
  - split; [by unfold mc2; rewrite rset_length|by rewrite decide_False].
  - by rewrite decide_True.
  - by rewrite decide_False.
  - destruct Hb as [? ? Hk']. split; [done..|]. intros i Hi. cbn [x_mem mc2 rset with_reg mc1 with_words].
    apply lookup_insert_is_Some'. right. by apply Hk'.
Qed.

(** The loop: [n] words are left *)
Lemma clear_loop fuel n : ∀ mc k,
  clearing mc k → 0 ≤ k → k + Z.of_nat (S n) = bss_words →
  ∃ mc', run link (3 * S n + fuel) code 3 mc = run link fuel code 6 mc' ∧ length (x_reg mc') = 32%nat ∧
    x_mhartid mc' = x_mhartid mc ∧ (∀ i, k ≤ i < bss_words → x_mem mc' !! (bs + 8 * i) = Some 0) ∧
    ∀ a, ¬ (bs + 8 * k ≤ a < bs + 8 * bss_words) → x_mem mc' !! a = x_mem mc !! a.
Proof using Hbs Hbe.
  induction n as [|n IH]; intros mc k Hc Hk Hn.
  - destruct (clear_round fuel mc k Hc) as (mc' & Hr & [[Hl _] _ _ _] & Hm & Hh); [lia|]. exists mc'.
    replace (3 * 1 + fuel)%nat with (3 + fuel)%nat by lia. rewrite Hr. destruct (Z.ltb_spec (k + 1) bss_words); [lia|].
    split_and!; [done..| |].
    + intros i Hi. assert (i = k) as -> by lia. rewrite Hm. apply lookup_insert_eq.
    + intros a Ha. rewrite Hm. rewrite lookup_insert_ne by lia. done.
  - destruct (clear_round (3 * S n + fuel) mc k Hc) as (mc1 & Hr & Hc1 & Hm & Hh); [lia|].
    replace (3 * S (S n) + fuel)%nat with (3 + (3 * S n + fuel))%nat by lia. rewrite Hr.
    destruct (Z.ltb_spec (k + 1) bss_words); [|lia].
    destruct (IH mc1 (k + 1) Hc1 ltac:(lia) ltac:(lia)) as (mc' & Hr' & Hl' & Hh' & Hz & Ho). exists mc'.
    split_and!; [done..|congruence| |].
    + intros i Hi. destruct (decide (i = k)) as [->|]; [|apply Hz; lia]. rewrite Ho by lia. rewrite Hm. apply lookup_insert_eq.
    + intros a Ha. rewrite Ho by lia. rewrite Hm. rewrite lookup_insert_ne by lia. done.
Qed.

(** From the label [2] on: the stack of the hart *)
Lemma start_stack mc :
  length (x_reg mc) = 32%nat → is_usize st → 0 ≤ x_mhartid mc → st + 0x10000 * (x_mhartid mc + 1) < 2 ^ 64 →
  ∃ mc', run link 7 code 6 mc = Ok (ToCall kinit, 13%nat, mc') ∧
    rget X.sp mc' = st + 0x10000 * (x_mhartid mc + 1) ∧ x_mem mc' = x_mem mc ∧ length (x_reg mc') = 32%nat.
Proof using.
  intros Hl Hst Hh Hb. set (h := x_mhartid mc) in *. unfold is_u in Hst.
  set (l := [Li X.sp st; Li X.a0 0x10000; Csrr X.a1 Mhartid; Addi X.a1 X.a1 1; Mul X.a0 X.a0 X.a1; Add X.sp X.sp X.a0]).
  set (m1 := rset X.a1 h (rset X.a0 0x10000 (rset X.sp st mc))).
  set (m2 := rset X.a0 (0x10000 * (h + 1)) (rset X.a1 (h + 1) m1)).
  assert (Hl1 : length (x_reg m1) = 32%nat) by (unfold m1; by rewrite !rset_length).
  assert (Hg1 : rget X.a1 m1 = h ∧ rget X.a0 m1 = 0x10000 ∧ rget X.sp m1 = st) by (unfold m1; split_and!; by reg_simpl).
  destruct Hg1 as (G1 & G0 & Gs).
  assert (Hops : ops l mc = Ok (rset X.sp (st + 0x10000 * (h + 1)) m2)).
  { unfold l. cbn [ops exec_op csr_get]. rewrite !bind_Ok_l. rewrite (as_u_id 64 st) by (done || unfold is_u; lia).
    change (as_u 64 65536) with 65536. change (x_mhartid (rset _ _ _)) with h. fold m1. rewrite G1, (as_u_id 64 (h + 1)) by (done || unfold is_u; lia).
    assert (Hr : rget X.a0 (rset X.a1 (h + 1) m1) = 0x10000 ∧ rget X.a1 (rset X.a1 (h + 1) m1) = h + 1) by (split; by reg_simpl).
    destruct Hr as [-> ->]. rewrite (as_u_id 64 (65536 * (h + 1))) by (done || unfold is_u; lia). fold m2.
    assert (Hr : rget X.sp m2 = st ∧ rget X.a0 m2 = 0x10000 * (h + 1)) by (unfold m2; split; by reg_simpl).
    destruct Hr as [-> ->]. by rewrite as_u_id by (done || unfold is_u; lia). }
  eexists. split_and!.
  - etransitivity; [exact (run_ops link l code 6 1 mc _ eq_refl Hops)|reflexivity].
  - rewrite rget_rset; [|by unfold m2; rewrite !rset_length|vm_compute; lia]. rewrite decide_False by done. unfold m2. by reg_simpl.
  - done.
  - unfold m2. by rewrite !rset_length.
Qed.

(** C26: _start on any hart comes to the call of kinit within ten instructions and three
    for every word of .bss, with every word of .bss zero, whatever was there, no other
    memory written, and the stack pointer at the top of the 64 KiB of that hart. *)
Theorem start_clears_bss mc :
  length (x_reg mc) = 32%nat → rget X.zero mc = 0 → block (x_mem mc) bs bss_words →
  is_usize st → 0 ≤ x_mhartid mc → st + 0x10000 * (x_mhartid mc + 1) < 2 ^ 64 →
  ∃ mc', run link (3 * Z.to_nat bss_words + 10) code 0 mc = Ok (ToCall kinit, 13%nat, mc') ∧
    rget X.sp mc' = st + 0x10000 * (x_mhartid mc + 1) ∧
    (∀ i, 0 ≤ i < bss_words → x_mem mc' !! (bs + 8 * i) = Some 0) ∧
    ∀ a, ¬ (bs ≤ a < bs + 8 * bss_words) → x_mem mc' !! a = x_mem mc !! a.
Proof using Hbs Hbe.
  intros Hl Hz Hb Hst Hh Htop. set (m1 := rset X.a1 be (rset X.a0 bs mc)).
  assert (Hg : rget X.a0 m1 = bs ∧ rget X.a1 m1 = be ∧ rget X.zero m1 = rget X.zero mc) by (unfold m1; split_and!; by reg_simpl).
  destruct Hg as (G0 & G1 & Gz). assert (Hl1 : length (x_reg m1) = 32%nat) by (unfold m1; by rewrite !rset_length).
  assert (Hstart : ∀ n, run link (3 + n) code 0 mc = run link n code (if bss_words =? 0 then 6 else 3) m1).
  { intros n. cbn [run Nat.add lookup list_lookup start_code exec_op].
    rewrite (as_u_id 64 bs), (as_u_id 64 be) by (done || unfold is_u; lia). rewrite !bind_Ok_l. fold m1. rewrite G0, G1.
    assert ((be <=? bs) = (bss_words =? 0)) as ->; [|done]. pose proof (bss_words_spec 0 (proj2 Hbs)).
    assert (0 ≤ bss_words) by (apply Z.div_pos; lia). destruct (Z.leb_spec be bs), (Z.eqb_spec bss_words 0); lia. }
  replace (3 * Z.to_nat bss_words + 10)%nat with (3 + (3 * Z.to_nat bss_words + 7))%nat by lia. rewrite Hstart.
  assert (0 ≤ bss_words) by (apply Z.div_pos; lia).
  destruct (Z.eqb_spec bss_words 0) as [E|E].
  - rewrite E. destruct (start_stack m1) as (mc' & Hr & Hs & Hm & _); [done..|]. exists mc'.
    split_and!; [exact Hr|exact Hs|lia|]. intros a _. by rewrite Hm.
  - destruct (clear_loop 7 (Z.to_nat bss_words - 1) m1 0) as (m2 & Hr & Hl2 & Hh2 & Hz2 & Ho2).
    { split; [by rewrite Gz|by rewrite G0, Z.add_0_r|done|done]. }
    { done. }
    { lia. }
    replace (S (Z.to_nat bss_words - 1)) with (Z.to_nat bss_words) in Hr by lia. rewrite Hr.
    destruct (start_stack m2) as (mc' & Hr' & Hs & Hm & _); [done|done|by rewrite Hh2|by rewrite Hh2|]. exists mc'.
    rewrite Hh2 in Hs. split_and!; [exact Hr'|exact Hs|..].
    + intros i Hi. rewrite Hm. by apply Hz2.
    + intros a Ha. rewrite Hm. rewrite Ho2 by lia. done.
Qed.
End start.

(** ** [initcode] *)
Section initcode.
Context {A BD MD : Type} `{GlobalAllocLaws A} `{BlockDevice BD} `{Mmio MD}.
Context (sym : linker_symbols) (forkret vio_at arc_size : Z) (fuel : nat) (Hsym : is_usize (TRAMPOLINE_TEXT_START sym)).
Context (link : nat → Z) (argv : Z).
Implicit Types k : kst A BD MD.

(** The string at [o] in the page of the first process *)
Lemma init_buffer code (o : nat) m B kroot p (m' : kmem A) :
  pt_inv 2 m B kroot → init_proc sym forkret code m = Ok (p, m') → take 5 (drop o code) = bytes "/init" → (o + 5 < 4096)%nat →
  ∃ pg, user_buffer m' (pgtable p) (Z.of_nat o) 5 pg (zeroed code) ∧ buf_bytes (zeroed code) (Z.of_nat o) 5 = bytes "/init".
Proof using Hsym.
  intros Hk Hrun Hstr Ho.
  destruct (init_proc_ready sym forkret Hsym code m B kroot p m' Hk Hrun) as ((B' & _ & [_ Hw _]) & _ & [(pg & Hmap & Hpg & Hfa) _ _] & _).
  assert (Z.of_nat o mod PAGE_SIZE = Z.of_nat o) as Hmod by (apply Z.mod_small; layout; lia).
  assert (length code ≤ 4096)%nat as Hlen.
  { unfold init_proc in Hrun. apply bind_Ok in Hrun as ([p0 m1] & _ & Hrun). apply bind_Ok in Hrun as ([q m2] & _ & Hrun).
    apply bind_Ok in Hrun as ([] & Hu%panic_if_Ok%Z.ltb_ge & _). layout. lia. }
  exists pg. split; [split|].
  - done.
  - lia.
  - rewrite Hmod. layout. lia.
  - unfold page_base. rewrite Hmod, Z.sub_diag. eexists. split; [exact Hmap|].
    destruct (leaf_entry_spec pg EntryAttributes.URX (frame_addr_usize _ Hfa)) as (_ & _ & _ & Hpa & _);
      [by destruct Hfa|apply URX_flags|done].
  - split; [done|]. unfold zeroed. rewrite length_app, length_replicate. lia.
  - unfold buf_bytes, zeroed. rewrite Hmod, Nat2Z.id. change (Z.to_nat 5) with 5%nat.
    assert (o + 5 ≤ length code)%nat.
    { assert (length (take 5 (drop o code)) = 5%nat) as Hl by (rewrite Hstr; done). rewrite length_take, length_drop in Hl. lia. }
    rewrite drop_app_le, take_app_le; [done|rewrite length_drop; lia|lia].
Qed.

(** A register of the machine as the kernel finds it in the frame of the call *)
Lemma frame_arg k mc pc r v :
  length (x_reg mc) = 32%nat → (1 ≤ length (regs (trapframe (k_proc k))))%nat → (0 < r < 32)%nat → rget r mc = v →
  aget (regs (call_frame k (x_reg mc) pc)) (Z.of_nat r) = Ok v.
Proof using.
  intros Hl Hr Hb Hv. apply aget_eq; [lia|]. rewrite Nat2Z.id. cbn [call_frame regs set_tf_epc set_regs].
  rewrite frame_lookup by lia. destruct (lookup_lt_is_Some_2 (x_reg mc) r) as [x Hx]; [lia|].
  rewrite Hx. f_equal. rewrite <- Hv. unfold rget. by rewrite (nth_lookup_Some _ _ _ _ Hx).
Qed.

(** The state of the call that a process makes with the registers of [mc] *)
Definition at_ecall k mc (pc : Z) : kst A BD MD := with_tf k (call_frame k (x_reg mc) pc).

(** C25: the first code of the first process, run from the page that init_proc maps for
    it, traps with a call that the kernel answers by running the tests and then exec
    of exactly the path /init; and should it go on behind that call, its next one
    stops the kernel because init exits. *)
Theorem initcode_execs_init code (o : nat) m B kroot p (m' : kmem A) mc :
  pt_inv 2 m B kroot → init_proc sym forkret code m = Ok (p, m') →
  take 5 (drop o code) = bytes "/init" → (o + 5 < 4096)%nat → length (x_reg mc) = 32%nat →
  (∃ mc1, run link 5 (initcode (Z.of_nat o) argv SYS_EXEC SYS_EXIT) 0 mc = Ok (ToEcall, 5%nat, mc1) ∧
    ∀ k pc, k_proc k = p → k_mem k = m' →
      syscall sym forkret vio_at arc_size fuel (at_ecall k mc1 pc) =
      (d ← run_tests vio_at (k_disk k);
       '(p1, d, m1) ← exec (bytes "/init") (k_proc (at_ecall k mc1 pc)) d m';
       Ok (Returns 0 (with_proc (with_disk (with_mem (at_ecall k mc1 pc) m1) d) p1)))) ∧
  (∃ mc2, run link 2 (initcode (Z.of_nat o) argv SYS_EXEC SYS_EXIT) 5 mc = Ok (ToEcall, 7%nat, mc2) ∧
    ∀ k pc, k_proc k = p →
      syscall sym forkret vio_at arc_size fuel (at_ecall k mc2 pc) = Err (Panic "init exiting")).
Proof using Hsym.
  intros Hk Hrun Hstr Ho Hl.
  destruct (init_buffer code o m B kroot p m' Hk Hrun Hstr Ho) as (pg & Hb & Hbytes).
  destruct (init_proc_ready sym forkret Hsym code m B kroot p m' Hk Hrun) as (_ & _ & _ & Hpid & _ & _ & _ & Hsp).
  assert (Hreg : ∀ k, k_proc k = p → (1 ≤ length (regs (trapframe (k_proc k))))%nat).
  { intros k ->. apply lookup_lt_Some in Hsp. lia. }
  split; eexists; (split; [reflexivity|]).
  - intros k pc Hp Hm. match goal with |- context [at_ecall k ?x pc] => set (mc1 := x) end.
    assert (Hl1 : length (x_reg mc1) = 32%nat) by (unfold mc1; by rewrite !rset_length).
    assert (Hg : rget X.a0 mc1 = Z.of_nat o ∧ rget X.a1 mc1 = 5 ∧ rget X.a7 mc1 = SYS_EXEC).
    { unfold mc1. split_and!; reg_simpl; [|done..]. apply as_u_id; [unfold is_u; lia|done]. }
    destruct Hg as (G0 & G1 & G7). pose proof (λ r v, frame_arg k mc1 pc r v Hl1 (Hreg k Hp)) as Harg.
    unfold syscall, sys_exec, arg_uint. cbn [at_ecall k_proc with_tf with_proc trapframe set_trapframe k_mem pgtable].
    fold (call_frame k (x_reg mc1) pc). set (tf := call_frame k (x_reg mc1) pc) in *.
    assert (aget (regs tf) Register.a7 = Ok SYS_EXEC) as -> by (apply (Harg X.a7 SYS_EXEC); [vm_compute; lia|done]).
    assert (argraw tf 1 = Ok 5) as Ha1 by (apply (Harg X.a1 5); [vm_compute; lia|done]).
    assert (argraw tf 0 = Ok (Z.of_nat o)) as Ha0 by (apply (Harg X.a0 (Z.of_nat o)); [vm_compute; lia|done]).
    rewrite bind_Ok_l. cbv zeta. change (as_i 64 SYS_EXEC) with SYS_EXEC. cbn [Z.eqb SYS_EXEC SYS_WRITE SYS_READ SYS_FORK Pos.eqb].
    unfold returns. rewrite Ha1, bind_Ok_l. change (as_i 32 5) with 5. change (5 <? 0) with false. cbn [panic_if]. rewrite !bind_Ok_l.
    rewrite <- Hm, <- Hp in Hb. destruct (buffer_ptr _ _ _ _ _ _ tf 0 Hb Ha0) as [-> Hpg]. rewrite bind_Ok_l.
    rewrite (buffer_read _ _ _ _ _ _ Hb Hpg), bind_Ok_l, Hbytes. change (from_utf8 (bytes "/init")) with true.
    cbn [negb panic_if]. rewrite bind_Ok_l, bool_decide_true by done. rewrite Hm. cbn [k_disk with_tf with_proc at_ecall].
    destruct (run_tests vio_at (k_disk k)) as [d|]; [|done]. rewrite !bind_Ok_l. by destruct (exec _ _ _ _) as [[[? ?] ?]|].
  - intros k pc Hp. match goal with |- context [at_ecall k ?x pc] => set (mc2 := x) end.
    assert (Hl2 : length (x_reg mc2) = 32%nat) by (unfold mc2; by rewrite !rset_length).
    pose proof (λ r v, frame_arg k mc2 pc r v Hl2 (Hreg k Hp)) as Harg.
    unfold syscall, sys_exit, arg_int. cbn [at_ecall k_proc with_tf with_proc trapframe set_trapframe pid].
    set (tf := call_frame k (x_reg mc2) pc) in *.
    assert (aget (regs tf) Register.a7 = Ok SYS_EXIT) as -> by
      (apply (Harg X.a7 SYS_EXIT); [vm_compute; lia|unfold mc2; by reg_simpl]).
    assert (argraw tf 0 = Ok (rget X.a0 mc2)) as Ha0 by (apply (Harg X.a0); [vm_compute; lia|done]).
    rewrite bind_Ok_l. cbv zeta. change (as_i 64 SYS_EXIT) with SYS_EXIT. cbn [Z.eqb SYS_EXIT SYS_WRITE SYS_READ SYS_FORK SYS_EXEC Pos.eqb].
    rewrite Ha0, !bind_Ok_l, Hp, Hpid. reflexivity.
Qed.
End initcode.

(** ** Two harts clear three words; an [initcode] with its string at 36 *)
Definition hart_at (h : Z) (w : gmap Z Z) : cpu := Cpu (replicate 32 0) csr0 0 h w.
Definition bss0 : list Z := [5; 6; 7].

Lemma bss0_block : block (mem_of 0x80010000 bss0) 0x80010000 (bss_words 0x80010000 0x80010014).
Proof. apply (words_block _ _ bss0); [apply mem_of_words|done|lia|cbn; lia]. Qed.

Lemma start_clears_bss_witness :
  ∃ m1, run (λ _, 0) 19 (start_code 0x80010000 0x80010014 0x80010014 0x80000200) 0 (hart_at 1 (mem_of 0x80010000 bss0)) =
      Ok (ToCall 0x80000200, 13%nat, m1) ∧ rget X.sp m1 = 0x80030014 ∧ x_mem m1 !! 0x80010010 = Some 0.
Proof.
  destruct (start_clears_bss (λ _, 0) 0x80010000 0x80010014 0x80010014 0x80000200 ltac:(lia) ltac:(lia) (hart_at 1 (mem_of 0x80010000 bss0)))
    as (m1 & Hr & Hs & Hz & _); [done|done|apply bss0_block|split; lia|cbn; lia|cbn; lia|].
  exists m1. split_and!; [exact Hr|exact Hs|]. apply (Hz 2). vm_compute. done.
Defined.

Definition initcode0 : list Z := replicate 36 0 ++ bytes "/init" ++ [0; 0].

Lemma initcode_execs_init_witness :
  ∃ p m', init_proc link0 0x80000600 initcode0 ptu = Ok (p, m') ∧
    ∃ mc1, run (λ _, 0) 5 (initcode 36 44 SYS_EXEC SYS_EXIT) 0 (hart_at 0 ∅) = Ok (ToEcall, 5%nat, mc1) ∧
    syscall (MD := Chip) link0 0x80000600 0x80300000 64 3 (at_ecall (KSt p m' disk0 chip1 ∅ PROCS_POOL_new) mc1 16) =
      (d ← run_tests 0x80300000 disk0;
       '(p1, d, m1) ← exec (bytes "/init") (k_proc (at_ecall (KSt p m' disk0 chip1 ∅ PROCS_POOL_new) mc1 16)) d m';
       Ok (Returns 0 (with_proc (with_disk (with_mem (at_ecall (KSt p m' disk0 chip1 ∅ PROCS_POOL_new) mc1 16) m1) d) p1))).
Proof.
  destruct (is_ok_Ok (init_proc link0 0x80000600 initcode0 ptu)) as [[p m'] Hrun]; [vm_compute; reflexivity|].
  destruct ptu_inv as (B & Hi & _).
  destruct (initcode_execs_init (MD := Chip) link0 0x80000600 0x80300000 64 3 ltac:(split; vm_compute; done) (λ _, 0) 44 initcode0 36 ptu B root0 p m'
    (hart_at 0 ∅) Hi Hrun) as [(mc1 & Hr & Hc) _]; [reflexivity|lia|reflexivity|].
  exists p, m'. split; [exact Hrun|]. exists mc1. split; [exact Hr|]. by apply Hc.
Defined.
