(* ===== verification/Boot.v ===== *)
(** * Boot

    [start.rs]: [kinit] in machine mode, then [kmain] on every hart.  Hart 0 initialises
    the kernel statement by statement while the other harts wait for [MAY_BOOT]; they
    join in with the part of the initialisation every hart has.  A step is one statement
    of [kmain] on one hart, or anything a hart does that is in [scheduler] already
    ([sched_step]).  Log output is left out, and [process::init] is empty.

    [power_on] is the state in which every hart has left [_start]: a hart that clears .bss
    late, while hart 0 is in [kmain], is not covered (the race of boot.S). *)

From S2P Require Import Prelude Symbols Mem Page PageTree PageOps PageUser PageClone Hart Devices KernelMap Proc Virtio Uart Exec Fork InitProc Trap.

(** ** [kinit] *)
Inductive priv := PUser | PSupervisor | PMachine.
Record mcore := MCore {
  mpp : priv; mepc : Z; m_satp : Z; medeleg : Z; mideleg : Z; tp : Z;
}.
Section kinit.
Context {D : Type} `{Mmio D}.
(** [id] is [mhartid]; the result is where [mret] goes and in which mode. *)
Definition kinit (id kmain scratch_at timervec : Z) (sc : list (list Z)) (r : mcsr) (d : D)
    : result (Z * priv * mcore * list (list Z) * mcsr * D) :=
  let c := MCore PSupervisor kmain 0 0xffff 0xffff id in
  '(sc, r, d) ← timer_init id scratch_at timervec sc r d;
  Ok (mepc c, mpp c, c, sc, r, d).
End kinit.

(** ** [kmain] *)
Section kmain.
Context {D : Type} `{Mmio D}.
(** The linked kernel, [&KERNEL_PGTABLE], the static [VirtIOData], the registers of the
    disk as they read, the code of [init] *)
Context (ts : trap_syms) (sym : linker_symbols) (forkret kpt vio_at : Z) (rd : Z → Z) (code : list Z).

Record boot := mkBoot {
  b_uart : D;
  b_plic : RegFile;
  b_disk : list (Z * Z);            (* writes to the disk's registers *)
  b_vio : VirtIOData;
  b_mem : kmem Allocator;
  b_pool : Pool;
  b_csr : nat → csr;                (* by hart *)
  may_boot : bool;
  b_pc : nat → nat;                 (* by hart: statements done *)
  b_ran : nat → bool;               (* by hart: took a step in [scheduler] *)
}.
Implicit Types b : boot.

Definition with_csr (h : nat) (f : csr → csr) b : boot :=
  mkBoot (b_uart b) (b_plic b) (b_disk b) (b_vio b) (b_mem b) (b_pool b) (upd (b_csr b) h (f (b_csr b h))) (may_boot b) (b_pc b) (b_ran b).
Definition advance (h : nat) b : boot :=
  mkBoot (b_uart b) (b_plic b) (b_disk b) (b_vio b) (b_mem b) (b_pool b) (b_csr b) (may_boot b) (upd (b_pc b) h (S (b_pc b h))) (b_ran b).

Definition do_uart_init (h : nat) b : result boot :=
  d ← Uart_init UART (b_uart b);
  Ok (mkBoot d (b_plic b) (b_disk b) (b_vio b) (b_mem b) (b_pool b) (b_csr b) (may_boot b) (b_pc b) (b_ran b)).
Definition do_mem_init (h : nat) b : result boot :=
  m ← mem_init sym kpt (b_mem b);
  Ok (mkBoot (b_uart b) (b_plic b) (b_disk b) (b_vio b) m (b_pool b) (b_csr b) (may_boot b) (b_pc b) (b_ran b)).
Definition do_virtio_init (h : nat) b : result boot :=
  '(w, v) ← VirtIO_init rd vio_at (b_vio b);
  Ok (mkBoot (b_uart b) (b_plic b) (b_disk b ++ w) v (b_mem b) (b_pool b) (b_csr b) (may_boot b) (b_pc b) (b_ran b)).
Definition with_plic (d : RegFile) b : boot :=
  mkBoot (b_uart b) d (b_disk b) (b_vio b) (b_mem b) (b_pool b) (b_csr b) (may_boot b) (b_pc b) (b_ran b).
Definition do_plic_init (h : nat) b : result boot := Ok (with_plic (plic_init (b_plic b)) b).
Definition do_mem_hartinit (h : nat) b : result boot :=
  satp ← mem_hartinit kpt; Ok (with_csr h (λ c, set_satp c satp) b).
Definition do_plic_hartinit (h : nat) b : result boot :=
  d ← plic_hartinit (Z.of_nat h) (b_plic b); Ok (with_plic d b).
Definition do_trap_hartinit (h : nat) b : result boot := Ok (with_csr h (trap_hartinit ts) b).
(** [init_proc] with its [put_back_proc(box p)] *)
Definition do_init_proc (h : nat) b : result boot :=
  '(p, m) ← init_proc sym forkret code (b_mem b);
  '(_, m) ← alloc_bytes PAGE_SIZE m;
  '(_, pl) ← put_back_proc p (b_pool b);
  Ok (mkBoot (b_uart b) (b_plic b) (b_disk b) (b_vio b) m pl (b_csr b) (may_boot b) (b_pc b) (b_ran b)).
Definition do_may_boot (h : nat) b : result boot :=
  Ok (mkBoot (b_uart b) (b_plic b) (b_disk b) (b_vio b) (b_mem b) (b_pool b) (b_csr b) true (b_pc b) (b_ran b)).

Definition boot_code : list (nat → boot → result boot) :=
  [do_uart_init; do_mem_init; do_virtio_init; do_plic_init; do_mem_hartinit; do_plic_hartinit;
   do_trap_hartinit; do_init_proc; do_may_boot].
(** After the wait for [MAY_BOOT] *)
Definition join_code : list (nat → boot → result boot) :=
  [do_mem_hartinit; do_trap_hartinit; do_plic_hartinit].

Definition kmain_step b (h : nat) : option (result boot) :=
  let run st := b' ← st h b; Ok (advance h b') in
  match h, b_pc b h with
  | O, pc => run <$> boot_code !! pc
  | S _, O => if may_boot b then Some (Ok (advance h b)) else None
  | S _, S k => run <$> join_code !! k
  end.
(** A hart that has done all its statements is in [scheduler]. *)
Definition in_scheduler b (h : nat) : Prop :=
  b_pc b h = match h with O => length boot_code | S _ => S (length join_code) end.

(** ** What boot achieves *)
Definition kernel_table (m : kmem Allocator) : Prop :=
  (∃ B, pt_inv 2 m B kpt) ∧ ∀ va, canonical va → page_map m kpt va = kernel_space sym va.

(** A step of a hart in [scheduler], in the kernel or in user code: pool, disk, memory and
    its own registers change in any way, as long as the tree of [KERNEL_PGTABLE], which
    nothing writes after [mem::init], stays; of the interrupt controller it writes claim
    registers only. *)
Record sched_step (h : nat) b b' : Prop := {
  ss_in : in_scheduler b h;
  ss_table : kernel_table (b_mem b) → kernel_table (b_mem b');
  ss_plic : ∀ a, (∀ k, 0 ≤ k < NCPUS → a ≠ sclaim k) → reg (b_plic b') a = reg (b_plic b) a;
  ss_csr : ∀ k, k ≠ h → b_csr b' k = b_csr b k;
  ss_may : may_boot b' = may_boot b;
  ss_pc : b_pc b' = b_pc b;
  ss_ran : b_ran b' = upd (b_ran b) h true;
}.

(** The harts are [0..n). *)
Inductive breach (n : nat) (b0 : boot) : boot → Prop :=
  | breach_refl : breach n b0 b0
  | breach_step b h b' : breach n b0 b → (h < n)%nat → kmain_step b h = Some (Ok b') → breach n b0 b'
  | breach_sched b h b' : breach n b0 b → (h < n)%nat → sched_step h b b' → breach n b0 b'.

(** Power on: the allocator and the kernel's table are statics. *)
Record power_on b : Prop := {
  po_link : kernel_ld sym ∧ is_usize (TRAMPOLINE_TEXT_START sym);
  po_alloc : length (page_allocated (ga (b_mem b))) = Z.to_nat MAX_PAGE;
  po_table : frame_addr kpt ∧ kpt < HEAP_START sym ∧ frames (b_mem b) !! kpt = Some (FTable Table_new);
  po_disk : ∃ at_, b_vio b = VirtIO_new at_;
  po_pool : b_pool b = PROCS_POOL_new;
  po_start : may_boot b = false ∧ (∀ h, b_pc b h = 0%nat) ∧ ∀ h, b_ran b h = false;
}.

Definition uses_table (c : csr) : Prop :=
  Z.shiftr (c_satp c) 60 = 8 ∧ Z.shiftl (Z.land (c_satp c) (Z.ones 44)) 12 = kpt.
Definition priorities (d : RegFile) : Prop :=
  reg d (PLIC_PRIORITY + 4 * UART0_IRQ) = 1 ∧ reg d (PLIC_PRIORITY + 4 * VIRTIO0_IRQ) = 1.
Definition enabled (d : RegFile) (h : nat) : Prop :=
  reg d (threshold (Z.of_nat h)) = 0 ∧ Z.testbit (reg d (senable (Z.of_nat h))) UART0_IRQ = true ∧
  Z.testbit (reg d (senable (Z.of_nat h))) VIRTIO0_IRQ = true.
Definition first_process (m : kmem Allocator) (pl : Pool) : Prop :=
  ∃ p, pl = <[0%nat := Pooling p]> PROCS_POOL_new ∧ pid p = 0 ∧ state p = RUNNABLE ∧
    epc (trapframe p) = 0 ∧ regs (trapframe p) !! 2%nat = Some (STACK + 4 * PAGE_SIZE) ∧ init_space sym code m p.

(** When a hart has its table, its trap vector and its interrupts *)
Definition satp_pc (h : nat) : nat := match h with O => 5 | S _ => 2 end.
Definition stvec_pc (h : nat) : nat := match h with O => 7 | S _ => 3 end.
Definition plic_pc (h : nat) : nat := match h with O => 6 | S _ => 4 end.

Record binv (b0 : boot) b : Prop := {
  bi_may : may_boot b = true → b_pc b 0%nat = length boot_code;
  bi_wait : ∀ h, b_pc b (S h) ≠ 0%nat → may_boot b = true;
  bi_mem : if decide (b_pc b 0%nat < 2)%nat then b_mem b = b_mem b0 else kernel_table (b_mem b);
  bi_vio : if decide (b_pc b 0%nat < 3)%nat then b_vio b = b_vio b0 else (∀ h, b_ran b h = false) → vinv (b_vio b) ∅;
  bi_prio : (4 ≤ b_pc b 0)%nat → priorities (b_plic b);
  bi_pool : if decide (b_pc b 0%nat < 8)%nat then b_pool b = b_pool b0 else (∀ h, b_ran b h = false) → first_process (b_mem b) (b_pool b);
  bi_ran : ∀ h, b_ran b h = true → in_scheduler b h;
  bi_satp : ∀ h, b_ran b h = false → (satp_pc h ≤ b_pc b h)%nat → uses_table (b_csr b h);
  bi_stvec : ∀ h, b_ran b h = false → (stvec_pc h ≤ b_pc b h)%nat → c_stvec (b_csr b h) = kernelvec ts;
  bi_plic : ∀ h, Z.of_nat h < NCPUS → (plic_pc h ≤ b_pc b h)%nat → enabled (b_plic b) h;
}.

Context (b0 : boot) (Hon : power_on b0).

Lemma hartinit_table x c : mem_hartinit kpt = Ok x → uses_table (set_satp c x).
Proof using Hon.
  destruct Hon as [[Hld _] Hlen (Hfa & Hlt & Hroot) _ _ _]. intros Hx.
  destruct (mem_init_maps sym kpt (ga (b_mem b0)) (frames (b_mem b0)) Hld Hlen Hfa Hlt Hroot)
    as (m' & y & _ & _ & _ & _ & Hy & Hm & Hp). rewrite Hx in Hy. injection Hy as <-. done.
Qed.

Lemma mem_hartinit_total : ∃ x, mem_hartinit kpt = Ok x.
Proof using Hon.
  destruct Hon as [[Hld _] Hlen (Hfa & Hlt' & Hroot) _ _ _].
  destruct (mem_init_maps sym kpt (ga (b_mem b0)) (frames (b_mem b0)) Hld Hlen Hfa Hlt' Hroot) as (m' & x & _ & _ & _ & _ & Hx & _).
  by exists x.
Qed.

Lemma plic_init_priorities (d : RegFile) : priorities (plic_init d).
Proof. unfold priorities, plic_init, Plic.init. change (PLIC_BASE + 4 * ?i) with (PLIC_PRIORITY + 4 * i). by rewrite !reg_write. Qed.

Lemma plic_hartinit_enables h (d d' : RegFile) :
  Z.of_nat h < NCPUS → plic_hartinit (Z.of_nat h) d = Ok d' →
  enabled d' h ∧ (priorities d → priorities d') ∧
  ∀ k, Z.of_nat k < NCPUS → k ≠ h → enabled d k → enabled d' k.
Proof.
  intros Hh Hrun. destruct (plic_hartinit_writes (Z.of_nat h) d) as (d1 & Hd & He & Ht & _ & _ & Hfr); [lia|].
  rewrite Hrun in Hd. injection Hd as <-. split_and!.
  - unfold enabled. rewrite Ht, He, !Z.lor_spec. split_and!; [done|..]; apply orb_true_r.
  - unfold priorities. rewrite !Hfr; [done|..]; unfold hart_regs, senable, threshold, sclaim, PLIC_SPRIORITY_BASE,
      PLIC_SCLAIM_BASE, PLIC_SENABLE_BASE, PLIC_PRIORITY, UART0_IRQ, VIRTIO0_IRQ; rewrite !not_elem_of_cons; split_and!; lia || apply not_elem_of_nil.
  - intros k Hk Hne. unfold enabled.
    assert (∀ a, a ∈ hart_regs (Z.of_nat k) → reg d' a = reg d a) as Hsame.
    { intros a Ha. apply Hfr. apply (hart_regs_disjoint (Z.of_nat k)); [lia|lia|lia|done]. }
    rewrite !Hsame by (unfold hart_regs; set_solver). done.
Qed.

Lemma do_init_proc_first h b b' :
  kernel_table (b_mem b) → b_pool b = PROCS_POOL_new → do_init_proc h b = Ok b' →
  kernel_table (b_mem b') ∧ first_process (b_mem b') (b_pool b') ∧ b_plic b' = b_plic b ∧ b_vio b' = b_vio b ∧
  b_csr b' = b_csr b ∧ may_boot b' = may_boot b ∧ b_pc b' = b_pc b ∧ b_ran b' = b_ran b.
Proof using Hon.
  intros [[B Hk] Hmap] Hpl Hrun. unfold do_init_proc in Hrun. apply bind_Ok in Hrun as ([p m1] & H1 & Hrun).
  apply bind_Ok in Hrun as ([bx m2] & H2 & Hrun). apply bind_Ok in Hrun as ([rl pl] & H3 & [= <-]).
  destruct (init_proc_ready sym forkret (proj2 (po_link _ Hon)) code _ B kpt p m1 Hk H1)
    as ((B1 & Hk1 & Hp1) & Hsame & Hsp & Hpid & Hst & Hdr & Hepc & Hsp2).
  destruct (alloc_bytes_inv PAGE_SIZE bx m1 m2 B1 kpt ltac:(by vm_compute) ltac:(by vm_compute) Hk1 H2)
    as (Hf & _ & _ & _ & Hk2).
  assert (Hpm : ∀ t va, page_map m2 t va = page_map m1 t va) by (intros; unfold page_map; by rewrite Hf).
  rewrite Hpl, (put_back_spec p PROCS_POOL_new NoProc) in H3;
    [|apply length_replicate|by rewrite Hpid|by rewrite Hpid].
  injection H3 as <- <-. cbn. split_and!; try done.
  - split; [by eexists|]. intros va Hva. by rewrite Hpm, Hsame, Hmap.
  - exists (set_drop false p). rewrite Hpid. split_and!; try done.
    destruct Hsp as [Hc Hs Hr]. split; cbn [pgtable trapframe_at set_drop]; rewrite ?Hpm, ?Hf; [done| |].
    + intros i Hi. rewrite Hpm. by apply Hs.
    + intros va ? ? ?. rewrite Hpm. by apply Hr.
Qed.

(** Until [MAY_BOOT] only hart 0 moves, and no hart is in [scheduler]. *)
Lemma others_wait b : binv b0 b → (b_pc b 0 < length boot_code)%nat →
  may_boot b = false ∧ (∀ h, b_pc b (S h) = 0%nat) ∧ ∀ h, b_ran b h = false.
Proof using.
  intros Hi Hpc. destruct (may_boot b) eqn:E; [apply (bi_may _ _ Hi) in E; lia|].
  assert (∀ h, b_pc b (S h) = 0%nat) as Ho.
  { intros h. destruct (decide (b_pc b (S h) = 0%nat)) as [|Hne]; [done|]. apply (bi_wait _ _ Hi) in Hne. congruence. }
  split_and!; [done..|]. intros h. destruct (b_ran b h) eqn:Hr; [|done]. apply (bi_ran _ _ Hi) in Hr.
  unfold in_scheduler in Hr. destruct h as [|h]; [lia|]. rewrite Ho in Hr. done.
Qed.

(** A statement of hart 0: what it owes, by its number *)
Lemma boot_statement b b' k :
  binv b0 b → b_pc b 0%nat = k → (k < length boot_code)%nat → b_pc b' = b_pc b → b_ran b' = b_ran b →
  may_boot b' = bool_decide (S k = length boot_code) →
  (if decide (S k < 2)%nat then b_mem b' = b_mem b0 else kernel_table (b_mem b')) →
  (if decide (S k < 3)%nat then b_vio b' = b_vio b0 else vinv (b_vio b') ∅) →
  ((4 ≤ S k)%nat → priorities (b_plic b')) →
  (if decide (S k < 8)%nat then b_pool b' = b_pool b0 else first_process (b_mem b') (b_pool b')) →
  ((5 ≤ S k)%nat → uses_table (b_csr b' 0%nat)) →
  ((7 ≤ S k)%nat → c_stvec (b_csr b' 0%nat) = kernelvec ts) →
  ((6 ≤ S k)%nat → enabled (b_plic b') 0) →
  binv b0 (advance 0 b').
Proof using.
  intros Hi Hk Hlt Hpc Hran Hmay Hm Hv Hpr Hpl Hsa Hst Hen. destruct (others_wait b Hi) as (_ & Ho & Hno); [lia|].
  assert (∀ h, b_pc (advance 0 b') (S h) = 0%nat) as Ho'.
  { intros h. cbn. rewrite upd_ne, Hpc by done. apply Ho. }
  assert (b_pc (advance 0 b') 0%nat = S k) as H0' by (cbn; rewrite upd_eq, Hpc; congruence).
  split; rewrite ?H0'; cbn [advance may_boot b_mem b_vio b_plic b_pool b_csr b_ran]; try done.
  - rewrite Hmay. by intros ?%bool_decide_eq_true.
  - intros h. by rewrite Ho'.
  - repeat case_decide; first [done|lia|by intros _].
  - repeat case_decide; first [done|lia|by intros _].
  - intros h. by rewrite Hran, Hno.
  - intros [|h] _; [rewrite H0'; exact Hsa|rewrite Ho'; cbn; lia].
  - intros [|h] _; [rewrite H0'; exact Hst|rewrite Ho'; cbn; lia].
  - intros [|h] _; [rewrite H0'; exact Hen|rewrite Ho'; cbn; lia].
Qed.

Lemma binv_boot b b' st k :
  binv b0 b → b_pc b 0%nat = k → boot_code !! k = Some st → st 0%nat b = Ok b' → binv b0 (advance 0 b').
Proof using Hon.
  intros Hi Hk Hst Hrun. assert (k < length boot_code)%nat as Hlt by (by eapply lookup_lt_Some).
  destruct (others_wait b Hi) as (Hmay & _ & Hno); [lia|]. pose proof (boot_statement b b' k Hi Hk Hlt) as Hb.
  destruct Hi as [_ _ Hm Hv Hpr Hpl _ Hsa Hsv Hen]. rewrite Hk in *.
  specialize (Hsa 0%nat (Hno 0%nat)). specialize (Hsv 0%nat (Hno 0%nat)). specialize (Hen 0%nat ltac:(done)).
  rewrite Hk in Hsa, Hsv, Hen. cbn [satp_pc stvec_pc plic_pc] in *.
  destruct k as [|[|[|[|[|[|[|[|[|k]]]]]]]]]; [injection Hst as <-..|done]; cbn in Hm, Hv, Hpl;
    try specialize (Hv Hno); try specialize (Hpl Hno).
  - unfold do_uart_init in Hrun. apply bind_Ok in Hrun as (d & _ & [= <-]). apply Hb; cbn; try done; lia.
  - unfold do_mem_init in Hrun. apply bind_Ok in Hrun as (m & Hmi & [= <-]). rewrite Hm in Hmi.
    apply Hb; cbn; try done; try lia.
    destruct Hon as [[Hld _] Hlen (Hfa & Hlt' & Hroot) _ _ _].
    destruct (mem_init_maps sym kpt (ga (b_mem b0)) (frames (b_mem b0)) Hld Hlen Hfa Hlt' Hroot) as (m' & y & Hm' & _ & HB & Hpm & _).
    assert (∀ m0 : kmem Allocator, KMem (ga m0) (frames m0) = m0) as Heta by (by intros []).
    rewrite Heta, Hmi in Hm'. injection Hm' as <-. by split.
  - unfold do_virtio_init in Hrun. apply bind_Ok in Hrun as ([w v] & Hvi & [= <-]).
    destruct (po_disk _ Hon) as [at_ Hat]. rewrite Hv, Hat in Hvi. destruct (init_inv _ _ _ _ _ Hvi) as [Hvv _].
    apply Hb; cbn; try done; lia.
  - injection Hrun as <-. apply Hb; cbn; try done; try lia. intros _. apply plic_init_priorities.
  - unfold do_mem_hartinit in Hrun. apply bind_Ok in Hrun as (x & Hx & [= <-]).
    apply Hb; cbn; try done; try lia; [intros _; apply Hpr; lia|]. intros _. rewrite upd_eq. by apply hartinit_table.
  - unfold do_plic_hartinit in Hrun. apply bind_Ok in Hrun as (d & Hd & [= <-]).
    destruct (plic_hartinit_enables 0 (b_plic b) d ltac:(done) Hd) as (He & Hp & _).
    apply Hb; cbn; try done; try lia; [intros _; apply Hp, Hpr; lia|intros _; apply Hsa; lia].
  - injection Hrun as <-. apply Hb; cbn; try done; try lia; [intros _; apply Hpr; lia|..]; intros _; rewrite ?upd_eq.
    + cbn. apply Hsa. lia.
    + apply Hen. lia.
  - rewrite (po_pool _ Hon) in Hpl. destruct (do_init_proc_first 0 b b' Hm Hpl Hrun) as (H1 & H2 & H3 & H4 & H5 & H6 & H7 & H8).
    apply Hb; rewrite ?H3, ?H4, ?H5, ?H6; try done; intros _; [apply Hpr|apply Hsa|apply Hsv|apply Hen]; lia.
  - injection Hrun as <-. apply Hb; cbn; try done; intros _; [apply Hpr|apply Hsa|apply Hsv|apply Hen]; lia.
Qed.

(** A joining hart changes its registers and its part of the controller. *)
Lemma binv_join b b' h :
  binv b0 b → may_boot b = true → (b_pc b (S h) ≤ length join_code)%nat → b_pc b' = b_pc b → b_ran b' = b_ran b →
  may_boot b' = true → b_mem b' = b_mem b → b_vio b' = b_vio b → b_pool b' = b_pool b →
  (∀ k, k ≠ S h → b_csr b' k = b_csr b k) →
  (priorities (b_plic b) → priorities (b_plic b')) →
  (∀ k, Z.of_nat k < NCPUS → k ≠ S h → enabled (b_plic b) k → enabled (b_plic b') k) →
  ((2 ≤ S (b_pc b (S h)))%nat → uses_table (b_csr b' (S h))) →
  ((3 ≤ S (b_pc b (S h)))%nat → c_stvec (b_csr b' (S h)) = kernelvec ts) →
  ((4 ≤ S (b_pc b (S h)))%nat → enabled (b_plic b') (S h)) →
  binv b0 (advance (S h) b').
Proof using.
  intros [Hm _ Hme Hv Hpr Hpl Hran Hsa Hsv Hen] Hmay Hle Hpc Hr Hmay' Em Ev Ep Hc Hpp He Hsa' Hsv' Hen'.
  pose proof (Hm Hmay) as H9.
  assert (∀ k, b_pc (advance (S h) b') k = if decide (k = S h) then S (b_pc b (S h)) else b_pc b k) as Hpc'
    by (intros k; cbn; by rewrite Hpc).
  assert (b_pc (advance (S h) b') 0%nat = b_pc b 0%nat) as H0 by (by rewrite Hpc').
  split; rewrite ?H0; cbn [advance may_boot b_mem b_vio b_plic b_pool b_csr b_ran]; rewrite ?Em, ?Ev, ?Ep, ?Hr; try done; [auto|..].
  - intros k Hk%Hran. unfold in_scheduler in *. rewrite Hpc'. destruct (decide (k = S h)) as [->|]; [lia|done].
  - intros k Hk. rewrite Hpc'. destruct (decide (k = S h)) as [->|]; [exact Hsa'|rewrite Hc by done; by apply Hsa].
  - intros k Hk. rewrite Hpc'. destruct (decide (k = S h)) as [->|]; [exact Hsv'|rewrite Hc by done; by apply Hsv].
  - intros k Hk. rewrite Hpc'. destruct (decide (k = S h)) as [->|]; [exact Hen'|]. intros Hle'. by apply He, Hen.
Qed.

Lemma binv_kmain b h b' :
  binv b0 b → Z.of_nat h < NCPUS → kmain_step b h = Some (Ok b') → binv b0 b'.
Proof using Hon.
  intros Hi Hh Hs. unfold kmain_step in Hs. destruct h as [|h].
  { destruct (boot_code !! b_pc b 0%nat) as [st|] eqn:Hst; [|done]. injection Hs as Hs.
    apply bind_Ok in Hs as (b1 & Hrun & [= <-]). by eapply binv_boot. }
  destruct (b_pc b (S h)) as [|k] eqn:Hk.
  - destruct (may_boot b) eqn:Hmay; [|done]. injection Hs as <-. apply (binv_join b b h); try done; rewrite Hk; cbn; lia.
  - destruct (join_code !! k) as [st|] eqn:Hst; [|done]. injection Hs as Hs.
    apply bind_Ok in Hs as (b1 & Hrun & [= <-]).
    assert (may_boot b = true) as Hmay by (apply (bi_wait _ _ Hi h); lia).
    assert (S k ≤ length join_code)%nat as Hle by (by apply lookup_lt_Some in Hst).
    assert (b_ran b (S h) = false) as Hno.
    { destruct (b_ran b (S h)) eqn:Hr; [|done]. apply (bi_ran _ _ Hi) in Hr. unfold in_scheduler in Hr. lia. }
    pose proof (bi_satp _ _ Hi (S h) Hno) as Hsa. pose proof (bi_stvec _ _ Hi (S h) Hno) as Hsv. rewrite Hk in Hsa, Hsv.
    cbn [satp_pc stvec_pc] in Hsa, Hsv. rewrite <- Hk in Hle.
    destruct k as [|[|[|k]]]; [injection Hst as <-..|done].
    + unfold do_mem_hartinit in Hrun. apply bind_Ok in Hrun as (x & Hx & [= <-]).
      apply (binv_join b _ h Hi Hmay Hle); cbn; rewrite ?Hk; try done; try lia.
      * intros k Hne. by rewrite upd_ne.
      * intros _. rewrite upd_eq. by apply hartinit_table.
    + injection Hrun as <-. apply (binv_join b _ h Hi Hmay Hle); cbn; rewrite ?Hk; try done; try lia.
      * intros k Hne. by rewrite upd_ne.
      * intros _. rewrite upd_eq. cbn. apply Hsa. lia.
      * intros _. by rewrite upd_eq.
    + unfold do_plic_hartinit in Hrun. apply bind_Ok in Hrun as (d & Hd & [= <-]).
      destruct (plic_hartinit_enables (S h) (b_plic b) d Hh Hd) as (He & Hp & Ho).
      apply (binv_join b _ h Hi Hmay Hle); cbn; rewrite ?Hk; try done; intros _; [apply Hsa|apply Hsv]; lia.
Qed.

(** The words of the controller that boot sets are no claim registers. *)
Lemma not_claim a :
  a = PLIC_PRIORITY + 4 * UART0_IRQ ∨ a = PLIC_PRIORITY + 4 * VIRTIO0_IRQ ∨
  (∃ h, 0 ≤ h < NCPUS ∧ (a = threshold h ∨ a = senable h)) →
  ∀ k, 0 ≤ k < NCPUS → a ≠ sclaim k.
Proof.
  unfold threshold, senable, sclaim, PLIC_SPRIORITY_BASE, PLIC_SCLAIM_BASE, PLIC_SENABLE_BASE, PLIC_PRIORITY, UART0_IRQ, VIRTIO0_IRQ, NCPUS.
  intros Ha k Hk ->. naive_solver lia.
Qed.

Lemma binv_sched b h b' : binv b0 b → sched_step h b b' → binv b0 b'.
Proof using.
  intros Hi [Hin Htab Hplic Hcsr Hmay Hpc Hran].
  assert (in_scheduler b 0) as H0.
  { destruct h as [|h]; [done|]. apply (bi_may _ _ Hi), (bi_wait _ _ Hi h). unfold in_scheduler in Hin. lia. }
  destruct Hi as [Hm Hw Hme Hv Hpr Hpl Hr Hsa Hsv Hen]. unfold in_scheduler in H0.
  assert (∀ k, b_ran b' k = if decide (k = h) then true else b_ran b k) as Hran' by (intros k; by rewrite Hran).
  assert (Hnot : ¬ ∀ k, b_ran b' k = false).
  { intros Hall. specialize (Hall h). rewrite Hran', decide_True in Hall by done. done. }
  split; rewrite ?Hmay, ?Hpc; try done.
  - rewrite H0 in *. cbn in *. by apply Htab.
  - rewrite H0. cbn. by intros ?%Hnot.
  - intros H4. destruct (Hpr H4) as [P1 P2]. unfold priorities.
    rewrite !Hplic; [done|apply not_claim; auto|apply not_claim; auto].
  - rewrite H0. cbn. by intros ?%Hnot.
  - intros k. unfold in_scheduler. rewrite Hran', Hpc. destruct (decide (k = h)) as [->|]; [done|apply Hr].
  - intros k. rewrite Hran'. destruct (decide (k = h)); [done|]. rewrite Hcsr by done. apply Hsa.
  - intros k. rewrite Hran'. destruct (decide (k = h)); [done|]. rewrite Hcsr by done. apply Hsv.
  - intros k Hk Hle. destruct (Hen k Hk Hle) as (E1 & E2 & E3). unfold enabled.
    rewrite !Hplic; [done|..]; apply not_claim; right; right; exists (Z.of_nat k); (split; [lia|auto]).
Qed.

Lemma binv_start : binv b0 b0.
Proof using Hon.
  destruct Hon as [_ _ _ _ _ (Hm & Hp & Hr)].
  split; rewrite ?Hp, ?Hm; try done; try lia; try (intros [|h]; rewrite ?Hp, ?Hr; cbn; done || lia).
Qed.

Lemma binv_reach n b : Z.of_nat n ≤ NCPUS → breach n b0 b → binv b0 b.
Proof using Hon.
  intros Hn. induction 1 as [|b h b' _ IH Hh Hs|b h b' _ IH Hh Hs]; [apply binv_start| |by eapply binv_sched].
  apply (binv_kmain b h b' IH); [lia|done].
Qed.

(** C24: in every interleaving of kmain on harts that have all left _start, with harts in
    the scheduler doing anything that keeps the kernel table and touches only the
    claim registers of the PLIC: no hart passes the wait for MAY_BOOT before hart 0 is
    done; a hart that has loaded satp uses the kernel table until it goes on in the
    scheduler, and that table maps the kernel address space; a hart that enters the
    scheduler has its trap vector and gets the interrupts of UART and disk; and until
    the first step of a hart in the scheduler the disk driver is set up and the first
    process, with its code, stack and kernel pages, is in the pool. *)
Theorem boot_ready n b :
  Z.of_nat n ≤ NCPUS → breach n b0 b →
  (∀ h, h ≠ 0%nat → b_pc b h ≠ 0%nat → in_scheduler b 0) ∧
  (∀ h, b_ran b h = false → (satp_pc h ≤ b_pc b h)%nat → uses_table (b_csr b h) ∧ kernel_table (b_mem b)) ∧
  (∀ h, (h < n)%nat → in_scheduler b h →
     kernel_table (b_mem b) ∧
     deliverable (b_plic b) (Z.of_nat h) UART0_IRQ ∧ deliverable (b_plic b) (Z.of_nat h) VIRTIO0_IRQ ∧
     (b_ran b h = false → c_stvec (b_csr b h) = kernelvec ts) ∧
     ((∀ k, b_ran b k = false) → vinv (b_vio b) ∅ ∧ first_process (b_mem b) (b_pool b))).
Proof using Hon.
  intros Hn [Hm Hw Hme Hv Hpr Hpl _ Hsa Hsv Hen]%binv_reach; [|done].
  assert (∀ h, h ≠ 0%nat → b_pc b h ≠ 0%nat → in_scheduler b 0) as Hord.
  { intros [|h] Hne Hpc; [done|]. by apply Hm, (Hw h). }
  split_and!; [done|..].
  - intros h Hr Hh. split; [by apply Hsa|]. rewrite decide_False in Hme; [done|]. intros Hlt.
    destruct h as [|h]; [cbn in Hh; lia|]. pose proof (Hord (S h)) as H9. unfold in_scheduler in H9. cbn in H9, Hh. lia.
  - intros h Hh Hs. assert (in_scheduler b 0) as H0.
    { destruct h as [|h]; [done|]. apply (Hord (S h)); [done|]. rewrite Hs. done. }
    unfold in_scheduler in H0. cbn in H0. rewrite H0 in *. cbn in Hme, Hv, Hpl.
    destruct (Hpr ltac:(lia)) as [Hp1 Hp2].
    destruct (Hen h ltac:(lia)) as (Ht & Hu & Hd); [destruct h; rewrite Hs; cbn; lia|].
    split_and!; [done| | | |auto].
    + split; [rewrite Ht, Hp1; lia|done].
    + split; [rewrite Ht, Hp2; lia|done].
    + intros Hr. apply Hsv; [done|]. destruct h; rewrite Hs; cbn; lia.
Qed.

(** ** Hart 0 gets to the scheduler, when the disk is there and the first code fits a page *)
Lemma uart_init_total (d : D) : ∃ d', Uart_init UART d = Ok d'.
Proof.
  unfold Uart_init. change (try_u8 (Z.land 592 0xff)) with (@Ok Z 80). change (try_u8 (Z.shiftr 592 8)) with (@Ok Z 2).
  rewrite !bind_Ok_l. destruct (mmio_read _ _) as [lcr d1]. by eexists.
Qed.

(** Between [mem::init] and [init_proc] the heap has only the kernel's tables. *)
Definition heap_low b : Prop := (2 ≤ b_pc b 0 ≤ 7)%nat → low 1000 (ga (b_mem b)).

Lemma do_init_proc_total b :
  kernel_table (b_mem b) → low 1000 (ga (b_mem b)) → b_pool b = PROCS_POOL_new → (length code ≤ 4096)%nat →
  ∃ b', do_init_proc 0 b = Ok b'.
Proof using Hon.
  intros [[B Hk] _] Hl Hp Hc. destruct (po_link _ Hon) as [Hld Hu].
  destruct (init_proc_low sym forkret Hu ltac:(by destruct Hld as [_ [_ ?] _ _ _ _ _ _]) code 1000 (b_mem b) B
    (pi_owned _ _ _ _ Hk) Hl) as (p & m1 & H1 & L1); [lia|rewrite MAX_PAGE_eq; lia|done|].
  destruct (init_proc_ready sym forkret Hu code _ B kpt p m1 Hk H1) as (_ & _ & _ & Hpid & _).
  destruct (alloc_low (1000 + 1046) PAGE_SIZE m1 L1) as (bx & m2 & H2 & _);
    [lia|by vm_compute|by vm_compute|change (pages_of PAGE_SIZE) with 1; rewrite MAX_PAGE_eq; lia|].
  unfold do_init_proc. rewrite H1, bind_Ok_l, H2, bind_Ok_l, Hp.
  rewrite (put_back_spec p PROCS_POOL_new NoProc); [|apply length_replicate|by rewrite Hpid|by rewrite Hpid].
  eexists. reflexivity.
Qed.

Lemma boot_statement_total b :
  binv b0 b → heap_low b → (∃ r, VirtIO_init rd vio_at (b_vio b0) = Ok r) → (length code ≤ 4096)%nat →
  (b_pc b 0 < length boot_code)%nat →
  ∃ st b1, boot_code !! b_pc b 0%nat = Some st ∧ st 0%nat b = Ok b1 ∧ b_pc b1 = b_pc b ∧ b_ran b1 = b_ran b ∧
    may_boot b1 = bool_decide (S (b_pc b 0) = length boot_code) ∧ heap_low (advance 0 b1).
Proof using Hon.
  intros Hi Hlow [[w v] Hdisk] Hcode Hlt. destruct (others_wait b Hi Hlt) as (Hmay & _ & Hno).
  pose proof (bi_mem _ _ Hi) as Hm. pose proof (bi_vio _ _ Hi) as Hv. pose proof (bi_pool _ _ Hi) as Hpl.
  destruct Hon as [[Hld _] Hlen (Hfa & Hlt' & Hroot) _ Hp0 _].
  destruct (mem_init_maps sym kpt (ga (b_mem b0)) (frames (b_mem b0)) Hld Hlen Hfa Hlt' Hroot) as (m' & x & Hm' & Hml & _ & _ & Hx & _).
  assert (∀ m0 : kmem Allocator, KMem (ga m0) (frames m0) = m0) as Heta by (by intros []). rewrite Heta in Hm'.
  destruct (uart_init_total (b_uart b)) as [d0 Hd0].
  destruct (plic_hartinit_writes 0 (b_plic b)) as (d & Hd & _); [done|].
  unfold heap_low in *. cbn [advance b_pc b_mem].
  destruct (b_pc b 0%nat) as [|[|[|[|[|[|[|[|[|k]]]]]]]]] eqn:Hk; cbn in Hm, Hv, Hpl; [..|cbn in Hlt; lia].
  8: { destruct (do_init_proc_total b Hm (Hlow ltac:(lia)) ltac:(congruence) Hcode) as [b' Hb'].
    destruct (do_init_proc_first 0 b b' Hm ltac:(congruence) Hb') as (_ & _ & _ & _ & _ & H6 & H7 & H8).
    exists (do_init_proc), b'. split_and!; [done|exact Hb'|congruence|exact H8|by rewrite H6|]. rewrite upd_eq, H7, Hk. lia. }
  all: do 2 eexists; (split; [reflexivity|]).
  - unfold do_uart_init. rewrite Hd0, bind_Ok_l. split; [reflexivity|]. cbn. rewrite upd_eq, Hk. split_and!; [done|done|exact Hmay|lia].
  - unfold do_mem_init. rewrite Hm, Hm', bind_Ok_l. split; [reflexivity|]. cbn. split_and!; [done|done|exact Hmay|done].
  - unfold do_virtio_init. rewrite Hv, Hdisk, bind_Ok_l. split; [reflexivity|]. cbn. split_and!; [done|done|exact Hmay|]. intros _. apply Hlow. lia.
  - split; [reflexivity|]. cbn. split_and!; [done|done|exact Hmay|]. intros _. apply Hlow. lia.
  - unfold do_mem_hartinit. rewrite Hx, bind_Ok_l. split; [reflexivity|]. cbn. split_and!; [done|done|exact Hmay|]. intros _. apply Hlow. lia.
  - unfold do_plic_hartinit. change (Z.of_nat 0) with 0. rewrite Hd, bind_Ok_l. split; [reflexivity|]. cbn.
    split_and!; [done|done|exact Hmay|]. intros _. apply Hlow. lia.
  - split; [reflexivity|]. cbn. split_and!; [done|done|exact Hmay|]. intros _. apply Hlow. lia.
  - split; [reflexivity|]. cbn. rewrite upd_eq, Hk. split_and!; [done..|lia].
Qed.

Lemma boot_reaches n k :
  Z.of_nat n ≤ NCPUS → (0 < n)%nat → (∃ r, VirtIO_init rd vio_at (b_vio b0) = Ok r) → (length code ≤ 4096)%nat →
  (k ≤ length boot_code)%nat →
  ∃ b, breach n b0 b ∧ b_pc b 0%nat = k ∧ (∀ h, b_pc b (S h) = 0%nat) ∧ (∀ h, b_ran b h = false) ∧
    may_boot b = bool_decide (k = length boot_code) ∧ heap_low b.
Proof using Hon.
  intros Hn H0 Hdisk Hcode. induction k as [|k IH]; intros Hk.
  - exists b0. destruct (po_start _ Hon) as (Hm & Hp & Hr). split_and!; [apply breach_refl|apply Hp|done|apply Hr|exact Hm|].
    unfold heap_low. rewrite Hp. lia.
  - destruct IH as (b & Hr & Hpc & Hz & Hno & _ & Hl); [lia|].
    destruct (boot_statement_total b (binv_reach n b Hn Hr) Hl Hdisk Hcode) as (st & b1 & Hst & Hrun & Hpc1 & Hr1 & Hm1 & Hl1); [lia|].
    exists (advance 0 b1). split_and!; [|cbn; by rewrite upd_eq, Hpc1, Hpc|intros h; cbn; by rewrite upd_ne, Hpc1|intros h; cbn; by rewrite Hr1|
      cbn; by rewrite Hm1, Hpc|exact Hl1].
    eapply breach_step; [exact Hr|exact H0|]. unfold kmain_step. rewrite Hst. cbn. by rewrite Hrun.
Qed.

(** ** Boot never stops *)
Section progress.
Context (n : nat) (Hn : Z.of_nat n ≤ NCPUS).
Context (Hpresent : disk_present rd) (Hcode : (length code ≤ 4096)%nat).
Lemma disk_found : ∃ r, VirtIO_init rd vio_at (b_vio b0) = Ok r.
Proof using Hon Hpresent. destruct (po_disk _ Hon) as [at_ ->]. by apply init_total. Qed.

Lemma kmain_pc b h b' : kmain_step b h = Some (Ok b') → b_pc b' = upd (b_pc b) h (S (b_pc b h)).
Proof using.
  assert (∀ st b1, st ∈ boot_code ++ join_code → st h b = Ok b1 → b_pc b1 = b_pc b) as Hst.
  { intros st b1 Hin Hrun. unfold boot_code, join_code in Hin. cbn [app] in Hin. rewrite !elem_of_cons in Hin.
    destruct_or! Hin; [subst st..|by apply not_elem_of_nil in Hin];
      unfold do_uart_init, do_mem_init, do_virtio_init, do_plic_init, do_mem_hartinit, do_plic_hartinit, do_trap_hartinit,
        do_init_proc, do_may_boot in Hrun; inv_bind; by simplify_eq. }
  unfold kmain_step. destruct h as [|h].
  - destruct (boot_code !! b_pc b 0%nat) as [st|] eqn:E; [|done]. cbn. intros [= Hb]. apply bind_Ok in Hb as (b1 & Hrun & [= <-]).
    cbn. rewrite (Hst st b1); [done| |done]. apply elem_of_app. left. by eapply list_elem_of_lookup_2.
  - destruct (b_pc b (S h)) as [|k] eqn:Hk.
    + destruct (may_boot b); [|done]. intros [= <-]. cbn. by rewrite Hk.
    + destruct (join_code !! k) as [st|] eqn:E; [|done]. cbn. intros [= Hb]. apply bind_Ok in Hb as (b1 & Hrun & [= <-]).
      cbn. rewrite (Hst st b1), Hk; [done| |done]. apply elem_of_app. right. by eapply list_elem_of_lookup_2.
Qed.

Definition last_pc (h : nat) : nat := match h with O => length boot_code | S _ => S (length join_code) end.

Lemma pc_bound b : breach n b0 b → ∀ h, (b_pc b h ≤ last_pc h)%nat.
Proof using Hon.
  clear Hcode. induction 1 as [|b h b' _ IH Hh Hs|b h b' _ IH Hh Hs]; intros k.
  - destruct (po_start _ Hon) as (_ & -> & _). lia.
  - pose proof (kmain_pc b h b' Hs) as ->. destruct (decide (k = h)) as [->|]; [rewrite upd_eq|rewrite upd_ne by done; apply IH].
    unfold kmain_step in Hs. destruct h as [|h]; cbn [last_pc].
    + destruct (boot_code !! b_pc b 0%nat) eqn:E; [|done]. apply lookup_lt_Some in E. lia.
    + destruct (b_pc b (S h)) as [|j]; [lia|]. destruct (join_code !! j) eqn:E; [|done]. apply lookup_lt_Some in E. lia.
  - rewrite (ss_pc _ _ _ Hs). apply IH.
Qed.

Lemma heap_low_reach b : breach n b0 b → heap_low b.
Proof using Hon Hn Hpresent Hcode.
  induction 1 as [|b h b' Hr IH Hh Hs|b h b' Hr IH Hh Hs].
  - unfold heap_low. destruct (po_start _ Hon) as (_ & -> & _). lia.
  - pose proof (binv_reach n b Hn Hr) as Hi. destruct h as [|h].
    + destruct (boot_code !! b_pc b 0%nat) as [st|] eqn:E; unfold kmain_step in Hs; rewrite E in Hs; [|done].
      destruct (boot_statement_total b Hi IH disk_found Hcode) as (st' & b1 & Hst & Hrun & _ & _ & _ & Hl); [by apply lookup_lt_Some in E|].
      rewrite E in Hst. injection Hst as <-. cbn in Hs. rewrite Hrun in Hs. by injection Hs as <-.
    + unfold heap_low. rewrite (kmain_pc b (S h) b' Hs), upd_ne by done.
      destruct (decide (b_pc b 0 < length boot_code)%nat) as [Hlt|Hge]; [|cbn in Hge; lia].
      destruct (others_wait b Hi Hlt) as (Hmay & Hz & _). unfold kmain_step in Hs. by rewrite Hz, Hmay in Hs.
  - unfold heap_low. rewrite (ss_pc _ _ _ Hs). pose proof (binv_reach n b Hn Hr) as Hi.
    assert (in_scheduler b 0) as H0.
    { destruct h as [|h]; [apply Hs|]. apply (bi_may _ _ Hi), (bi_wait _ _ Hi h). pose proof (ss_in _ _ _ Hs) as Hin.
      unfold in_scheduler in Hin. lia. }
    unfold in_scheduler in H0. cbn in H0. lia.
Qed.

(** C23: on a machine with the disk the driver expects and a first program of at most one
    page, no statement of kmain stops the kernel: a hart that is not in the scheduler
    yet, hart 0 at any time and another once MAY_BOOT is set, can take its next
    statement, whatever harts already in the scheduler do, and MAY_BOOT is set when
    hart 0 enters the scheduler. *)
Theorem boot_never_stops b h :
  breach n b0 b → (h < n)%nat → ¬ in_scheduler b h → h = 0%nat ∨ may_boot b = true →
  ∃ b', kmain_step b h = Some (Ok b') ∧ b_pc b' h = S (b_pc b h) ∧
    (h = 0%nat → in_scheduler b' 0 → may_boot b' = true).
Proof using Hon Hn Hpresent Hcode.
  intros Hr Hh Hnot Hwait. pose proof (binv_reach n b Hn Hr) as Hi. pose proof (pc_bound b Hr h) as Hle.
  assert (b_pc b h < last_pc h)%nat as Hlt by (unfold in_scheduler in Hnot; unfold last_pc in *; destruct h; lia).
  enough (∃ b', kmain_step b h = Some (Ok b') ∧ (h = 0%nat → in_scheduler b' 0 → may_boot b' = true)) as (b' & Hs & Hm).
  { exists b'. split_and!; [done| |done]. by rewrite (kmain_pc b h b' Hs), upd_eq. }
  unfold kmain_step. destruct h as [|h]; cbn [last_pc] in Hlt.
  - destruct (boot_statement_total b Hi (heap_low_reach b Hr) disk_found Hcode Hlt) as (st & b1 & Hst & Hrun & Hpc & _ & Hmay & _).
    exists (advance 0 b1). rewrite Hst. cbn [fmap option_fmap option_map]. rewrite Hrun. split; [done|]. intros _ Hin.
    unfold in_scheduler in Hin. cbn in Hin. rewrite upd_eq, Hpc in Hin. cbn. rewrite Hmay. by apply bool_decide_eq_true.
  - destruct Hwait as [?|Hmay]; [done|]. destruct (b_pc b (S h)) as [|k] eqn:Hk.
    + rewrite Hmay. by eexists.
    + destruct (mem_hartinit_total) as [x Hx].
      destruct (plic_hartinit_writes (Z.of_nat (S h)) (b_plic b)) as (d & Hd & _); [lia|].
      destruct k as [|[|[|k]]]; [| | |cbn in Hlt; lia]; cbn [join_code lookup list_lookup fmap option_fmap option_map].
      * unfold do_mem_hartinit. rewrite Hx. by eexists.
      * by eexists.
      * unfold do_plic_hartinit. rewrite Hd. by eexists.
Qed.
End progress.

(** A second hart joins. *)
Lemma join_reaches n b :
  (1 < n)%nat → breach n b0 b → may_boot b = true → b_pc b 1%nat = 0%nat →
  ∃ b', breach n b0 b' ∧ in_scheduler b' 1 ∧ b_ran b' = b_ran b.
Proof using Hon.
  intros Hn Hr Hmay Hpc. destruct mem_hartinit_total as [x Hx].
  assert (Hstep : ∀ b1 k st b2, breach n b0 b1 → b_pc b1 1%nat = S k → join_code !! k = Some st → st 1%nat b1 = Ok b2 →
    breach n b0 (advance 1 b2)).
  { intros b1 k st b2 H1 Hp Hst Hrun. eapply breach_step; [exact H1|exact Hn|]. unfold kmain_step. rewrite Hp, Hst. cbn. by rewrite Hrun. }
  assert (breach n b0 (advance 1 b)) as R1.
  { eapply breach_step; [exact Hr|exact Hn|]. unfold kmain_step. by rewrite Hpc, Hmay. }
  assert (b_pc (advance 1 b) 1%nat = 1%nat) as P1 by (cbn; by rewrite upd_eq, Hpc).
  pose proof (Hstep _ 0%nat _ (with_csr 1 (λ c, set_satp c x) (advance 1 b)) R1 P1 eq_refl) as R2.
  unfold do_mem_hartinit in R2. rewrite Hx in R2. specialize (R2 eq_refl). set (b2 := advance 1 _) in R2.
  assert (b_pc b2 1%nat = 2%nat) as P2 by (unfold b2; cbn; by rewrite !upd_eq, Hpc).
  pose proof (Hstep _ 1%nat _ _ R2 P2 eq_refl eq_refl) as R3. set (b3 := advance 1 _) in R3.
  assert (b_pc b3 1%nat = 3%nat) as P3 by (unfold b3, b2; cbn; by rewrite !upd_eq, Hpc).
  destruct (plic_hartinit_writes 1 (b_plic b3)) as (d & Hd & _); [done|].
  pose proof (Hstep _ 2%nat _ (with_plic d b3) R3 P3 eq_refl) as R4. unfold do_plic_hartinit in R4.
  change (Z.of_nat 1) with 1 in R4. rewrite Hd in R4. eexists. split; [exact (R4 eq_refl)|].
  split; [|done]. unfold in_scheduler. cbn [advance b_pc with_plic]. by rewrite upd_eq, P3.
Qed.
End kmain.

(** [kinit] leaves the hart to [kmain] in supervisor mode, with its number in [tp],
    paging off and the timer armed. *)
Lemma kinit_enters id km at_ tv sc r (d : RegFile) pc pv c sc' r' d' :
  kinit id km at_ tv sc r d = Ok (pc, pv, c, sc', r', d') →
  pc = km ∧ pv = PSupervisor ∧ m_satp c = 0 ∧ tp c = id ∧ mtvec r' = tv ∧ mie_mtimer r' = true.
Proof.
  unfold kinit. intros Hk. apply bind_Ok in Hk as ([[sc1 r1] d1] & Ht & [= <- <- <- <- <- <-]).
  unfold timer_init in Ht. cbn [mmio_read RegFile_mmio] in Ht. inv_bind. simplify_eq. done.
Qed.

(** ** Two harts in the scheduler *)
Definition on0 : boot (D := Chip) :=
  mkBoot chip0 (mkRegFile ∅) [] (VirtIO_new 0x80309000) (KMem Allocator_new {[kpt := FTable Table_new]})
    PROCS_POOL_new (λ _, csr0) false (λ _, 0%nat) (λ _, false).

Lemma on0_power : power_on link0 kpt on0.
Proof.
  split; [split; [apply link0_ld|split; vm_compute; done]|apply length_replicate| |by eexists|done|done].
  split_and!; [split; [unfold kpt; lia|reflexivity]|vm_compute; reflexivity|apply lookup_singleton_eq].
Qed.

Lemma boot_ready_witness :
  ∃ b, breach ts0 link0 0x80000500 kpt 0x80300000 rd0 [] 3 on0 b ∧
    in_scheduler ts0 link0 0x80000500 kpt 0x80300000 rd0 [] b 0 ∧
    in_scheduler ts0 link0 0x80000500 kpt 0x80300000 rd0 [] b 1 ∧
    c_stvec (b_csr b 1%nat) = kernelvec ts0 ∧ uses_table kpt (b_csr b 1%nat) ∧
    vinv (b_vio b) ∅ ∧ first_process link0 [] (b_mem b) (b_pool b).
Proof.
  destruct (boot_reaches ts0 link0 0x80000500 kpt 0x80300000 rd0 [] on0 on0_power 3 9) as (b & Hr & Hpc & Hz & Hno & Hmay & _);
    [done|lia|destruct init0_run as [w Hw]; eexists; exact Hw|cbn; lia|cbn; lia|].
  destruct (join_reaches ts0 link0 0x80000500 kpt 0x80300000 rd0 [] on0 on0_power 3 b) as (b' & Hr' & H1 & Hno');
    [lia|exact Hr|exact Hmay|apply Hz|].
  assert (∀ k, b_ran b' k = false) as Hno1 by (intros k; rewrite Hno'; apply Hno).
  destruct (boot_ready ts0 link0 0x80000500 kpt 0x80300000 rd0 [] on0 on0_power 3 b') as (R1 & R2 & R3); [done|exact Hr'|].
  destruct (R3 1%nat ltac:(lia) H1) as (_ & _ & _ & Hv & Hb). destruct (Hb Hno1) as [Hvio Hfirst].
  exists b'. split_and!; [exact Hr'|apply (R1 1%nat); [done|rewrite H1; done]|exact H1|apply Hv, Hno1| |exact Hvio|exact Hfirst].
  apply (R2 1%nat (Hno1 1%nat)). rewrite H1. cbn. lia.
Defined.

(** At [init_proc] *)
Lemma boot_never_stops_witness :
  ∃ b b', breach ts0 link0 0x80000500 kpt 0x80300000 rd0 [] 3 on0 b ∧ b_pc b 0%nat = 7%nat ∧
    kmain_step ts0 link0 0x80000500 kpt 0x80300000 rd0 [] b 0 = Some (Ok b') ∧ b_pc b' 0%nat = 8%nat.
Proof.
  assert (disk_present rd0) as Hd by (split; vm_compute; done).
  destruct (boot_reaches ts0 link0 0x80000500 kpt 0x80300000 rd0 [] on0 on0_power 3 7) as (b & Hr & Hpc & _);
    [done|lia|by apply init_total|cbn; lia|cbn; lia|].
  destruct (boot_never_stops ts0 link0 0x80000500 kpt 0x80300000 rd0 [] on0 on0_power 3 ltac:(done) Hd ltac:(cbn; lia) b 0)
    as (b' & H1 & H2 & _); [exact Hr|lia|unfold in_scheduler; rewrite Hpc; done|by left|].
  exists b, b'. split_and!; [exact Hr|exact Hpc|exact H1|by rewrite H2, Hpc].
Defined.
